(* ===== verification/_CoqProject ===== *)
-Q . S2P
Prelude.v
Effects.v
GoFloat.v
GoString.v
HostPort.v
GoNumber.v
GoFormat.v
GoFlag.v
Partition.v
Registry.v
Ecs.v
Aoi.v
Replic.v
CellSim.v
CellSvc.v
CellInv.v
CellRun.v
Handoff.v
CellOps.v
Transfer.v
RegistrySvc.v
RegistryLogic.v
RegistryProps.v
MergeProps.v
LoadPolicy.v
MergePolicy.v
Probe.v
Workflow.v
MergeWorkflow.v
MergeSafety.v
SplitWorkflow.v
SplitProps.v
Db.v
DbProps.v
Http.v
Web3.v
Gateway.v
GatewayHttp.v
Presence.v
GatewayProps.v
Consul.v
CatalogRefine.v
Controller.v
CellNode.v
Config.v
GatewayMain.v
GatewayAccess.v
Bus.v
GridConfig.v
Mmoctl.v
Startup.v
Observe.v
Smoke.v
