(* ===== verification/Prelude.v ===== *)
(** A verification of the mmo backend: a game world partitioned into a tree of rectangular cells, each
    run by a cell server, coordinated by a grid manager and entered through a gateway.

    THE PROGRAM. A cell ([cmd/cell-node]) holds an entity world stepped at a fixed rate
    ([internal/ecs], [internal/cellsim]), indexes it in a spatial grid ([internal/ecs/aoi]), and serves
    players over gRPC ([internal/grpc/cellsvc]): join, leave, input, a stream of snapshots and deltas
    ([internal/replic]), persistence of its NPCs ([internal/cellsim/snapshot]), and the handoff of
    players to another cell. The catalog ([internal/registry], [internal/discovery]) names the cells and
    resolves a position to the deepest cell that contains it; [internal/partition] defines how a cell
    splits into four children and which four cells may merge. The grid manager ([cmd/grid-manager],
    [internal/grpc/registrysvc]) serves the catalog, forwards calls to cells, drives player handoffs, NPC
    handoffs and merges over the network, probes the cells, and runs the split and merge workflows. The
    gateway ([cmd/gateway]) gives out session tokens, serves the player's own data from PostgreSQL
    ([internal/db]), and attaches a WebSocket session to the cell of its player, which it follows from
    cell to cell. The cell controller ([cmd/cell-controller]) starts and removes the Kubernetes deployments
    of cells when a workflow asks for it. The web3 indexer ([cmd/web3-indexer]) takes in events of a chain.
    Operators use [cmd/mmoctl] and [cmd/migrate]; [src/scripts] holds clients that try a running system.

    THE FILES.
    - [Prelude]: error values and results, messages (a format string with its arguments), Go's machine
      integers, the order in which Go ranges over a map ([iter_order]), shared lemmas and tactics.
      [Effects]: computations on a state that may fail ([St]), with Go's [defer] and error handling, and
      how to reason about them ([steps_in]: what every run may change; [after]: what holds after a run).
    - [GoFloat]: float64 and float32 as IEEE 754 binary64 and binary32 ([SpecFloat]), as amd64 computes
      them without fused operations, and their order.
    - [GoString]: [strings.TrimSpace], [Split], [Join], [ToLower], decimal and hexadecimal numbers, on
      byte strings. [GoNumber]: [strconv.ParseFloat], [ParseInt] and [time.ParseDuration]. [GoFormat]:
      [strconv.FormatFloat] and the verbs of [fmt] for floats, with the law that what is printed is read as
      the same float. [GoFlag]: the package [flag].
    - [Partition]: [partition/split.go]. [Registry]: [registry/memory.go], [discovery/catalog.go]; the
      interface [discovery.Catalog] is the class [Catalog] with the laws [CatalogLaws], and the in-memory
      catalog is an instance of both. Clients (registry service, workflows, gateway) are proved against
      the laws.
    - [Ecs]: the world ([World], every component map), its operations, the systems, the game loop.
      [Aoi]: the grid. [Replic]: replication order, snapshots, deltas. [CellSim]: the runtime, [Encode]
      and [Decode].
    - [CellSvc]: the gRPC service of a cell. [Server] is the Go struct; each handler is one function
      from the server to the server and its answer, composed of the critical sections of the Go code
      ([join_check], [join_spawn], [register_player], ...) so that interleavings of sections can be
      stated. One iteration of the stream loop is [subscribe_step].
    - [CellInv]: the invariant [server_wf] of a cell server and that every handler, tick and stream
      iteration preserves it ([server_step]). [Handoff]: the three-call player handoff between two
      cells, its retries. [CellOps]: NPC export and import, what a subscriber has been told, and the
      interleavings that go wrong. [Transfer]: the joint invariant of the two cells of a handoff. [CellRun]: the ticker that drives a cell.
    - [RegistrySvc]: the registry service as computations [M C] on a [Cluster] (catalog, merge lock, cell
      servers by endpoint, Redis, published events), over an environment [Env] whose network may deliver
      a call, lose the request or lose the reply, call by call; [remote] and [call_registry] are the calls
      of its clients. [RegistryLogic]: the frame of every operation. [RegistryProps], [MergeProps]: its
      theorems.
    - [Probe]: the pings of the grid manager, the gauges they set, the loop of rounds. [LoadPolicy]:
      thresholds, breach and merge policy, and the guards of the workflows. [MergePolicy]: the history of
      the merge policy over its rounds. [GridConfig]: its settings.
    - [Workflow]: what the two workflows share ([Fleet]: the cluster with the published events, the
      requests to the controller and the stored states; pauses, in which others may act; [retry]: the
      loop of attempts). [MergeWorkflow] ([merge_workflow.go]) and [SplitWorkflow] ([split_workflow.go])
      are the runs; [MergeSafety] and [SplitProps] their theorems.
    - [Db]: [internal/db/db.go]. [Tables] are the tables of the schema, a [Statement] is a function on
      them, [exec], [tx_exec] and [transaction] run statements over a connection that may lose each round
      trip. [DbProps]: its theorems.
    - [Http]: requests, answers, and handlers that answer early. [Web3]: the ingest endpoint.
    - [Gateway]: the session of [cmd/gateway/main.go] ([gatewaySession]), its searches, probes and
      switches, one message of the client ([ws_message]). [GatewayHttp]: the HTTP handlers, the start and
      the end of a session. [GatewayMain]: settings, the connection to the database, the limiter of each
      host, the routes ([serve]), the frames written to a WebSocket, the gauge of attached players.
      [GatewayAccess]: which rows a request may touch.
    - [HostPort]: [net.SplitHostPort], [JoinHostPort], [strconv.ParseInt]. [Config]: [internal/config] and
      [internal/normalize]. [Consul]: [discovery/consul.go] and [consul_map.go] over an agent
      ([ConsulAgent], [AgentLaws]). [CatalogRefine]: the calls of the catalog at Consul and in memory, side
      by side. [Controller]: [cmd/cell-controller] over a Kubernetes API ([K8s],
      [K8sLaws]). [CellNode]: the process of a cell, [cmd/cell-node] - its command line, start, restore,
      registration and stop; it joins the controller, the cell and the catalog.
    - [Presence]: the cells as a session acts on them: at which cells its player is registered
      ([placed]). [GatewayProps]: what a session guarantees.
    - [Bus]: [internal/bus/nats] over the NATS library. [Mmoctl]: every command of [cmd/mmoctl].
      [Startup]: the start of the grid manager, the controller and the indexer, the messages the controller
      subscribes to, the routes of the indexer. [Observe]: the loggers, the export of traces, the counters
      of the registry, of a cell and of the gateway's sessions. [Smoke]: the clients of [src/scripts], run against the models of the
      gateway and the indexer.

    THE THEOREMS.
    - Geometry: each point of a cell lies in the child of its quadrant; a merge group is accepted exactly
      when it tiles the parent; split and merge are inverse; the path ids round trip.
    - Catalog: registration, lookup, and resolution to a most specific cell, for every map order; after a
      split the children answer. The catalog at Consul answers as the one in memory does, for cells whose
      ids are not the service ids of others.
    - World: fresh entity ids, movement, regeneration, collisions and trigger events as functions of the
      world that do not depend on the map order; the grid equals a rebuild and answers radius queries
      exactly.
    - Persistence and replication: [Decode] then [Encode] is the identity, what is persisted, what a
      snapshot holds, the replication order.
    - Cell service: the invariant of every server reached by calls that do not overlap; a handoff moves a
      player with its state; retried calls change nothing; a subscriber's set follows its view. The ticker
      of a rate a cell may be told has the nanoseconds of that rate and keeps them ([interval_of_rate],
      [run_clock]).
    - Registry service: whatever the network loses, a player is never lost in a handoff and a retry with
      the same token completes it; a merge that succeeds was of a valid group and collects its NPCs; it
      releases its lock and its drains on every path; parents are merged one at a time.
    - Policies: thresholds, the breach policy as a function of the history, workflow slots, merge groups;
      when merges are announced and run, over all rounds.
    - Workflows: a merge run takes cells out of service only after the parent holds an entity for each id
      of their NPCs, whatever is lost; how it ends, by the results of its attempts; what a successful
      split attempt has done.
    - Store: transfers are all or nothing, quest rewards, gold and items, are given once, the constraints
      of the schema hold, a batch of chain events is stored exactly once.
    - Gateway: while nothing is lost the player of a session is in one cell at a time, and the session
      follows it.
    - Access: a request touches the rows of its player only, and none without a token it needs. What the
      client of a WebSocket has on screen is what is in view of its player in the cell.
    - Probes and settings: every gauge tells the last answer of the endpoint that the catalog lists for a
      cell; whatever the environment holds, the settings are in their ranges, and the limits of the merge
      agree where they can.
    - Tools: the queries of [mmoctl] change nothing, its plan of a split is the cell's, what it prints of
      the environment hides the secrets. The clients of [src/scripts] pass on a system that works: that of
      the HTTP API whatever the database loses, that of the indexer with the right key and secret;
      [ws-smoke] does not ([ws_smoke_stops_at_first_frame]).
    - Deployment: a cell that a workflow asks for comes up under its id, level, area and address in
      Consul; what the controller announces is so and stays so, down to the eighth level, to which names
      are labels and distinct; a restarted cell has its NPCs back; taking a cell out of Consul removes all
      its instances and keeps the services of other cells with other ids, and a rollout keeps the cell;
      the Consul entry round trips; a NATS URL keeps its credentials.
    Examples ([resolve_tie_on_cut], [second_subscriber_misses_change], [accept_after_leave_is_stale],
    [merge_loses_colliding_npcs], [state_outlives_the_cell], [split_npcs], [split_with_player_fails],
    [probe_leaves_ghost], [deep_names_collide], [lost_read_starts_empty], [removal_takes_other_service],
    [encoded_twice], [position_asked_always], [untrimmed_subject], [no_policy_by_default], [merges_twice],
    [absence_ends_cooldown], [service_id_is_a_cell], [doubled_rate_halves_speed], [pause_is_not_seen],
    [redis_cursor_goes_back])
    and [joins_interleaved_orphan] record behaviour that the code's comments or
    intent do not promise.

    CONVENTIONS AND BOUNDS. Every loop is structural on a list, a map or a string, and the endless loops
    (ticker, stream, probe, the messages of a session) are modelled by one iteration, quantified over in
    the invariants. The loops that wait or retry run on a number the code itself bounds: the attempts of
    [retry] on [maxRetries], the polls of [wait_ready] on [poll_rounds], which is as many as fit in the
    time limit. Entity ids and ticks are taken modulo 2^64, counts sent on the wire modulo 2^32.
    [nextID] wraps as the code lets it: theorems that need a free id say so ([room_for_entity],
    [import_ids_ok], the calls counted in [cell_ok]). Times are integers of nanoseconds, [None] is the
    zero time. Timeouts, cancelled contexts and transport errors are outcomes of the network; messages
    that gRPC would refuse to encode are losses too. A call of the registry service has ended when its
    caller goes on. A nil [Store] that the Go code dereferences is an error value in [RegistrySvc].
    Transactions of the store run one after another, since each locks the rows it works on; rows come in
    any order.

    PARAMETERS. The protojson and protobuf codecs, [encoding/json] on the bodies of requests, the JWT
    library, HMAC, [url.Parse], the Consul agent, the Kubernetes API, the NATS library and JetStream, pgxpool,
    [database/sql] and goose ([DbLibrary]), the rate limiters, the OpenTelemetry SDK, [math.Sin], [math.Cos],
    [math.Hypot], the clock, the map orders, the reads of files and of Redis by [mmoctl], the network and the
    gRPC client constructor are arguments. Theorems about persisted text assume that the codec gives back
    what it wrote ([json_codec]). PostgreSQL is modelled as far as the statements of the file and the
    constraints of the migrations use it.

    NOT MODELLED. The log lines and the calls of the counters inside the handlers, histograms of latencies
    and the Prometheus handlers, since nothing depends on them; the contents of the migrations, beyond the
    constraints they leave; the declarations of the Prometheus collectors; listening, TLS and timeouts of
    the servers and clients; generated code. *)

From Stdlib Require Import ZArith Lia.
From stdpp Require Export base tactics gmap fin_maps strings numbers list.

#[global] Set Default Proof Using "Type".

(** * Errors and messages

    A Go [error] or a [Message] built by [fmt.Sprintf]/[fmt.Errorf] is kept as its format string
    and its arguments; [err.Error()] is [err_text]. A gRPC status error carries its code. *)
Inductive arg :=
  | AStr (s : string)
  | AInt (z : Z)
  | ATxt (t : text)
with text :=
  | Fmt (f : string) (args : list arg).

(** A constant message. *)
Definition lit (s : string) : text := Fmt s [].

(** The gRPC status codes the services return ([google.golang.org/grpc/codes]). *)
Inductive code :=
  | InvalidArgument | NotFound | FailedPrecondition | Unavailable | Internal.

#[export] Instance code_eq_dec : EqDecision code.
Proof. solve_decision. Defined.

Record error := mkError { err_code : option code; err_text : text }.

(** [fmt.Errorf] and [status.Errorf]. *)
Definition errorf (f : string) (args : list arg) : error := mkError None (Fmt f args).
Definition statusf (c : code) (f : string) (args : list arg) : error := mkError (Some c) (Fmt f args).

Definition code_name (c : code) : string :=
  match c with
  | InvalidArgument => "InvalidArgument"%string | NotFound => "NotFound"%string | FailedPrecondition => "FailedPrecondition"%string
  | Unavailable => "Unavailable"%string | Internal => "Internal"%string
  end.

(** [err.Error()]: a status error names its code. *)
Definition error_string (e : error) : text :=
  match err_code e with
  | Some c => Fmt "rpc error: code = %s desc = %s" [AStr (code_name c); ATxt (err_text e)]
  | None => err_text e
  end.

(** * Fallible computations: a Go [(T, error)] pair *)
Inductive result (A : Type) :=
  | Ok (a : A)
  | Err (e : error).
Arguments Ok {A} _.
Arguments Err {A} _.

#[export] Instance result_ret : MRet result := fun _ a => Ok a.
#[export] Instance result_bind : MBind result := fun _ _ f r =>
  match r with Ok a => f a | Err e => Err e end.

Definition is_ok {A} (r : result A) : bool := match r with Ok _ => true | Err _ => false end.

(** A guard: [if c { return err }]. *)
Definition fail_if (c : bool) (e : error) : result unit := if c then Err e else Ok tt.

Lemma bind_Ok {A B} (r : result A) (f : A -> result B) b :
  r ≫= f = Ok b <-> exists a, r = Ok a /\ f a = Ok b.
Proof. destruct r; cbn; naive_solver. Qed.

Lemma fail_if_Ok c e u : fail_if c e = Ok u <-> c = false.
Proof. destruct c, u; cbn; naive_solver. Qed.

(** * Go's map iteration order

    A [range] over a Go map visits the entries in an order the language leaves open. Every
    operation that ranges over a map takes the order as an argument: a function that permutes the
    list of entries. The theorems hold for all of them. *)
Record iter_order := mkOrder {
  visit :> forall A : Type, list A -> list A;
  visit_perm : forall A (l : list A), visit A l ≡ₚ l
}.

Definition order_id : iter_order := mkOrder (fun _ l => l) (fun _ l => Permutation_refl l).
Definition order_rev : iter_order :=
  mkOrder (fun _ l => reverse l) (fun _ l => reverse_Permutation l).

Lemma elem_of_visit (o : iter_order) {A} (x : A) (l : list A) : x ∈ o A l <-> x ∈ l.
Proof. by rewrite (visit_perm o A l). Qed.

Lemma NoDup_visit (o : iter_order) {A} (l : list A) : NoDup (o A l) <-> NoDup l.
Proof. by rewrite (visit_perm o A l). Qed.

Lemma length_visit (o : iter_order) {A} (l : list A) : length (o A l) = length l.
Proof. by rewrite (visit_perm o A l). Qed.

Lemma bool_decide_eq_iff (P Q : Prop) `{Decision P, Decision Q} :
  bool_decide P = bool_decide Q -> (P <-> Q).
Proof. destruct (bool_decide_reflect P), (bool_decide_reflect Q); done. Qed.

Lemma Forall2_perm_l {A B} (P : A -> B -> Prop) l l' k :
  l ≡ₚ l' -> Forall2 P l k -> exists k', k ≡ₚ k' /\ Forall2 P l' k'.
Proof.
  intros Hp. revert k. induction Hp as [|x l l' Hp IH|x y l|l1 l2 l3 H1 IH1 H2 IH2]; intros k Hk.
  - by exists k.
  - inversion Hk as [|? z ? k0 Hx Hl]; subst. destruct (IH k0 Hl) as (k' & Hk1 & ?).
    exists (z :: k'). split; [by constructor|by constructor].
  - inversion Hk as [|? z ? k0 Hx Hl]; subst. inversion Hl as [|? w ? k1 Hy Hl']; subst.
    exists (w :: z :: k1). split; [apply Permutation_swap|by repeat constructor].
  - destruct (IH1 k Hk) as (k' & Hk1 & Hk2). destruct (IH2 k' Hk2) as (k'' & ? & ?).
    exists k''. split; [by etrans|done].
Qed.

(** * Machine integers *)

(** Reduction of an integer to a signed 32-bit value, as Go's [int32] conversion does. *)
Definition int32 (z : Z) : Z := (z + 2 ^ 31) mod 2 ^ 32 - 2 ^ 31.

(** Reduction of a natural number to an unsigned 64-bit value. *)
Definition uint64 (n : N) : N := (n mod 2 ^ 64)%N.

(** Reduction to a signed 64-bit value ([int64], [int], [time.Duration]). *)
Definition int64 (z : Z) : Z := (z + 2 ^ 63) mod 2 ^ 64 - 2 ^ 63.

Lemma int64_id z : (- 2 ^ 63 <= z < 2 ^ 63)%Z -> int64 z = z.
Proof. intros. unfold int64. rewrite Z.mod_small; lia. Qed.

Lemma int32_id z : (- 2 ^ 31 <= z < 2 ^ 31)%Z -> int32 z = z.
Proof. intros. unfold int32. rewrite Z.mod_small; lia. Qed.

Lemma int32_range z : (- 2 ^ 31 <= int32 z < 2 ^ 31)%Z.
Proof.
  unfold int32. pose proof (Z.mod_pos_bound (z + 2 ^ 31) (2 ^ 32)) as Hb.
  change (2 ^ 32)%Z with 4294967296%Z in *. change (2 ^ 31)%Z with 2147483648%Z in *. lia.
Qed.

Lemma uint64_id n : (n < 2 ^ 64)%N -> uint64 n = n.
Proof. intros. unfold uint64. by apply N.mod_small. Qed.

Lemma uint64_lt n : (uint64 n < 2 ^ 64)%N.
Proof. unfold uint64. apply N.mod_lt. done. Qed.

(** * Automation *)
Create HintDb mmo.
Create Rewrite HintDb mmo.
#[export] Hint Resolve int32_range uint64_lt : mmo.
#[export] Hint Rewrite @elem_of_visit @NoDup_visit @length_visit : mmo.

(** Splits a [bind]/[fail_if] chain that ends in [Ok] into its steps. *)
Ltac inv_ok :=
  repeat match goal with
  | H : mbind _ _ = Ok _ |- _ => apply bind_Ok in H as (? & ? & ?)
  | H : fail_if _ _ = Ok _ |- _ => apply fail_if_Ok in H
  | H : mret _ = Ok _ |- _ => unfold mret, result_ret in H
  | H : Ok _ = Ok _ |- _ => injection H as H
  | H : Err _ = Ok _ |- _ => discriminate H
  end; subst.

(** Destructs the innermost scrutinee of a [match] in the goal or a hypothesis. *)
Ltac break_match :=
  match goal with
  | |- context [match ?x with _ => _ end] =>
      lazymatch x with context [match _ with _ => _ end] => fail | _ => destruct x eqn:? end
  | H : context [match ?x with _ => _ end] |- _ =>
      lazymatch x with context [match _ with _ => _ end] => fail | _ => destruct x eqn:? end
  end.
