(* ===== verification/Effects.v ===== *)
(** Computations on a shared state that may fail, in the order in which the Go code runs them, with
    [defer] and error handlers, and how to reason about them: what a computation may change
    ([steps_in]), and what a run went through. *)
From S2P Require Import Prelude.

(** * Computations

    A computation on a state [S] that may fail. *)
Definition St (S A : Type) : Type := S -> result A * S.

#[export] Instance St_ret {S} : MRet (St S) := fun _ a s => (Ok a, s).
#[export] Instance St_bind {S} : MBind (St S) := fun _ _ f m s =>
  match m s with
  | (Ok a, s) => f a s
  | (Err e, s) => (Err e, s)
  end.

Definition throw {S A} (e : error) : St S A := fun s => (Err e, s).
Definition lift {S A} (r : result A) : St S A := fun s => (r, s).
Definition get {S} : St S S := fun s => (Ok s, s).
(** [if c { return err }] *)
Definition guard_fail {S} (c : bool) (e : error) : St S unit := fun s => (fail_if c e, s).
(** [_, _ = f()]: the result and the error are dropped. *)
Definition ignore {S A} (m : St S A) : St S unit := fun s => (Ok tt, snd (m s)).
(** [defer f()]: [f] runs when [m] returns, with or without an error. *)
Definition defer {S A} (f : St S unit) (m : St S A) : St S A := fun s =>
  let '(r, s) := m s in (r, snd (f s)).
(** [if err != nil { ...; return err' }] *)
Definition on_error {S A} (h : error -> St S A) (m : St S A) : St S A := fun s =>
  match m s with
  | (Ok a, s) => (Ok a, s)
  | (Err e, s) => h e s
  end.

(** [x, err := f()] where [err] is looked at. *)
Definition catch {S A} (m : St S A) : St S (result A) := fun s => let '(r, s) := m s in (Ok r, s).

Fixpoint for_each {S A} (f : A -> St S unit) (l : list A) : St S unit :=
  match l with
  | [] => mret tt
  | x :: l' => _ ← f x; for_each f l'
  end.

(** * What a computation changes *)

Section Steps.
Context {S : Type} (R : relation S) `{!PreOrder R}.

(** Every run of [m], failed or not, is a step of [R]. *)
Definition steps_in {A} (m : St S A) : Prop := forall s, R s (snd (m s)).

Lemma steps_pure {A} (m : St S A) : (forall s, snd (m s) = s) -> steps_in m.
Proof using Type*. intros H s. by rewrite H. Qed.

Lemma steps_ret {A} (a : A) : steps_in (mret a).
Proof using Type*. by apply steps_pure. Qed.

Lemma steps_throw {A} e : steps_in (throw (A:=A) e).
Proof using Type*. by apply steps_pure. Qed.

Lemma steps_lift {A} (r : result A) : steps_in (lift r).
Proof using Type*. by apply steps_pure. Qed.

Lemma steps_guard b e : steps_in (guard_fail b e).
Proof using Type*. by apply steps_pure. Qed.

Lemma steps_bind {A B} (m : St S A) (f : A -> St S B) :
  steps_in m -> (forall a, steps_in (f a)) -> steps_in (m ≫= f).
Proof using Type*.
  intros Hm Hf s. specialize (Hm s). unfold mbind, St_bind. destruct (m s) as [[a|e] s1]; cbn in *; [|done].
  etrans; [done|apply Hf].
Qed.

Lemma steps_ignore {A} (m : St S A) : steps_in m -> steps_in (ignore m).
Proof using Type*. intros Hm s. apply Hm. Qed.

Lemma steps_defer {A} f (m : St S A) : steps_in f -> steps_in m -> steps_in (defer f m).
Proof using Type*.
  intros Hf Hm s. specialize (Hm s). unfold defer. destruct (m s) as [r s1]; cbn in *. etrans; [done|apply Hf].
Qed.

Lemma steps_on_error {A} h (m : St S A) : (forall e, steps_in (h e)) -> steps_in m -> steps_in (on_error h m).
Proof using Type*.
  intros Hh Hm s. specialize (Hm s). unfold on_error. destruct (m s) as [[a|e] s1]; cbn in *; [done|].
  etrans; [done|apply Hh].
Qed.

Lemma steps_catch {A} (m : St S A) : steps_in m -> steps_in (catch m).
Proof using Type*. intros Hm s. specialize (Hm s). unfold catch. by destruct (m s). Qed.

Lemma steps_for_each {A} (f : A -> St S unit) l : (forall x, steps_in (f x)) -> steps_in (for_each f l).
Proof using Type*.
  intros Hf. induction l as [|x l IH]; [apply steps_ret|]. apply steps_bind; [apply Hf|by intros _].
Qed.
End Steps.

(** Walks through a computation up to its calls. *)
Ltac steps :=
  repeat lazymatch goal with
  | |- steps_in _ (match ?x with _ => _ end) => destruct x
  | |- steps_in _ (mbind _ _) => apply steps_bind; [apply _| |intros ?]
  | |- steps_in _ (mret _) => apply steps_ret; apply _
  | |- steps_in _ (throw _) => apply steps_throw; apply _
  | |- steps_in _ (lift _) => apply steps_lift; apply _
  | |- steps_in _ (guard_fail _ _) => apply steps_guard; apply _
  | |- steps_in _ (on_error _ _) => apply steps_on_error; [apply _|intros ?|]
  | |- steps_in _ (catch _) => apply steps_catch; [apply _|]
  | |- steps_in _ (ignore _) => apply steps_ignore; [apply _|]
  | |- steps_in _ (for_each _ _) => apply steps_for_each; [apply _|intros ?]
  | |- steps_in _ (defer _ _) => apply steps_defer; [apply _| |]
  end.

(** * Running a computation step by step *)

Lemma run_bind {S A B} (m : St S A) (f : A -> St S B) s a s' : m s = (Ok a, s') -> (m ≫= f) s = f a s'.
Proof. unfold mbind, St_bind. by intros ->. Qed.

Lemma run_bind_err {S A B} (m : St S A) (f : A -> St S B) s e s' : m s = (Err e, s') -> (m ≫= f) s = (Err e, s').
Proof. unfold mbind, St_bind. by intros ->. Qed.

Lemma run_guard {S B} b e (f : unit -> St S B) s : b = false -> (guard_fail b e ≫= f) s = f tt s.
Proof. by intros ->. Qed.

(** What a successful run went through. *)
Lemma bind_inv {S A B} (m : St S A) (f : A -> St S B) s b s' :
  (m ≫= f) s = (Ok b, s') -> exists a s1, m s = (Ok a, s1) /\ f a s1 = (Ok b, s').
Proof. unfold mbind, St_bind. destruct (m s) as [[a|e] s1]; [|done]. eauto. Qed.

Lemma guard_inv {S} b e (s : S) u s' : guard_fail b e s = (Ok u, s') -> b = false /\ s' = s.
Proof. unfold guard_fail. destruct b; [done|]. by intros [= _ <-]. Qed.

Lemma on_error_inv {S A} h (m : St S A) s a s' :
  (forall e s, exists e', fst (h e s) = Err e') -> on_error h m s = (Ok a, s') -> m s = (Ok a, s').
Proof.
  unfold on_error. intros Hh. destruct (m s) as [[x|e] s1]; [done|]. destruct (Hh e s1) as [e' He].
  destruct (h e s1) as [r s2]. cbn in He. by subst r.
Qed.

(** * What holds after a run, whether it failed or not *)

Definition after {S A} (m : St S A) (s : S) (Q : result A -> S -> Prop) : Prop := Q (fst (m s)) (snd (m s)).

Lemma after_conseq {S A} (m : St S A) s (Q Q' : result A -> S -> Prop) :
  after m s Q -> (forall r s', Q r s' -> Q' r s') -> after m s Q'.
Proof. unfold after. eauto. Qed.

Lemma after_bind {S A B} (m : St S A) (f : A -> St S B) s (Q : result B -> S -> Prop) :
  after m s (fun r s' => match r with Ok a => after (f a) s' Q | Err e => Q (Err e) s' end) -> after (m ≫= f) s Q.
Proof. unfold after, mbind, St_bind. by destruct (m s) as [[a|e] s']. Qed.

Lemma after_defer {S A} f (m : St S A) s (Q : result A -> S -> Prop) :
  after m s (fun r s' => Q r (snd (f s'))) -> after (defer f m) s Q.
Proof. unfold after, defer. by destruct (m s) as [r s']. Qed.

Lemma after_on_error {S A} h (m : St S A) s (Q : result A -> S -> Prop) :
  after m s (fun r s' => match r with Ok a => Q (Ok a) s' | Err e => after (h e) s' Q end) -> after (on_error h m) s Q.
Proof. unfold after, on_error. by destruct (m s) as [[a|e] s']. Qed.

Lemma after_catch {S A} (m : St S A) s (Q : result (result A) -> S -> Prop) :
  after m s (fun r s' => Q (Ok r) s') -> after (catch m) s Q.
Proof. unfold after, catch. by destruct (m s). Qed.

(** A frame fact about a computation, as a postcondition. *)
Lemma after_steps {S A} (R : relation S) (m : St S A) s : steps_in R m -> after m s (fun _ s' => R s s').
Proof. intros H. apply H. Qed.

Lemma after_frame {S A B} (R : relation S) (m : St S A) (k : A -> St S B) s (Q : result B -> S -> Prop) :
  steps_in R m -> (forall e s', R s s' -> Q (Err e) s') -> (forall a s', R s s' -> after (k a) s' Q) -> after (m ≫= k) s Q.
Proof. intros Hm He Hk. apply after_bind. eapply after_conseq; [by apply after_steps|]. intros [a|e]; eauto. Qed.

Lemma after_eq {S A} (m : St S A) s r s' Q : after m s Q -> m s = (r, s') -> Q r s'.
Proof. unfold after. intros H E. by rewrite E in H. Qed.

(** * Calls over a network *)

(** What happens to a remote call: it is served and answered, it never arrives, or it is served and
    the answer is lost (a timeout, a broken connection, a cancelled context). *)
Inductive Outcome := Delivered | LostRequest (e : error) | LostReply (e : error).
