(* ===== verification/GoFloat.v ===== *)
(** Go's [float64] and [float32]: IEEE 754 binary64/binary32 values with round-to-nearest-even,
    from the Standard Library's [SpecFloat]. Comparisons are reduced to a lexicographic order on
    integer keys, on which [lia] decides. Products and sums are rounded separately, as Go does on
    amd64 (no fused multiply-add). *)
From Stdlib Require Import ZArith Lia.
From Stdlib.Floats Require Import SpecFloat.
From S2P Require Import Prelude.
Local Open Scope Z_scope.

Declare Scope f64_scope.
Delimit Scope f64_scope with f64.

Definition f64 := spec_float.
Bind Scope f64_scope with f64.

Definition fadd : f64 -> f64 -> f64 := SFadd 53 1024.
Definition fsub : f64 -> f64 -> f64 := SFsub 53 1024.
Definition fmul : f64 -> f64 -> f64 := SFmul 53 1024.
Definition fdiv : f64 -> f64 -> f64 := SFdiv 53 1024.
Definition fabs : f64 -> f64 := SFabs.
Definition fneg : f64 -> f64 := SFopp.
Definition fle : f64 -> f64 -> bool := SFleb.
Definition flt : f64 -> f64 -> bool := SFltb.
Definition feq : f64 -> f64 -> bool := SFeqb.

Infix "+" := fadd : f64_scope.
Infix "-" := fsub : f64_scope.
Infix "*" := fmul : f64_scope.
Infix "/" := fdiv : f64_scope.
Infix "<=?" := fle : f64_scope.
Infix "<?" := flt : f64_scope.
Infix "=?" := feq : f64_scope.

#[export] Instance f64_eq_dec : EqDecision f64.
Proof. solve_decision. Defined.

(** [float64(n)] for an integer, and [n * 2^e] for constants. *)
Definition f64_of (m e : Z) : f64 := binary_normalize 53 1024 m e false.
Definition f64_of_Z (n : Z) : f64 := f64_of n 0.
Definition f0 : f64 := S754_zero false.

(** The conversion [float32(x)] (the value is kept with its binary32 mantissa and exponent), and
    [float64(x)] of a binary32 value, which is exact. *)
Definition f32 := spec_float.
Definition to_f32 (x : f64) : f32 :=
  match x with S754_finite s m e => binary_round 24 128 s m e | _ => x end.
Definition of_f32 (x : f32) : f64 :=
  match x with S754_finite s m e => binary_round 53 1024 s m e | _ => x end.

Definition is_nan (x : f64) : bool := match x with S754_nan => true | _ => false end.
Definition is_finite (x : f64) : bool :=
  match x with S754_zero _ | S754_finite _ _ _ => true | _ => false end.

(** [int(math.Floor(x))] on amd64: the floor, or the smallest [int64] when it is out of range or not
    a number. *)
Definition floorZ (x : f64) : option Z :=
  match x with
  | S754_zero _ => Some 0
  | S754_finite s m e => Some (Z.shiftl (if s then Zneg m else Zpos m) e)
  | _ => None
  end.

Definition int_floor (x : f64) : Z :=
  match floorZ x with
  | Some z => if (- 2 ^ 63 <=? z) && (z <? 2 ^ 63) then z else - 2 ^ 63
  | None => - 2 ^ 63
  end.

(** ** The order *)

(** Class, exponent and mantissa with the sign folded in. *)
Definition key (x : f64) : option (Z * Z * Z) :=
  match x with
  | S754_nan => None
  | S754_zero _ => Some (0, 0, 0)
  | S754_infinity s => Some (if s then -2 else 2, 0, 0)
  | S754_finite false m e => Some (1, e, Zpos m)
  | S754_finite true m e => Some (-1, - e, Zneg m)
  end.

Definition lex_lt (k1 k2 : Z * Z * Z) : Prop :=
  let '(a1, b1, c1) := k1 in let '(a2, b2, c2) := k2 in
  a1 < a2 \/ (a1 = a2 /\ (b1 < b2 \/ (b1 = b2 /\ c1 < c2))).

Lemma key_None x : key x = None <-> is_nan x = true.
Proof. destruct x as [| | |[] ? ?]; cbn; naive_solver. Qed.

Lemma pos_compare_cont m1 m2 : Pos.compare_cont Eq m1 m2 = (m1 ?= m2)%positive.
Proof. reflexivity. Qed.

Ltac cmp_cases :=
  repeat match goal with
  | |- context [Z.compare ?a ?b] => destruct (Z.compare_spec a b)
  | |- context [Pos.compare ?a ?b] => destruct (Pos.compare_spec a b)
  end.

Lemma SFcompare_key x y kx ky :
  key x = Some kx -> key y = Some ky ->
  match SFcompare x y with
  | Some Lt => lex_lt kx ky
  | Some Eq => kx = ky
  | Some Gt => lex_lt ky kx
  | None => False
  end.
Proof.
  intros Hx Hy.
  destruct x as [sx|[]| |[] mx ex]; try discriminate Hx; injection Hx as <-;
  destruct y as [sy|[]| |[] my ey]; try discriminate Hy; injection Hy as <-; cbn;
    rewrite ?pos_compare_cont; try destruct sx; try destruct sy; cbn; try lia; try reflexivity;
    cmp_cases; subst; cbn; first [lia | f_equal; lia].
Qed.

Definition ord_lt (x y : f64) : Prop := exists kx ky, key x = Some kx /\ key y = Some ky /\ lex_lt kx ky.
Definition ord_le (x y : f64) : Prop :=
  exists kx ky, key x = Some kx /\ key y = Some ky /\ ~ lex_lt ky kx.

(** Decides a goal about [lex_lt] over keys in the context. *)
Ltac lex :=
  subst;
  repeat match goal with k : (Z * Z * Z)%type |- _ => destruct k as [[] ] end;
  simplify_eq; unfold lex_lt in *; first [lia | f_equal; [f_equal|]; lia].

Lemma lex_total k1 k2 : lex_lt k1 k2 \/ k1 = k2 \/ lex_lt k2 k1.
Proof.
  destruct k1 as [[a1 b1] c1], k2 as [[a2 b2] c2]. unfold lex_lt.
  assert (a1 = a2 /\ b1 = b2 /\ c1 = c2 \/ ~ (a1 = a2 /\ b1 = b2 /\ c1 = c2)) as [(-> & -> & ->)|Hne] by lia.
  - by right; left.
  - lia.
Qed.

Lemma fcompare_cases x y :
  is_nan x = false -> is_nan y = false ->
  exists kx ky, key x = Some kx /\ key y = Some ky /\
  (SFcompare x y = Some Lt /\ lex_lt kx ky \/ SFcompare x y = Some Eq /\ kx = ky \/
   SFcompare x y = Some Gt /\ lex_lt ky kx).
Proof.
  intros Hx Hy.
  destruct (key x) as [kx|] eqn:Ex; [|by apply key_None in Ex; rewrite Ex in Hx].
  destruct (key y) as [ky|] eqn:Ey; [|by apply key_None in Ey; rewrite Ey in Hy].
  exists kx, ky. pose proof (SFcompare_key x y kx ky Ex Ey) as H.
  destruct (SFcompare x y) as [[]|]; naive_solver.
Qed.

Lemma fcompare_nan x y : is_nan x || is_nan y = true -> SFcompare x y = None.
Proof. destruct x as [| | |[] ? ?], y as [| | |[] ? ?]; done. Qed.

Lemma flt_iff x y : flt x y = true <-> ord_lt x y.
Proof.
  unfold flt, SFltb, ord_lt. split.
  - intros H. destruct (is_nan x) eqn:Ex; [rewrite fcompare_nan in H by (by rewrite Ex); done|].
    destruct (is_nan y) eqn:Ey; [rewrite fcompare_nan in H by (rewrite Ey; by destruct (is_nan x)); done|].
    destruct (fcompare_cases x y Ex Ey) as (kx & ky & Hx & Hy & [[E ?]|[[E ?]|[E ?]]]); rewrite E in H; eauto; done.
  - intros (kx & ky & Hx & Hy & Hlt). pose proof (SFcompare_key x y kx ky Hx Hy) as H.
    destruct (SFcompare x y) as [[]|]; try done; lex.
Qed.

Lemma fle_iff x y : fle x y = true <-> ord_le x y.
Proof.
  unfold fle, SFleb, ord_le. split.
  - intros H. destruct (is_nan x) eqn:Ex; [rewrite fcompare_nan in H by (by rewrite Ex); done|].
    destruct (is_nan y) eqn:Ey; [rewrite fcompare_nan in H by (rewrite Ey; by destruct (is_nan x)); done|].
    destruct (fcompare_cases x y Ex Ey) as (kx & ky & Hx & Hy & [[E Hc]|[[E Hc]|[E Hc]]]); rewrite E in H;
      try done; exists kx, ky; (split; [done|split; [done|]]); intros ?; lex.
  - intros (kx & ky & Hx & Hy & Hlt). pose proof (SFcompare_key x y kx ky Hx Hy) as H.
    by destruct (SFcompare x y) as [[]|].
Qed.

Lemma feq_iff x y : feq x y = true <-> is_nan x = false /\ key x = key y.
Proof.
  unfold feq, SFeqb. split.
  - intros H. destruct (is_nan x) eqn:Ex; [rewrite fcompare_nan in H by (by rewrite Ex); done|].
    destruct (is_nan y) eqn:Ey; [rewrite fcompare_nan in H by (rewrite Ey; by destruct (is_nan x)); done|].
    destruct (fcompare_cases x y Ex Ey) as (kx & ky & Hx & Hy & [[E ?]|[[E ?]|[E ?]]]); rewrite E in H; try done.
    split; congruence.
  - intros [Hn Hk]. destruct (key x) as [kx|] eqn:Ex; [|apply key_None in Ex; congruence].
    pose proof (SFcompare_key x y kx kx Ex (eq_sym Hk)) as H.
    destruct (SFcompare x y) as [[]|]; try done; lex.
Qed.

(** Reduces every comparison of floats in the context to the integer order on keys and calls
    [lia]. *)
Ltac f64_order :=
  repeat match goal with
  | H : fle _ _ = true |- _ => apply fle_iff in H as (? & ? & ? & ? & ?)
  | H : flt _ _ = true |- _ => apply flt_iff in H as (? & ? & ? & ? & ?)
  | H : feq _ _ = true |- _ => apply feq_iff in H as [? ?]
  | H : fle _ _ = false |- _ => rewrite <- not_true_iff_false, fle_iff in H
  | H : flt _ _ = false |- _ => rewrite <- not_true_iff_false, flt_iff in H
  | |- fle _ _ = true => apply fle_iff
  | |- flt _ _ = true => apply flt_iff
  | |- feq _ _ = true => apply feq_iff; split; [done|]
  end.

Lemma fle_refl x : is_nan x = false -> fle x x = true.
Proof.
  intros H. f64_order. destruct (key x) as [[[a b] c]|] eqn:E; [|apply key_None in E; congruence].
  exists (a, b, c), (a, b, c). split; [done|split; [done|]]. unfold lex_lt. lia.
Qed.

Lemma fle_trans x y z : fle x y = true -> fle y z = true -> fle x z = true.
Proof.
  intros. f64_order. simplify_eq. eexists _, _. split; [eassumption|split; [eassumption|]]. lex.
Qed.

(** On numbers, [!(x <= y)] is [y < x], and a strict inequality implies the weak one. *)
Lemma fle_total x y : is_nan x = false -> is_nan y = false -> fle x y = false -> fle y x = true.
Proof.
  intros Hx Hy H. destruct (fcompare_cases x y Hx Hy) as (kx & ky & Ex & Ey & Hc).
  f64_order. exists ky, kx. split; [done|split; [done|]]. intros Hlt. apply H. exists kx, ky.
  split; [done|split; [done|]]. clear -Hlt. intros ?. lex.
Qed.

Lemma flt_total x y : is_nan x = false -> is_nan y = false -> flt x y = false -> fle y x = true.
Proof.
  intros Hx Hy H. destruct (fcompare_cases x y Hx Hy) as (kx & ky & Ex & Ey & Hc).
  f64_order. exists ky, kx. split; [done|split; [done|]]. intros Hlt. apply H. by exists kx, ky.
Qed.

Lemma flt_le x y : flt x y = true -> fle x y = true.
Proof.
  intros. f64_order. eexists _, _. split; [eassumption|split; [eassumption|]]. lex.
Qed.

Lemma fle_not_nan x y : fle x y = true -> is_nan x = false /\ is_nan y = false.
Proof.
  intros H. destruct (is_nan x) eqn:Ex, (is_nan y) eqn:Ey; try done;
    unfold fle, SFleb in H; rewrite fcompare_nan in H; rewrite ?Ex, ?Ey; done.
Qed.

Lemma fle_antisym x y : fle x y = true -> fle y x = true -> feq x y = true.
Proof.
  intros Hxy Hyx. apply feq_iff. split; [by apply fle_not_nan in Hxy as [? _]|].
  f64_order. simplify_eq.
  repeat match goal with H : key _ = _ |- _ => rewrite H; clear H end. f_equal. lex.
Qed.

Lemma feq_refl x : is_nan x = false -> feq x x = true.
Proof. intros. by f64_order. Qed.

Lemma feq_sym x y : feq x y = true -> feq y x = true.
Proof.
  intros [Hn Hk]%feq_iff. apply feq_iff. split; [|done].
  destruct (is_nan y) eqn:E; [|done]. apply key_None in E. rewrite E in Hk. apply key_None in Hk. congruence.
Qed.

Lemma feq_trans x y z : feq x y = true -> feq y z = true -> feq x z = true.
Proof. intros [? ?]%feq_iff [? ?]%feq_iff. apply feq_iff. split; congruence. Qed.

Lemma feq_le_l x y z : feq x y = true -> fle x z = fle y z.
Proof.
  intros [Hn Hk]%feq_iff. apply eq_iff_eq_true. rewrite !fle_iff. unfold ord_le. by rewrite Hk.
Qed.

Lemma feq_le_r x y z : feq x y = true -> fle z x = fle z y.
Proof.
  intros [Hn Hk]%feq_iff. apply eq_iff_eq_true. rewrite !fle_iff. unfold ord_le. by rewrite Hk.
Qed.

(** ** Rounding produces numbers *)

Lemma shr_1_nonneg r : 0 <= shr_m r -> 0 <= shr_m (shr_1 r).
Proof. destruct r as [[|[]|[]] ? ?]; cbn; lia. Qed.

Lemma iter_pos_shr_nonneg p r : 0 <= shr_m r -> 0 <= shr_m (SpecFloat.iter_pos shr_1 p r).
Proof. revert r. induction p; intros; cbn; auto using shr_1_nonneg. Qed.

Lemma shr_nonneg r e n : 0 <= shr_m r -> 0 <= shr_m (fst (shr r e n)).
Proof. destruct n; cbn; auto using iter_pos_shr_nonneg. Qed.

Lemma round_nearest_even_nonneg m l : 0 <= m -> 0 <= round_nearest_even m l.
Proof. destruct l as [|[]]; cbn; try destruct (Z.even m); lia. Qed.

Lemma binary_round_aux_not_nan prec emax s m e l :
  0 <= m -> is_nan (binary_round_aux prec emax s m e l) = false.
Proof.
  intros Hm. unfold binary_round_aux, shr_fexp.
  pose proof (shr_nonneg (shr_record_of_loc m l) e (fexp prec emax (Zdigits2 m + e) - e)) as H1.
  destruct (shr _ _ _) as [r1 e1].
  set (m1 := round_nearest_even _ _).
  pose proof (shr_nonneg (shr_record_of_loc m1 loc_Exact) e1 (fexp prec emax (Zdigits2 m1 + e1) - e1)) as H2.
  destruct (shr _ _ _) as [r2 e2]. cbn in H1, H2.
  assert (0 <= shr_m r2).
  { apply H2, round_nearest_even_nonneg, H1. by destruct l as [|[]]. }
  destruct (shr_m r2); [done| |lia]. by destruct (_ <=? _).
Qed.

Lemma binary_round_not_nan prec emax s m e : is_nan (binary_round prec emax s m e) = false.
Proof.
  unfold binary_round. destruct (shl_align _ _ _). by apply binary_round_aux_not_nan.
Qed.

Lemma binary_normalize_not_nan prec emax m e s : is_nan (binary_normalize prec emax m e s) = false.
Proof. destruct m; cbn; auto using binary_round_not_nan. Qed.

(** The sum of two finite numbers is a number (an infinity on overflow). *)
Lemma fadd_not_nan x y : is_finite x = true -> is_finite y = true -> is_nan (x + y)%f64 = false.
Proof.
  destruct x as [[]| | |], y as [[]| | |]; try done. intros _ _. apply binary_normalize_not_nan.
Qed.

Lemma div_eucl_fst_nonneg a b : 0 <= a -> 0 < b -> 0 <= fst (Z.div_eucl a b).
Proof. intros. change (fst (Z.div_eucl a b)) with (a / b). apply Z.div_pos; lia. Qed.

(** A number divided by a finite nonzero number is a number. *)
Lemma fdiv_finite_not_nan x s m e : is_nan x = false -> is_nan (x / S754_finite s m e)%f64 = false.
Proof.
  destruct x as [| | |sx mx ex]; try done. intros _. unfold fdiv, SFdiv, SFdiv_core_binary.
  match goal with |- context [Z.div_eucl ?a ?b] =>
    assert (0 <= fst (Z.div_eucl a b));
    [ apply div_eucl_fst_nonneg; [|lia] | destruct (Z.div_eucl a b) as [q r] ] end.
  - destruct (_ - _ - _); try lia. by apply Z.shiftl_nonneg.
  - by apply binary_round_aux_not_nan.
Qed.

(** ** A binary32 value survives the trip through [float64] *)

Definition valid_f32 (x : f32) : bool := valid_binary 24 128 x.

Lemma iter_pos_iter {A} (f : A -> A) p x : SpecFloat.iter_pos f p x = Pos.iter f x p.
Proof.
  revert x. induction p as [p IH|p IH|]; intros x; cbn; rewrite ?IH; try done.
  f_equal. rewrite <- !Pos.iter_swap. by rewrite !Pos.iter_swap.
Qed.

Lemma digits2_shift m d : Zpos (digits2_pos (Pos.iter xO m d)) = Zpos (digits2_pos m) + Zpos d.
Proof.
  revert m. induction d as [|d IH] using Pos.peano_ind; intros m; [cbn; lia|].
  rewrite Pos.iter_succ. cbn [digits2_pos]. rewrite Pos2Z.inj_succ, IH. lia.
Qed.

Lemma shr_shifted m d :
  SpecFloat.iter_pos shr_1 d {| shr_m := Zpos (Pos.iter xO m d); shr_r := false; shr_s := false |} =
  {| shr_m := Zpos m; shr_r := false; shr_s := false |}.
Proof.
  rewrite iter_pos_iter. revert m. induction d as [|d IH] using Pos.peano_ind; intros m; [done|].
  rewrite Pos.iter_succ_r. rewrite Pos.iter_succ. cbn [shr_1 orb]. apply IH.
Qed.

(** A mantissa that is already at its canonical exponent is not rounded. *)
Lemma round_canonical prec emax s m e :
  fexp prec emax (Zpos (digits2_pos m) + e) = e -> e <= emax - prec ->
  binary_round_aux prec emax s (Zpos m) e loc_Exact = S754_finite s m e.
Proof.
  intros Hc He. unfold binary_round_aux, shr_fexp. cbn [Zdigits2]. rewrite Hc, Z.sub_diag.
  cbn [shr shr_record_of_loc shr_m loc_of_shr_record round_nearest_even Zdigits2]. rewrite Hc, Z.sub_diag.
  cbn [shr shr_record_of_loc shr_m]. by rewrite (proj2 (Z.leb_le _ _) He).
Qed.

Lemma of_f32_finite s m e :
  bounded 24 128 m e = true ->
  exists d, of_f32 (S754_finite s m e) = S754_finite s (Pos.iter xO m d) (e - Zpos d).
Proof.
  intros [Hc%Z.eqb_eq He%Z.leb_le]%andb_true_iff. unfold fexp, emin in Hc.
  assert (1 <= Zpos (digits2_pos m) <= 24) as Hd by lia.
  destruct (53 - Zpos (digits2_pos m)) as [|d|] eqn:Ed; try lia.
  exists d. unfold of_f32, binary_round, shl_align.
  assert (fexp 53 1024 (Zpos (digits2_pos m) + e) = e - Zpos d) as Hf by (unfold fexp, emin; lia).
  rewrite Hf. replace (e - Zpos d - e) with (Zneg d) by lia. apply round_canonical; [|lia].
  rewrite digits2_shift. unfold fexp, emin. lia.
Qed.

Lemma to_f32_of_f32 x : valid_f32 x = true -> to_f32 (of_f32 x) = x.
Proof.
  destruct x as [| | |s m e]; try done. intros Hv. destruct (of_f32_finite s m e Hv) as [d ->].
  apply andb_true_iff in Hv as [Hc%Z.eqb_eq He%Z.leb_le].
  unfold to_f32, binary_round. rewrite digits2_shift.
  replace (Zpos (digits2_pos m) + Zpos d + (e - Zpos d)) with (Zpos (digits2_pos m) + e) by lia.
  rewrite Hc. unfold shl_align. replace (e - (e - Zpos d)) with (Zpos d) by lia.
  unfold binary_round_aux, shr_fexp at 1. cbn [Zdigits2]. rewrite digits2_shift.
  replace (Zpos (digits2_pos m) + Zpos d + (e - Zpos d)) with (Zpos (digits2_pos m) + e) by lia.
  rewrite Hc. replace (e - (e - Zpos d)) with (Zpos d) by lia. cbn [shr shr_record_of_loc].
  rewrite shr_shifted. replace (e - Zpos d + Zpos d) with e by lia.
  cbn [shr_m loc_of_shr_record round_nearest_even]. unfold shr_fexp. cbn [Zdigits2].
  rewrite Hc, Z.sub_diag. cbn [shr shr_record_of_loc shr_m]. by rewrite (proj2 (Z.leb_le _ _) He).
Qed.

Lemma flt0_of_f32 x : valid_f32 x = true -> flt f0 (of_f32 x) = flt f0 x.
Proof. destruct x as [| | |s m e]; try done. intros Hv. by destruct (of_f32_finite s m e Hv) as [d ->]. Qed.

#[export] Hint Resolve fle_refl feq_refl feq_sym flt_le fadd_not_nan fdiv_finite_not_nan
  binary_normalize_not_nan binary_round_not_nan : mmo.
