(* ===== verification/GoString.v ===== *)
(** Go's [strings] and [strconv] operations used by the backend, on byte strings. *)
From Stdlib Require Import Ascii ZArith Lia.
From stdpp Require Export pretty.
From S2P Require Import Prelude.
Local Open Scope string_scope.
#[global] Arguments String.append : simpl nomatch.

Abbreviation byte_eqb := Ascii.eqb.
Definition byte_of (n : nat) : ascii := ascii_of_nat n.

(** ** [strings.TrimSpace]: Unicode white space, as UTF-8 byte sequences *)

(** ASCII: tab, LF, VT, FF, CR, space. *)
Definition space1 (a : ascii) : bool :=
  let n := nat_of_ascii a in (Nat.leb 9 n && Nat.leb n 13) || Nat.eqb n 32.
(** U+0085, U+00A0. *)
Definition space2 (a b : ascii) : bool :=
  Nat.eqb (nat_of_ascii a) 194 && (Nat.eqb (nat_of_ascii b) 133 || Nat.eqb (nat_of_ascii b) 160).
(** U+1680, U+2000-U+200A, U+2028, U+2029, U+202F, U+205F, U+3000. *)
Definition space3 (a b c : ascii) : bool :=
  let x := nat_of_ascii a in let y := nat_of_ascii b in let z := nat_of_ascii c in
  (Nat.eqb x 225 && Nat.eqb y 154 && Nat.eqb z 128) ||
  (Nat.eqb x 226 && Nat.eqb y 128 &&
     ((Nat.leb 128 z && Nat.leb z 138) || Nat.eqb z 168 || Nat.eqb z 169 || Nat.eqb z 175)) ||
  (Nat.eqb x 226 && Nat.eqb y 129 && Nat.eqb z 159) ||
  (Nat.eqb x 227 && Nat.eqb y 128 && Nat.eqb z 128).

Fixpoint trim_left (s : string) : string :=
  match s with
  | EmptyString => s
  | String a s1 =>
      if space1 a then trim_left s1 else
      match s1 with
      | EmptyString => s
      | String b s2 =>
          if space2 a b then trim_left s2 else
          match s2 with
          | EmptyString => s
          | String c s3 => if space3 a b c then trim_left s3 else s
          end
      end
  end.

(** On the reversed bytes of a string, the same trimming from its end. *)
Fixpoint trim_right_rev (s : string) : string :=
  match s with
  | EmptyString => s
  | String a s1 =>
      if space1 a then trim_right_rev s1 else
      match s1 with
      | EmptyString => s
      | String b s2 =>
          if space2 b a then trim_right_rev s2 else
          match s2 with
          | EmptyString => s
          | String c s3 => if space3 c b a then trim_right_rev s3 else s
          end
      end
  end.

Definition trim_space (s : string) : string := String.rev (trim_right_rev (String.rev (trim_left s))).

(** ** Prefixes, splitting and joining *)

Fixpoint strip_prefix (p s : string) : option string :=
  match p, s with
  | EmptyString, _ => Some s
  | String a p', String b s' => if byte_eqb a b then strip_prefix p' s' else None
  | String _ _, EmptyString => None
  end.

Definition has_prefix (s p : string) : bool := match strip_prefix p s with Some _ => true | None => false end.
Definition trim_prefix (s p : string) : string := default s (strip_prefix p s).

(** [strings.Split] by a one-byte separator. *)
Fixpoint split_on (c : ascii) (s : string) : list string :=
  match s with
  | EmptyString => [""]
  | String a s' =>
      if byte_eqb a c then "" :: split_on c s'
      else match split_on c s' with
           | [] => [String a ""]
           | w :: ws => String a w :: ws
           end
  end.

(** The words between commas, trimmed, without the empty ones. *)
Definition csv_words (s : string) : list string := base.filter (fun w => w <> "") (trim_space <$> split_on "," s).

(** [strings.Join]. *)
Definition join (sep : string) (ws : list string) : string := String.concat sep ws.

(** ** Integers in decimal: [%d]/[strconv.Itoa] and [strconv.Atoi] *)

Definition itoa (z : Z) : string := pretty z.

Definition digit (c : ascii) : option Z :=
  let n := nat_of_ascii c in
  if Nat.leb 48 n && Nat.leb n 57 then Some (Z.of_nat n - 48)%Z else None.

Fixpoint digits_from (acc : Z) (s : string) : option Z :=
  match s with
  | EmptyString => Some acc
  | String c s' => d ← digit c; digits_from (10 * acc + d)%Z s'
  end.

Definition atoi (s : string) : option Z :=
  let '(neg, body) :=
    match s with
    | String "-" r => (true, r)
    | String "+" r => (false, r)
    | _ => (false, s)
    end in
  match body with
  | EmptyString => None
  | _ =>
      n ← digits_from 0 body;
      let v := if (neg : bool) then (- n)%Z else n in
      if (- 2 ^ 63 <=? v)%Z && (v <? 2 ^ 63)%Z then Some v else None
  end.

(** * Case and hexadecimal digits *)

Definition lower (a : ascii) : ascii :=
  let n := nat_of_ascii a in if Nat.leb 65 n && Nat.leb n 90 then ascii_of_nat (n + 32) else a.

(** [strings.EqualFold(s, t)] for a lower-case ASCII [t]: letters up to case, the long s (U+017F) for
    [s] and the Kelvin sign (U+212A) for [k]. *)
Fixpoint EqualFold (s t : string) : bool :=
  match t, s with
  | EmptyString, EmptyString => true
  | String b t', String a s' =>
      (byte_eqb (lower a) b && EqualFold s' t') ||
      match s' with
      | String a2 s2 =>
          (byte_eqb b "s" && Nat.eqb (nat_of_ascii a) 197 && Nat.eqb (nat_of_ascii a2) 191 && EqualFold s2 t') ||
          match s2 with
          | String a3 s3 => byte_eqb b "k" && Nat.eqb (nat_of_ascii a) 226 && Nat.eqb (nat_of_ascii a2) 132 &&
                            Nat.eqb (nat_of_ascii a3) 170 && EqualFold s3 t'
          | EmptyString => false
          end
      | EmptyString => false
      end
  | _, _ => false
  end.

(** [strings.ToLower] on the ASCII letters; other bytes stay. *)
Fixpoint to_lower (s : string) : string :=
  match s with EmptyString => EmptyString | String a s' => String (lower a) (to_lower s') end.

(** [strings.Contains] *)
Fixpoint contains (s sub : string) : bool :=
  has_prefix s sub || match s with EmptyString => false | String _ s' => contains s' sub end.

(** [hex.EncodeToString] *)
Definition hex_digit (n : nat) : ascii := ascii_of_nat (if Nat.ltb n 10 then 48 + n else 87 + n).
Fixpoint hex_encode (s : string) : string :=
  match s with
  | EmptyString => EmptyString
  | String a s' => let n := nat_of_ascii a in String (hex_digit (n / 16)) (String (hex_digit (n mod 16)) (hex_encode s'))
  end.

Definition hex_value (a : ascii) : option nat :=
  let n := nat_of_ascii a in
  if Nat.leb 48 n && Nat.leb n 57 then Some (n - 48)
  else if Nat.leb 97 n && Nat.leb n 102 then Some (n - 87)
  else if Nat.leb 65 n && Nat.leb n 70 then Some (n - 55)
  else None.

(** [hex.DecodeString]; [None] is an error. *)
Fixpoint hex_decode (s : string) : option string :=
  match s with
  | EmptyString => Some EmptyString
  | String a (String b s') =>
      h ← hex_value a; l ← hex_value b; r ← hex_decode s'; Some (String (ascii_of_nat (16 * h + l)) r)
  | String _ EmptyString => None
  end.

(** ** Lemmas *)

Lemma string_app_nil_r s : s +:+ "" = s.
Proof. induction s as [|a s IH]; [done|]. cbn. by f_equal. Qed.

Lemma string_app_assoc s t u : s +:+ (t +:+ u) = (s +:+ t) +:+ u.
Proof. induction s as [|a s IH]; [done|]. cbn. by f_equal. Qed.

(** A printable non-space ASCII byte; identifiers of cells are made of these. *)
Definition graphic (a : ascii) : bool := Nat.leb 33 (nat_of_ascii a) && Nat.leb (nat_of_ascii a) 126.

Fixpoint string_forall (f : ascii -> bool) (s : string) : bool :=
  match s with EmptyString => true | String a s' => f a && string_forall f s' end.

Lemma string_forall_app f s t : string_forall f (s +:+ t) = string_forall f s && string_forall f t.
Proof. induction s; cbn; [done|]. by rewrite IHs, andb_assoc. Qed.

Lemma string_rev_app s t acc : String.rev_app (s +:+ t) acc = String.rev_app t (String.rev_app s acc).
Proof. revert acc. induction s; intros; cbn; auto. Qed.

(** Decides relations between byte classes by arithmetic on the byte values. *)
Ltac byte_lia :=
  unfold graphic, space1, space2, space3 in *; cbv zeta in *; intros; apply not_true_is_false;
  intros ?;
  repeat match goal with
  | H : context [nat_of_ascii ?a] |- _ => generalize dependent (nat_of_ascii a); intros
  end;
  repeat match goal with
  | H : (_ && _) = true |- _ => apply andb_true_iff in H as [? ?]
  | H : (_ || _) = true |- _ => apply orb_true_iff in H as [?|?]
  | H : Nat.eqb _ _ = true |- _ => apply Nat.eqb_eq in H
  | H : Nat.leb _ _ = true |- _ => apply Nat.leb_le in H
  end; lia.

Lemma graphic_not_space a : graphic a = true -> space1 a = false.
Proof. byte_lia. Qed.

Lemma graphic_not_space2 a b : graphic a = true -> space2 a b = false /\ space2 b a = false.
Proof. split; byte_lia. Qed.

Lemma graphic_not_space3 a b c : graphic a = true -> space3 a b c = false /\ space3 b c a = false.
Proof. split; byte_lia. Qed.

Lemma trim_left_graphic a s : graphic a = true -> trim_left (String a s) = String a s.
Proof.
  intros H. cbn. rewrite graphic_not_space by done. destruct s as [|b s]; [done|].
  rewrite (proj1 (graphic_not_space2 a b H)). destruct s as [|c s]; [done|].
  by rewrite (proj1 (graphic_not_space3 a b c H)).
Qed.

Lemma trim_right_rev_graphic a s : graphic a = true -> trim_right_rev (String a s) = String a s.
Proof.
  intros H. cbn. rewrite graphic_not_space by done. destruct s as [|b s]; [done|].
  rewrite (proj2 (graphic_not_space2 a b H)). destruct s as [|c s]; [done|].
  by rewrite (proj2 (graphic_not_space3 a c b H)).
Qed.

(** The last byte of a graphic string is graphic, so nothing is trimmed from its end. *)
Lemma rev_app_head s acc :
  string_forall graphic s = true ->
  (s = "" /\ String.rev_app s acc = acc) \/
  (exists a r, String.rev_app s acc = String a r /\ graphic a = true).
Proof.
  revert acc. induction s as [|a s IH]; intros acc; cbn; [auto|].
  intros [Ha Hs]%andb_true_iff. right.
  destruct (IH (String a acc) Hs) as [[-> ->]|(b & r & -> & Hb)]; eauto.
Qed.

Lemma rev_app_involutive s acc acc' :
  String.rev_app (String.rev_app s acc) acc' = String.rev_app acc (s +:+ acc').
Proof. revert acc acc'. induction s; intros; cbn; [done|]. by rewrite IHs. Qed.

Lemma string_rev_involutive s : String.rev (String.rev s) = s.
Proof. unfold String.rev. rewrite rev_app_involutive. cbn. apply string_app_nil_r. Qed.

(** Trimming leaves a string of graphic bytes unchanged. *)
Lemma trim_space_graphic s : string_forall graphic s = true -> trim_space s = s.
Proof.
  intros H. unfold trim_space.
  assert (trim_left s = s) as ->.
  { destruct s; [done|]. cbn [string_forall] in H. apply andb_true_iff in H as [? _].
    by apply trim_left_graphic. }
  assert (trim_right_rev (String.rev s) = String.rev s) as ->; [|apply string_rev_involutive].
  unfold String.rev. destruct (rev_app_head s "" H) as [[-> ->]|(a & r & -> & Ha)]; [done|].
  by apply trim_right_rev_graphic.
Qed.

Lemma strip_prefix_app p s : strip_prefix p (p +:+ s) = Some s.
Proof. induction p; cbn; [done|]. by rewrite Ascii.eqb_refl. Qed.

Lemma strip_prefix_Some p s r : strip_prefix p s = Some r -> s = p +:+ r.
Proof.
  revert s. induction p as [|a p IH]; intros s; cbn; [by intros [= ->]|].
  destruct s as [|b s]; [done|]. destruct (Ascii.eqb_spec a b) as [->|]; [|done].
  by intros ->%IH.
Qed.

Lemma trim_prefix_app p s : trim_prefix (p +:+ s) p = s.
Proof. unfold trim_prefix. by rewrite strip_prefix_app. Qed.

Lemma split_on_nonempty c s : split_on c s <> [].
Proof. destruct s as [|a s]; cbn; [done|]. destruct (byte_eqb a c); [done|]. by destruct (split_on c s). Qed.

(** Splitting a join of words without the separator gives the words back. *)
Lemma split_on_join c ws :
  ws <> [] -> Forall (fun w => string_forall (fun a => negb (byte_eqb a c)) w = true) ws ->
  split_on c (join (String c "") ws) = ws.
Proof.
  intros Hne HF. unfold join. induction HF as [|w ws Hw HF IH]; [done|]. clear Hne.
  assert (forall s t ts, string_forall (fun a => negb (byte_eqb a c)) s = true ->
    split_on c t = ts -> ts <> [] -> split_on c (s +:+ t) =
      match ts with [] => [] | u :: us => (s +:+ u) :: us end) as Happ.
  { induction s as [|a s IHs]; intros t ts Hs Ht Hn; cbn.
    - rewrite Ht. by destruct ts.
    - cbn in Hs. apply andb_true_iff in Hs as [Ha Hs]. apply negb_true_iff in Ha. rewrite Ha.
      rewrite (IHs t ts Hs Ht Hn). by destruct ts. }
  destruct ws as [|v ws].
  - cbn. rewrite <- (string_app_nil_r w) at 1. rewrite (Happ w "" [""]); try done.
    by rewrite string_app_nil_r.
  - change (split_on c (w +:+ String c (String.concat (String c "") (v :: ws))) = w :: v :: ws).
    rewrite (Happ w (String c (String.concat (String c "") (v :: ws))) ("" :: v :: ws)); try done.
    + by rewrite string_app_nil_r.
    + cbn [split_on]. rewrite Ascii.eqb_refl. f_equal. by apply IH.
Qed.

(** ** Trimming twice is trimming once *)

Lemma string_rev_app2 s t : String.rev (s +:+ t) = String.rev t +:+ String.rev s.
Proof.
  unfold String.rev. rewrite string_rev_app.
  assert (forall u acc, String.rev_app u acc = String.rev_app u "" +:+ acc) as Hacc.
  { induction u as [|a u IH]; intros acc; cbn; [done|]. rewrite IH, (IH (String a "")), <- string_app_assoc. done. }
  apply Hacc.
Qed.

(** [trim_left] returns a suffix on which it stops, and a prefix of such a string is one too. *)
Lemma trim_left_suffix s : exists p, s = p +:+ trim_left s.
Proof.
  revert s. fix IH 1. intros [|a s1]; [by exists ""|]. cbn.
  destruct (space1 a); [destruct (IH s1) as [p Hp]; exists (String a p); cbn; by f_equal|].
  destruct s1 as [|b s2]; [by exists ""|].
  destruct (space2 a b); [destruct (IH s2) as [p Hp]; exists (String a (String b p)); cbn; by do 2 f_equal|].
  destruct s2 as [|c s3]; [by exists ""|].
  destruct (space3 a b c); [|by exists ""].
  destruct (IH s3) as [p Hp]. exists (String a (String b (String c p))). cbn. by do 3 f_equal.
Qed.

Lemma trim_left_idem s : trim_left (trim_left s) = trim_left s.
Proof.
  revert s. fix IH 1. intros [|a s1]; [done|]. cbn.
  destruct (space1 a) eqn:E1; [apply IH|]. destruct s1 as [|b s2]; [cbn; by rewrite E1|].
  destruct (space2 a b) eqn:E2; [apply IH|]. destruct s2 as [|c s3]; [cbn; by rewrite E1, E2|].
  destruct (space3 a b c) eqn:E3; [apply IH|]. cbn. by rewrite E1, E2, E3.
Qed.

Lemma string_length_app s t : String.length (s +:+ t) = String.length s + String.length t.
Proof. induction s as [|a s IH]; cbn; [done|]. by rewrite IH. Qed.

Lemma trim_left_length s : String.length (trim_left s) <= String.length s.
Proof. destruct (trim_left_suffix s) as [p Hp]. rewrite Hp at 2. rewrite string_length_app. lia. Qed.

(** Whether a string begins with a white space sequence. *)
Definition space_head (s : string) : bool :=
  match s with
  | EmptyString => false
  | String a s1 => space1 a ||
      match s1 with
      | EmptyString => false
      | String b s2 => space2 a b || match s2 with EmptyString => false | String c _ => space3 a b c end
      end
  end.

Lemma trim_left_stop s : trim_left s = s <-> space_head s = false.
Proof.
  destruct s as [|a s1]; [done|]. cbn. destruct (space1 a); cbn.
  { split; [|done]. intros H. pose proof (trim_left_length s1) as Hl. rewrite H in Hl. cbn in Hl. lia. }
  destruct s1 as [|b s2]; [done|]. destruct (space2 a b); cbn.
  { split; [|done]. intros H. pose proof (trim_left_length s2) as Hl. rewrite H in Hl. cbn in Hl. lia. }
  destruct s2 as [|c s3]; [done|]. destruct (space3 a b c); [|done].
  split; [|done]. intros H. pose proof (trim_left_length s3) as Hl. rewrite H in Hl. cbn in Hl. lia.
Qed.

Lemma trim_left_prefix p q : trim_left (p +:+ q) = p +:+ q -> trim_left p = p.
Proof.
  rewrite !trim_left_stop. destruct p as [|a [|b [|c p]]]; [done| | |done].
  - destruct q as [|b q]; cbn; [done|]. by intros [-> _]%orb_false_iff.
  - destruct q as [|c q]; cbn; [done|]. intros [-> [-> _]%orb_false_iff]%orb_false_iff. done.
Qed.

Lemma trim_right_rev_suffix s : exists p, s = p +:+ trim_right_rev s.
Proof.
  revert s. fix IH 1. intros [|a s1]; [by exists ""|]. cbn.
  destruct (space1 a); [destruct (IH s1) as [p Hp]; exists (String a p); cbn; by f_equal|].
  destruct s1 as [|b s2]; [by exists ""|].
  destruct (space2 b a); [destruct (IH s2) as [p Hp]; exists (String a (String b p)); cbn; by do 2 f_equal|].
  destruct s2 as [|c s3]; [by exists ""|].
  destruct (space3 c b a); [|by exists ""].
  destruct (IH s3) as [p Hp]. exists (String a (String b (String c p))). cbn. by do 3 f_equal.
Qed.

Lemma trim_right_rev_idem s : trim_right_rev (trim_right_rev s) = trim_right_rev s.
Proof.
  revert s. fix IH 1. intros [|a s1]; [done|]. cbn.
  destruct (space1 a) eqn:E1; [apply IH|]. destruct s1 as [|b s2]; [cbn; by rewrite E1|].
  destruct (space2 b a) eqn:E2; [apply IH|]. destruct s2 as [|c s3]; [cbn; by rewrite E1, E2|].
  destruct (space3 c b a) eqn:E3; [apply IH|]. cbn. by rewrite E1, E2, E3.
Qed.

Lemma trim_space_idem s : trim_space (trim_space s) = trim_space s.
Proof.
  unfold trim_space. set (t := trim_left s). set (u := trim_right_rev (String.rev t)).
  assert (trim_left (String.rev u) = String.rev u) as Hu.
  { destruct (trim_right_rev_suffix (String.rev t)) as [p Hp]. fold u in Hp.
    apply (f_equal String.rev) in Hp. rewrite string_rev_involutive, string_rev_app2 in Hp.
    apply (trim_left_prefix _ (String.rev p)). rewrite <- Hp. apply trim_left_idem. }
  rewrite Hu, string_rev_involutive. unfold u. by rewrite trim_right_rev_idem.
Qed.

(** ** Decimal numbers *)

Lemma pretty_N_graphic n : string_forall graphic (pretty_N_go n "") = true /\ (n <> 0%N -> pretty_N_go n "" <> "").
Proof.
  assert (forall n s, string_forall graphic s = true ->
    string_forall graphic (pretty_N_go n s) = true /\ (n <> 0%N \/ s <> "" -> pretty_N_go n s <> "")) as H.
  { clear n. intros n. induction (N.lt_wf_0 n) as [n _ IH]. intros s Hs. destruct (decide (0 < n)%N) as [Hn|Hn].
    - rewrite pretty_N_go_step by done. assert (n / 10 < n)%N as Hlt by (apply N.div_lt; lia).
      destruct (IH _ Hlt (String (pretty_N_char (n mod 10)) s)) as [H1 H2].
      + cbn [string_forall]. rewrite Hs. assert (n mod 10 < 10)%N as Hm by (apply N.mod_lt; lia).
        by destruct (n mod 10)%N as [|[[[[]|[]|]|[[]|[]|]|]|[[[]|[]|]|[[]|[]|]|]|]]; try done; lia.
      + split; [done|]. intros _. apply H2. by right.
    - assert (n = 0%N) as -> by lia. rewrite pretty_N_go_0. split; [done|]. by intros [?|?]. }
  destruct (H n "" eq_refl) as [H1 H2]. split; [done|]. intros Hn. apply H2. by left.
Qed.

Lemma itoa_graphic z : string_forall graphic (itoa z) = true /\ itoa z <> "".
Proof.
  assert (forall n : N, string_forall graphic (pretty n) = true /\ pretty n <> "") as HN.
  { intros n. unfold pretty, pretty_N. destruct (decide (n = 0%N)) as [|Hn]; [done|].
    destruct (pretty_N_graphic n) as [H1 H2]. auto. }
  unfold itoa. destruct z as [|p|p]; [done|apply (HN (Npos p))|]. cbn. split; [|done]. apply (HN (Npos p)).
Qed.

(** A string is trimmed already when it starts and ends with graphic bytes. *)
Lemma trim_space_ends a s t : graphic a = true -> string_forall graphic t = true -> t <> "" -> trim_space (String a s +:+ t) = String a s +:+ t.
Proof.
  intros Ha Ht Hne. unfold trim_space. cbn [String.append]. rewrite trim_left_graphic by done.
  change (String a (s +:+ t)) with (String a s +:+ t). rewrite string_rev_app2.
  assert (exists b r, String.rev t = String b r /\ graphic b = true) as (b & r & Er & Hb).
  { unfold String.rev. destruct (rev_app_head t "" Ht) as [[-> _]|(b & r & H)]; [done|by exists b, r]. }
  assert (trim_right_rev (String.rev t +:+ String.rev (String a s)) = String.rev t +:+ String.rev (String a s)) as ->.
  { rewrite Er. by apply trim_right_rev_graphic. }
  by rewrite <- string_rev_app2, string_rev_involutive.
Qed.

(** ** Hexadecimal digits *)

Lemma hex_digits a :
  hex_value (hex_digit (nat_of_ascii a / 16)) = Some (nat_of_ascii a / 16) /\
  hex_value (hex_digit (nat_of_ascii a mod 16)) = Some (nat_of_ascii a mod 16) /\
  lower (hex_digit (nat_of_ascii a / 16)) = hex_digit (nat_of_ascii a / 16) /\
  lower (hex_digit (nat_of_ascii a mod 16)) = hex_digit (nat_of_ascii a mod 16) /\
  graphic (hex_digit (nat_of_ascii a / 16)) = true /\ graphic (hex_digit (nat_of_ascii a mod 16)) = true.
Proof. by destruct a as [[][][][][][][][]]. Qed.

Lemma hex_roundtrip s : hex_decode (hex_encode s) = Some s.
Proof.
  induction s as [|a s IH]; [done|]. cbn [hex_encode hex_decode]. destruct (hex_digits a) as (-> & -> & _). cbn [mbind option_bind]. rewrite IH.
  cbn [mbind option_bind]. f_equal. rewrite <- (Nat.div_mod_eq (nat_of_ascii a) 16). by rewrite ascii_nat_embedding.
Qed.

Lemma hex_lower s : to_lower (hex_encode s) = hex_encode s.
Proof. induction s as [|a s IH]; [done|]. cbn [hex_encode to_lower]. destruct (hex_digits a) as (_ & _ & -> & -> & _). by rewrite IH. Qed.

Lemma hex_graphic s : string_forall graphic (hex_encode s) = true.
Proof. induction s as [|a s IH]; [done|]. cbn [hex_encode string_forall]. destruct (hex_digits a) as (_ & _ & _ & _ & -> & ->). by rewrite IH. Qed.

Lemma to_lower_app s t : to_lower (s +:+ t) = to_lower s +:+ to_lower t.
Proof. induction s as [|a s IH]; [done|]. cbn. f_equal. exact IH. Qed.

#[export] Hint Rewrite trim_space_idem : mmo.
#[export] Hint Rewrite trim_space_graphic using done : mmo.

(** * Messages as strings: [fmt.Sprintf] of the verbs the program uses on strings, integers and errors

    Every verb prints the next argument. *)
Fixpoint fill (f : string) (args : list string) : string :=
  match f with
  | EmptyString => EmptyString
  | String "%" (String _ f') =>
      match args with
      | a :: args => (a +:+ fill f' args)%string
      | [] => fill f' []
      end
  | String c f' => String c (fill f' args)
  end.

Fixpoint sprint_arg (a : arg) : string :=
  match a with
  | AStr s => s
  | AInt z => itoa z
  | ATxt (Fmt f args) => fill f (map sprint_arg args)
  end.

Definition sprint (t : text) : string := sprint_arg (ATxt t).

Example sprint_nested :
  sprint (Fmt "a=%d: %v" [AInt (-12); ATxt (Fmt "cell %s" [AStr "x"])]) = "a=-12: cell x"%string.
Proof. reflexivity. Qed.
