(* ===== verification/HostPort.v ===== *)
(** [net.SplitHostPort], [net.JoinHostPort], the byte indices of [strings], and [strconv.ParseInt] on 32
    bits, with the round trips of addresses and decimal numbers. *)
From Stdlib Require Import Ascii ZArith Lia.
From S2P Require Import Prelude GoString.
Local Open Scope string_scope.

(** * Byte indices and slices *)

(** [strings.IndexByte] and [strings.LastIndexByte]; [None] is [-1]. *)
Fixpoint index_byte (c : ascii) (s : string) : option nat :=
  match s with
  | EmptyString => None
  | String a s' => if byte_eqb a c then Some 0 else S <$> index_byte c s'
  end.

Fixpoint last_index_byte (c : ascii) (s : string) : option nat :=
  match s with
  | EmptyString => None
  | String a s' =>
      match last_index_byte c s' with
      | Some i => Some (S i)
      | None => if byte_eqb a c then Some 0 else None
      end
  end.

(** [s[:n]] and [s[n:]] *)
Fixpoint take_bytes (n : nat) (s : string) : string :=
  match n, s with S n, String a s' => String a (take_bytes n s') | _, _ => EmptyString end.
Fixpoint drop_bytes (n : nat) (s : string) : string :=
  match n, s with S n, String _ s' => drop_bytes n s' | O, _ => s | _, EmptyString => EmptyString end.

Definition has_byte (c : ascii) (s : string) : bool := match index_byte c s with Some _ => true | None => false end.

(** * Host and port *)

(** [net.AddrError] *)
Definition addrErr {A} (addr why : string) : result A :=
  Err (if String.eqb addr "" then errorf why [] else errorf "address %s: %s" [AStr addr; AStr why]).

(** The host, and from where on a square bracket is an error: an opening one, a closing one. *)
Definition split_host (hostport : string) (i : nat) : result (string * nat * nat) :=
  match hostport with
  | String "[" _ =>
      match index_byte "]" hostport with
      | None => addrErr hostport "missing ']' in address"
      | Some e =>
          if Nat.eqb (e + 1) (String.length hostport) then addrErr hostport "missing port in address"
          else if Nat.eqb (e + 1) i then Ok (take_bytes (e - 1) (drop_bytes 1 hostport), 1, e + 1)
          else if has_prefix (drop_bytes (e + 1) hostport) ":" then addrErr hostport "too many colons in address"
          else addrErr hostport "missing port in address"
      end
  | _ =>
      let host := take_bytes i hostport in
      if has_byte ":" host then addrErr hostport "too many colons in address" else Ok (host, 0, 0)
  end.

Definition SplitHostPort (hostport : string) : result (string * string) :=
  match last_index_byte ":" hostport with
  | None => addrErr hostport "missing port in address"
  | Some i =>
      '(host, j, k) ← split_host hostport i;
      if has_byte "[" (drop_bytes j hostport) then addrErr hostport "unexpected '[' in address"
      else if has_byte "]" (drop_bytes k hostport) then addrErr hostport "unexpected ']' in address"
      else Ok (host, drop_bytes (i + 1) hostport)
  end.

(** A host with a colon is a literal IPv6 address. *)
Definition JoinHostPort (host port : string) : string :=
  if has_byte ":" host then "[" +:+ host +:+ "]:" +:+ port else host +:+ ":" +:+ port.

(** * [strconv.ParseInt(s, 10, 32)] *)

Definition num_error {A} (s why : string) : result A := Err (errorf "strconv.ParseInt: parsing %q: %s" [AStr s; AStr why]).

(** [strconv.ParseUint] stops at the first byte that is not a digit and at the first overflow. *)
Inductive parsed := Value (n : Z) | ErrSyntax | ErrRange.

Fixpoint parse_digits (acc : Z) (s : string) : parsed :=
  match s with
  | EmptyString => Value acc
  | String c s' =>
      match digit c with
      | None => ErrSyntax
      | Some d => let n := (10 * acc + d)%Z in if (2 ^ 32 - 1 <? n)%Z then ErrRange else parse_digits n s'
      end
  end.

Definition ParseUint32 (s : string) : parsed := match s with EmptyString => ErrSyntax | _ => parse_digits 0 s end.

Definition ParseInt32 (s : string) : result Z :=
  let '(neg, body) :=
    match s with
    | String "+" r => (false, r)
    | String "-" r => (true, r)
    | _ => (false, s)
    end in
  match ParseUint32 body with
  | ErrSyntax => num_error s "invalid syntax"
  | ErrRange => num_error s "value out of range"
  | Value un =>
      if negb neg && (2 ^ 31 <=? un)%Z then num_error s "value out of range"
      else if (neg : bool) && (2 ^ 31 <? un)%Z then num_error s "value out of range"
      else Ok (if (neg : bool) then (- un)%Z else un)
  end.

Example split_join_v6 : SplitHostPort (JoinHostPort "::1" "80") = Ok ("::1", "80"). Proof. reflexivity. Qed.
Example split_cases :
  (is_ok ∘ SplitHostPort <$> ["a"; "a:b:c"; "[a"; "[a]"; "[a]b:1"; "[a]:b:1"; "a]:1"; "[[a]:1"; "[a]:1]"; ""; ":"; "[::1]:80"]) =
  [false; false; false; false; false; false; false; false; false; false; true; true].
Proof. reflexivity. Qed.
Example parse_limits : (is_ok ∘ ParseInt32 <$> ["2147483647"; "2147483648"; "-2147483648"; "-2147483649"; "+"; "-"; ""; "1_0"; "99999999999x"]) =
  [true; false; true; false; false; false; false; false; false]. Proof. reflexivity. Qed.

(** * Lemmas *)

Lemma has_byte_cons c a s : has_byte c (String a s) = byte_eqb a c || has_byte c s.
Proof. unfold has_byte. cbn. destruct (byte_eqb a c); [done|]. by destruct (index_byte c s). Qed.

Lemma has_byte_app c s t : has_byte c (s +:+ t) = has_byte c s || has_byte c t.
Proof.
  induction s as [|a s IH]; [done|]. change (String a s +:+ t) with (String a (s +:+ t)). by rewrite !has_byte_cons, IH, orb_assoc.
Qed.

(** A string of bytes of a class has none outside it. *)
Lemma has_byte_forall f c s : string_forall f s = true -> f c = false -> has_byte c s = false.
Proof.
  intros H Hc. induction s as [|a s IH]; [done|]. cbn in H. apply andb_true_iff in H as [Ha Hs].
  rewrite has_byte_cons, IH by done. destruct (Ascii.eqb_spec a c) as [->|]; [congruence|done].
Qed.

Lemma index_byte_app c s t : has_byte c s = false -> index_byte c (s +:+ String c t) = Some (String.length s).
Proof.
  induction s as [|a s IH]; intros H; cbn; [by rewrite Ascii.eqb_refl|].
  rewrite has_byte_cons in H. apply orb_false_iff in H as [-> H]. by rewrite IH.
Qed.

Lemma index_byte_inv c s i : index_byte c s = Some i -> exists p q, s = p +:+ String c q /\ has_byte c p = false /\ String.length p = i.
Proof.
  revert i. induction s as [|a s IH]; intros i; cbn; [done|].
  destruct (Ascii.eqb_spec a c) as [->|Hne]; [intros [= <-]; by exists "", s|].
  destruct (index_byte c s) as [j|]; [|done]. intros [= <-]. destruct (IH j eq_refl) as (p & q & -> & Hp & Hl).
  exists (String a p), q. split; [done|]. split; [|cbn; lia]. rewrite has_byte_cons, Hp. by apply Ascii.eqb_neq in Hne as ->.
Qed.

Lemma last_index_byte_None c s : last_index_byte c s = None <-> has_byte c s = false.
Proof.
  induction s as [|a s IH]; [done|]. rewrite has_byte_cons. cbn. destruct (last_index_byte c s) as [i|].
  - split; [done|]. intros [_ H]%orb_false_iff. by apply IH in H.
  - rewrite (proj1 IH eq_refl), orb_false_r. by destruct (byte_eqb a c).
Qed.

Lemma last_index_byte_app c s t : has_byte c t = false -> last_index_byte c (s +:+ String c t) = Some (String.length s).
Proof.
  intros Ht%last_index_byte_None. induction s as [|a s IH]; cbn; [by rewrite Ht, Ascii.eqb_refl|]. by rewrite IH.
Qed.

Lemma last_index_byte_inv c s i : last_index_byte c s = Some i -> exists p q, s = p +:+ String c q /\ has_byte c q = false /\ String.length p = i.
Proof.
  revert i. induction s as [|a s IH]; intros i; cbn; [done|]. destruct (last_index_byte c s) as [j|] eqn:Ej.
  - intros [= <-]. destruct (IH j eq_refl) as (p & q & -> & Hq & Hl). exists (String a p), q. split; [done|]. split; [done|cbn; lia].
  - destruct (Ascii.eqb_spec a c) as [->|]; [|done]. intros [= <-]. exists "", s. by apply last_index_byte_None in Ej.
Qed.

Lemma take_bytes_app s t : take_bytes (String.length s) (s +:+ t) = s.
Proof. induction s as [|a s IH]; cbn; [by destruct t|]. by rewrite IH. Qed.

Lemma drop_bytes_app s t : drop_bytes (String.length s) (s +:+ t) = t.
Proof. induction s as [|a s IH]; cbn; [by destruct t|done]. Qed.

Lemma drop_bytes_app_S s a t : drop_bytes (String.length s + 1) (s +:+ String a t) = t.
Proof. induction s as [|b s IH]; cbn; [by destruct t|done]. Qed.

(** ** Addresses *)

(** No square brackets. *)
Definition no_brackets (s : string) : Prop := has_byte "[" s = false /\ has_byte "]" s = false.

Definition is_address (s h p : string) : Prop :=
  no_brackets h /\ no_brackets p /\ has_byte ":" p = false /\
  (s = "[" +:+ h +:+ "]:" +:+ p \/ has_byte ":" h = false /\ s = h +:+ ":" +:+ p).

Lemma split_host_bracket h p :
  has_byte "]" h = false ->
  split_host ("[" +:+ h +:+ "]:" +:+ p) (String.length ("[" +:+ h +:+ "]")) = Ok (h, 1, String.length ("[" +:+ h +:+ "]")).
Proof.
  intros Hh. unfold split_host. change ("[" +:+ h +:+ "]:" +:+ p) with (String "[" (h +:+ String "]" (String ":" p))).
  change (index_byte "]" (String "[" (h +:+ String "]" (String ":" p)))) with (S <$> index_byte "]" (h +:+ String "]" (String ":" p))).
  rewrite index_byte_app by done. cbn [fmap option_fmap option_map].
  assert (String.length ("[" +:+ h +:+ "]") = S (String.length h) + 1) as ->.
  { change ("[" +:+ h +:+ "]") with (String "[" (h +:+ "]")). cbn [String.length]. rewrite string_length_app. cbn. lia. }
  assert (Nat.eqb (S (String.length h) + 1) (String.length (String "[" (h +:+ String "]" (String ":" p)))) = false) as ->.
  { apply Nat.eqb_neq. cbn [String.length]. rewrite string_length_app. cbn. lia. }
  rewrite Nat.eqb_refl. cbn [drop_bytes]. replace (S (String.length h) - 1) with (String.length h) by lia. by rewrite take_bytes_app.
Qed.

Lemma split_address s h p : is_address s h p -> SplitHostPort s = Ok (h, p).
Proof.
  intros ([Hh1 Hh2] & [Hp1 Hp2] & Hp & Hs). unfold SplitHostPort. destruct Hs as [->|[Hh ->]].
  - assert ("[" +:+ h +:+ "]:" +:+ p = ("[" +:+ h +:+ "]") +:+ String ":" p) as Es by (cbn; f_equal; by rewrite <- string_app_assoc).
    rewrite Es at 1. rewrite last_index_byte_app by done. rewrite split_host_bracket by done. cbn [mbind result_bind].
    change (drop_bytes 1 ("[" +:+ h +:+ "]:" +:+ p)) with (h +:+ "]:" +:+ p).
    rewrite !has_byte_app, Hh1, Hp1. cbn [orb]. change (has_byte "[" "]:") with false. cbn [orb].
    rewrite Es, drop_bytes_app, has_byte_cons, Hp2. cbn [orb]. by rewrite drop_bytes_app_S.
  - change (h +:+ ":" +:+ p) with (h +:+ String ":" p). rewrite last_index_byte_app by done.
    assert (split_host (h +:+ String ":" p) (String.length h) = Ok (h, 0, 0)) as ->.
    { unfold split_host. rewrite take_bytes_app, Hh. destruct h as [|a h]; [done|]. cbn.
      rewrite has_byte_cons in Hh1. apply orb_false_iff in Hh1 as [Ha%Ascii.eqb_neq _].
      destruct a as [[] [] [] [] [] [] [] []]; done. }
    cbn [mbind result_bind drop_bytes]. rewrite !has_byte_app, !has_byte_cons, Hh1, Hh2, Hp1, Hp2. cbn [orb byte_eqb]. by rewrite drop_bytes_app_S.
Qed.

Lemma string_app_inj p q p' q' : p +:+ q = p' +:+ q' -> String.length p = String.length p' -> p = p' /\ q = q'.
Proof.
  revert p'. induction p as [|a p IH]; intros [|b p'] H Hl; try done. cbn in H, Hl. injection H as -> H.
  destruct (IH p' H ltac:(lia)) as [-> ->]. done.
Qed.

(** How a bracketed host was found. *)
Lemma split_host_bracket_inv s i h j k :
  has_prefix s "[" = true -> split_host s i = Ok (h, j, k) ->
  exists v, s = "[" +:+ h +:+ "]" +:+ v /\ has_byte "]" h = false /\ j = 1 /\ k = i /\ i = String.length ("[" +:+ h +:+ "]").
Proof.
  intros Hs. destruct s as [|a s]; [done|]. assert (a = "["%char) as ->.
  { unfold has_prefix, strip_prefix in Hs. by destruct (Ascii.eqb_spec "[" a). }
  clear Hs. unfold split_host. destruct (index_byte "]" (String "[" s)) as [e|] eqn:Ee; [|done].
  destruct (index_byte_inv _ _ _ Ee) as (u & v & Es & Hu & Hl). destruct u as [|b u]; [done|]. injection Es as <- ->.
  rewrite has_byte_cons in Hu. cbn [byte_eqb orb] in Hu. subst e. cbn [String.length].
  destruct (Nat.eqb _ (S _)) eqn:E1; [done|]. destruct (Nat.eqb_spec (S (String.length u) + 1) i) as [Hi|]; [|by destruct (has_prefix _ _)].
  cbn [drop_bytes]. replace (S (String.length u) - 1) with (String.length u) by lia. rewrite take_bytes_app.
  intros [= <- <- <-]. exists v. split; [done|]. split; [done|]. split; [done|]. split; [lia|].
  change ("[" +:+ u +:+ "]") with (String "[" (u +:+ "]")). cbn [String.length]. rewrite string_length_app. cbn. lia.
Qed.

Lemma split_host_plain_inv s i h j k :
  has_prefix s "[" = false -> split_host s i = Ok (h, j, k) -> h = take_bytes i s /\ has_byte ":" h = false /\ j = 0 /\ k = 0.
Proof.
  intros Hs. assert (split_host s i = if has_byte ":" (take_bytes i s) then addrErr s "too many colons in address" else Ok (take_bytes i s, 0, 0)) as ->.
  { destruct s as [|a s]; [done|]. revert Hs. unfold has_prefix. cbn. by destruct a as [[] [] [] [] [] [] [] []]. }
  destruct (has_byte ":" (take_bytes i s)) eqn:E; [by unfold addrErr|]. by intros [= <- <- <-].
Qed.

Lemma address_split s h p : SplitHostPort s = Ok (h, p) -> is_address s h p.
Proof.
  unfold SplitHostPort. destruct (last_index_byte ":" s) as [i|] eqn:Ei; [|by unfold addrErr].
  destruct (last_index_byte_inv _ _ _ Ei) as (q & p' & Es & Hp & Hi). intros ([[h' j] k] & Hh & Hr)%bind_Ok.
  destruct (has_byte "[" (drop_bytes j s)) eqn:E1; [by unfold addrErr in Hr|]. destruct (has_byte "]" (drop_bytes k s)) eqn:E2; [by unfold addrErr in Hr|].
  assert (drop_bytes (i + 1) s = p') as Hd by (rewrite Es, <- Hi; apply drop_bytes_app_S). rewrite Hd in Hr. injection Hr as -> ->.
  destruct (has_prefix s "[") eqn:Eb.
  - destruct (split_host_bracket_inv _ _ _ _ _ Eb Hh) as (v & Es' & Hb & -> & -> & Hl).
    assert (q = "[" +:+ h +:+ "]" /\ v = String ":" p) as [-> ->].
    { assert (("[" +:+ h +:+ "]") +:+ v = q +:+ String ":" p) as E by (rewrite <- Es, Es'; cbn; f_equal; by rewrite <- string_app_assoc).
      apply string_app_inj in E as [-> ->]; [done|congruence]. }
    rewrite Es' in E1. change (drop_bytes 1 ("[" +:+ h +:+ "]" +:+ String ":" p)) with (h +:+ "]" +:+ String ":" p) in E1.
    rewrite !has_byte_app, !has_byte_cons in E1. cbn [Ascii.eqb Bool.eqb orb] in E1. apply orb_false_iff in E1 as [H1 H2].
    rewrite Es, <- Hi, drop_bytes_app, has_byte_cons in E2. cbn [Ascii.eqb Bool.eqb orb] in E2. split; [by split|]. split; [by split|]. split; [done|]. by left.
  - destruct (split_host_plain_inv _ _ _ _ _ Eb Hh) as (-> & Hc & -> & ->). rewrite Es, <- Hi, take_bytes_app in *. cbn [drop_bytes] in *.
    rewrite has_byte_app, has_byte_cons in E1, E2. cbn [Ascii.eqb Bool.eqb orb] in E1, E2. apply orb_false_iff in E1 as [? ?], E2 as [? ?].
    split; [by split|]. split; [by split|]. split; [done|]. by right.
Qed.

(** [SplitHostPort] accepts exactly the addresses. *)
Lemma SplitHostPort_Ok s h p : SplitHostPort s = Ok (h, p) <-> is_address s h p.
Proof. split; [apply address_split|apply split_address]. Qed.

Lemma JoinHostPort_address h p : no_brackets h -> no_brackets p -> has_byte ":" p = false -> is_address (JoinHostPort h p) h p.
Proof. unfold JoinHostPort. intros Hh Hp Hc. destruct (has_byte ":" h) eqn:E; (split; [done|split; [done|split; [done|]]]); [by left|by right]. Qed.

(** ** Decimal numbers *)

Lemma digit_char n : (n < 10)%N -> digit (pretty_N_char n) = Some (Z.of_N n).
Proof. intros H. by destruct n as [|[[[[]|[]|]|[[]|[]|]|]|[[[]|[]|]|[[]|[]|]|]|]]; try done; lia. Qed.

Lemma pretty_digits acc n s : exists k, digits_from acc (pretty_N_go n s) = digits_from (acc * 10 ^ Z.of_nat k + Z.of_N n)%Z s.
Proof.
  revert s. induction (N.lt_wf_0 n) as [n _ IH]. intros s. destruct (decide (0 < n)%N) as [Hn|Hn].
  - rewrite pretty_N_go_step by done. assert (n / 10 < n)%N as Hlt by (apply N.div_lt; lia).
    assert (n mod 10 < 10)%N as Hm by (apply N.mod_lt; lia).
    destruct (IH _ Hlt (String (pretty_N_char (n mod 10)) s)) as [k ->]. exists (S k).
    cbn [digits_from]. rewrite digit_char by done. cbn [mbind option_bind].
    f_equal. rewrite Nat2Z.inj_succ, Z.pow_succ_r by lia. pose proof (N.div_mod n 10 ltac:(done)). nia.
  - assert (n = 0%N) as -> by lia. rewrite pretty_N_go_0. exists 0. f_equal. lia.
Qed.

Lemma digits_pretty n : digits_from 0 (pretty n) = Some (Z.of_N n).
Proof.
  unfold pretty, pretty_N. destruct (decide (n = 0%N)) as [->|_]; [done|].
  destruct (pretty_digits 0 n "") as [k ->]. done.
Qed.

Lemma digit_range c d : digit c = Some d -> (0 <= d < 10)%Z.
Proof.
  unfold digit. destruct (Nat.leb_spec 48 (nat_of_ascii c)); [|done]. destruct (Nat.leb_spec (nat_of_ascii c) 57); [|done].
  intros [= <-]. lia.
Qed.

Lemma digits_from_le s acc v : (0 <= acc)%Z -> digits_from acc s = Some v -> (acc <= v)%Z.
Proof.
  revert acc. induction s as [|c s IH]; intros acc Ha; cbn [digits_from]; [intros [= ->]; lia|].
  intros (d & Hd%digit_range & H)%bind_Some. apply IH in H; lia.
Qed.

(** The parser with the overflow check agrees with the plain one below the limit. *)
Lemma parse_digits_value s acc v : (0 <= acc)%Z -> digits_from acc s = Some v -> (v < 2 ^ 32)%Z -> parse_digits acc s = Value v.
Proof.
  revert acc. induction s as [|c s IH]; intros acc Ha; cbn [digits_from parse_digits]; [by intros [= ->] _|].
  intros (d & Hd & H)%bind_Some Hv. rewrite Hd. apply digit_range in Hd.
  pose proof (digits_from_le s (10 * acc + d) v ltac:(lia) H). destruct (Z.ltb_spec (2 ^ 32 - 1) (10 * acc + d)); [lia|]. apply IH; [lia|done|done].
Qed.

Lemma pretty_nonempty (n : N) : exists c s, pretty n = String c s /\ digit c <> None.
Proof.
  pose proof (digits_pretty n) as H. destruct (pretty n) as [|c s] eqn:E.
  - destruct (itoa_graphic (Z.of_N n)) as [_ Hn]. unfold itoa in Hn. by destruct n.
  - exists c, s. split; [done|]. cbn [digits_from] in H. by destruct (digit c).
Qed.

(** Reading the decimal numeral of a number gives the number: a machine integer, and 32 bits. *)
Lemma itoa_cases z :
  exists c s, digit c <> None /\ digits_from 0 (String c s) = Some (Z.abs z) /\
  itoa z = if (z <? 0)%Z then String "-" (String c s) else String c s.
Proof.
  destruct (pretty_nonempty (Z.abs_N z)) as (c & s & E & Hc). exists c, s. split; [done|].
  rewrite <- E, digits_pretty. split; [by rewrite N2Z.inj_abs_N|]. unfold itoa, pretty, pretty_Z. by destruct z.
Qed.

Lemma atoi_itoa z : (- 2 ^ 63 <= z < 2 ^ 63)%Z -> atoi (itoa z) = Some z.
Proof.
  intros Hz. destruct (itoa_cases z) as (c & s & Hc & Hd & ->). unfold atoi. destruct (Z.ltb_spec z 0).
  - rewrite Hd. cbn [mbind option_bind]. rewrite Z.abs_neq, Z.opp_involutive by lia. by destruct (_ && _) eqn:E; [|lia].
  - assert ((match String c s with String "-" r => (true, r) | String "+" r => (false, r) | _ => (false, String c s) end) = (false, String c s)) as ->.
    { by destruct c as [[] [] [] [] [] [] [] []]. }
    rewrite Hd. cbn [mbind option_bind]. rewrite Z.abs_eq by lia. by destruct (_ && _) eqn:E; [|lia].
Qed.

Lemma ParseInt32_itoa z : (- 2 ^ 31 <= z < 2 ^ 31)%Z -> ParseInt32 (itoa z) = Ok z.
Proof.
  intros Hz. destruct (itoa_cases z) as (c & s & Hc & Hd & ->). unfold ParseInt32.
  assert (ParseUint32 (String c s) = Value (Z.abs z)) as Hu by (apply parse_digits_value; [done|done|lia]).
  destruct (Z.ltb_spec z 0).
  - rewrite Hu. cbn [negb andb]. destruct (Z.ltb_spec (2 ^ 31) (Z.abs z)); [lia|]. f_equal. lia.
  - assert ((match String c s with String "+" r => (false, r) | String "-" r => (true, r) | _ => (false, String c s) end) = (false, String c s)) as ->.
    { by destruct c as [[] [] [] [] [] [] [] []]. }
    rewrite Hu. cbn [negb andb]. destruct (Z.leb_spec (2 ^ 31) (Z.abs z)); [lia|]. f_equal. lia.
Qed.

(** A numeral has no byte of an address. *)
Lemma itoa_no_byte z c : c <> "-"%char -> digit c = None -> has_byte c (itoa z) = false.
Proof.
  intros Hm Hc. assert (forall s acc v, digits_from acc s = Some v -> has_byte c s = false) as Hn.
  { induction s as [|a s IH]; intros acc v; [done|]. cbn [digits_from]. intros (d & Hd & H)%bind_Some.
    rewrite has_byte_cons, (IH _ _ H). destruct (Ascii.eqb_spec a c) as [->|]; [congruence|done]. }
  destruct (itoa_cases z) as (a & s & _ & Hd & ->). destruct (z <? 0)%Z; [|by eapply Hn].
  rewrite has_byte_cons, (Hn _ _ _ Hd). by apply not_eq_sym, Ascii.eqb_neq in Hm as ->.
Qed.

Lemma itoa_port z : no_brackets (itoa z) /\ has_byte ":" (itoa z) = false.
Proof. split; [split|]; by apply itoa_no_byte. Qed.

(** ** Lists of words *)

(** A word of a list: graphic bytes, no comma. *)
Definition list_word (w : string) : Prop := string_forall graphic w = true /\ has_byte "," w = false /\ w <> "".

Lemma has_byte_false_forall c s : has_byte c s = false -> string_forall (fun a => negb (byte_eqb a c)) s = true.
Proof.
  induction s as [|a s IH]; [done|]. rewrite has_byte_cons. intros [Ha Hs]%orb_false_iff. cbn [string_forall].
  by rewrite Ha, (IH Hs).
Qed.

Lemma join_graphic ws : Forall list_word ws -> string_forall graphic (join "," ws) = true.
Proof.
  induction 1 as [|w ws (Hg & _ & _) HF IH]; [done|]. unfold join. destruct ws as [|w' ws]; [done|].
  change (string_forall graphic (w +:+ String "," (join "," (w' :: ws))) = true).
  rewrite string_forall_app, Hg. cbn [string_forall]. by rewrite IH.
Qed.

(** Words joined by commas are read back. *)
Lemma csv_words_join ws : Forall list_word ws -> csv_words (join "," ws) = ws.
Proof.
  intros HF. unfold csv_words. destruct ws as [|w0 ws]; [done|].
  rewrite split_on_join; [|done|eapply Forall_impl; [exact HF|]; intros w (_ & Hw & _); by apply has_byte_false_forall].
  generalize dependent (w0 :: ws). clear w0 ws. induction 1 as [|w ws (Hg & _ & Hne) HF IH]; [done|].
  cbn [fmap list_fmap]. rewrite trim_space_graphic, filter_cons, decide_True by done. f_equal. exact IH.
Qed.
