(* ===== verification/GoNumber.v ===== *)
(** Go's readers of numbers from text: [strconv.ParseFloat] and [time.ParseDuration], with the rules of
    the Standard Library of Go - the syntax with signs, underscores, hexadecimal floats and infinities, the
    correctly rounded value, the overflow checks. *)
From Stdlib Require Import Ascii ZArith Lia.
From Stdlib.Floats Require Import SpecFloat.
From S2P Require Import Prelude GoFloat GoString HostPort.
Local Open Scope string_scope.

(** * [strconv.ParseFloat(s, 64)] *)

(** What [readFloat] has seen of the digits: the mantissa of all of them and, as in Go, the count of the
    significant ones and the position of the point. *)
Record mantissa := mkMantissa { mn_value : Z; mn_nd : Z; mn_dp : Z; mn_sawdot : bool; mn_sawdigits : bool }.
Definition no_mantissa : mantissa := mkMantissa 0 0 0 false false.

Definition float_digit (hex : bool) (c : ascii) : option Z :=
  if hex then n ← hex_value c; Some (Z.of_nat n) else digit c.

Definition add_digit (base d : Z) (m : mantissa) : mantissa :=
  if (d =? 0)%Z && (mn_nd m =? 0)%Z then mkMantissa (mn_value m) (mn_nd m) (mn_dp m - 1) (mn_sawdot m) true
  else mkMantissa (mn_value m * base + d) (mn_nd m + 1) (mn_dp m) (mn_sawdot m) true.

(** The digits with at most one point; the rest of the text. *)
Fixpoint read_mantissa (hex : bool) (s : string) (m : mantissa) : mantissa * string :=
  match s with
  | EmptyString => (m, s)
  | String c r =>
      if byte_eqb c "_" then read_mantissa hex r m
      else if byte_eqb c "." then
        if mn_sawdot m then (m, s) else read_mantissa hex r (mkMantissa (mn_value m) (mn_nd m) (mn_nd m) true (mn_sawdigits m))
      else match float_digit hex c with
           | Some d => read_mantissa hex r (add_digit (if hex then 16 else 10) d m)
           | None => (m, s)
           end
  end.

(** The exponent: once it has reached 10000 further digits are read and dropped. *)
Fixpoint read_exponent (s : string) (e : Z) : Z * string :=
  match s with
  | EmptyString => (e, s)
  | String c r =>
      if byte_eqb c "_" then read_exponent r e
      else match digit c with
           | Some d => read_exponent r (if (e <? 10000)%Z then e * 10 + d else e)
           | None => (e, s)
           end
  end.

Definition starts_with_digit (s : string) : bool :=
  match s with String c _ => match digit c with Some _ => true | None => false end | EmptyString => false end.

Definition signed_exponent (s : string) : option (Z * string) :=
  let '(neg, s) := match s with String "+" r => (false, r) | String "-" r => (true, r) | _ => (false, s) end in
  if starts_with_digit s then let '(e, s) := read_exponent s 0 in Some ((if (neg : bool) then (- e) else e)%Z, s) else None.

(** Underscores stand between digits; the prefix of a base counts as one. [saw] is the class of the last
    byte: 0 for a digit, 1 for an underscore, 2 for anything else. *)
Fixpoint underscores_between (hex : bool) (saw : Z) (s : string) : bool :=
  match s with
  | EmptyString => negb (saw =? 1)%Z
  | String c r =>
      match float_digit hex c with
      | Some _ => underscores_between hex 0 r
      | None => if byte_eqb c "_" then (saw =? 0)%Z && underscores_between hex 1 r
                else negb (saw =? 1)%Z && underscores_between hex 2 r
      end
  end.

Definition unsign (s : string) : bool * string :=
  match s with String "-" r => (true, r) | String "+" r => (false, r) | _ => (false, s) end.

Definition underscoreOK (s : string) : bool :=
  let s := snd (unsign s) in
  match s with
  | String "0" (String c r) =>
      if byte_eqb (lower c) "b" || byte_eqb (lower c) "o" || byte_eqb (lower c) "x"
      then underscores_between (byte_eqb (lower c) "x") 0 r else underscores_between false 2 s
  | _ => underscores_between false 2 s
  end.

(** The float nearest to [m * 10^e] or [m * 2^e], ties to even. *)
Definition sign_Z (neg : bool) (m : Z) : Z := if neg then (- m)%Z else m.
Definition round_decimal (neg : bool) (m e : Z) : f64 :=
  if (m =? 0)%Z then S754_zero neg
  else if (0 <=? e)%Z then binary_normalize 53 1024 (sign_Z neg (m * 10 ^ e)) 0 neg
  else let '(q, e', l) := SFdiv_core_binary 53 1024 m 0 (10 ^ (- e)) 0 in binary_round_aux 53 1024 neg q e' l.
Definition round_binary (neg : bool) (m e : Z) : f64 := binary_normalize 53 1024 (sign_Z neg m) e neg.

Definition syntaxError {A} (s : string) : result A := Err (errorf "strconv.ParseFloat: parsing %q: invalid syntax" [AStr s]).
Definition rangeError {A} (s : string) : result A := Err (errorf "strconv.ParseFloat: parsing %q: value out of range" [AStr s]).

(** [readFloat] and the rounding; the whole text has to be used. *)
Definition parse_number (orig : string) (neg : bool) (s : string) : result f64 :=
  let '(hex, s) :=
    match s with
    | String "0" (String x (String c r)) => if byte_eqb (lower x) "x" then (true, String c r) else (false, s)
    | _ => (false, s)
    end in
  let '(m, s) := read_mantissa hex s no_mantissa in
  if negb (mn_sawdigits m) then syntaxError orig else
  let dp := if mn_sawdot m then mn_dp m else mn_nd m in
  let scale := if (hex : bool) then 4%Z else 1%Z in
  let exponent :=
    match s with
    | String c r => if byte_eqb (lower c) (if (hex : bool) then "p" else "e") then signed_exponent r
                    else if (hex : bool) then None else Some (0%Z, s)
    | EmptyString => if (hex : bool) then None else Some (0%Z, s)
    end in
  match exponent with
  | Some (e, EmptyString) =>
      if has_byte "_" orig && negb (underscoreOK orig) then syntaxError orig else
      let exp := ((dp - mn_nd m) * scale + e)%Z in
      let v := if (hex : bool) then round_binary neg (mn_value m) exp else round_decimal neg (mn_value m) exp in
      if is_finite v then Ok v else rangeError orig
  | _ => syntaxError orig
  end.

Definition ParseFloat64 (s : string) : result f64 :=
  let '(neg, body) := unsign s in
  if String.eqb (to_lower body) "inf" || String.eqb (to_lower body) "infinity" then Ok (S754_infinity neg)
  else if String.eqb (to_lower s) "nan" then Ok S754_nan
  else parse_number s neg body.

Example parse_floats :
  ParseFloat64 "0.05" = Ok (S754_finite false 7205759403792794 (-57)) /\
  ParseFloat64 "-1e3" = Ok (f64_of_Z (-1000)) /\
  ParseFloat64 "1_000.5" = Ok (f64_of 2001 (-1)) /\
  ParseFloat64 "0x1p-2" = Ok (f64_of 1 (-2)) /\
  ParseFloat64 "+Inf" = Ok (S754_infinity false) /\
  ParseFloat64 "NaN" = Ok S754_nan /\
  ParseFloat64 "9007199254740993" = Ok (f64_of_Z 9007199254740992) /\
  ParseFloat64 "1.7976931348623157e308" = Ok (S754_finite false 9007199254740991 971) /\
  ParseFloat64 "4.9e-324" = Ok (S754_finite false 1 (-1074)) /\
  is_ok (ParseFloat64 "1e309") = false /\ is_ok (ParseFloat64 "1._5") = false /\ is_ok (ParseFloat64 "") = false /\
  is_ok (ParseFloat64 "+nan") = false /\ is_ok (ParseFloat64 "0x10") = false /\ is_ok (ParseFloat64 "1 ") = false.
Proof. vm_compute. repeat split. Qed.

(** * [time.ParseDuration] *)

(** [leadingInt]: [None] when it would exceed 2^63. *)
Fixpoint leadingInt (s : string) (x : Z) : option (Z * string) :=
  match s with
  | EmptyString => Some (x, s)
  | String c r =>
      match digit c with
      | None => Some (x, s)
      | Some d =>
          if (2 ^ 63 / 10 <? x)%Z then None
          else let x := (x * 10 + d)%Z in if (2 ^ 63 <? x)%Z then None else leadingInt r x
      end
  end.

(** [leadingFraction]: digits that no longer fit are skipped. *)
Fixpoint leadingFraction (s : string) (x : Z) (scale : f64) (overflow : bool) : Z * f64 * string :=
  match s with
  | EmptyString => (x, scale, s)
  | String c r =>
      match digit c with
      | None => (x, scale, s)
      | Some d =>
          if overflow then leadingFraction r x scale overflow
          else if ((2 ^ 63 - 1) / 10 <? x)%Z then leadingFraction r x scale true
          else let y := (x * 10 + d)%Z in
               if (2 ^ 63 <? y)%Z then leadingFraction r x scale true
               else leadingFraction r y (fmul scale (f64_of_Z 10)) overflow
      end
  end.

Definition number_byte (c : ascii) : bool := byte_eqb c "." || match digit c with Some _ => true | None => false end.

(** The bytes up to the next digit or point. *)
Fixpoint take_unit (s : string) : string * string :=
  match s with
  | EmptyString => (EmptyString, s)
  | String c r =>
      if number_byte c then (EmptyString, s)
      else let '(u, rest) := take_unit r in (String c u, rest)
  end.

(** [unitMap]; micro is written with U+00B5 or U+03BC too. *)
Definition micro (a b : N) : string := String (ascii_of_N a) (String (ascii_of_N b) "s").
Definition unitMap (u : string) : option Z :=
  if String.eqb u "ns" then Some 1%Z
  else if String.eqb u "us" || String.eqb u (micro 194 181) || String.eqb u (micro 206 188) then Some 1000%Z
  else if String.eqb u "ms" then Some 1000000%Z
  else if String.eqb u "s" then Some 1000000000%Z
  else if String.eqb u "m" then Some 60000000000%Z
  else if String.eqb u "h" then Some 3600000000000%Z
  else None.

(** The conversion [uint64(f)] of a float that is not negative. *)
Definition uint64_of_f64 (f : f64) : Z := (default 0 (floorZ f) mod 2 ^ 64)%Z.

(** The part after the point: its digits, their scale, the rest of the text, and whether there are any. *)
Definition duration_fraction (s : string) : Z * f64 * string * bool :=
  match s with
  | String c r =>
      if byte_eqb c "." then
        let '(f, scale, rest) := leadingFraction r 0 (f64_of_Z 1) false in
        (f, scale, rest, negb (Nat.eqb (String.length rest) (String.length r)))
      else (0%Z, f64_of_Z 1, s, false)
  | EmptyString => (0%Z, f64_of_Z 1, s, false)
  end.

(** One number with its unit: its nanoseconds and the rest of the text. *)
Definition duration_term (s : string) : option (Z * string) :=
  match s with
  | EmptyString => None
  | String c _ =>
      if number_byte c then
        '(v, s1) ← leadingInt s 0;
        let pre := negb (Nat.eqb (String.length s1) (String.length s)) in
        let '(f, scale, s2, post) := duration_fraction s1 in
        if negb pre && negb post then None else
        let '(u, s3) := take_unit s2 in
        unit ← (if String.eqb u "" then None else unitMap u);
        if (2 ^ 63 / unit <? v)%Z then None else
        let v := (v * unit)%Z in
        if (0 <? f)%Z then
          let v := ((v + uint64_of_f64 (fmul (f64_of_Z f) (fdiv (f64_of_Z unit) scale))) mod 2 ^ 64)%Z in
          if (2 ^ 63 <? v)%Z then None else Some (v, s3)
        else Some (v, s3)
      else None
  end.

(** The sum of the terms; each uses up some of the text, so its length bounds their number. *)
Fixpoint duration_terms (fuel : nat) (s : string) (d : Z) : option Z :=
  match s, fuel with
  | EmptyString, _ => Some d
  | _, O => None
  | _, S fuel =>
      '(v, rest) ← duration_term s;
      let d := ((d + v) mod 2 ^ 64)%Z in
      if (2 ^ 63 <? d)%Z then None else duration_terms fuel rest d
  end.

(** [None] is an error. *)
Definition ParseDuration (orig : string) : option Z :=
  let '(neg, s) := unsign orig in
  if String.eqb s "0" then Some 0%Z
  else if String.eqb s "" then None
  else d ← duration_terms (String.length s) s 0;
       if (neg : bool) then Some (- d)%Z else if (2 ^ 63 - 1 <? d)%Z then None else Some d.

Example parse_durations :
  ParseDuration "1500ms" = Some 1500000000%Z /\ ParseDuration "-1.5h" = Some (-5400000000000)%Z /\
  ParseDuration "1h15m30.918273645s" = Some 4530918273645%Z /\ ParseDuration "0" = Some 0%Z /\
  ParseDuration ".5s" = Some 500000000%Z /\ ParseDuration "9223372036854775807ns" = Some (2 ^ 63 - 1)%Z /\
  ParseDuration "-9223372036854775808ns" = Some (- 2 ^ 63)%Z /\ ParseDuration "9223372036854775808ns" = None /\
  ParseDuration "10" = None /\ ParseDuration "" = None /\ ParseDuration ".s" = None /\ ParseDuration "3d" = None /\
  ParseDuration "0.100000000000000000000h" = Some 360000000000%Z /\ ParseDuration "2562048h" = None.
Proof. vm_compute. repeat split. Qed.

(** ** Lemmas *)

Lemma leadingInt_length s x v r : leadingInt s x = Some (v, r) -> String.length r <= String.length s.
Proof.
  revert x. induction s as [|c s IH]; intros x; cbn [leadingInt]; [by intros [= _ <-]|].
  destruct (digit c); [|by intros [= _ <-]]. destruct (_ <? x)%Z; [done|]. cbv zeta.
  destruct (_ <? _)%Z; [done|]. intros H%IH. cbn [String.length]. lia.
Qed.

Lemma leadingFraction_length s x scale o f scale' r :
  leadingFraction s x scale o = (f, scale', r) -> String.length r <= String.length s.
Proof.
  revert x scale o. induction s as [|c s IH]; intros x scale o; cbn [leadingFraction]; [by intros [= _ _ <-]|].
  destruct (digit c); [|by intros [= _ _ <-]]. cbv zeta.
  destruct o; [|destruct (_ <? x)%Z; [|destruct (_ <? _)%Z]]; intros H%IH; cbn [String.length]; lia.
Qed.

Lemma take_unit_length s u r : take_unit s = (u, r) -> String.length u + String.length r = String.length s.
Proof.
  revert u r. induction s as [|c s IH]; intros u r; cbn [take_unit]; [by intros [= <- <-]|].
  destruct (number_byte c); [by intros [= <- <-]|]. destruct (take_unit s) as [u' r'] eqn:E.
  intros [= <- <-]. cbn [String.length]. specialize (IH _ _ eq_refl). lia.
Qed.

Lemma duration_fraction_length s f scale r post : duration_fraction s = (f, scale, r, post) -> String.length r <= String.length s.
Proof.
  destruct s as [|c s]; cbn [duration_fraction]; [by intros [= _ _ <- _]|]. destruct (byte_eqb c "."); [|by intros [= _ _ <- _]].
  destruct (leadingFraction _ _ _ _) as [[f1 sc1] r1] eqn:E. intros [= _ _ <- _]. apply leadingFraction_length in E.
  cbn [String.length]. lia.
Qed.

(** A term uses up at least its unit. *)
Lemma duration_term_length s v r : duration_term s = Some (v, r) -> String.length r < String.length s.
Proof.
  destruct s as [|c s']; [done|]. unfold duration_term. destruct (number_byte c); [|done].
  generalize (String c s') as s. intros s.
  destruct (leadingInt s 0) as [[v0 s1]|] eqn:E1; [|done]. cbn [mbind option_bind].
  apply leadingInt_length in E1. destruct (duration_fraction s1) as [[[f scale] s2] post] eqn:E2.
  apply duration_fraction_length in E2.
  match goal with |- (if ?b then _ else _) = _ -> _ => destruct b; [done|] end.
  destruct (take_unit s2) as [u s3] eqn:E3. pose proof (take_unit_length _ _ _ E3) as H3.
  destruct (String.eqb_spec u ""); [done|]. destruct (unitMap u) as [unit|]; [|done]. cbn [mbind option_bind].
  assert (String.length s3 < String.length s) as Hl by (destruct u; [done|cbn [String.length] in H3; lia]).
  destruct (_ <? _)%Z; [done|]. destruct (0 <? f)%Z; [cbv zeta; destruct (_ <? _)%Z; [done|]|]; by intros [= _ <-].
Qed.

(** The number of terms never runs out of fuel. *)
Lemma duration_terms_fuel n s d : String.length s <= n -> duration_terms n s d = duration_terms (String.length s) s d.
Proof.
  revert n s d. assert (forall k n s d, String.length s <= k -> String.length s <= n ->
    duration_terms n s d = duration_terms k s d) as H.
  { induction k as [|k IH]; intros n s d Hk Hn; destruct s as [|c s]; cbn [String.length] in *; try lia; try (by destruct n).
    - destruct n as [|n]; [lia|]. cbn [duration_terms].
      destruct (duration_term (String c s)) as [[v r]|] eqn:E; [|done]. cbn [mbind option_bind].
      apply duration_term_length in E. cbn [String.length] in E. cbv zeta.
      destruct (_ <? _)%Z; [done|]. apply IH; lia. }
  intros n s d Hn. by apply H.
Qed.

Lemma duration_terms_range n s d d' : (0 <= d <= 2 ^ 63)%Z -> duration_terms n s d = Some d' -> (0 <= d' <= 2 ^ 63)%Z.
Proof.
  revert s d. induction n as [|n IH]; intros s d Hd; destruct s as [|c s]; cbn [duration_terms]; try done;
    try (by intros [= <-]).
  destruct (duration_term _) as [[v r]|]; [|done]. cbn [mbind option_bind]. cbv zeta.
  destruct (Z.ltb_spec (2 ^ 63) ((d + v) mod 2 ^ 64)); [done|]. apply IH.
  pose proof (Z.mod_pos_bound (d + v) (2 ^ 64) ltac:(lia)). lia.
Qed.

(** A duration is an [int64]. *)
Lemma ParseDuration_range s d : ParseDuration s = Some d -> (- 2 ^ 63 <= d < 2 ^ 63)%Z.
Proof.
  unfold ParseDuration. destruct (unsign s) as [neg t]. destruct (String.eqb _ _); [intros [= <-]; lia|].
  destruct (String.eqb _ _); [done|]. destruct (duration_terms _ _ _) as [x|] eqn:E; [|done].
  apply duration_terms_range in E; [|lia]. cbn [mbind option_bind]. destruct neg; [intros [= <-]; lia|].
  destruct (Z.ltb_spec (2 ^ 63 - 1) x); [done|]. intros [= <-]. lia.
Qed.

(** ** Whole numbers *)

Lemma leadingInt_digits s acc v u :
  (0 <= acc)%Z -> digits_from acc s = Some v -> (v <= 2 ^ 63)%Z -> starts_with_digit u = false ->
  leadingInt (s +:+ u) acc = Some (v, u).
Proof.
  revert acc. induction s as [|c s IH]; intros acc Ha Hd Hv Hu.
  - injection Hd as <-. destruct u as [|c u]; [done|]. cbn in Hu |- *. by destruct (digit c).
  - cbn [digits_from] in Hd. cbn [String.append leadingInt]. destruct (digit c) as [d|] eqn:Ed; [|done].
    cbn [mbind option_bind] in Hd. pose proof (digit_range _ _ Ed).
    pose proof (digits_from_le s (10 * acc + d) v ltac:(lia) Hd) as Hle.
    assert ((2 ^ 63 / 10 <? acc)%Z = false) as -> by (apply Z.ltb_ge; apply Z.div_le_lower_bound; lia).
    cbv zeta. rewrite (Z.mul_comm acc 10).
    assert ((2 ^ 63 <? 10 * acc + d)%Z = false) as -> by (apply Z.ltb_ge; lia). apply IH; auto; lia.
Qed.

Lemma take_unit_plain u :
  string_forall (fun c => negb (number_byte c)) u = true ->
  take_unit u = (u, "").
Proof.
  induction u as [|c u IH]; [done|]. cbn [string_forall take_unit]. intros [Hc Hu]%andb_true_iff.
  apply negb_true_iff in Hc. by rewrite Hc, (IH Hu).
Qed.

Lemma unitMap_cases u unit : unitMap u = Some unit ->
  u <> "" /\ starts_with_digit u = false /\ duration_fraction u = (0%Z, f64_of_Z 1, u, false) /\
  take_unit u = (u, "") /\ (0 < unit)%Z.
Proof.
  unfold unitMap. intros H.
  repeat match type of H with
  | (if ?b then _ else _) = _ => destruct b eqn:E; [|clear E]
  end; try done; injection H as <-;
  repeat match goal with
  | E : (_ || _) = true |- _ => apply orb_true_iff in E as [E|E]
  | E : String.eqb _ _ = true |- _ => apply String.eqb_eq in E; subst u
  end; split_and!; try done; vm_compute; done.
Qed.

(** A whole number of a unit, as an operator writes it, is read as that many nanoseconds. *)
Lemma ParseDuration_whole n u unit :
  unitMap u = Some unit -> (0 <= n)%Z -> (n * unit < 2 ^ 63)%Z -> ParseDuration (itoa n +:+ u) = Some (n * unit)%Z.
Proof.
  intros Hu Hn Hlt. destruct (unitMap_cases u unit Hu) as (Hne & Hnd & Hdot & Htake & Hpos).
  destruct (itoa_cases n) as (c & s & Hc & Hd & Ei). rewrite (proj2 (Z.ltb_ge n 0)) in Ei by lia.
  rewrite (Z.abs_eq n), <- Ei in Hd by lia.
  unfold ParseDuration.
  assert (unsign (itoa n +:+ u) = (false, itoa n +:+ u)) as ->.
  { rewrite Ei. cbn [String.append unsign]. clear -Hc. by destruct c as [[] [] [] [] [] [] [] []]. }
  destruct (String.eqb_spec (itoa n +:+ u) "0") as [E|_].
  { exfalso. rewrite Ei in E. cbn [String.append] in E. injection E as -> E.
    destruct s; [by destruct u|done]. }
  destruct (String.eqb_spec (itoa n +:+ u) "") as [E|_]; [rewrite Ei in E; done|].
  assert (Hlen : 1 <= String.length (itoa n)) by (rewrite Ei; cbn [String.length]; lia).
  assert (duration_term (itoa n +:+ u) = Some (n * unit, "")%Z) as Ht.
  { assert (exists c', itoa n +:+ u = String c (s +:+ u) /\ c' = c) as (c' & Es' & _) by (exists c; by rewrite Ei).
    unfold duration_term. rewrite Es'. rewrite <- Es'.
    assert (number_byte c = true) as -> by (unfold number_byte; destruct (digit c); [apply orb_true_r|done]).
    rewrite (leadingInt_digits (itoa n) 0 n u ltac:(lia) Hd) by (done || nia). cbn [mbind option_bind].
    rewrite Hdot.
    rewrite string_length_app.
    assert (Nat.eqb (String.length u) (String.length (itoa n) + String.length u) = false) as -> by (apply Nat.eqb_neq; lia).
    cbn [negb andb]. rewrite Htake. destruct (String.eqb_spec u ""); [done|]. rewrite Hu. cbn [mbind option_bind].
    assert ((2 ^ 63 / unit <? n)%Z = false) as -> by (apply Z.ltb_ge; apply Z.div_le_lower_bound; lia).
    done. }
  destruct (itoa n +:+ u) as [|c0 s0] eqn:E0; [by rewrite Ei in E0|]. cbn [String.length duration_terms].
  rewrite Ht. cbn [mbind option_bind]. cbv zeta. rewrite Z.add_0_l, Z.mod_small by nia.
  assert ((2 ^ 63 <? n * unit)%Z = false) as -> by (apply Z.ltb_ge; lia).
  assert (forall k, duration_terms k "" (n * unit) = Some (n * unit)%Z) as -> by (by intros []).
  cbn [mbind option_bind]. by assert ((2 ^ 63 - 1 <? n * unit)%Z = false) as -> by (apply Z.ltb_ge; lia).
Qed.

(** The numeral of a machine integer is read as the nearest float. *)
Lemma digits_not_special s : starts_with_digit s = true ->
  String.eqb (to_lower s) "inf" || String.eqb (to_lower s) "infinity" = false /\ String.eqb (to_lower s) "nan" = false.
Proof.
  destruct s as [|c s]; [done|]. cbn [starts_with_digit]. intros Hc.
  assert (lower c = c /\ c <> "i"%char /\ c <> "n"%char) as (El & Hi & Hn).
  { clear s. by destruct c as [[] [] [] [] [] [] [] []]. }
  cbn [to_lower]. rewrite El. split; [apply orb_false_iff; split|]; apply String.eqb_neq; congruence.
Qed.

(** A float converted from an integer below 2^53 is finite. *)
Lemma f64_of_Z_finite z : (Z.abs z < 2 ^ 53)%Z -> is_finite (f64_of_Z z) = true.
Proof.
  intros Hz. assert (forall s p, (Zpos p < 2 ^ 53)%Z -> is_finite (binary_round 53 1024 s p 0) = true) as H.
  { intros s p Hp. unfold binary_round.
    assert (Zpos (digits2_pos p) <= 53)%Z as Hd.
    { assert (2 ^ (Zpos (digits2_pos p) - 1) <= Zpos p)%Z as Hle.
      { clear. induction p as [p IH|p IH|]; [| |done]; cbn [digits2_pos];
          rewrite Pos2Z.inj_succ; replace (Z.succ (Zpos (digits2_pos p)) - 1)%Z with (Z.succ (Zpos (digits2_pos p) - 1)) by lia;
          rewrite Z.pow_succ_r by lia; lia. }
      destruct (Z.le_gt_cases (Zpos (digits2_pos p)) 53) as [|Hgt]; [done|].
      pose proof (Z.pow_le_mono_r 2 53 (Zpos (digits2_pos p) - 1) ltac:(lia) ltac:(lia)). lia. }
    assert (forall d, (1 <= d <= 53)%Z -> fexp 53 1024 d = (d - 53)%Z) as Hf.
    { intros d ?. unfold fexp, emin. lia. }
    rewrite Z.add_0_r, Hf by lia. unfold shl_align. destruct (Zpos (digits2_pos p) - 53 - 0)%Z as [|q|q] eqn:E; [| lia |].
    - by rewrite round_canonical by (rewrite ?Z.add_0_r, ?Hf; lia).
    - rewrite round_canonical; [done| |lia]. rewrite digits2_shift, Hf; lia. }
  unfold f64_of_Z, f64_of, binary_normalize. destruct z; [done|apply H; lia|apply H; lia].
Qed.

Lemma read_digits s v w m :
  digits_from v s = Some w -> mn_value m = v -> (mn_nd m = 0 -> v = 0)%Z -> (0 <= mn_nd m)%Z -> mn_sawdot m = false ->
  mn_sawdigits m || starts_with_digit s = true ->
  exists m', read_mantissa false s m = (m', "") /\ mn_value m' = w /\ mn_sawdot m' = false /\ mn_sawdigits m' = true.
Proof.
  revert v m. induction s as [|c s IH]; intros v m Hd Hv H0 Hn Hdot Hs.
  - injection Hd as <-. exists m. cbn in Hs. rewrite orb_false_r in Hs. done.
  - cbn [digits_from] in Hd. destruct (digit c) as [d|] eqn:Ec; [|done]. cbn [mbind option_bind] in Hd.
    assert (byte_eqb c "_" = false /\ byte_eqb c "." = false) as [E1 E2].
    { split; apply Ascii.eqb_neq; intros ->; done. }
    cbn [read_mantissa float_digit]. rewrite E1, E2, Ec. eapply IH; [exact Hd|..]; unfold add_digit;
      destruct (Z.eqb_spec d 0), (Z.eqb_spec (mn_nd m) 0); cbn [andb mn_value mn_nd mn_sawdot mn_sawdigits]; try lia; done.
Qed.

Lemma parse_number_digits orig neg s n :
  starts_with_digit s = true -> digits_from 0 s = Some n -> has_byte "_" orig = false -> is_finite (round_decimal neg n 0) = true ->
  parse_number orig neg s = Ok (round_decimal neg n 0).
Proof.
  intros Hs Hd Hu Hf. unfold parse_number.
  assert (match s with String "0" (String x (String c r)) => if byte_eqb (lower x) "x" then (true, String c r) else (false, s)
          | _ => (false, s) end = (false, s)) as ->.
  { destruct s as [|a [|x [|c r]]]; try done; try (by destruct a as [[] [] [] [] [] [] [] []]).
    destruct (byte_eqb (lower x) "x") eqn:Ex; [|by destruct a as [[] [] [] [] [] [] [] []]].
    exfalso. cbn [digits_from] in Hd. destruct (digit a); [|done]. cbn [mbind option_bind] in Hd.
    clear -Hd Ex. by destruct x as [[] [] [] [] [] [] [] []]. }
  destruct (read_digits s 0 n no_mantissa Hd) as (m & -> & Hv & Hdot & Hdig); try done.
  rewrite Hdig, Hdot, Hu. cbn [negb andb]. cbv zeta. rewrite Z.sub_diag, Hv. change (0 * 1 + 0)%Z with 0%Z. by rewrite Hf.
Qed.

(** The numeral of an integer below 2^53 is read as that integer. *)
Lemma ParseFloat64_itoa z : (Z.abs z < 2 ^ 53)%Z -> ParseFloat64 (itoa z) = Ok (f64_of_Z z).
Proof.
  intros Hz. assert (has_byte "_" (itoa z) = false) as Hu by (by apply itoa_no_byte).
  destruct (itoa_cases z) as (c & s & Hc & Hd & Ei). rewrite Ei in Hu |- *.
  assert (starts_with_digit (String c s) = true) as Hs by (cbn [starts_with_digit]; by destruct (digit c)).
  assert (round_decimal (z <? 0)%Z (Z.abs z) 0 = f64_of_Z z) as Hr.
  { unfold round_decimal, f64_of_Z, f64_of. destruct (Z.eqb_spec (Z.abs z) 0) as [E|].
    - assert (z = 0)%Z as -> by lia. done.
    - cbn [Z.leb Z.compare]. rewrite Z.pow_0_r, Z.mul_1_r. unfold sign_Z. destruct (Z.ltb_spec z 0).
      + rewrite Z.abs_neq, Z.opp_involutive by lia. by destruct z.
      + rewrite Z.abs_eq by lia. by destruct z. }
  destruct (digits_not_special _ Hs) as [Hns1 Hns2]. unfold ParseFloat64. destruct (Z.ltb_spec z 0).
  - cbn [unsign]. rewrite Hns1. cbn [to_lower]. rewrite (proj2 (String.eqb_neq _ "nan")) by done.
    rewrite (parse_number_digits _ true _ (Z.abs z)); rewrite ?Hr; auto using f64_of_Z_finite.
  - assert (unsign (String c s) = (false, String c s)) as ->.
    { clear -Hc. cbn [unsign]. by destruct c as [[] [] [] [] [] [] [] []]. }
    rewrite Hns1, Hns2. rewrite (parse_number_digits _ false _ (Z.abs z)); rewrite ?Hr; auto using f64_of_Z_finite.
Qed.

(** * [strconv.ParseInt(s, 0, 64)]

    The base is that of the prefix; underscores stand between digits. *)
Definition digit_value (c : ascii) : option Z :=
  match digit c with
  | Some d => Some d
  | None => let n := nat_of_ascii (lower c) in if Nat.leb 97 n && Nat.leb n 122 then Some (Z.of_nat n - 87)%Z else None
  end.

Fixpoint base_digits (base acc : Z) (s : string) : option Z :=
  match s with
  | EmptyString => Some acc
  | String c r =>
      if byte_eqb c "_" then base_digits base acc r
      else d ← digit_value c; if (d <? base)%Z then base_digits base (acc * base + d) r else None
  end.

Definition base_prefix (s : string) : Z * string :=
  match s with
  | String "0" r =>
      match r with
      | String c (String a r') =>
          if byte_eqb (lower c) "b" then (2%Z, String a r')
          else if byte_eqb (lower c) "o" then (8%Z, String a r')
          else if byte_eqb (lower c) "x" then (16%Z, String a r')
          else (8%Z, r)
      | _ => (8%Z, r)
      end
  | _ => (10%Z, s)
  end.

Definition ParseInt0 (s : string) : result Z :=
  let bad : result Z := Err (errorf "strconv.ParseInt: parsing %q: invalid syntax" [AStr s]) in
  let '(neg, body) := unsign s in
  if String.eqb body "" then bad
  else
    let '(base, digits) := base_prefix body in
    match base_digits base 0 digits with
    | None => bad
    | Some n =>
        if has_byte "_" body && negb (underscoreOK body) then bad
        else let v := sign_Z neg n in
             if (- 2 ^ 63 <=? v)%Z && (v <? 2 ^ 63)%Z then Ok v
             else Err (errorf "strconv.ParseInt: parsing %q: value out of range" [AStr s])
    end.

Example parse_ints :
  ParseInt0 "-12" = Ok (-12)%Z /\ ParseInt0 "0x_fF" = Ok 255%Z /\ ParseInt0 "0b101" = Ok 5%Z /\ ParseInt0 "017" = Ok 15%Z /\
  ParseInt0 "0" = Ok 0%Z /\ ParseInt0 "1_000" = Ok 1000%Z /\ ParseInt0 "-9223372036854775808" = Ok (- 2 ^ 63)%Z /\
  is_ok (ParseInt0 "08") = false /\ is_ok (ParseInt0 "") = false /\ is_ok (ParseInt0 "1__0") = false /\ is_ok (ParseInt0 "0x") = false /\
  is_ok (ParseInt0 "9223372036854775808") = false.
Proof. vm_compute. repeat split. Qed.

Lemma base_digits_decimal s acc : base_digits 10 acc s = digits_from acc s \/ digits_from acc s = None.
Proof.
  revert acc. induction s as [|c s IH]; intros acc; [by left|]. cbn [base_digits digits_from].
  destruct (digit c) as [d|] eqn:E; [|by right]. pose proof (digit_range _ _ E).
  assert (byte_eqb c "_" = false) as -> by (apply Ascii.eqb_neq; intros ->; done).
  unfold digit_value. rewrite E. cbn [mbind option_bind]. destruct (Z.ltb_spec d 10); [|lia]. rewrite (Z.mul_comm acc 10). apply IH.
Qed.

(** A numeral starts with a zero only when it is the zero. *)
Lemma pretty_N_go_head n s : (0 < n)%N -> exists c r, pretty_N_go n s = String c r /\ c <> "0"%char.
Proof.
  revert s. induction (N.lt_wf_0 n) as [n _ IH]. intros s Hn. rewrite pretty_N_go_step by done.
  destruct (decide (0 < n / 10)%N) as [Hd|Hd].
  - apply IH; [apply N.div_lt; lia|done].
  - assert (n / 10 = 0)%N as E by (by apply N.le_0_r, N.nlt_ge). rewrite E, pretty_N_go_0.
    assert (n < 10)%N as Hlt by (pose proof (N.mod_lt n 10 ltac:(done)); pose proof (N.div_mod n 10 ltac:(done)) as Hdm; rewrite E in Hdm; lia).
    rewrite N.mod_small by done. eexists _, _. split; [done|]. clear IH Hd E.
    destruct n as [|[[[[]|[]|]|[[]|[]|]|]|[[[]|[]|]|[[]|[]|]|]|]]; try done; lia.
Qed.

Lemma base_prefix_pretty n : base_prefix (pretty n) = (10%Z, pretty n) \/ n = 0%N.
Proof.
  destruct (decide (n = 0%N)) as [->|Hn]; [by right|left].
  assert (pretty n = pretty_N_go n "") as ->. { unfold pretty, pretty_N. by rewrite decide_False. }
  destruct (pretty_N_go_head n "" ltac:(lia)) as (c & r & -> & Hc).
  unfold base_prefix. by destruct c as [[] [] [] [] [] [] [] []].
Qed.

(** The decimal numeral of a machine integer is read as that integer. *)
Lemma ParseInt0_itoa z : (- 2 ^ 63 <= z < 2 ^ 63)%Z -> ParseInt0 (itoa z) = Ok z.
Proof.
  intros Hz. assert (itoa z = if (z <? 0)%Z then String "-" (pretty (Z.abs_N z)) else pretty (Z.abs_N z)) as Ei by (by destruct z).
  destruct (pretty_nonempty (Z.abs_N z)) as (c & s & E & Hc).
  assert (unsign (itoa z) = ((z <? 0)%Z, pretty (Z.abs_N z))) as Hun.
  { rewrite Ei. destruct (z <? 0)%Z; [done|]. rewrite E. cbn [unsign]. by destruct c as [[] [] [] [] [] [] [] []]. }
  assert (has_byte "_" (pretty (Z.abs_N z)) = false) as Hu.
  { assert (pretty (Z.abs_N z) = itoa (Z.abs z)) as -> by (by destruct z). by apply itoa_no_byte. }
  unfold ParseInt0. rewrite Hun. rewrite E at 1. change (String.eqb (String c s) "") with false. cbv iota.
  destruct (base_prefix_pretty (Z.abs_N z)) as [->|Hz0].
  - destruct (base_digits_decimal (pretty (Z.abs_N z)) 0) as [Hb|Hb]; rewrite digits_pretty in Hb; [|done]. rewrite Hb, Hu. cbn [andb].
    rewrite N2Z.inj_abs_N. unfold sign_Z. destruct (Z.ltb_spec z 0).
    + rewrite Z.abs_neq, Z.opp_involutive by lia. by destruct (_ && _) eqn:?; [|lia].
    + rewrite Z.abs_eq by lia. by destruct (_ && _) eqn:?; [|lia].
  - assert (z = 0%Z) as -> by lia. by vm_compute.
Qed.

Lemma atoi_range s n : atoi s = Some n -> (- 2 ^ 63 <= n < 2 ^ 63)%Z.
Proof.
  unfold atoi. destruct (match s with String "-" r => (true, r) | String "+" r => (false, r) | _ => (false, s) end) as [neg body].
  destruct body; [done|]. destruct (digits_from 0 _) as [v|]; [|done]. cbn [mbind option_bind].
  destruct (_ && _) eqn:E; [|done]. intros [= <-]. lia.
Qed.
