(* ===== verification/GoFormat.v ===== *)
(** Go's text of floats: [strconv.FormatFloat(x, 'f', -1, 64)], [fmt]'s [%g] and [%.<n>f]. The shortest forms
    are the shortest decimals that [ParseFloat] reads as the same float; that they are read back is a
    theorem here. *)
From Stdlib Require Import Ascii ZArith Lia.
From Stdlib.Floats Require Import SpecFloat.
From S2P Require Import Prelude GoFloat GoString HostPort GoNumber.
Local Open Scope string_scope.

(** * Decimals

    A decimal is [d * 10^x] with [d] positive. *)
Definition digit_char_of (n : Z) : ascii := ascii_of_nat (48 + Z.to_nat n).

(** [r] with [k] digits. *)
Fixpoint fixed_digits (k : nat) (r : Z) : string :=
  match k with
  | O => ""
  | S k => String (digit_char_of (r / 10 ^ Z.of_nat k)) (fixed_digits k (r mod 10 ^ Z.of_nat k))
  end.

(** [d * 10^-k] with [k] digits after the point. *)
Definition point_text (d : Z) (k : nat) : string :=
  match k with
  | O => itoa d
  | _ => itoa (d / 10 ^ Z.of_nat k) +:+ "." +:+ fixed_digits k (d mod 10 ^ Z.of_nat k)
  end.

(** The form [%f] of a decimal, and its form [%e], with at least two digits of exponent. *)
Definition f_text (d x : Z) : string :=
  if (0 <=? x)%Z then point_text (d * 10 ^ x) 0 else point_text d (Z.to_nat (- x)).

Definition digit_count (d : Z) : nat := String.length (itoa d).

Definition e_text (d x : Z) : string :=
  let nd := digit_count d in
  let e := (Z.of_nat nd + x - 1)%Z in
  let width := if (Z.abs e <? 100)%Z then 2 else digit_count (Z.abs e) in
  point_text d (nd - 1) +:+ "e" +:+ (if (e <? 0)%Z then "-" else "+") +:+ fixed_digits width (Z.abs e).

(** [%g] takes [%e] for small and for large exponents. *)
Definition g_text (d x : Z) : string :=
  let e := (Z.of_nat (digit_count d) + x - 1)%Z in
  if (e <? - 4)%Z || (6 <=? e)%Z then e_text d x else f_text d x.

(** Trailing zeros of the digits belong to the exponent. *)
Fixpoint strip_zeros (fuel : nat) (d x : Z) : Z * Z :=
  match fuel with
  | O => (d, x)
  | S fuel => if (d mod 10 =? 0)%Z then strip_zeros fuel (d / 10) (x + 1) else (d, x)
  end.

(** * The shortest decimal *)

(** The exact decimal of [m * 2^e]. *)
Definition exact_decimal (m : positive) (e : Z) : Z * Z :=
  if (0 <=? e)%Z then (Zpos m * 2 ^ e, 0)%Z else (Zpos m * 5 ^ (- e), e)%Z.

Section Shortest.
Context (text : Z -> Z -> string).

Definition sign_text (neg : bool) : string := if neg then "-" else "".

Definition reads_as (v : f64) (s : string) : bool :=
  match ParseFloat64 s with Ok y => bool_decide (y = v) | Err _ => false end.

Definition decimal_text (neg : bool) (n x : Z) : string :=
  let '(d, x) := strip_zeros (digit_count n) n x in sign_text neg +:+ text d x.

(** With [n] digits: the decimals below and above the value, of which one that is read as the value is
    taken, the nearer one if both are, the even one if they are equally near. [all] is the exact decimal
    with its number of digits. *)
Definition with_digits (neg : bool) (v : f64) (all x : Z) (count n : nat) : option string :=
  let unit := (10 ^ Z.of_nat (count - n))%Z in
  let low := (all / unit)%Z in
  let x := (x + Z.of_nat (count - n))%Z in
  let down := decimal_text neg low x in
  let up := decimal_text neg (low + 1) x in
  let half := (2 * (all mod unit) ?= unit)%Z in
  match reads_as v down, reads_as v up with
  | true, true => Some (match half with Lt => down | Gt => up | Eq => if Z.even low then down else up end)
  | true, false => Some down
  | false, true => Some up
  | false, false => None
  end.

Fixpoint shortest (neg : bool) (v : f64) (all x : Z) (count n fuel : nat) : option string :=
  match fuel with
  | O => None
  | S fuel =>
      match with_digits neg v all x count n with
      | Some s => Some s
      | None => shortest neg v all x count (S n) fuel
      end
  end.

(** Seventeen digits are always enough; the exact decimal is there for a total function. *)
Definition float_text (v : f64) : string :=
  match v with
  | S754_nan => "NaN"
  | S754_infinity neg => if neg then "-Inf" else "+Inf"
  | S754_zero neg => sign_text neg +:+ "0"
  | S754_finite neg m e =>
      let '(all, x) := exact_decimal m e in
      match shortest neg v all x (digit_count all) 1 (Nat.min 17 (digit_count all)) with
      | Some s => s
      | None => sign_text neg +:+ f_text all x
      end
  end.
End Shortest.

Definition FormatFloat : f64 -> string := float_text f_text.
Definition Sprintf_g : f64 -> string := float_text g_text.

(** [%.<prec>f]: the exact value rounded to [prec] digits after the point, ties to even. *)
Definition round_half_even (n unit : Z) : Z :=
  let q := (n / unit)%Z in
  match (2 * (n mod unit) ?= unit)%Z with Lt => q | Gt => q + 1 | Eq => if Z.even q then q else q + 1 end%Z.

Definition Sprintf_f (prec : nat) (v : f64) : string :=
  match v with
  | S754_nan => "NaN"
  | S754_infinity neg => if neg then "-Inf" else "+Inf"
  | S754_zero neg => sign_text neg +:+ point_text 0 prec
  | S754_finite neg m e =>
      let '(all, x) := exact_decimal m e in
      let n := (if (0 <=? x + Z.of_nat prec)%Z then all * 10 ^ (x + Z.of_nat prec)
                else round_half_even all (10 ^ (- (x + Z.of_nat prec))))%Z in
      sign_text neg +:+ point_text n prec
  end.

Example float_texts :
  FormatFloat (f64_of_Z (-1000)) = "-1000" /\ FormatFloat (fdiv (f64_of_Z 1) (f64_of_Z 10)) = "0.1" /\
  FormatFloat (fdiv (f64_of_Z 2) (f64_of_Z 3)) = "0.6666666666666666" /\ FormatFloat (f64_of_Z 1000000) = "1000000" /\
  Sprintf_g (f64_of_Z 1000000) = "1e+06" /\ Sprintf_g (f64_of_Z 123456) = "123456" /\ Sprintf_g (fdiv (f64_of_Z 1) (f64_of_Z 100000)) = "1e-05" /\
  Sprintf_g (f64_of 1 100) = "1.2676506002282294e+30" /\ Sprintf_g (S754_zero true) = "-0" /\
  Sprintf_g (S754_finite false 1 (-1074)) = "5e-324" /\
  Sprintf_f 0 (f64_of 5 (-1)) = "2" /\ Sprintf_f 3 (fdiv (f64_of_Z (-2)) (f64_of_Z 3)) = "-0.667" /\ Sprintf_f 0 (f64_of 1 70) = "1180591620717411303424" /\
  Sprintf_f 3 (f64_of_Z 12) = "12.000".
Proof. vm_compute. repeat split. Qed.

(** * What is printed is read back *)

(** The values a [float64] can hold. *)
Definition valid_f64 (x : f64) : bool := valid_binary 53 1024 x.

(** ** The exact decimal rounds to the float *)

Lemma digits2_log2 p : Zpos (digits2_pos p) = (Z.log2 (Zpos p) + 1)%Z.
Proof.
  induction p as [p IH|p IH|]; [| |done]; cbn [digits2_pos]; rewrite Pos2Z.inj_succ, IH.
  - rewrite (Pos2Z.inj_xI p), Z.log2_succ_double by lia. lia.
  - rewrite (Pos2Z.inj_xO p), Z.log2_double by lia. lia.
Qed.

Lemma pos_shift m d : Zpos (Pos.iter xO m d) = (Zpos m * 2 ^ Zpos d)%Z.
Proof.
  induction d as [|d IH] using Pos.peano_ind; [cbn; lia|].
  rewrite Pos.iter_succ, Pos2Z.inj_xO, IH, Pos2Z.inj_succ, Z.pow_succ_r by lia. lia.
Qed.

(** A mantissa shifted up by [d] bits is shifted back without loss. *)
Lemma round_shifted neg m e d :
  bounded 53 1024 m e = true -> (0 <= d)%Z ->
  binary_round_aux 53 1024 neg (Zpos m * 2 ^ d) (e - d) loc_Exact = S754_finite neg m e.
Proof.
  intros [Hc%Z.eqb_eq He%Z.leb_le]%andb_true_iff Hd. destruct d as [|d|d]; [| |lia].
  { rewrite Z.mul_1_r, Z.sub_0_r. by apply round_canonical. }
  rewrite <- pos_shift. unfold binary_round_aux, shr_fexp at 1. cbn [Zdigits2]. rewrite digits2_shift.
  replace (Zpos (digits2_pos m) + Zpos d + (e - Zpos d))%Z with (Zpos (digits2_pos m) + e)%Z by lia.
  rewrite Hc. replace (e - (e - Zpos d))%Z with (Zpos d) by lia. cbn [shr shr_record_of_loc].
  rewrite shr_shifted. replace (e - Zpos d + Zpos d)%Z with e by lia.
  cbn [shr_m loc_of_shr_record round_nearest_even]. unfold shr_fexp. cbn [Zdigits2].
  rewrite Hc, Z.sub_diag. cbn [shr shr_record_of_loc shr_m]. by rewrite (proj2 (Z.leb_le _ _) He).
Qed.

Lemma digits2_mul_pow m k : (Zpos (digits2_pos (m * 5 ^ k)) - Zpos (digits2_pos (10 ^ k)) <= Zpos (digits2_pos m) - Zpos k)%Z.
Proof.
  rewrite !digits2_log2, Pos2Z.inj_mul, !Pos2Z.inj_pow.
  assert (10 ^ Zpos k = 5 ^ Zpos k * 2 ^ Zpos k)%Z as -> by (rewrite <- Z.pow_mul_l; done).
  rewrite Z.log2_mul_pow2 by lia. pose proof (Z.log2_mul_above (Zpos m) (5 ^ Zpos k) ltac:(lia) ltac:(lia)). lia.
Qed.

Lemma round_exact neg m e : bounded 53 1024 m e = true ->
  let '(all, x) := exact_decimal m e in (0 < all)%Z /\ round_decimal neg all x = S754_finite neg m e.
Proof.
  intros Hb. pose proof Hb as [Hc%Z.eqb_eq He%Z.leb_le]%andb_true_iff. unfold exact_decimal. destruct (Z.leb_spec 0 e) as [H0|H0].
  - assert (0 < Zpos m * 2 ^ e)%Z as Hpos by (pose proof (Z.pow_pos_nonneg 2 e); lia). split; [done|].
    unfold round_decimal. destruct (Z.eqb_spec (Zpos m * 2 ^ e) 0); [lia|]. cbn [Z.leb Z.compare]. rewrite Z.pow_0_r, Z.mul_1_r.
    assert (exists p, Zpos m * 2 ^ e = Zpos p /\ Zpos (digits2_pos p) = Zpos (digits2_pos m) + e)%Z as (p & Ep & Hdig).
    { destruct (Zpos m * 2 ^ e)%Z as [|p|p] eqn:E; try lia. exists p. split; [done|].
      rewrite !digits2_log2, <- E, Z.log2_mul_pow2 by lia. lia. }
    assert (binary_round_aux 53 1024 neg (Zpos p) 0 loc_Exact = S754_finite neg m e) as Haux.
    { rewrite <- Ep. rewrite <- (round_shifted neg m e e Hb) by lia. by rewrite Z.sub_diag. }
    assert (binary_round 53 1024 neg p 0 = S754_finite neg m e) as Hround.
    { unfold binary_round. rewrite Z.add_0_r, Hdig, Hc. unfold shl_align. rewrite Z.sub_0_r. destruct e; [done|done|lia]. }
    rewrite Ep. destruct neg; exact Hround.
  - destruct e as [|e|k]; [lia|lia|]. change (- Zneg k)%Z with (Zpos k).
    assert (Zpos m * 5 ^ Zpos k = Zpos (m * 5 ^ k))%Z as Ea by (by rewrite Pos2Z.inj_mul, Pos2Z.inj_pow).
    rewrite Ea. split; [done|]. unfold round_decimal. change (- Zneg k)%Z with (Zpos k). cbn [Z.eqb Z.leb Z.compare].
    assert (10 ^ Zpos k = Zpos (10 ^ k))%Z as Et by (by rewrite Pos2Z.inj_pow). rewrite Et.
    unfold SFdiv_core_binary. cbn [Zdigits2]. rewrite !Z.add_0_r. change (0 - 0)%Z with 0%Z.
    assert (SpecFloat.fexp 53 1024 (Zpos (digits2_pos (m * 5 ^ k)) - Zpos (digits2_pos (10 ^ k))) <= Zneg k)%Z as Hf.
    { rewrite <- Hc. unfold SpecFloat.fexp. pose proof (digits2_mul_pow m k). lia. }
    set (e' := Z.min _ 0). assert (e' <= Zneg k)%Z as He' by (unfold e'; lia). clearbody e'.
    replace (0 - e')%Z with (Zpos k + (Zneg k - e'))%Z by lia.
    destruct (Zpos k + (Zneg k - e'))%Z as [|s|s] eqn:Es; [lia| |lia].
    rewrite Z.shiftl_mul_pow2 by lia. rewrite <- Es, Z.pow_add_r by lia.
    assert (Zpos (m * 5 ^ k) * (2 ^ Zpos k * 2 ^ (Zneg k - e')) = Zpos m * 2 ^ (Zneg k - e') * Zpos (10 ^ k))%Z as ->.
    { rewrite <- Ea, <- Et. replace (10 ^ Zpos k)%Z with (5 ^ Zpos k * 2 ^ Zpos k)%Z by (rewrite <- Z.pow_mul_l; done). ring. }
    assert (forall a, Z.div_eucl (a * Zpos (10 ^ k)) (Zpos (10 ^ k)) = (a, 0%Z)) as ->.
    { intros a. rewrite (surjective_pairing (Z.div_eucl _ _)).
      change (fst (Z.div_eucl ?x ?y)) with (x / y)%Z. change (snd (Z.div_eucl ?x ?y)) with (x mod y)%Z.
      by rewrite Z.div_mul, Z.mod_mul by done. }
    replace (new_location (Zpos (10 ^ k)) 0) with loc_Exact by (unfold new_location; by destruct (Z.even _)).
    replace e' with (Zneg k - (Zneg k - e'))%Z at 2 by lia. apply round_shifted; [done|lia].
Qed.

(** ** The text of a decimal is read as the decimal *)

Lemma read_mantissa_app hex s t m m' : read_mantissa hex s m = (m', "") -> read_mantissa hex (s +:+ t) m = read_mantissa hex t m'.
Proof.
  revert m. induction s as [|c s IH]; intros m; cbn [read_mantissa]; [by intros [= ->]|].
  cbn [String.append read_mantissa].
  destruct (byte_eqb c "_"); [apply IH|]. destruct (byte_eqb c "."); [destruct (mn_sawdot m); [done|apply IH]|].
  destruct (float_digit hex c); [apply IH|done].
Qed.

(** The digits after the point. *)
Lemma read_fraction s v w m :
  digits_from v s = Some w -> mn_value m = v -> (mn_nd m = 0 -> v = 0)%Z -> (0 <= mn_nd m)%Z -> mn_sawdot m = true -> mn_sawdigits m = true ->
  exists m', read_mantissa false s m = (m', "") /\ mn_value m' = w /\ mn_sawdot m' = true /\ mn_sawdigits m' = true /\
    (mn_dp m' - mn_nd m' = mn_dp m - mn_nd m - Z.of_nat (String.length s))%Z.
Proof.
  revert v m. induction s as [|c s IH]; intros v m Hd Hv H0 Hn Hdot Hs.
  - injection Hd as <-. exists m. cbn. split_and!; try done. lia.
  - cbn [digits_from] in Hd. destruct (digit c) as [d|] eqn:Ec; [|done]. cbn [mbind option_bind] in Hd.
    assert (byte_eqb c "_" = false /\ byte_eqb c "." = false) as [E1 E2].
    { split; apply Ascii.eqb_neq; intros ->; done. }
    cbn [read_mantissa float_digit]. rewrite E1, E2, Ec.
    destruct (IH _ (add_digit 10 d m) Hd) as (m' & Hr & Hv' & Hdot' & Hs' & Hdp);
      try (unfold add_digit; destruct (Z.eqb_spec d 0), (Z.eqb_spec (mn_nd m) 0); cbn [andb mn_value mn_nd mn_sawdot mn_sawdigits]; try done; lia).
    exists m'. split_and!; try done. rewrite Hdp. cbn [String.length]. unfold add_digit.
    destruct (Z.eqb_spec d 0), (Z.eqb_spec (mn_nd m) 0); cbn [andb mn_dp mn_nd]; lia.
Qed.

Lemma digit_of_char n : (0 <= n < 10)%Z -> digit (digit_char_of n) = Some n.
Proof.
  intros Hn. rewrite <- (Z2Nat.id n) by lia. assert (Z.to_nat n < 10) as Hlt by lia.
  revert Hlt. generalize (Z.to_nat n) as m. clear. intros m Hm. do 10 (destruct m as [|m]; [done|]). lia.
Qed.

Lemma fixed_digits_spec k r v : (0 <= r < 10 ^ Z.of_nat k)%Z ->
  digits_from v (fixed_digits k r) = Some (v * 10 ^ Z.of_nat k + r)%Z /\ String.length (fixed_digits k r) = k.
Proof.
  revert r v. induction k as [|k IH]; intros r v Hr.
  - change (10 ^ Z.of_nat 0)%Z with 1%Z in *. cbn. split; [f_equal; lia|done].
  - rewrite Nat2Z.inj_succ, Z.pow_succ_r in * by lia. cbn [fixed_digits digits_from String.length].
    set (p := (10 ^ Z.of_nat k)%Z) in *. assert (0 < p)%Z by (apply Z.pow_pos_nonneg; lia).
    rewrite digit_of_char. 2:{ split; [apply Z.div_pos; lia|apply Z.div_lt_upper_bound; lia]. }
    cbn [mbind option_bind]. destruct (IH (r mod p)%Z (10 * v + r / p)%Z (Z.mod_pos_bound r p ltac:(done))) as [-> ->].
    split; [|done]. f_equal. pose proof (Z.div_mod r p ltac:(lia)). nia.
Qed.

(** Bytes that start no hexadecimal number and are no underscore. *)
Definition plain_char (c : ascii) : bool := negb (byte_eqb (lower c) "x") && negb (byte_eqb c "_").

Lemma digits_plain s v w : digits_from v s = Some w -> string_forall plain_char s = true.
Proof.
  revert v. induction s as [|c s IH]; intros v; [done|]. cbn [digits_from string_forall].
  destruct (digit c) eqn:Ec; [|done]. cbn [mbind option_bind]. intros H%IH. rewrite H, andb_true_r.
  clear -Ec. by destruct c as [[] [] [] [] [] [] [] []].
Qed.

Lemma plain_no_underscore s : string_forall plain_char s = true -> has_byte "_" s = false.
Proof. intros H. by apply (has_byte_forall plain_char). Qed.

(** Without an exponent, the value is that of the digits. *)
Lemma parse_number_plain orig neg s m :
  string_forall plain_char s = true -> has_byte "_" orig = false -> read_mantissa false s no_mantissa = (m, "") -> mn_sawdigits m = true ->
  let x := (if mn_sawdot m then mn_dp m - mn_nd m else 0)%Z in
  is_finite (round_decimal neg (mn_value m) x) = true ->
  parse_number orig neg s = Ok (round_decimal neg (mn_value m) x).
Proof.
  intros Hp Hu Hr Hd x Hf. unfold parse_number.
  assert (match s with String "0" (String x (String c r)) => if byte_eqb (lower x) "x" then (true, String c r) else (false, s)
          | _ => (false, s) end = (false, s)) as ->.
  { destruct s as [|a [|b [|c r]]]; try done; try (by destruct a as [[] [] [] [] [] [] [] []]).
    cbn [string_forall] in Hp. apply andb_true_iff in Hp as [_ [Hb _]%andb_true_iff]. apply andb_true_iff in Hb as [Hb%negb_true_iff _].
    rewrite Hb. by destruct a as [[] [] [] [] [] [] [] []]. }
  rewrite Hr, Hd, Hu. cbn [negb andb]. cbv zeta. rewrite Z.mul_1_r, Z.add_0_r. unfold x in *.
  destruct (mn_sawdot m); [by rewrite Hf|]. rewrite Z.sub_diag. by rewrite Hf.
Qed.

Lemma itoa_digits d : (0 <= d)%Z -> digits_from 0 (itoa d) = Some d /\ starts_with_digit (itoa d) = true.
Proof.
  intros Hd. destruct (itoa_cases d) as (c & s & Hc & Hds & ->). rewrite (proj2 (Z.ltb_ge d 0)) by lia.
  rewrite Z.abs_eq in Hds by lia. split; [done|]. cbn [starts_with_digit]. by destruct (digit c).
Qed.

Lemma read_point_text d k : (0 < d)%Z ->
  exists m, read_mantissa false (point_text d k) no_mantissa = (m, "") /\ mn_value m = d /\ mn_sawdigits m = true /\
    (if mn_sawdot m then mn_dp m - mn_nd m else 0)%Z = (- Z.of_nat k)%Z /\
    string_forall plain_char (point_text d k) = true /\ starts_with_digit (point_text d k) = true.
Proof.
  intros Hd. destruct k as [|k].
  - cbn [point_text]. destruct (itoa_digits d) as [Hds Hst]; [lia|].
    destruct (read_digits (itoa d) 0 d no_mantissa Hds) as (m & Hr & Hv & Hdot & Hs); try done.
    exists m. rewrite Hdot. split_and!; try done. by apply (digits_plain _ 0 d).
  - unfold point_text. set (p := (10 ^ Z.of_nat (S k))%Z). assert (0 < p)%Z by (apply Z.pow_pos_nonneg; lia).
    destruct (itoa_digits (d / p)) as [Hds Hst]; [apply Z.div_pos; lia|].
    destruct (read_digits (itoa (d / p)) 0 (d / p) no_mantissa Hds) as (m & Hr & Hv & Hdot & Hs); try done.
    destruct (fixed_digits_spec (S k) (d mod p) (d / p) (Z.mod_pos_bound d p ltac:(done))) as [Hf Hlen].
    assert (d / p * 10 ^ Z.of_nat (S k) + d mod p = d)%Z as Hval by (fold p; pose proof (Z.div_mod d p ltac:(lia)); lia).
    rewrite Hval in Hf.
    assert (0 <= mn_nd m /\ (mn_nd m = 0 -> mn_value m = 0))%Z as [Hnd H0].
    { clear -Hr. revert Hr. assert (forall s (m0 m : mantissa), (0 <= mn_nd m0 /\ (mn_nd m0 = 0 -> mn_value m0 = 0))%Z ->
        read_mantissa false s m0 = (m, "") -> (0 <= mn_nd m /\ (mn_nd m = 0 -> mn_value m = 0))%Z) as H.
      { induction s as [|c s IH]; intros m0 m1 Hm; cbn [read_mantissa]; [by intros [= <-]|].
        destruct (byte_eqb c "_"); [by apply IH|]. destruct (byte_eqb c "."); [destruct (mn_sawdot m0); [done|by apply IH]|].
        destruct (float_digit false c) as [d'|] eqn:E; [|done]. apply IH. cbn in E. pose proof (digit_range _ _ E). unfold add_digit.
        destruct (Z.eqb_spec d' 0), (Z.eqb_spec (mn_nd m0) 0); cbn [andb mn_nd mn_value]; lia. }
      apply H. done. }
    destruct (read_fraction (fixed_digits (S k) (d mod p)) (d / p) d
      (mkMantissa (mn_value m) (mn_nd m) (mn_nd m) true (mn_sawdigits m)) Hf) as (m' & Hr' & Hv' & Hdot' & Hs' & Hdp);
      cbn [mn_value mn_nd mn_dp mn_sawdot mn_sawdigits]; try done; try congruence; [intros ?%H0; congruence|].
    exists m'. split_and!.
    + rewrite (read_mantissa_app _ _ _ _ _ Hr). cbn [String.append read_mantissa]. cbn [Ascii.eqb Bool.eqb]. by rewrite Hdot.
    + done.
    + done.
    + rewrite Hdot', Hdp, Hlen. cbn [mn_dp mn_nd]. lia.
    + rewrite !string_forall_app. rewrite (digits_plain _ _ _ Hds), (digits_plain _ _ _ Hf). done.
    + destruct (itoa (d / p)); [by cbn in Hst|exact Hst].
Qed.

Lemma ParseFloat64_signed neg t d k :
  (0 < d)%Z -> t = point_text d k -> is_finite (round_decimal neg d (- Z.of_nat k)) = true ->
  ParseFloat64 (sign_text neg +:+ t) = Ok (round_decimal neg d (- Z.of_nat k)).
Proof.
  intros Hd -> Hf. destruct (read_point_text d k Hd) as (m & Hr & Hv & Hs & Hx & Hp & Hst).
  pose proof (plain_no_underscore _ Hp) as Hu. destruct (digits_not_special _ Hst) as [Hns1 Hns2].
  rewrite <- Hx, <- Hv in *. unfold ParseFloat64, sign_text. destruct neg.
  - cbn [String.append unsign]. rewrite Hns1. cbn [to_lower]. rewrite (proj2 (String.eqb_neq _ "nan")) by done.
    apply (parse_number_plain _ true _ m Hp); [by rewrite has_byte_cons, Hu|done..].
  - cbn [String.append].
    assert (unsign (point_text (mn_value m) k) = (false, point_text (mn_value m) k)) as ->.
    { clear -Hst. destruct (point_text _ _) as [|c s]; [done|]. cbn [starts_with_digit unsign] in *. by destruct c as [[] [] [] [] [] [] [] []]. }
    rewrite Hns1, Hns2. by apply (parse_number_plain _ false _ m Hp).
Qed.

Lemma shortest_reads text neg v all x count n fuel s : shortest text neg v all x count n fuel = Some s -> ParseFloat64 s = Ok v.
Proof.
  assert (forall s, reads_as v s = true -> ParseFloat64 s = Ok v) as Hreads.
  { intros t. unfold reads_as. destruct (ParseFloat64 t); [|done]. intros H%bool_decide_eq_true. by subst. }
  revert n. induction fuel as [|fuel IH]; intros n; [done|]. cbn [shortest].
  destruct (with_digits text neg v all x count n) as [t|] eqn:E; [|apply IH]. intros [= ->]. unfold with_digits in E. cbv zeta in E.
  destruct (reads_as v (decimal_text text neg (all / _) _)) eqn:E1, (reads_as v (decimal_text text neg (all / _ + 1) _)) eqn:E2; try done.
  - destruct (_ ?= _)%Z; [destruct (Z.even _)| |]; injection E as <-; by apply Hreads.
  - injection E as <-. by apply Hreads.
  - injection E as <-. by apply Hreads.
Qed.

(** Every float printed in a shortest form is read back as that float. *)
Lemma float_text_reads text v : valid_f64 v = true -> ParseFloat64 (float_text text v) = Ok v.
Proof.
  destruct v as [neg|neg| |neg m e]; cbn [float_text]; try (intros _; by destruct neg).
  { done. }
  intros Hb. pose proof (round_exact neg m e Hb) as Hx. destruct (exact_decimal m e) as [all x] eqn:Ex. destruct Hx as [Hall Hx].
  destruct (shortest _ _ _ _ _ _ _ _) as [s|] eqn:Es; [by apply shortest_reads in Es|].
  assert (x <= 0)%Z as Hx0 by (unfold exact_decimal in Ex; destruct (Z.leb_spec 0 e); injection Ex as <- <-; lia).
  rewrite <- Hx. replace x with (- Z.of_nat (Z.to_nat (- x)))%Z at 2 by lia. apply ParseFloat64_signed; [done| |].
  - unfold f_text. destruct (Z.leb_spec 0 x); [|done]. assert (x = 0)%Z as -> by lia. by rewrite Z.pow_0_r, Z.mul_1_r.
  - replace (- Z.of_nat (Z.to_nat (- x)))%Z with x by lia. by rewrite Hx.
Qed.

Lemma FormatFloat_reads x : valid_f64 x = true -> ParseFloat64 (FormatFloat x) = Ok x.
Proof. apply float_text_reads. Qed.

Lemma Sprintf_g_reads x : valid_f64 x = true -> ParseFloat64 (Sprintf_g x) = Ok x.
Proof. apply float_text_reads. Qed.
