(* ===== verification/GoFlag.v ===== *)
(** Go's package [flag]: how a flag set reads its arguments. A set is a function that takes the name and
    the text of a flag into the record of the flags; what is left is the positional arguments. *)
From Stdlib Require Import Ascii ZArith.
From S2P Require Import Prelude GoString HostPort.
Local Open Scope string_scope.

(** [strconv.ParseBool] *)
Definition parse_bool (s : string) : option bool :=
  if existsb (String.eqb s) ["1"; "t"; "T"; "TRUE"; "true"; "True"] then Some true
  else if existsb (String.eqb s) ["0"; "f"; "F"; "FALSE"; "false"; "False"] then Some false
  else None.

(** The text of the error is printed with the usage, and the process exits. *)
Definition flag_error {A} : result A := Err (errorf "invalid flags" []).

Definition bool_flag (value : string) : result bool :=
  match parse_bool value with Some b => Ok b | None => flag_error end.

(** One argument: the end of the flags, which may be dropped itself, an error, or a flag with the value
    after an equals sign. *)
Inductive token := Stop (dropped : bool) | Bad | Flag (name : string) (value : option string).

Definition split_equals (name : string) : string * option string :=
  match index_byte "=" name with
  | Some i => (take_bytes i name, Some (drop_bytes (i + 1) name))
  | None => (name, None)
  end.

Definition flag_name (name : string) : token :=
  match name with
  | EmptyString => Bad
  | String c _ => if byte_eqb c "-" || byte_eqb c "=" then Bad else let '(n, v) := split_equals name in Flag n v
  end.

Definition token_of (s : string) : token :=
  match s with
  | "-" => Stop false
  | "--" => Stop true
  | String "-" (String "-" name) => flag_name name
  | String "-" name => flag_name name
  | _ => Stop false
  end.

Section FlagSet.
Context {F : Type} (set_flag : string -> string -> F -> result F) (is_bool : string -> bool).

(** [FlagSet.Parse]: the flags, and the arguments after them. *)
Fixpoint parse_flags (args : list string) (f : F) : result (F * list string) :=
  match args with
  | [] => Ok (f, [])
  | s :: rest =>
      match token_of s with
      | Stop dropped => Ok (f, if dropped then rest else args)
      | Bad => flag_error
      | Flag name (Some value) => f ← set_flag name value f; parse_flags rest f
      | Flag name None =>
          if is_bool name then f ← set_flag name "true" f; parse_flags rest f
          else match rest with
          | [] => flag_error
          | value :: rest => f ← set_flag name value f; parse_flags rest f
          end
      end
  end.

(** A flag followed by its value. *)
Lemma parse_flags_step name value rest f f' :
  token_of name = Flag (drop_bytes 1 name) None -> is_bool (drop_bytes 1 name) = false ->
  set_flag (drop_bytes 1 name) value f = Ok f' -> parse_flags (name :: value :: rest) f = parse_flags rest f'.
Proof. intros E1 E2 E3. cbn [parse_flags]. by rewrite E1, E2, E3. Qed.
End FlagSet.
