(* ===== verification/Partition.v ===== *)
(** [internal/partition/split.go]: quadrant geometry of a cell, cell path identifiers, and the two
    checks that four cells are the inverse of a split. The records are the protobuf messages of
    [proto/cell/v1/cell.proto]; a message pointer is an [option]. *)
From Stdlib Require Import Ascii ZArith Lia.
From S2P Require Import Prelude GoFloat GoString.
Local Open Scope string_scope.
Local Open Scope list_scope.

Record Bounds := mkBounds { XMin : f64; XMax : f64; ZMin : f64; ZMax : f64 }.

Record CellSpec := mkCellSpec {
  Id : string; Level : Z; CBounds : option Bounds; GrpcEndpoint : string }.

Record PlanSplitResponseChild := mkChild { ch_Id : string; ch_Bounds : Bounds; ch_Level : Z }.

#[export] Instance Bounds_eq_dec : EqDecision Bounds.
Proof. solve_decision. Defined.
#[export] Instance CellSpec_eq_dec : EqDecision CellSpec.
Proof. solve_decision. Defined.

(** * Geometry *)

Definition f2 : f64 := f64_of_Z 2.

Definition Mid (b : option Bounds) : f64 * f64 :=
  match b with
  | None => (f0, f0)
  | Some b => (((XMin b + XMax b) / f2)%f64, ((ZMin b + ZMax b) / f2)%f64)
  end.

(** The four children in quadrant order. A nil parent panics; every caller excludes it. *)
Definition SplitFour (parent : Bounds) : list Bounds :=
  let '(mx, mz) := Mid (Some parent) in
  [ mkBounds (XMin parent) mx (ZMin parent) mz;
    mkBounds mx (XMax parent) (ZMin parent) mz;
    mkBounds (XMin parent) mx mz (ZMax parent);
    mkBounds mx (XMax parent) mz (ZMax parent) ].

Definition Quadrant (x z : f64) (b : option Bounds) : nat :=
  let '(mx, mz) := Mid b in
  let qx := if fle mx x then 1 else 0 in
  let qz := if fle mz z then 1 else 0 in
  qz * 2 + qx.

Definition Contains (b : option Bounds) (x z : f64) : bool :=
  match b with
  | None => false
  | Some b => fle (XMin b) x && fle x (XMax b) && fle (ZMin b) z && fle z (ZMax b)
  end.

(** * Cell path identifiers *)

Definition rootCellID : string := "cell_root".
Definition RootCellID : string := rootCellID.

(** The anchored regular expression: [cell_] and then [root], or segments [q0] to [q3] separated by
    underscores. *)
Definition class03 (c : ascii) : bool := match digit c with Some d => (d <=? 3)%Z | None => false end.

Fixpoint re_tail (s : string) : bool :=
  match s with
  | EmptyString => true
  | String u (String q (String d r)) =>
      byte_eqb u "_" && byte_eqb q "q" && class03 d && re_tail r
  | _ => false
  end.

Definition pathCellIDRe (s : string) : bool :=
  match strip_prefix "cell_" s with
  | None => false
  | Some body =>
      String.eqb body "root" ||
      match body with
      | String q (String d r) => byte_eqb q "q" && class03 d && re_tail r
      | _ => false
      end
  end.

(** One iteration of the segment loop. *)
Definition parse_segment (p : string) : result Z :=
  match p with
  | String q (String d EmptyString) =>
      if negb (byte_eqb q "q") then Err (errorf "invalid cell path segment: %q" [AStr p])
      else match atoi (String d EmptyString) with
           | Some n =>
               if (n <? 0)%Z || (3 <? n)%Z then Err (errorf "invalid cell path quadrant: %q" [AStr p])
               else Ok n
           | None => Err (errorf "invalid cell path quadrant: %q" [AStr p])
           end
  | _ => Err (errorf "invalid cell path segment: %q" [AStr p])
  end.

Fixpoint parse_segments (ps : list string) : result (list Z) :=
  match ps with
  | [] => Ok []
  | p :: ps' => q ← parse_segment p; qs ← parse_segments ps'; Ok (q :: qs)
  end.

Definition ParseCellPathID (id : string) : result (list Z) :=
  let id := trim_space id in
  if negb (pathCellIDRe id) then Err (errorf "invalid cell path id: %q" [AStr id])
  else
    let body := trim_prefix id "cell_" in
    if String.eqb body "root" then Ok [] else parse_segments (split_on "_" body).

Definition CellPathLevel (id : string) : option Z :=
  match ParseCellPathID id with
  | Err _ => None
  | Ok path => Some (int32 (Z.of_nat (length path)))
  end.

(** [fmt.Sprintf("q%d", q)] *)
Definition segment (q : Z) : string := "q" +:+ itoa q.

Definition ChildIDForQuadrant (parentID : string) (quadrant : Z) : result string :=
  if (quadrant <? 0)%Z || (3 <? quadrant)%Z
  then Err (errorf "quadrant out of range: %d" [AInt quadrant])
  else
    path ← ParseCellPathID parentID;
    Ok ("cell_" +:+ join "_" (map segment path ++ [segment quadrant])%list).

Fixpoint same_prefix (parentPath childPath : list Z) : bool :=
  match parentPath, childPath with
  | [], _ => true
  | p :: ps, c :: cs => (p =? c)%Z && same_prefix ps cs
  | _ :: _, [] => false
  end.

Definition IsDescendantPath (parentID childID : string) : bool :=
  match ParseCellPathID parentID, ParseCellPathID childID with
  | Ok parentPath, Ok childPath =>
      if Nat.leb (length childPath) (length parentPath) then false
      else same_prefix parentPath childPath
  | _, _ => false
  end.

(** * Split plans and their inverse *)

(** Go's [for i := range 4] over the children. *)
Fixpoint child_specs (parentID : string) (nextLevel : Z) (i : Z) (bs : list Bounds)
    : result (list PlanSplitResponseChild) :=
  match bs with
  | [] => Ok []
  | b :: bs' =>
      childID ← ChildIDForQuadrant parentID i;
      rest ← child_specs parentID nextLevel (i + 1) bs';
      Ok (mkChild childID b nextLevel :: rest)
  end.

Definition ChildSpecsForSplit (parentID : string) (parent : option Bounds) (parentLevel : Z)
    : result (list PlanSplitResponseChild) :=
  match parent with
  | None => Ok []
  | Some b => child_specs parentID (int32 (parentLevel + 1)) 0 (SplitFour b)
  end.

Definition boundsEqual (a b : option Bounds) : bool :=
  match a, b with
  | Some a, Some b =>
      feq (XMin a) (XMin b) && feq (XMax a) (XMax b) && feq (ZMin a) (ZMin b) && feq (ZMax a) (ZMax b)
  | None, None => true
  | _, _ => false
  end.

(** The inner loop of [CatalogMergeChildren]: the last catalog cell of the wanted level and bounds,
    an error when two of them have different ids. *)
Fixpoint quadrant_match (wantLevel : Z) (quad : Bounds) (qi : Z) (catalog : list (option CellSpec))
    (found : option CellSpec) : result (option CellSpec) :=
  match catalog with
  | [] => Ok found
  | c :: rest =>
      match c with
      | None => quadrant_match wantLevel quad qi rest found
      | Some c =>
          if bool_decide (CBounds c = None) then quadrant_match wantLevel quad qi rest found
          else if negb (Level c =? wantLevel)%Z then quadrant_match wantLevel quad qi rest found
          else if negb (boundsEqual (CBounds c) (Some quad)) then quadrant_match wantLevel quad qi rest found
          else
            match found with
            | Some m =>
                if negb (String.eqb (trim_space (Id m)) (trim_space (Id c)))
                then Err (errorf "ambiguous catalog match for merge quadrant %d" [AInt qi])
                else quadrant_match wantLevel quad qi rest (Some c)
            | None => quadrant_match wantLevel quad qi rest (Some c)
            end
      end
  end.

Fixpoint match_quadrants (wantLevel : Z) (quads : list Bounds) (qi : Z) (catalog : list (option CellSpec))
    : result (list CellSpec) :=
  match quads with
  | [] => Ok []
  | quad :: quads' =>
      found ← quadrant_match wantLevel quad qi catalog None;
      match found with
      | None => Err (errorf "missing catalog child for merge quadrant %d" [AInt qi])
      | Some m => out ← match_quadrants wantLevel quads' (qi + 1) catalog; Ok (m :: out)
      end
  end.

(** The final loop of [CatalogMergeChildren]: ids are non-empty and distinct. *)
Fixpoint check_distinct_ids (i : Z) (out : list CellSpec) (seen : gset string) : result unit :=
  match out with
  | [] => Ok tt
  | c :: rest =>
      let id := trim_space (Id c) in
      if String.eqb id "" then Err (errorf "empty child id in merge quadrant %d" [AInt i])
      else if bool_decide (id ∈ seen) then Err (errorf "duplicate child id %s in merge quadrants" [AStr id])
      else check_distinct_ids (i + 1) rest ({[id]} ∪ seen)
  end.

Definition CatalogMergeChildren (parent : option CellSpec) (catalog : list (option CellSpec))
    : result (list CellSpec) :=
  match parent with
  | Some (mkCellSpec _ level (Some b) _) =>
      let wantLevel := int32 (level + 1) in
      out ← match_quadrants wantLevel (SplitFour b) 0 catalog;
      _ ← check_distinct_ids 0 out ∅;
      Ok out
  | _ => Err (errorf "parent nil or has no bounds" [])
  end.

(** The first unused quadrant with the given bounds. *)
Fixpoint first_match (b : option Bounds) (quads : list Bounds) (used : list bool) (qi : nat) : option nat :=
  match quads, used with
  | quad :: quads', u :: used' =>
      if u then first_match b quads' used' (S qi)
      else if boundsEqual b (Some quad) then Some qi
      else first_match b quads' used' (S qi)
  | _, _ => None
  end.

Fixpoint validate_children (quads : list Bounds) (wantLevel : Z) (children : list (option CellSpec))
    (used : list bool) (seen : gset string) : result (list bool) :=
  match children with
  | [] => Ok used
  | None :: _ => Err (errorf "child spec is nil" [])
  | Some c :: rest =>
      let id := trim_space (Id c) in
      if String.eqb id "" then Err (errorf "child has empty id" [])
      else if negb (Level c =? wantLevel)%Z then
        Err (errorf "child %s level=%d want=%d" [AStr id; AInt (Level c); AInt wantLevel])
      else if bool_decide (CBounds c = None) then Err (errorf "child %s missing bounds" [AStr id])
      else if bool_decide (id ∈ seen) then Err (errorf "duplicate child id %s" [AStr id])
      else
        match first_match (CBounds c) quads used 0 with
        | None => Err (errorf "child %s bounds do not match any merge quadrant" [AStr id])
        | Some qi => validate_children quads wantLevel rest (<[qi := true]> used) ({[id]} ∪ seen)
        end
  end.

Fixpoint missing_quadrant (used : list bool) (qi : Z) : result unit :=
  match used with
  | [] => Ok tt
  | u :: used' =>
      if negb u then Err (errorf "missing merge quadrant %d" [AInt qi]) else missing_quadrant used' (qi + 1)
  end.

Definition ValidateMergeChildren (parent : option Bounds) (parentLevel : Z) (children : list (option CellSpec))
    : result unit :=
  match parent with
  | None => Err (errorf "parent bounds is nil" [])
  | Some b =>
      if negb (Nat.eqb (length children) 4) then
        Err (errorf "need 4 children, got %d" [AInt (Z.of_nat (length children))])
      else
        used ← validate_children (SplitFour b) (int32 (parentLevel + 1)) children
                 (replicate 4 false) ∅;
        missing_quadrant used 0
  end.

(** * Geometry of a split *)

Definition finite_bounds (b : Bounds) : bool :=
  is_finite (XMin b) && is_finite (XMax b) && is_finite (ZMin b) && is_finite (ZMax b).

Lemma is_finite_not_nan x : is_finite x = true -> is_nan x = false.
Proof. by destruct x. Qed.

Lemma Mid_not_nan b :
  finite_bounds b = true -> is_nan (fst (Mid (Some b))) = false /\ is_nan (snd (Mid (Some b))) = false.
Proof.
  intros [[[? ?]%andb_true_iff ?]%andb_true_iff ?]%andb_true_iff.
  split; apply fdiv_finite_not_nan; auto with mmo.
Qed.

(** The interval [lo, hi] cut at [mid]: the side picked by [mid <= x] contains [x], and off the cut
    the other side does not. *)
Lemma cut_contains lo hi mid x :
  is_nan mid = false -> fle lo x = true -> fle x hi = true ->
  if fle mid x then fle x hi = true else fle x mid = true.
Proof.
  intros Hm Hlo Hhi. destruct (fle mid x) eqn:E; [done|].
  apply fle_total; try done. by apply fle_not_nan in Hlo as [_ ?].
Qed.

Lemma cut_excludes mid x : feq x mid = false -> fle mid x = true -> fle x mid = false.
Proof.
  intros Hne H. apply not_true_is_false. intros H'.
  rewrite fle_antisym in Hne; done.
Qed.

Lemma SplitFour_lookup b x z c :
  SplitFour b !! Quadrant x z (Some b) = Some c <->
  c = mkBounds (if fle (fst (Mid (Some b))) x then fst (Mid (Some b)) else XMin b)
               (if fle (fst (Mid (Some b))) x then XMax b else fst (Mid (Some b)))
               (if fle (snd (Mid (Some b))) z then snd (Mid (Some b)) else ZMin b)
               (if fle (snd (Mid (Some b))) z then ZMax b else snd (Mid (Some b))).
Proof.
  unfold SplitFour, Quadrant. destruct (Mid (Some b)) as [mx mz]. cbn.
  destruct (fle mx x), (fle mz z); cbn; naive_solver.
Qed.

Lemma Quadrant_lt x z b : Quadrant x z b < 4.
Proof. unfold Quadrant. destruct (Mid b) as [mx mz]. repeat case_match; lia. Qed.

Lemma lt_4_cases i : i < 4 -> i = 0 \/ i = 1 \/ i = 2 \/ i = 3.
Proof. lia. Qed.

Lemma quadrant_child b x z :
  finite_bounds b = true -> Contains (Some b) x z = true ->
  exists c, SplitFour b !! Quadrant x z (Some b) = Some c /\ Contains (Some c) x z = true /\
    (feq x (fst (Mid (Some b))) = false -> feq z (snd (Mid (Some b))) = false ->
     forall i c', SplitFour b !! i = Some c' -> Contains (Some c') x z = true ->
       i = Quadrant x z (Some b)).
Proof.
  intros Hf [[[Hx1 Hx2]%andb_true_iff Hz1]%andb_true_iff Hz2]%andb_true_iff.
  destruct (Mid_not_nan b Hf) as [Hmx Hmz].
  pose proof (cut_contains _ _ _ _ Hmx Hx1 Hx2) as Hx. pose proof (cut_contains _ _ _ _ Hmz Hz1 Hz2) as Hz.
  eexists. split; [by apply SplitFour_lookup|]. split.
  - cbn -[Mid]. destruct (fle (fst _) x) eqn:Ex, (fle (snd _) z) eqn:Ez; by rewrite ?Ex, ?Ez, ?Hx1, ?Hx2, ?Hz1, ?Hz2, ?Hx, ?Hz.
  - intros Nx Nz i c' Hi Hc. pose proof (cut_excludes _ _ Nx) as Kx. pose proof (cut_excludes _ _ Nz) as Kz.
    clear Hx Hz. unfold SplitFour, Quadrant in *. destruct (Mid (Some b)) as [mx mz]. cbn in *.
    destruct i as [|[|[|[|]]]]; simplify_eq/=; rewrite !andb_true_iff in Hc; destruct_and!;
      destruct (fle mx x), (fle mz z);
      try specialize (Kx eq_refl); try specialize (Kz eq_refl); try done; congruence.
Qed.

(** Every point of a finite cell lies in the child that [Quadrant] names, and off the two cut
    lines in no other child of [SplitFour]: a split neither loses nor duplicates coverage. *)
Theorem quadrant_child_contains b x z :
  finite_bounds b = true -> Contains (Some b) x z = true ->
  exists c, SplitFour b !! Quadrant x z (Some b) = Some c /\ Contains (Some c) x z = true /\
    (feq x (fst (Mid (Some b))) = false -> feq z (snd (Mid (Some b))) = false ->
     forall i c', SplitFour b !! i = Some c' -> Contains (Some c') x z = true ->
       i = Quadrant x z (Some b)).
Proof. apply quadrant_child. Qed.

Definition world_bounds : Bounds := mkBounds (f64_of_Z (-1000)) (f64_of_Z 1000) (f64_of_Z (-1000)) (f64_of_Z 1000).

Lemma quadrant_child_contains_witness :
  exists c, SplitFour world_bounds !! Quadrant (f64_of_Z 0) (f64_of_Z (-500)) (Some world_bounds) = Some c /\
    Contains (Some c) (f64_of_Z 0) (f64_of_Z (-500)) = true.
Proof.
  destruct (quadrant_child_contains world_bounds (f64_of_Z 0) (f64_of_Z (-500))) as (c & H1 & H2 & _);
    [reflexivity | reflexivity |]. by exists c.
Defined.

(** * Cell path identifiers *)

Definition valid_path (p : list Z) : Prop := Forall (fun q => 0 <= q <= 3)%Z p.

(** The canonical identifier of a path. *)
Definition render (p : list Z) : string :=
  match p with [] => rootCellID | _ => "cell_" +:+ join "_" (map segment p) end.

Lemma quad_cases q : (0 <= q <= 3)%Z -> q = 0%Z \/ q = 1%Z \/ q = 2%Z \/ q = 3%Z.
Proof. lia. Qed.

(** Replaces a quadrant known to be between 0 and 3 by each of its values. *)
Ltac quad_split H := apply quad_cases in H as [->|[->|[->| ->]]].

Lemma class03_spec c : class03 c = true <-> exists q, (0 <= q <= 3)%Z /\ segment q = String "q" (String c "").
Proof.
  split.
  - unfold class03, digit. destruct (_ && _) eqn:E; [|done]. intros H.
    apply andb_true_iff in E as [E1%Nat.leb_le E2%Nat.leb_le]. apply Z.leb_le in H.
    assert (nat_of_ascii c = 48 \/ nat_of_ascii c = 49 \/ nat_of_ascii c = 50 \/ nat_of_ascii c = 51) as Hc by lia.
    rewrite <- (ascii_nat_embedding c).
    destruct Hc as [->|[->|[->| ->]]]; [exists 0%Z|exists 1%Z|exists 2%Z|exists 3%Z]; (split; [lia|reflexivity]).
  - intros (q & Hq & Hs). quad_split Hq; injection Hs as <-; reflexivity.
Qed.

(** The identifier after its first segment. *)
Fixpoint tail_of (p : list Z) : string :=
  match p with [] => "" | q :: p' => String "_" (segment q +:+ tail_of p') end.

Lemma join_segments q p : join "_" (map segment (q :: p)) = segment q +:+ tail_of p.
Proof.
  revert q. induction p as [|q' p IH]; intros q.
  - cbn -[segment]. by rewrite string_app_nil_r.
  - change (join "_" (map segment (q :: q' :: p))) with (segment q +:+ String "_" (join "_" (map segment (q' :: p)))).
    by rewrite IH.
Qed.

Lemma segment_shape q : (0 <= q <= 3)%Z -> exists c, segment q = String "q" (String c "") /\ class03 c = true.
Proof. intros Hq. quad_split Hq; eexists; split; reflexivity. Qed.

Lemma re_tail_spec s : re_tail s = true <-> exists p, valid_path p /\ s = tail_of p.
Proof.
  split.
  - revert s. fix IH 1. intros [|u [|q [|d r]]]; try done.
    { intros _. exists []. split; [constructor|done]. }
    cbn. intros [[[Hu Hq]%andb_true_iff Hd]%andb_true_iff Hr]%andb_true_iff.
    apply Ascii.eqb_eq in Hu as ->. apply Ascii.eqb_eq in Hq as ->.
    apply class03_spec in Hd as (n & Hn & Hs). destruct (IH r Hr) as (p & Hp & ->).
    exists (n :: p). split; [by constructor|]. cbn -[segment]. by rewrite Hs.
  - intros (p & Hp & ->). induction Hp as [|q p Hq Hp IH]; [done|]. cbn -[segment].
    destruct (segment_shape q Hq) as (c & -> & Hc). cbn. by rewrite Hc.
Qed.

Lemma pathCellIDRe_spec s : pathCellIDRe s = true <-> exists p, valid_path p /\ s = render p.
Proof.
  unfold pathCellIDRe. split.
  - destruct (strip_prefix "cell_" s) as [body|] eqn:E; [|done]. apply strip_prefix_Some in E as ->.
    intros [->%String.eqb_eq|Hb]%orb_true_iff; [by exists []; split; [constructor|]|].
    destruct body as [|q [|d r]]; try done.
    apply andb_true_iff in Hb as [[->%Ascii.eqb_eq Hd]%andb_true_iff (p & Hp & ->)%re_tail_spec].
    apply class03_spec in Hd as (n & Hn & Hs). exists (n :: p). split; [by constructor|].
    unfold render. by rewrite join_segments, Hs.
  - intros (p & Hp & ->). destruct Hp as [|q p Hq Hp]; [done|]. unfold render.
    rewrite strip_prefix_app, join_segments. destruct (segment_shape q Hq) as (c & -> & Hc). cbn.
    rewrite Hc. apply re_tail_spec. eauto.
Qed.

Lemma segment_graphic q : (0 <= q <= 3)%Z -> string_forall graphic (segment q) = true.
Proof. intros Hq. by quad_split Hq. Qed.

Lemma render_graphic p : valid_path p -> string_forall graphic (render p) = true.
Proof.
  destruct 1 as [|q p Hq Hp]; [done|]. unfold render.
  rewrite join_segments, !string_forall_app, segment_graphic by done. cbn [string_forall]. apply andb_true_iff.
  split; [done|]. cbn. clear q Hq. induction Hp as [|q p Hq Hp IH]; [done|]. cbn -[segment].
  rewrite string_forall_app, segment_graphic by done. done.
Qed.

Lemma trim_render p : valid_path p -> trim_space (render p) = render p.
Proof. intros. by apply trim_space_graphic, render_graphic. Qed.

Lemma parse_segment_segment q : (0 <= q <= 3)%Z -> parse_segment (segment q) = Ok q.
Proof. intros Hq. by quad_split Hq. Qed.

Lemma parse_segments_map p : valid_path p -> parse_segments (map segment p) = Ok p.
Proof.
  induction 1 as [|q p Hq Hp IH]; [done|]. cbn -[segment parse_segment].
  by rewrite parse_segment_segment, IH.
Qed.

Lemma parse_render p : valid_path p -> ParseCellPathID (render p) = Ok p.
Proof.
  intros Hp. unfold ParseCellPathID. rewrite trim_render by done.
  assert (pathCellIDRe (render p) = true) as -> by (apply pathCellIDRe_spec; eauto).
  destruct p as [|q p]; [done|]. unfold render at 1 2. cbn [negb]. rewrite trim_prefix_app.
  destruct (String.eqb _ _) eqn:E.
  { apply String.eqb_eq in E. rewrite join_segments in E. inversion Hp; subst.
    by destruct (segment_shape q) as (c & Hs & _); [|rewrite Hs in E]. }
  unfold render. rewrite trim_prefix_app, split_on_join; [by apply parse_segments_map|done|].
  apply Forall_map. eapply Forall_impl; [done|]. intros n Hn. by quad_split Hn.
Qed.

Lemma parse_trim_render id p : valid_path p -> trim_space id = render p -> ParseCellPathID id = Ok p.
Proof.
  intros Hp Ht. rewrite <- (parse_render p Hp). unfold ParseCellPathID. by rewrite Ht, trim_render.
Qed.

Lemma parse_iff id p : ParseCellPathID id = Ok p <-> valid_path p /\ trim_space id = render p.
Proof.
  split; [|intros []; by apply parse_trim_render]. intros H.
  destruct (pathCellIDRe (trim_space id)) eqn:E; [|unfold ParseCellPathID in H; by rewrite E in H].
  apply pathCellIDRe_spec in E as (p' & Hp & Ht). rewrite (parse_trim_render id p' Hp Ht) in H.
  by injection H as <-.
Qed.

(** The parser accepts exactly the identifiers that trim to [cell_root] or to
    [cell_q..._q...] with quadrants 0 to 3, and returns their quadrants; the identifier of a path is
    unique. *)
Theorem ParseCellPathID_spec id :
  (forall p, ParseCellPathID id = Ok p <-> valid_path p /\ trim_space id = render p) /\
  (CellPathLevel id = None <-> forall p, valid_path p -> trim_space id <> render p).
Proof.
  split; [apply parse_iff|]. unfold CellPathLevel. destruct (ParseCellPathID id) as [p|e] eqn:E.
  - apply parse_iff in E as [Hp Ht]. split; [done|]. intros H. by apply H in Hp.
  - split; [|done]. intros _ p Hp Ht. by rewrite (parse_trim_render id p Hp Ht) in E.
Qed.

Lemma render_snoc p q : valid_path p -> ("cell_" +:+ join "_" (map segment p ++ [segment q])%list)%string = render (p ++ [q]).
Proof. intros Hp. unfold render. rewrite map_app. by destruct p. Qed.

Lemma valid_path_app p s : valid_path (p ++ s) <-> valid_path p /\ valid_path s.
Proof. apply Forall_app. Qed.

Lemma ParseCellPathID_valid id p : ParseCellPathID id = Ok p -> valid_path p.
Proof. by intros [? _]%parse_iff. Qed.

Lemma ChildID_Ok parentID p q :
  ParseCellPathID parentID = Ok p -> (0 <= q <= 3)%Z ->
  ChildIDForQuadrant parentID q = Ok (render (p ++ [q])).
Proof.
  intros H Hq. unfold ChildIDForQuadrant. rewrite H.
  assert ((q <? 0) || (3 <? q) = false)%Z as -> by lia. cbn -[join]. f_equal.
  apply (render_snoc p q). by eapply ParseCellPathID_valid.
Qed.

Lemma same_prefix_spec p c : same_prefix p c = true <-> exists s, c = p ++ s.
Proof.
  revert c. induction p as [|x p IH]; intros c; cbn; [split; [by exists c|done]|].
  destruct c as [|y c]; [split; [done|by intros []]|]. rewrite andb_true_iff, Z.eqb_eq, IH. split.
  - by intros [-> [s ->]]; exists s.
  - by intros [s [= -> ->]]; eauto.
Qed.

(** [IsDescendantPath] is the strict prefix order on paths (hence irreflexive and transitive):
    it holds exactly when both identifiers parse and the child's path properly extends the
    parent's. *)
Theorem IsDescendantPath_spec parentID childID :
  IsDescendantPath parentID childID = true <->
  exists p s, s <> [] /\ ParseCellPathID parentID = Ok p /\ ParseCellPathID childID = Ok (p ++ s).
Proof.
  unfold IsDescendantPath. split.
  - destruct (ParseCellPathID parentID) as [p|]; [|done]. destruct (ParseCellPathID childID) as [c|]; [|done].
    destruct (Nat.leb _ _) eqn:E; [done|]. apply Nat.leb_gt in E.
    intros (s & ->)%same_prefix_spec. exists p, s. repeat split; try done.
    intros ->. rewrite app_nil_r in E. lia.
  - intros (p & s & Hs & -> & ->). rewrite length_app.
    assert (Nat.leb (length p + length s) (length p) = false) as ->.
    { apply Nat.leb_gt. destruct s; [done|]. cbn. lia. }
    apply same_prefix_spec. by exists s.
Qed.

(** The identifier of a child parses back to the parent's path extended with the quadrant, is a
    descendant of the parent, and lies one level deeper. *)
Theorem ChildIDForQuadrant_roundtrip parentID p q :
  ParseCellPathID parentID = Ok p -> (0 <= q <= 3)%Z ->
  exists c, ChildIDForQuadrant parentID q = Ok c /\ ParseCellPathID c = Ok (p ++ [q]) /\
    IsDescendantPath parentID c = true /\
    CellPathLevel c = Some (int32 (Z.of_nat (length p) + 1)).
Proof.
  intros H Hq. exists (render (p ++ [q])). rewrite (ChildID_Ok _ p) by done.
  assert (ParseCellPathID (render (p ++ [q])) = Ok (p ++ [q])) as Hp.
  { apply parse_render, valid_path_app. split; [by eapply ParseCellPathID_valid|by repeat constructor; lia]. }
  split; [done|split; [done|split]].
  - unfold IsDescendantPath. rewrite H, Hp, length_app. cbn.
    assert (Nat.leb (length p + 1) (length p) = false) as -> by (apply Nat.leb_gt; lia).
    apply same_prefix_spec. by exists [q].
  - unfold CellPathLevel. rewrite Hp, length_app. cbn. do 2 f_equal. lia.
Qed.

Lemma ChildIDForQuadrant_roundtrip_witness :
  exists c, ChildIDForQuadrant " cell_q1 " 3 = Ok c /\ ParseCellPathID c = Ok [1; 3]%Z /\
    IsDescendantPath " cell_q1 " c = true /\ CellPathLevel c = Some 2%Z.
Proof. apply (ChildIDForQuadrant_roundtrip " cell_q1 " [1]%Z 3); [reflexivity|lia]. Defined.

(** * Merge groups *)

(** The identifiers of a merge group as the code compares them. *)
Definition trimmed_id (c : CellSpec) : string := trim_space (Id c).

(** [c] occupies the quadrant [q]. *)
Definition occupies (c : CellSpec) (q : Bounds) : Prop := boundsEqual (CBounds c) (Some q) = true.

(** A merge group of a parent: four cells of the wanted level with distinct non-empty ids which
    occupy the four quadrants, in any order. *)
Definition merge_group (b : Bounds) (wantLevel : Z) (cs : list CellSpec) : Prop :=
  Forall (fun c => trimmed_id c <> "" /\ Level c = wantLevel) cs /\ NoDup (trimmed_id <$> cs) /\
  exists quads, quads ≡ₚ SplitFour b /\ Forall2 occupies cs quads.

Lemma boundsEqual_Some a b :
  boundsEqual (Some a) (Some b) = true <->
  feq (XMin a) (XMin b) = true /\ feq (XMax a) (XMax b) = true /\
  feq (ZMin a) (ZMin b) = true /\ feq (ZMax a) (ZMax b) = true.
Proof. cbn. rewrite !andb_true_iff. tauto. Qed.

Lemma occupies_swap c c' q q' : occupies c q -> occupies c q' -> occupies c' q -> occupies c' q'.
Proof.
  unfold occupies. destruct (CBounds c) as [a|], (CBounds c') as [a'|]; try done.
  rewrite !boundsEqual_Some. intros. destruct_and!. repeat split; eauto using feq_trans, feq_sym.
Qed.

Lemma occupies_bounds c q : occupies c q -> CBounds c <> None.
Proof. unfold occupies. by destruct (CBounds c). Qed.

(** The quadrants not used yet. *)
Fixpoint unused (quads : list Bounds) (used : list bool) : list Bounds :=
  match quads, used with
  | q :: quads', u :: used' => if u then unused quads' used' else q :: unused quads' used'
  | _, _ => []
  end.

Lemma first_match_S b quads used k : first_match b quads used (S k) = S <$> first_match b quads used k.
Proof.
  revert used k. induction quads as [|q quads IH]; intros [|u used] k; cbn; try done.
  destruct u; [by rewrite IH|]. destruct (boundsEqual _ _); [done|by rewrite IH].
Qed.

Lemma first_match_Some b quads used i :
  first_match b quads used 0 = Some i ->
  exists q, boundsEqual b (Some q) = true /\ unused quads used ≡ₚ q :: unused quads (<[i := true]> used).
Proof.
  revert used i. induction quads as [|q quads IH]; intros [|u used] i; cbn; try done.
  destruct u.
  - rewrite first_match_S. intros (j & Hj & ->)%fmap_Some. cbn. by apply IH.
  - destruct (boundsEqual _ _) eqn:E.
    + intros [= <-]. cbn. eauto.
    + rewrite first_match_S. intros (j & Hj & ->)%fmap_Some. cbn. apply IH in Hj as (q' & ? & Hp).
      exists q'. split; [done|]. rewrite Hp. apply Permutation_swap.
Qed.

Lemma first_match_None b quads used q :
  first_match b quads used 0 = None -> q ∈ unused quads used -> boundsEqual b (Some q) = false.
Proof.
  generalize 0. revert used. induction quads as [|q' quads IH]; intros [|u used] k; cbn;
    try (by intros _ ?%not_elem_of_nil).
  destruct u; [by apply IH|]. destruct (boundsEqual b (Some q')) eqn:E; [by intros|].
  intros H [->|Hin]%elem_of_cons; [done|]. by eapply IH.
Qed.

Lemma unused_fresh quads : unused quads (replicate (length quads) false) = quads.
Proof. induction quads as [|q quads IH]; cbn; [done|]. by rewrite IH. Qed.

Lemma unused_nil_complete quads used qi :
  length quads = length used -> unused quads used = [] -> missing_quadrant used qi = Ok tt.
Proof.
  revert used qi. induction quads as [|q quads IH]; intros [|u used] qi; cbn; try done.
  intros [= Hl]. destruct u; [by apply IH|done].
Qed.

(** The conditions on the cells of a merge group that do not concern the quadrants. *)
Definition group_cells (wantLevel : Z) (seen : gset string) (cs : list CellSpec) : Prop :=
  Forall (fun c => trimmed_id c <> "" /\ Level c = wantLevel /\ trimmed_id c ∉ seen) cs /\
  NoDup (trimmed_id <$> cs).

Lemma group_cells_cons wantLevel seen c cs :
  group_cells wantLevel seen (c :: cs) <->
  trimmed_id c <> "" /\ Level c = wantLevel /\ trimmed_id c ∉ seen /\
  group_cells wantLevel ({[trimmed_id c]} ∪ seen) cs.
Proof.
  unfold group_cells. cbn. rewrite Forall_cons, NoDup_cons, list_elem_of_fmap, !Forall_forall. set_solver.
Qed.

Lemma validate_children_sound quads wantLevel children used seen used' :
  length quads = length used ->
  validate_children quads wantLevel children used seen = Ok used' ->
  exists cs taken, children = Some <$> cs /\ group_cells wantLevel seen cs /\
    length quads = length used' /\ unused quads used ≡ₚ taken ++ unused quads used' /\
    Forall2 occupies cs taken.
Proof.
  revert used seen. induction children as [|[c|] children IH]; intros used seen Hl Hok; [| |done].
  { injection Hok as ->. exists [], []. repeat split; try done; constructor. }
  cbn in Hok. destruct (String.eqb _ _) eqn:Ei; [done|]. destruct (negb _) eqn:El; [done|].
  destruct (bool_decide (CBounds c = None)); [done|]. destruct (bool_decide (_ ∈ seen)) eqn:Es; [done|].
  destruct (first_match _ _ _ _) as [i|] eqn:Ef; [|done].
  apply first_match_Some in Ef as (q & Hq & Hperm).
  apply IH in Hok as (cs & taken & -> & Hcs & Hlen & Hp & Hocc); [|by rewrite length_insert].
  apply String.eqb_neq in Ei. apply negb_false_iff, Z.eqb_eq in El. apply bool_decide_eq_false in Es.
  exists (c :: cs), (q :: taken). rewrite group_cells_cons. split; [done|]. split; [done|].
  split; [done|]. split; [by rewrite Hperm, Hp|by constructor].
Qed.

(** The greedy assignment succeeds whenever an assignment exists: two quadrants that one cell fits
    are fitted by the same cells, so the first unused one is as good as any. *)
Lemma validate_children_complete quads wantLevel cs used seen taken :
  length quads = length used -> group_cells wantLevel seen cs ->
  unused quads used ≡ₚ taken -> Forall2 occupies cs taken ->
  exists used', validate_children quads wantLevel (Some <$> cs) used seen = Ok used' /\
    length quads = length used' /\ unused quads used' = [].
Proof.
  revert used seen taken. induction cs as [|c cs IH]; intros used seen taken Hl Hg Hp Hocc.
  { inversion Hocc; subst. exists used. by apply Permutation_nil_r in Hp. }
  apply group_cells_cons in Hg as (Hid & Hlv & Hseen & Hg).
  inversion Hocc as [|? q ? taken' Hcq Hocc']; subst. cbn -[occupies].
  apply String.eqb_neq in Hid. unfold trimmed_id in Hid. rewrite Hid, Z.eqb_refl. cbn -[occupies].
  rewrite !bool_decide_eq_false_2 by (done || by eapply occupies_bounds).
  destruct (first_match _ _ _ _) as [i|] eqn:Ef.
  2:{ eapply first_match_None in Ef; [|rewrite Hp; left]. unfold occupies in Hcq. congruence. }
  apply first_match_Some in Ef as (q' & Hq' & Hperm). rewrite Hperm in Hp. fold (occupies c q') in Hq'.
  assert (exists taken2, unused quads (<[i:=true]> used) ≡ₚ taken2 /\ Forall2 occupies cs taken2)
    as (taken2 & Hp2 & Hocc2).
  { destruct (decide (q' = q)) as [->|Hne].
    { exists taken'. split; [|done]. apply (inj (cons q)) in Hp. exact Hp. }
    assert (q' ∈ q :: taken') as [?|Hin]%elem_of_cons by (rewrite <- Hp; left); [done|].
    apply list_elem_of_split in Hin as (t1 & t2 & ->).
    exists (t1 ++ q :: t2). split.
    - apply (inj (cons q')). rewrite Hp. solve_Permutation.
    - apply Forall2_app_inv_r in Hocc' as (c1 & c2 & H1 & H2 & ->).
      inversion H2; subst. apply Forall2_app; [done|]. constructor; [|done]. by apply (occupies_swap c _ q' q). }
  apply (IH _ _ taken2); [by rewrite length_insert|done|done|done].
Qed.

Lemma SplitFour_length b : length (SplitFour b) = 4.
Proof. unfold SplitFour. by destruct (Mid _). Qed.

Lemma group_cells_empty wantLevel cs :
  group_cells wantLevel ∅ cs <->
  Forall (fun c => trimmed_id c <> "" /\ Level c = wantLevel) cs /\ NoDup (trimmed_id <$> cs).
Proof.
  unfold group_cells. split; (intros [H ?]; split; [|done]); (eapply Forall_impl; [exact H|]);
    intros c; cbn; rewrite elem_of_empty; tauto.
Qed.

Lemma validate_iff b parentLevel children :
  ValidateMergeChildren (Some b) parentLevel children = Ok tt <->
  exists cs, children = Some <$> cs /\ merge_group b (int32 (parentLevel + 1)) cs.
Proof.
  unfold ValidateMergeChildren. split.
  - destruct (Nat.eqb _ _) eqn:E4; [|done]. apply Nat.eqb_eq in E4. intros (used & H & _)%bind_Ok.
    apply validate_children_sound in H as (cs & taken & -> & Hg & Hlen & Hp & Hocc);
      [|by rewrite SplitFour_length].
    apply group_cells_empty in Hg as [Hf Hnd]. exists cs. split; [done|]. split; [done|split; [done|]].
    exists taken. split; [|done]. rewrite <- (SplitFour_length b), unused_fresh in Hp.
    assert (unused (SplitFour b) used = []) as Hu; [|by rewrite Hp, Hu, app_nil_r].
    apply Permutation_length in Hp. rewrite length_app, SplitFour_length in Hp.
    apply Forall2_length in Hocc. rewrite length_fmap in E4. apply nil_length_inv. lia.
  - intros (cs & -> & Hf & Hnd & quads & Hp & Hocc).
    pose proof (Forall2_length _ _ _ Hocc) as Hl. rewrite (Permutation_length Hp), SplitFour_length in Hl.
    rewrite length_fmap, Hl. cbn -[SplitFour replicate].
    destruct (validate_children_complete (SplitFour b) (int32 (parentLevel + 1)) cs (replicate 4 false) ∅ quads)
      as (used & -> & Hlen & Hu); [by rewrite SplitFour_length|by apply group_cells_empty| |done|].
    { rewrite <- (SplitFour_length b), unused_fresh. done. }
    cbn. by eapply unused_nil_complete.
Qed.

(** C28: [ValidateMergeChildren] accepts exactly the merge groups of the parent: four cells of level
    [parentLevel + 1] (as an int32) with distinct non-empty ids that occupy the four quadrants of
    [SplitFour] in some order. In particular the greedy search for a quadrant never rejects a group
    that could be assigned. *)
Theorem ValidateMergeChildren_spec b parentLevel children :
  ValidateMergeChildren (Some b) parentLevel children = Ok tt <->
  exists cs, children = Some <$> cs /\ merge_group b (int32 (parentLevel + 1)) cs.
Proof. apply validate_iff. Qed.

(** The children of a split form a merge group of their parent, in every order and with any ids that
    are distinct and non-empty. *)
Definition to_spec (endpoint : string) (c : PlanSplitResponseChild) : CellSpec :=
  mkCellSpec (ch_Id c) (ch_Level c) (Some (ch_Bounds c)) endpoint.

Lemma child_specs_Ok parentID p lvl i bs :
  ParseCellPathID parentID = Ok p -> (0 <= i)%Z -> (i + Z.of_nat (length bs) <= 4)%Z ->
  child_specs parentID lvl i bs =
    Ok (zip_with (fun k b => mkChild (render (p ++ [k])) b lvl) (seqZ i (Z.of_nat (length bs))) bs).
Proof.
  intros Hp. revert i. induction bs as [|b bs IH]; intros i Hi Hl; [done|]. cbn -[ChildIDForQuadrant seqZ] in *.
  rewrite (ChildID_Ok _ p), IH by (done || lia). cbn -[render seqZ]. rewrite (seqZ_cons i) by lia.
  cbn -[seqZ render]. repeat f_equal; lia.
Qed.

Definition split_children (p : list Z) (b : Bounds) (lvl : Z) : list PlanSplitResponseChild :=
  zip_with (fun k c => mkChild (render (p ++ [k])) c lvl) (seqZ 0 4) (SplitFour b).

Lemma ChildSpecsForSplit_Ok parentID p b lvl :
  ParseCellPathID parentID = Ok p ->
  ChildSpecsForSplit parentID (Some b) lvl = Ok (split_children p b (int32 (lvl + 1))).
Proof.
  intros Hp. unfold ChildSpecsForSplit, split_children.
  rewrite (child_specs_Ok _ p) by (rewrite ?SplitFour_length; done || lia).
  by rewrite SplitFour_length.
Qed.

Lemma bounds_refl b c : finite_bounds b = true -> c ∈ SplitFour b -> boundsEqual (Some c) (Some c) = true.
Proof.
  intros Hf Hc. destruct (Mid_not_nan b Hf) as [Hx Hz].
  unfold finite_bounds in Hf. rewrite !andb_true_iff in Hf. destruct_and!.
  apply boundsEqual_Some. unfold SplitFour in Hc. destruct (Mid (Some b)) as [mx mz].
  repeat (apply elem_of_cons in Hc as [->|Hc]; [by repeat split; apply feq_refl; auto using is_finite_not_nan|]).
  by apply not_elem_of_nil in Hc.
Qed.

Lemma join_segments_inj p q : valid_path p -> valid_path q -> render p = render q -> p = q.
Proof. intros Hp Hq H. apply parse_render in Hp, Hq. rewrite H in Hp. congruence. Qed.

Lemma render_nonempty p : render p <> "".
Proof. by destruct p. Qed.

Lemma valid_child p k : valid_path p -> (0 <= k <= 3)%Z -> valid_path (p ++ [k]).
Proof. intros. apply valid_path_app. split; [done|by repeat constructor; lia]. Qed.

(** The cells registered from a split plan form a merge group of the parent. *)
Lemma split_children_group p b lvl ep :
  valid_path p -> finite_bounds b = true -> merge_group b lvl (to_spec ep <$> split_children p b lvl).
Proof.
  intros Hp Hf. unfold split_children. pose proof (SplitFour_length b) as Hl.
  pose proof (fun c => bounds_refl b c Hf) as Hr. destruct (SplitFour b) as [|b0 [|b1 [|b2 [|b3 [|]]]]] eqn:Es; try done.
  change (seqZ 0 4) with [0; 1; 2; 3]%Z. cbn -[render].
  assert (forall k, (0 <= k <= 3)%Z -> trim_space (render (p ++ [k])) = render (p ++ [k])) as Ht
    by (intros; by apply trim_render, valid_child).
  split; [|split].
  - rewrite !Forall_cons. unfold trimmed_id. cbn -[render trim_space]. rewrite !Ht by lia.
    repeat split; first [apply render_nonempty | constructor].
  - unfold trimmed_id. cbn -[render trim_space]. rewrite !Ht by lia.
    change (NoDup ((fun k => render (p ++ [k])) <$> [0; 1; 2; 3]%Z)).
    apply NoDup_fmap_2_strong; [|apply (NoDup_seqZ 0 4)].
    intros x y Hx%(elem_of_seqZ 0 4) Hy%(elem_of_seqZ 0 4) Hxy.
    apply join_segments_inj in Hxy; [|apply valid_child; [done|lia]..].
    by apply app_inj_tail in Hxy as [_ ?].
  - exists [b0; b1; b2; b3]. rewrite Es. split; [done|].
    rewrite !Forall2_cons. unfold occupies. cbn -[boundsEqual]. repeat split; try apply Hr; set_solver.
Qed.

(** C34: a split can be undone: the children [ChildSpecsForSplit] plans for a parent with finite bounds
    and a valid path id are accepted by [ValidateMergeChildren] in every order. *)
Theorem split_then_validate parentID p b lvl ep :
  ParseCellPathID parentID = Ok p -> finite_bounds b = true ->
  exists chs, ChildSpecsForSplit parentID (Some b) lvl = Ok chs /\
    (ch_Bounds <$> chs = SplitFour b) /\
    forall cs, cs ≡ₚ to_spec ep <$> chs -> ValidateMergeChildren (Some b) lvl (Some <$> cs) = Ok tt.
Proof.
  intros Hp Hf. exists (split_children p b (int32 (lvl + 1))). split; [by apply ChildSpecsForSplit_Ok|].
  split.
  { unfold split_children. pose proof (SplitFour_length b) as Hl.
    by destruct (SplitFour b) as [|b0 [|b1 [|b2 [|b3 [|]]]]]. }
  intros cs Hcs. apply validate_iff. exists cs. split; [done|].
  destruct (split_children_group p b (int32 (lvl + 1)) ep) as (H1 & H2 & quads & H3 & H4);
    [by eapply ParseCellPathID_valid|done|].
  split; [by rewrite Hcs|split; [by rewrite Hcs|]].
  eapply Forall2_perm_l in H4 as (quads' & Hq & H4); [|by symmetry].
  exists quads'. split; [by rewrite <- Hq|done].
Qed.

Lemma split_then_validate_witness :
  exists chs, ChildSpecsForSplit "cell_root" (Some world_bounds) 0 = Ok chs /\
    (ch_Bounds <$> chs = SplitFour world_bounds) /\
    forall cs, cs ≡ₚ to_spec "h:1" <$> chs ->
      ValidateMergeChildren (Some world_bounds) 0 (Some <$> cs) = Ok tt.
Proof. apply (split_then_validate "cell_root" []); reflexivity. Defined.

(** * The merge group found in a catalog *)

(** The catalog cells that [CatalogMergeChildren] accepts for a quadrant, in catalog order. *)
Definition candidates (wantLevel : Z) (quad : Bounds) (catalog : list (option CellSpec)) : list CellSpec :=
  filter (fun c => Level c = wantLevel /\ boundsEqual (CBounds c) (Some quad) = true) (omap id catalog).

Definition same_ids (cs : list CellSpec) : Prop :=
  forall c c', c ∈ cs -> c' ∈ cs -> trimmed_id c = trimmed_id c'.

Lemma same_ids_swap m c cs :
  trimmed_id m = trimmed_id c -> same_ids (c :: cs) -> same_ids (m :: c :: cs).
Proof.
  intros He Hs. assert (forall d, d ∈ m :: c :: cs -> trimmed_id d = trimmed_id c) as H.
  { intros d [->|Hd]%elem_of_cons; [done|]. apply Hs; [done|left]. }
  intros d d' Hd Hd'. by rewrite (H d Hd), (H d' Hd').
Qed.

Lemma last_app_cons {A} (l : list A) x k : last (l ++ x :: k) = last (x :: k).
Proof. rewrite last_app. by destruct (last (x :: k)) eqn:E; [|apply last_None in E]. Qed.

Lemma candidates_cons wantLevel quad c catalog :
  candidates wantLevel quad (Some c :: catalog) =
  if bool_decide (Level c = wantLevel /\ boundsEqual (CBounds c) (Some quad) = true)
  then c :: candidates wantLevel quad catalog else candidates wantLevel quad catalog.
Proof.
  unfold candidates. change (omap id (Some c :: catalog)) with (c :: omap id catalog).
  rewrite filter_cons. by destruct (decide _), (bool_decide_reflect (Level c = wantLevel /\
    boundsEqual (CBounds c) (Some quad) = true)).
Qed.

Lemma quadrant_match_iff wantLevel quad qi catalog found r :
  quadrant_match wantLevel quad qi catalog found = Ok r <->
  r = last (option_list found ++ candidates wantLevel quad catalog) /\
  same_ids (option_list found ++ candidates wantLevel quad catalog).
Proof.
  revert found. induction catalog as [|[c|] catalog IH]; intros found; [| |apply IH].
  { cbn. rewrite app_nil_r. split.
    - intros [= <-]. split; [by destruct found|]. destruct found; intros ? ?; set_solver.
    - intros [-> _]. by destruct found. }
  rewrite candidates_cons. cbn [quadrant_match].
  destruct (bool_decide (CBounds c = None)) eqn:Eb.
  { apply bool_decide_eq_true in Eb. rewrite bool_decide_eq_false_2 by (rewrite Eb; by intros []). apply IH. }
  destruct (Level c =? wantLevel)%Z eqn:El; cbn [negb].
  2:{ rewrite bool_decide_eq_false_2 by (intros [? _]; lia). apply IH. }
  destruct (boundsEqual _ _) eqn:Eq; cbn [negb]; [|rewrite bool_decide_eq_false_2 by (by intros []); apply IH].
  apply Z.eqb_eq in El. rewrite bool_decide_eq_true_2 by done.
  destruct found as [m|]; cbn [option_list app]; [|apply IH]. fold (trimmed_id m) (trimmed_id c).
  destruct (String.eqb_spec (trimmed_id m) (trimmed_id c)) as [He|He]; cbn [negb].
  - rewrite IH. cbn [option_list app]. split; intros [-> Hs]; (split; [done|]).
    + by apply same_ids_swap.
    + intros d d' Hd Hd'. apply Hs; by right.
  - split; [done|]. intros [_ Hs]. destruct He. apply Hs; [left|right; left].
Qed.

(** [c] is the cell the catalog holds for a quadrant: the last candidate, all candidates having its
    id. *)
Definition catalog_child (wantLevel : Z) (catalog : list (option CellSpec)) (c : CellSpec) (quad : Bounds) : Prop :=
  last (candidates wantLevel quad catalog) = Some c /\
  forall c', c' ∈ candidates wantLevel quad catalog -> trimmed_id c' = trimmed_id c.

Lemma match_quadrants_iff wantLevel quads qi catalog out :
  match_quadrants wantLevel quads qi catalog = Ok out <->
  Forall2 (catalog_child wantLevel catalog) out quads.
Proof.
  revert qi out. induction quads as [|quad quads IH]; intros qi out; cbn [match_quadrants].
  { split; [by intros [= <-]|]. by intros ->%Forall2_nil_inv_r. }
  rewrite bind_Ok. split.
  - intros (found & Hf & H). apply quadrant_match_iff in Hf as [-> Hs]. cbn in H, Hs.
    destruct (last _) as [m|] eqn:El; [|done]. apply bind_Ok in H as (out' & H & [= <-]).
    constructor; [|by eapply IH]. split; [done|]. intros c' Hc'. apply Hs; [done|by apply last_Some_elem_of].
  - intros (c & out' & [Hl Hc] & Hout & ->)%Forall2_cons_inv_r.
    exists (Some c). split.
    + apply quadrant_match_iff. cbn. split; [done|]. intros d d' Hd Hd'. by rewrite (Hc d Hd), (Hc d' Hd').
    + apply bind_Ok. exists out'. split; [by apply IH|done].
Qed.

Lemma check_distinct_ids_iff i out seen :
  check_distinct_ids i out seen = Ok tt <->
  Forall (fun c => trimmed_id c <> "" /\ trimmed_id c ∉ seen) out /\ NoDup (trimmed_id <$> out).
Proof.
  revert i seen. induction out as [|c out IH]; intros i seen; cbn [check_distinct_ids].
  { cbn. split; [repeat constructor|done]. }
  fold (trimmed_id c). cbn [fmap list_fmap]. rewrite Forall_cons, NoDup_cons.
  destruct (String.eqb_spec (trimmed_id c) "") as [He|He]; [split; [done|by intros [[[? _] _] _]]|].
  destruct (bool_decide (_ ∈ seen)) eqn:Es; [apply bool_decide_eq_true in Es|apply bool_decide_eq_false in Es].
  - split; [done|by intros [[[_ ?] _] _]].
  - rewrite IH, list_elem_of_fmap, !Forall_forall. split.
    + intros [Hf Hnd]. repeat split; try done.
      * by apply Hf.
      * intros Hin. apply (proj2 (Hf x H)). set_solver.
      * intros (x & Hx & Hin). apply (proj2 (Hf x Hin)). rewrite <- Hx. set_solver.
    + intros [[_ Hf] [Hnin Hnd]]. split; [|done]. intros x Hin. split; [by apply Hf|].
      intros [Hx%elem_of_singleton|Hx]%elem_of_union; [|by apply (Hf x Hin)].
      apply Hnin. by exists x.
Qed.

Lemma catalog_child_cell wantLevel catalog c quad :
  catalog_child wantLevel catalog c quad -> Some c ∈ catalog /\ Level c = wantLevel /\ occupies c quad.
Proof.
  intros [Hl _]. apply last_Some_elem_of in Hl. unfold candidates in Hl.
  apply list_elem_of_filter in Hl as [[? ?] Hin]. by apply list_elem_of_omap in Hin as ([?|] & ? & [= ->]).
Qed.

Lemma CatalogMergeChildren_iff id lvl b ep catalog out :
  CatalogMergeChildren (Some (mkCellSpec id lvl (Some b) ep)) catalog = Ok out <->
  Forall2 (catalog_child (int32 (lvl + 1)) catalog) out (SplitFour b) /\
  Forall (fun c => trimmed_id c <> "") out /\ NoDup (trimmed_id <$> out).
Proof.
  unfold CatalogMergeChildren. rewrite bind_Ok. setoid_rewrite match_quadrants_iff. split.
  - intros (out' & Hm & Hc). apply bind_Ok in Hc as ([] & Hc & [= <-]).
    apply check_distinct_ids_iff in Hc as [Hc ?]. split; [done|split; [|done]].
    eapply Forall_impl; [exact Hc|]. naive_solver.
  - intros (Hm & Hf & Hnd). exists out. split; [done|]. apply bind_Ok. exists tt. split; [|done].
    apply check_distinct_ids_iff. split; [|done]. eapply Forall_impl; [exact Hf|]. set_solver.
Qed.

(** What it returns is from the catalog, and a merge group. *)
Lemma CatalogMergeChildren_group parent catalog out :
  CatalogMergeChildren (Some parent) catalog = Ok out ->
  Forall (fun c => Some c ∈ catalog) out /\ ValidateMergeChildren (CBounds parent) (Level parent) (Some <$> out) = Ok tt.
Proof.
  destruct parent as [id lvl [b|] ep]; [|done]. intros (Hm & Hf & Hnd)%CatalogMergeChildren_iff.
  assert (Forall (fun c => Some c ∈ catalog /\ Level c = int32 (lvl + 1)) out) as Hcat.
  { apply Forall_forall. intros c (i & Hi)%list_elem_of_lookup_1.
    eapply Forall2_lookup_l in Hm as (q & _ & Hq); [|done]. by apply catalog_child_cell in Hq as (? & ? & _). }
  split; [eapply Forall_impl; [exact Hcat|]; naive_solver|].
  apply validate_iff. exists out. split; [done|]. split; [|split; [done|]].
  - apply Forall_and. split; [done|]. eapply Forall_impl; [exact Hcat|]. naive_solver.
  - exists (SplitFour b). split; [done|]. eapply Forall2_impl; [exact Hm|].
    intros c q Hq. by apply catalog_child_cell in Hq as (_ & _ & ?).
Qed.

(** If a smaller catalog still has a group for the parent, it has the same ids. *)
Lemma CatalogMergeChildren_smaller parent catalog catalog' out out' :
  (forall t, Some t ∈ catalog' -> Some t ∈ catalog) ->
  CatalogMergeChildren (Some parent) catalog = Ok out -> CatalogMergeChildren (Some parent) catalog' = Ok out' ->
  trimmed_id <$> out' = trimmed_id <$> out.
Proof.
  destruct parent as [id lvl [b|] ep]; [|done]. intros Hsub (Hm & _)%CatalogMergeChildren_iff (Hm' & _)%CatalogMergeChildren_iff.
  revert out out' Hm Hm'. induction (SplitFour b) as [|q quads IH]; intros out out' Hm Hm'.
  { apply Forall2_nil_inv_r in Hm as ->. by apply Forall2_nil_inv_r in Hm' as ->. }
  apply Forall2_cons_inv_r in Hm as (c & cs & [_ Hc] & Hcs & ->). apply Forall2_cons_inv_r in Hm' as (c' & cs' & [Hl _] & Hcs' & ->).
  cbn [fmap list_fmap]. f_equal; [|by apply IH]. apply Hc. apply last_Some_elem_of in Hl. unfold candidates in *.
  apply list_elem_of_filter in Hl as [Hq Hin]. apply list_elem_of_filter. split; [done|].
  apply list_elem_of_omap in Hin as ([t|] & Hin & [= ->]). apply list_elem_of_omap. exists (Some c'). split; [by apply Hsub|done].
Qed.

(** [CatalogMergeChildren] succeeds exactly when for each of the four quadrants the catalog has
    candidates that share one id, the four ids being non-empty and distinct; it returns the last
    candidate of each quadrant, in quadrant order, and what it returns is a merge group that
    [ValidateMergeChildren] accepts. *)
Theorem CatalogMergeChildren_spec id lvl b ep catalog :
  (forall out, CatalogMergeChildren (Some (mkCellSpec id lvl (Some b) ep)) catalog = Ok out <->
     Forall2 (catalog_child (int32 (lvl + 1)) catalog) out (SplitFour b) /\
     Forall (fun c => trimmed_id c <> "") out /\ NoDup (trimmed_id <$> out)) /\
  (forall out, CatalogMergeChildren (Some (mkCellSpec id lvl (Some b) ep)) catalog = Ok out ->
     Forall (fun c => Some c ∈ catalog) out /\ ValidateMergeChildren (Some b) lvl (Some <$> out) = Ok tt).
Proof.
  split; [intros out; apply CatalogMergeChildren_iff|]. intros out. apply CatalogMergeChildren_group.
Qed.

(** The witness merges the split of the world, its catalog holding the parent and an unrelated cell. *)
Example CatalogMergeChildren_of_split :
  exists out, match ChildSpecsForSplit "cell_root" (Some world_bounds) 0 with
    | Ok chs => CatalogMergeChildren (Some (mkCellSpec "cell_root" 0 (Some world_bounds) "p:1"))
        (None :: Some (mkCellSpec "cell_root" 0 (Some world_bounds) "p:1") ::
         map (fun c => Some (to_spec "h:1" c)) (reverse chs)) = Ok out /\ out = map (to_spec "h:1") chs
    | Err _ => False
    end.
Proof. vm_compute. eexists. split; reflexivity. Qed.
