(* ===== verification/Registry.v ===== *)
(** [internal/registry/memory.go] and [internal/discovery/catalog.go], [memory_catalog.go]: the cell
    registry, the catalog interface it implements, and the lookup of the most specific cell. Every
    read of the Go map takes an [iter_order]. *)
From Stdlib Require Import ZArith Lia.
From S2P Require Import Prelude GoFloat GoString Partition.
Local Open Scope string_scope.
Local Open Scope list_scope.

(** * [registry.Memory] *)
Record Memory := mkMemory { cells : gmap string CellSpec }.

Definition NewMemory : Memory := mkMemory ∅.

Definition errInvalidSpec : error := errorf "invalid cell spec" [].
Definition errInvalidBounds : error := errorf "invalid bounds: min must be less than max" [].

(** A deep copy of the message: the identity on values. *)
Definition cloneSpec (s : option CellSpec) : option CellSpec :=
  match s with
  | None => None
  | Some s => Some (mkCellSpec (Id s) (Level s)
      (match CBounds s with
       | None => None
       | Some b => Some (mkBounds (XMin b) (XMax b) (ZMin b) (ZMax b))
       end) (GrpcEndpoint s))
  end.

Definition Register (m : Memory) (spec : option CellSpec) : result Memory :=
  match spec with
  | None => Err errInvalidSpec
  | Some s =>
      if String.eqb (Id s) "" then Err errInvalidSpec else
      match CBounds s with
      | None => Err errInvalidSpec
      | Some b =>
          if fle (XMax b) (XMin b) || fle (ZMax b) (ZMin b) then Err errInvalidBounds
          else Ok (mkMemory (<[Id s := default s (cloneSpec spec)]> (cells m)))
      end
  end.

(** [range m.cells] *)
Definition entries (o : iter_order) (m : Memory) : list CellSpec :=
  (o _ (map_to_list (cells m))).*2.

Definition List (o : iter_order) (m : Memory) : list (option CellSpec) :=
  map (fun c => cloneSpec (Some c)) (entries o m).

(** One iteration of the search for the containing cell with the largest level. *)
Definition better (x z : f64) (best : option CellSpec) (c : CellSpec) : option CellSpec :=
  if negb (Contains (CBounds c) x z) then best
  else match best with
       | None => Some c
       | Some b => if (Level b <? Level c)%Z then Some c else best
       end.

Definition ResolveMostSpecific (o : iter_order) (m : Memory) (x z : f64) : option CellSpec :=
  match fold_left (better x z) (entries o m) None with
  | None => None
  | Some best => cloneSpec (Some best)
  end.

Definition Deregister (m : Memory) (id : string) : result Memory :=
  if String.eqb id "" then Err errInvalidSpec else Ok (mkMemory (delete id (cells m))).

(** * [discovery.Catalog] *)

(** The interface: a state [C] with the four calls. [DeregisterLogical] is the optional interface
    [LogicalCellDeregisterer]. *)
Class Catalog (C : Type) := {
  RegisterCell : C -> option CellSpec -> result C;
  DeregisterCell : C -> string -> result C;
  ListCells : iter_order -> C -> result (list (option CellSpec));
  Resolve : iter_order -> C -> f64 -> f64 -> result (option CellSpec);
  DeregisterLogical : option (C -> string -> result C)
}.

#[export] Instance MemoryCatalog : Catalog Memory := {
  RegisterCell := Register;
  DeregisterCell := Deregister;
  ListCells o m := Ok (List o m);
  Resolve o m x z := Ok (ResolveMostSpecific o m x z);
  DeregisterLogical := Some Deregister
}.

Fixpoint find_id (id : string) (l : list (option CellSpec)) : option CellSpec :=
  match l with
  | [] => None
  | Some s :: l' => if String.eqb (Id s) id then cloneSpec (Some s) else find_id id l'
  | None :: l' => find_id id l'
  end.

Definition FindCellByID {C} `{!Catalog C} (o : iter_order) (c : C) (id : string) : result (option CellSpec) :=
  if String.eqb id "" then Ok None
  else cells ← ListCells o c; Ok (find_id id cells).

Definition PickBestCell (cells : list (option CellSpec)) (x z : f64) : option CellSpec :=
  cloneSpec (fold_left (fun best c =>
    match c with
    | None => best
    | Some c => if bool_decide (CBounds c = None) then best else better x z best c
    end) cells None).

(** [c] is nil when there is no catalog. *)
Definition DeregisterLogicalCell {C} `{!Catalog C} (c : option C) (logicalCellID : string) : result (option C) :=
  match c with
  | None => Ok None
  | Some c =>
      c' ← match DeregisterLogical with
           | Some ex => ex c logicalCellID
           | None => DeregisterCell c logicalCellID
           end;
      Ok (Some c')
  end.

(** * Laws of a catalog *)

(** What a client relies on: the answers of [Resolve] and [List] agree, and a registered cell is
    listed under its id until it is replaced or removed. *)
Definition most_specific (x z : f64) (l : list (option CellSpec)) (r : option CellSpec) : Prop :=
  match r with
  | Some c => Some c ∈ l /\ Contains (CBounds c) x z = true /\
      forall c', Some c' ∈ l -> Contains (CBounds c') x z = true -> (Level c' <= Level c)%Z
  | None => forall c', Some c' ∈ l -> Contains (CBounds c') x z = false
  end.

Class CatalogLaws (C : Type) `{!Catalog C} := {
  catalog_inv : C -> Prop;
  (** The cells of a catalog, whether or not it can be listed at the moment. *)
  registered : C -> CellSpec -> Prop;
  inv_register c s c' : catalog_inv c -> RegisterCell c s = Ok c' -> catalog_inv c';
  inv_deregister c id c' : catalog_inv c -> DeregisterCell c id = Ok c' -> catalog_inv c';
  inv_logical c id c' : catalog_inv c -> DeregisterLogicalCell (Some c) id = Ok (Some c') -> catalog_inv c';
  registered_unique c s s' : catalog_inv c -> registered c s -> registered c s' -> Id s = Id s' -> s = s';
  register_spec c s c' : catalog_inv c -> RegisterCell c (Some s) = Ok c' ->
    forall t, registered c' t <-> t = s \/ (registered c t /\ Id t <> Id s);
  deregister_spec c id c' : catalog_inv c -> DeregisterCell c id = Ok c' ->
    forall t, registered c' t <-> registered c t /\ Id t <> id;
  logical_spec c id c' : catalog_inv c -> DeregisterLogicalCell (Some c) id = Ok (Some c') ->
    forall t, registered c' t <-> registered c t /\ Id t <> id;
  register_id c s c' : RegisterCell c (Some s) = Ok c' -> Id s <> "";
  list_spec o c l : ListCells o c = Ok l -> forall t, Some t ∈ l <-> registered c t;
  list_order o o' c l : ListCells o c = Ok l -> exists l', ListCells o' c = Ok l' /\ l ≡ₚ l';
  resolve_spec o c l x z r :
    Resolve o c x z = Ok r -> ListCells o c = Ok l -> most_specific x z l r
}.

(** * Lemmas *)

Lemma cloneSpec_id s : cloneSpec s = s.
Proof. by destruct s as [[? ? [[]|] ?]|]. Qed.

Lemma List_entries o m : List o m = Some <$> entries o m.
Proof. unfold List. induction (entries o m) as [|c l IH]; [done|]. cbn [map]. by rewrite cloneSpec_id, IH. Qed.

Lemma elem_of_entries o m c : c ∈ entries o m <-> exists id, cells m !! id = Some c.
Proof.
  unfold entries. rewrite list_elem_of_fmap. split.
  - intros ([id c'] & -> & H%elem_of_visit%elem_of_map_to_list). eauto.
  - intros (id & H%elem_of_map_to_list). exists (id, c). split; [done|by apply elem_of_visit].
Qed.

Lemma entries_order o o' m : entries o m ≡ₚ entries o' m.
Proof. unfold entries. by rewrite !visit_perm. Qed.

(** The invariant of the registry: each cell is stored under its id. *)
Definition registry_wf (m : Memory) : Prop := map_Forall (fun id c => Id c = id /\ id <> "") (cells m).

Lemma Register_Ok m s m' :
  Register m (Some s) = Ok m' <->
  Id s <> "" /\ (exists b, CBounds s = Some b /\ fle (XMax b) (XMin b) = false /\ fle (ZMax b) (ZMin b) = false) /\
  m' = mkMemory (<[Id s := s]> (cells m)).
Proof.
  unfold Register. split.
  - destruct (String.eqb_spec (Id s) "") as [|Hid]; [done|]. destruct (CBounds s) as [b|] eqn:Eb; [|done].
    destruct (_ || _) eqn:E; [done|]. apply orb_false_iff in E as [E1 E2]. rewrite cloneSpec_id.
    intros [= <-]. split; [done|split; [by exists b|done]].
  - intros (Hid & (b & -> & -> & ->) & ->). apply String.eqb_neq in Hid. rewrite Hid. cbn [orb].
    by rewrite cloneSpec_id.
Qed.

Lemma Deregister_Ok m id m' :
  Deregister m id = Ok m' <-> id <> "" /\ m' = mkMemory (delete id (cells m)).
Proof.
  unfold Deregister. destruct (String.eqb_spec id "") as [->|Hid].
  - split; [done|by intros [? _]].
  - split; [by intros [= <-]|by intros [_ ->]].
Qed.

Lemma registry_wf_register m s m' : registry_wf m -> Register m s = Ok m' -> registry_wf m'.
Proof.
  intros Hm. destruct s as [s|]; [|done]. intros (Hid & _ & ->)%Register_Ok.
  by apply map_Forall_insert_2.
Qed.

Lemma registry_wf_deregister m id m' : registry_wf m -> Deregister m id = Ok m' -> registry_wf m'.
Proof. intros Hm (_ & ->)%Deregister_Ok. by apply map_Forall_delete. Qed.

(** The fold keeps the best containing cell seen so far. *)
Lemma fold_better x z l best :
  (forall b, best = Some b -> Contains (CBounds b) x z = true) ->
  match fold_left (better x z) l best with
  | Some c => (best = Some c \/ c ∈ l) /\ Contains (CBounds c) x z = true /\
      (forall c', best = Some c' \/ c' ∈ l -> Contains (CBounds c') x z = true -> (Level c' <= Level c)%Z)
  | None => best = None /\ forall c', c' ∈ l -> Contains (CBounds c') x z = false
  end.
Proof.
  revert best. induction l as [|c l IH]; intros best Hb; cbn [fold_left].
  { destruct best as [b|]; [|split; [done|by intros ? ?%not_elem_of_nil]].
    split; [by left|split; [by apply Hb|]]. intros c' [[= ->]|?%not_elem_of_nil]; [lia|done]. }
  specialize (IH (better x z best c)). unfold better in *.
  destruct (Contains (CBounds c) x z) eqn:Ec; cbn [negb] in *.
  - assert (exists b, (match best with Some b => if (Level b <? Level c)%Z then Some c else best | None => Some c end) = Some b
      /\ (best = Some b \/ b = c) /\ Contains (CBounds b) x z = true /\ (Level c <= Level b)%Z /\
      forall b', best = Some b' -> (Level b' <= Level b)%Z) as (b & Eb & Hor & Hcb & Hlc & Hbb).
    { destruct best as [b|]; [destruct (Level b <? Level c)%Z eqn:El|].
      - exists c. repeat split; auto; [lia|]. intros ? [= <-]. lia.
      - exists b. repeat split; auto; [lia|]. intros ? [= <-]. lia.
      - exists c. repeat split; auto; [lia|done]. }
    rewrite Eb in *. destruct (fold_left _ l (Some b)) as [r|]; [|by destruct IH as [? _]; [by intros ? [= <-]|]].
    destruct IH as (Hr & Hcr & Hmax); [by intros ? [= <-]|split]; [|split; [done|]].
    + destruct Hr as [[= ->]|Hr]; [|right; by right]. destruct Hor as [?| ->]; [by left|right; left].
    + assert (Level b <= Level r)%Z by (apply Hmax; auto).
      intros c' [Hc'|[->|Hc']%elem_of_cons] Hcc; [|lia|by apply Hmax; [right|]].
      specialize (Hbb _ Hc'). lia.
  - specialize (IH Hb). destruct (fold_left _ l best) as [r|].
    + destruct IH as (Hr & Hcr & Hmax). split; [destruct Hr as [?|?]; [by left|right; by right]|split; [done|]].
      intros c' [Hc'|[->|Hc']%elem_of_cons] Hcc; [by apply Hmax; [left|]|congruence|by apply Hmax; [right|]].
    + destruct IH as [? IH]. split; [done|]. intros c' [->|?]%elem_of_cons; [done|by apply IH].
Qed.

Lemma elem_of_Some_fmap {A} (x : A) (l : list A) : Some x ∈ Some <$> l <-> x ∈ l.
Proof. rewrite list_elem_of_fmap. split; [by intros (? & [= ->] & ?)|eauto]. Qed.

Lemma elem_of_Some_fmap_1 {A} (x : A) (l : list A) : Some x ∈ Some <$> l -> x ∈ l.
Proof. apply elem_of_Some_fmap. Qed.

Lemma resolve_most_specific o o' m x z :
  most_specific x z (List o' m) (ResolveMostSpecific o m x z).
Proof.
  unfold ResolveMostSpecific. rewrite List_entries.
  pose proof (fold_better x z (entries o m) None ltac:(done)) as H.
  destruct (fold_left _ _ _) as [c|]; [rewrite cloneSpec_id|]; unfold most_specific.
  - destruct H as ([?|Hin] & Hc & Hmax); [done|]. split; [|split; [done|]].
    + apply elem_of_Some_fmap. by rewrite (entries_order o' o).
    + intros c' Hin'%elem_of_Some_fmap_1. apply Hmax. right. by rewrite (entries_order o o').
  - destruct H as [_ H]. intros c' Hin'%elem_of_Some_fmap_1. apply H. by rewrite (entries_order o o').
Qed.

Lemma elem_of_List o m c : Some c ∈ List o m <-> exists id, cells m !! id = Some c.
Proof. by rewrite List_entries, elem_of_Some_fmap, elem_of_entries. Qed.

Lemma wf_elem o m c : registry_wf m -> Some c ∈ List o m -> cells m !! Id c = Some c.
Proof. intros Hm (id & Hid)%elem_of_List. by destruct (Hm id c Hid) as [<- _]. Qed.

Lemma elem_of_register o m s m' t :
  registry_wf m -> Register m (Some s) = Ok m' ->
  Some t ∈ List o m' <-> t = s \/ (Some t ∈ List o m /\ Id t <> Id s).
Proof.
  intros Hm (_ & _ & ->)%Register_Ok. rewrite !elem_of_List. cbn [cells]. split.
  - intros (id & [[<- <-]|[Hne Hid]]%lookup_insert_Some); [by left|].
    right. destruct (Hm id t Hid) as [<- _]. eauto.
  - intros [->|[[id Hid] Hne]]; [exists (Id s); by rewrite lookup_insert_eq|].
    destruct (Hm id t Hid) as [<- _]. exists (Id t). by rewrite lookup_insert_ne.
Qed.

Lemma elem_of_deregister o m id m' t :
  registry_wf m -> Deregister m id = Ok m' -> Some t ∈ List o m' <-> Some t ∈ List o m /\ Id t <> id.
Proof.
  intros Hm (_ & ->)%Deregister_Ok. rewrite !elem_of_List. cbn [cells]. split.
  - intros (i & [Hne Hi]%lookup_delete_Some). destruct (Hm i t Hi) as [<- _]. eauto.
  - intros [[i Hi] Hne]. destruct (Hm i t Hi) as [<- _]. exists (Id t). by rewrite lookup_delete_ne.
Qed.

(** The in-memory catalog satisfies the laws. *)
#[export] Instance MemoryCatalog_laws : CatalogLaws Memory.
Proof.
  refine {| catalog_inv := registry_wf; registered m t := exists id, cells m !! id = Some t |}; cbn.
  - exact registry_wf_register.
  - exact registry_wf_deregister.
  - intros m id m' Hm (m1 & Hr & [= ->])%bind_Ok. by eapply registry_wf_deregister.
  - intros m s s' Hm Hs%(elem_of_List order_id) Hs'%(elem_of_List order_id) He. apply (wf_elem order_id) in Hs, Hs'; [|done..]. congruence.
  - intros m s m' Hm Hr t. rewrite <- !(elem_of_List order_id). by apply elem_of_register.
  - intros m id m' Hm Hr t. rewrite <- !(elem_of_List order_id). by apply elem_of_deregister.
  - intros m id m' Hm (m1 & Hr & [= ->])%bind_Ok t. rewrite <- !(elem_of_List order_id). by apply elem_of_deregister.
  - by intros m s m' (? & _)%Register_Ok.
  - intros o m l [= <-] t. apply elem_of_List.
  - intros o o' m l [= <-]. exists (List o' m). split; [done|]. by rewrite !List_entries, (entries_order o o').
  - intros o m l x z r [= <-] [= <-]. apply resolve_most_specific.
Defined.

(** Clients of the interface: proved against the laws alone. *)
Section Client.
Context {C : Type} `{CatalogLaws C}.

Lemma find_id_spec id l :
  match find_id id l with
  | Some s => Some s ∈ l /\ Id s = id
  | None => forall s, Some s ∈ l -> Id s <> id
  end.
Proof.
  induction l as [|[s|] l IH]; cbn [find_id]; [by intros ? ?%not_elem_of_nil| |].
  - destruct (String.eqb_spec (Id s) id) as [He|He]; [rewrite cloneSpec_id; split; [left|done]|].
    destruct (find_id id l) as [r|]; [destruct IH; split; [by right|done]|].
    intros t [[= ->]|Ht]%elem_of_cons; [done|by apply IH].
  - destruct (find_id id l) as [r|]; [destruct IH; split; [by right|done]|].
    intros t [?|Ht]%elem_of_cons; [done|by apply IH].
Qed.

(** A lookup that answers finds the registered cell of that id. *)
Lemma find_registered o c id r :
  FindCellByID o c id = Ok r ->
  match r with
  | Some s => registered c s /\ Id s = id
  | None => id = "" \/ forall s, registered c s -> Id s <> id
  end.
Proof.
  unfold FindCellByID. destruct (String.eqb_spec id "") as [->|_]; [intros [= <-]; by left|].
  intros (l & Hl & [= <-])%bind_Ok. pose proof (find_id_spec id l) as Hs. destruct (find_id id l) as [s|].
  - by rewrite (list_spec o c l Hl) in Hs.
  - right. intros s Hr. apply Hs. by rewrite (list_spec o c l Hl).
Qed.

(** Looking a cell up does not depend on the order. *)
Lemma find_order o o' c id r :
  catalog_inv c -> FindCellByID o c id = Ok r -> FindCellByID o' c id = Ok r.
Proof.
  intros Hc Hf. destruct (decide (id = "")) as [->|Hid]; [exact Hf|].
  pose proof (find_registered o c id r Hf) as H1. unfold FindCellByID in Hf.
  assert (exists r', FindCellByID o' c id = Ok r') as [r' Hf'].
  { unfold FindCellByID. destruct (String.eqb id ""); [by eexists|]. apply bind_Ok in Hf as (l & Hl & _).
    destruct (list_order o o' c l Hl) as (l' & -> & _). by eexists. }
  pose proof (find_registered o' c id r' Hf') as H2. rewrite Hf'. f_equal. clear Hf Hf'.
  destruct r as [s|], r' as [s'|]; [| | |done].
  - destruct H1 as [H1 <-], H2 as [H2 He]. f_equal. symmetry. by apply (registered_unique c).
  - destruct H1 as [H1 He], H2 as [?|H2]; [done|]. by destruct (H2 s).
  - destruct H2 as [H2 He], H1 as [?|H1]; [done|]. by destruct (H1 s').
Qed.

Lemma find_after_register o c s c' r :
  catalog_inv c -> RegisterCell c (Some s) = Ok c' -> FindCellByID o c' (Id s) = Ok r -> r = Some s.
Proof.
  intros Hc Hr Hf%find_registered. assert (registered c' s) as Hs by (apply (register_spec c s c' Hc Hr); by left).
  destruct r as [t|].
  - destruct Hf as [Ht He]. f_equal. apply (registered_unique c'); [by eapply inv_register|done..].
  - destruct Hf as [He|Hn]; [by destruct (register_id _ _ _ Hr)|by destruct (Hn s)].
Qed.

Lemma find_after_deregister o c id c' r :
  catalog_inv c -> DeregisterCell c id = Ok c' -> FindCellByID o c' id = Ok r -> r = None.
Proof.
  intros Hc Hd Hf%find_registered. destruct r as [t|]; [|done]. destruct Hf as [Ht He].
  by apply (deregister_spec c id c' Hc Hd) in Ht as [_ ?].
Qed.
End Client.

(** For every iteration order, [ResolveMostSpecific] finds a registered cell that contains the
    point and whose level is the largest among the cells containing it, and it finds none exactly
    when no registered cell contains the point; [PickBestCell] on the listed cells has the same
    contract. *)
Theorem ResolveMostSpecific_spec o o' m x z :
  most_specific x z (List o' m) (ResolveMostSpecific o m x z) /\
  most_specific x z (List o' m) (PickBestCell (List o m) x z).
Proof.
  split; [apply resolve_most_specific|].
  assert (PickBestCell (List o m) x z = ResolveMostSpecific o m x z) as ->; [|apply resolve_most_specific].
  unfold PickBestCell, ResolveMostSpecific. rewrite List_entries.
  assert (forall l best, fold_left (fun best c => match c with None => best | Some c =>
    if bool_decide (CBounds c = None) then best else better x z best c end) (Some <$> l) best =
    fold_left (better x z) l best) as ->.
  { intros l. induction l as [|c l IH]; intros best; [done|]. cbn [fold_left fmap list_fmap].
    destruct (bool_decide_reflect (CBounds c = None)) as [Hb|Hb]; rewrite IH; [|done].
    unfold better. by rewrite Hb. }
  by destruct (fold_left _ _ _).
Qed.

(** In a well-formed registry, for every iteration order: a registered cell is found by its id
    (the last registration wins), a deregistered one is not, and every other id is unaffected. *)
Theorem FindCellByID_register_deregister o m s m1 id m2 :
  registry_wf m -> Register m (Some s) = Ok m1 -> Deregister m1 id = Ok m2 ->
  registry_wf m1 /\ registry_wf m2 /\ FindCellByID o m1 (Id s) = Ok (Some s) /\
  FindCellByID o m2 id = Ok None /\
  forall id', id' <> id -> id' <> Id s -> FindCellByID o m2 id' = FindCellByID o m id'.
Proof.
  intros Hm Hr Hd. assert (registry_wf m1) as Hm1 by eauto using registry_wf_register.
  assert (registry_wf m2) as Hm2 by eauto using registry_wf_deregister.
  assert (forall m id, exists r, FindCellByID o m id = Ok r) as Hfind.
  { intros m' i. unfold FindCellByID. destruct (String.eqb i ""); eauto. }
  split; [done|split; [done|]].
  destruct (Hfind m1 (Id s)) as [r1 E1], (Hfind m2 id) as [r2 E2].
  rewrite E1, E2. rewrite (find_after_register (C:=Memory) (H:=MemoryCatalog_laws) o m s m1 r1 Hm Hr E1).
  rewrite (find_after_deregister (C:=Memory) (H:=MemoryCatalog_laws) o m1 id m2 r2 Hm1 Hd E2).
  split; [done|split; [done|]]. intros id' Hne Hne'. unfold FindCellByID.
  destruct (String.eqb id' ""); [done|]. cbn. f_equal.
  assert (forall t, Id t = id' -> Some t ∈ List o m2 <-> Some t ∈ List o m) as Heq.
  { intros t <-. rewrite (elem_of_deregister o m1 id m2) by done. rewrite (elem_of_register o m s m1) by done.
    split; [intros [[->|[? _]] _]; done|]. intros. split; [by right|done]. }
  pose proof (find_id_spec id' (List o m2)) as F2. pose proof (find_id_spec id' (List o m)) as F.
  destruct (find_id id' (List o m2)) as [t|].
  - destruct F2 as [Hin He]. apply Heq in Hin; [|done]. destruct (find_id id' (List o m)) as [u|].
    + destruct F as [Hu Hu']. apply wf_elem in Hin, Hu; [|done..]. congruence.
    + by destruct (F t Hin).
  - destruct (find_id id' (List o m)) as [u|]; [|done]. destruct F as [Hu Hu'].
    apply Heq in Hu; [|done]. by destruct (F2 u Hu).
Qed.

Definition root_spec : CellSpec := mkCellSpec "cell_root" 0 (Some world_bounds) "root:50051".

Lemma FindCellByID_register_deregister_witness :
  exists m1 m2, Register NewMemory (Some root_spec) = Ok m1 /\ Deregister m1 "cell_root" = Ok m2 /\
    FindCellByID order_rev m2 "cell_root" = Ok None.
Proof.
  eexists _, _. split; [reflexivity|split; [reflexivity|]].
  refine (proj1 (proj2 (proj2 (proj2 (FindCellByID_register_deregister order_rev NewMemory root_spec _ "cell_root" _ _ eq_refl eq_refl))))).
  apply map_Forall_empty.
Defined.

(** * The registry after a split *)

(** Registers several cells in turn, as the split workflow does with the planned children. *)
Fixpoint register_all (m : Memory) (specs : list CellSpec) : result Memory :=
  match specs with
  | [] => Ok m
  | s :: specs' => m' ← Register m (Some s); register_all m' specs'
  end.

Lemma register_all_elem o m specs m' :
  registry_wf m -> NoDup (Id <$> specs) -> register_all m specs = Ok m' ->
  registry_wf m' /\
  forall t, Some t ∈ List o m' <-> t ∈ specs \/ (Some t ∈ List o m /\ Id t ∉ Id <$> specs).
Proof.
  revert m. induction specs as [|s specs IH]; intros m Hm Hnd; cbn [register_all fmap list_fmap].
  { intros [= <-]. split; [done|]. intros t. rewrite elem_of_nil. split; [|by intros [?|[]]].
    intros. right. split; [done|apply not_elem_of_nil]. }
  intros (m1 & Hr & Hall)%bind_Ok. cbn [fmap list_fmap] in Hnd. apply NoDup_cons in Hnd as [Hs Hnd].
  destruct (IH m1 (registry_wf_register m (Some s) m1 Hm Hr) Hnd Hall) as [Hwf Ht]. split; [done|].
  intros t. rewrite Ht, (elem_of_register o m s m1), !elem_of_cons by done. split.
  - intros [?|[[->|[? ?]] ?]]; [by left; right|by left; left|]. right. split; [done|]. by intros [?|?].
  - intros [[->|?]|[? Hn]]; [right; by split; [left|]|by left|].
    apply Decidable.not_or in Hn as [? ?]. right. split; [by right|done].
Qed.

Lemma int32_succ lvl : (- 2 ^ 31 <= lvl < 2 ^ 31 - 1)%Z -> int32 (lvl + 1) = (lvl + 1)%Z.
Proof. intros. apply int32_id. lia. Qed.

Lemma split_ids p b lvl ep :
  Id <$> (to_spec ep <$> split_children p b lvl) = (fun k => render (p ++ [k])) <$> seqZ 0 4.
Proof.
  unfold split_children. pose proof (SplitFour_length b) as Hl.
  destruct (SplitFour b) as [|b0 [|b1 [|b2 [|b3 [|]]]]]; try done.
Qed.

Lemma split_lookup p b lvl ep q c :
  (to_spec ep <$> split_children p b lvl) !! q = Some c ->
  exists cb, SplitFour b !! q = Some cb /\ CBounds c = Some cb /\ Level c = lvl.
Proof.
  unfold split_children. pose proof (SplitFour_length b) as Hl.
  destruct (SplitFour b) as [|b0 [|b1 [|b2 [|b3 [|]]]]]; try done.
  destruct q as [|[|[|[|]]]]; cbn; intros [= <-]; eauto.
Qed.

Lemma split_lookup_is_Some p b lvl ep q :
  q < 4 -> exists c, (to_spec ep <$> split_children p b lvl) !! q = Some c.
Proof.
  unfold split_children. pose proof (SplitFour_length b) as Hl.
  destruct (SplitFour b) as [|b0 [|b1 [|b2 [|b3 [|]]]]]; try done.
  intros Hq. destruct q as [|[|[|[|]]]]; cbn; eauto. lia.
Qed.

Lemma split_ids_nodup parent p b lvl ep :
  ParseCellPathID (Id parent) = Ok p ->
  NoDup (Id <$> parent :: (to_spec ep <$> split_children p b lvl)).
Proof.
  intros Hp. pose proof (ParseCellPathID_valid _ _ Hp) as Hv. rewrite fmap_cons, split_ids.
  apply NoDup_cons. split.
  - intros (k & He & Hk%(elem_of_seqZ 0 4))%list_elem_of_fmap. rewrite He in Hp.
    rewrite parse_render in Hp by (apply valid_child; [done|cbn in *; lia]). injection Hp as Hp.
    apply (f_equal length) in Hp. rewrite length_app in Hp. cbn in Hp. lia.
  - apply NoDup_fmap_2_strong; [|apply NoDup_seqZ].
    intros x y Hx%(elem_of_seqZ 0 4) Hy%(elem_of_seqZ 0 4) Hxy.
    apply join_segments_inj in Hxy; [|apply valid_child; [done|cbn in *; lia]..].
    by apply app_inj_tail in Hxy as [_ ?].
Qed.

(** C23: a split re-routes the whole territory of the parent. When the parent and the four children
    planned for it are registered, every point of the parent resolves, for every iteration order, to
    one of the children that contains it and never to the parent; off the two cut lines it is the
    child of the quadrant of the point. *)
Theorem resolve_after_split o parent b p ep chs m x z :
  CBounds parent = Some b -> ParseCellPathID (Id parent) = Ok p -> finite_bounds b = true ->
  (- 2 ^ 31 <= Level parent < 2 ^ 31 - 1)%Z ->
  ChildSpecsForSplit (Id parent) (Some b) (Level parent) = Ok chs ->
  register_all NewMemory (parent :: (to_spec ep <$> chs)) = Ok m ->
  Contains (Some b) x z = true ->
  exists q c, (to_spec ep <$> chs) !! q = Some c /\ ResolveMostSpecific o m x z = Some c /\
    Contains (CBounds c) x z = true /\
    (feq x (fst (Mid (Some b))) = false -> feq z (snd (Mid (Some b))) = false -> q = Quadrant x z (Some b)).
Proof.
  intros Hb Hp Hf Hl Hc Hm Hx. rewrite (ChildSpecsForSplit_Ok _ p) in Hc by done. injection Hc as <-.
  rewrite int32_succ in * by done.
  apply (register_all_elem o) in Hm as [Hwf Hm]; [|apply map_Forall_empty|by apply split_ids_nodup].
  pose proof (resolve_most_specific o o m x z) as Hr.
  destruct (quadrant_child b x z Hf Hx) as (cb & Hq & Hcb & Huniq).
  destruct (split_lookup_is_Some p b (Level parent + 1) ep (Quadrant x z (Some b)) (Quadrant_lt _ _ _)) as [c0 Hc0].
  destruct (split_lookup _ _ _ _ _ _ Hc0) as (cb0 & Hcb0 & Hbd0 & Hlv0). rewrite Hq in Hcb0. injection Hcb0 as <-.
  assert (Some c0 ∈ List o m) as Hin0.
  { apply Hm. left. right. by eapply list_elem_of_lookup_2. }
  destruct (ResolveMostSpecific o m x z) as [c|]; cbn [most_specific] in Hr.
  2:{ apply Hr in Hin0. rewrite Hbd0, Hcb in Hin0. done. }
  destruct Hr as (Hin & Hcc & Hmax).
  assert (Level c0 <= Level c)%Z as Hle by (apply Hmax; [done|by rewrite Hbd0]).
  apply Hm in Hin as [[->|Hin]%elem_of_cons|[Hin _]].
  - lia.
  - apply list_elem_of_lookup_1 in Hin as [q Hqc]. exists q, c. split; [done|split; [done|split; [done|]]].
    intros Nx Nz. destruct (split_lookup _ _ _ _ _ _ Hqc) as (cb' & Hcb' & Hbd & _).
    rewrite Hbd in Hcc. by eapply Huniq.
  - by apply elem_of_List in Hin as [id Hid].
Qed.

Lemma resolve_after_split_witness :
  match ChildSpecsForSplit "cell_root" (Some world_bounds) 0 with
  | Ok chs => match register_all NewMemory (root_spec :: (to_spec "h:1" <$> chs)) with
    | Ok m => exists q c, (to_spec "h:1" <$> chs) !! q = Some c /\
        ResolveMostSpecific order_id m (f64_of_Z 3) (f64_of_Z 5) = Some c /\ q = 3
    | Err _ => False end
  | Err _ => False end.
Proof.
  destruct (ChildSpecsForSplit _ _ _) as [chs|] eqn:Ec; [|by vm_compute in Ec].
  destruct (register_all _ _) as [m|] eqn:Em.
  - destruct (resolve_after_split order_id root_spec world_bounds [] "h:1" chs m (f64_of_Z 3) (f64_of_Z 5))
      as (q & c & H1 & H2 & _ & H3); try reflexivity; try done.
    exists q, c. split; [done|split; [done|]]. by rewrite H3.
  - vm_compute in Ec. injection Ec as <-. vm_compute in Em. done.
Defined.

(** On a cut line the resolver has no rule: two orders of the same registry answer differently, and
    one of the answers is not the child [Quadrant] names. *)
Definition split_world : result Memory :=
  chs ← ChildSpecsForSplit "cell_root" (Some world_bounds) 0;
  register_all NewMemory (root_spec :: (to_spec "h:1" <$> chs)).

Example resolve_tie_on_cut :
  exists m c1 c2, split_world = Ok m /\
    ResolveMostSpecific order_id m f0 f0 = Some c1 /\ ResolveMostSpecific order_rev m f0 f0 = Some c2 /\
    Id c1 = "cell_q3" /\ Quadrant f0 f0 (Some world_bounds) = 3 /\ Id c2 <> "cell_q3".
Proof.
  destruct split_world as [m|] eqn:E; [|by vm_compute in E]. vm_compute in E. injection E as <-.
  eexists _, _, _. split; [reflexivity|]. split; [vm_compute; reflexivity|]. split; [vm_compute; reflexivity|].
  vm_compute. done.
Qed.
