(* ===== verification/Ecs.v ===== *)
(** [internal/ecs]: entities, the component store, the simulation systems (movement, health
    regeneration, collisions, triggers) and the fixed-step game loop. [Entity] is a [uint64], kept as
    an [N] below [2^64]. A [range] over the live entities takes an [iter_order]. *)
From Stdlib Require Import ZArith Lia.
From S2P Require Import Prelude GoFloat.
Local Open Scope list_scope.

Abbreviation Entity := N (only parsing).

Record Position := mkPosition { X : f64; Y : f64; Z_ : f64 }.
Record Velocity := mkVelocity { VX : f64; VY : f64; VZ : f64 }.
Record Health := mkHealth { HP : f64; MaxHP : f64 }.
Record Collider := mkCollider { c_HalfX : f64; c_HalfY : f64; c_HalfZ : f64 }.
Record TriggerZone := mkTriggerZone { z_ID : string; z_HalfX : f64; z_HalfY : f64; z_HalfZ : f64 }.
Record TriggerSensor := mkTriggerSensor { s_HalfX : f64; s_HalfY : f64; s_HalfZ : f64 }.

(** * World *)
Record World := mkWorld {
  nextID : Entity;
  alive : gset Entity;
  positions : gmap Entity Position;
  velocities : gmap Entity Velocity;
  healths : gmap Entity Health;
  colliders : gmap Entity Collider;
  triggerZones : gmap Entity TriggerZone;
  triggerSensors : gmap Entity TriggerSensor;
  dirty : gset Entity
}.

(** Field updates. *)
Definition with_nextID (n : Entity) (w : World) : World :=
  mkWorld n (alive w) (positions w) (velocities w) (healths w) (colliders w) (triggerZones w) (triggerSensors w) (dirty w).
Definition with_alive (a : gset Entity) (w : World) : World :=
  mkWorld (nextID w) a (positions w) (velocities w) (healths w) (colliders w) (triggerZones w) (triggerSensors w) (dirty w).
Definition with_positions (p : gmap Entity Position) (w : World) : World :=
  mkWorld (nextID w) (alive w) p (velocities w) (healths w) (colliders w) (triggerZones w) (triggerSensors w) (dirty w).
Definition with_velocities (v : gmap Entity Velocity) (w : World) : World :=
  mkWorld (nextID w) (alive w) (positions w) v (healths w) (colliders w) (triggerZones w) (triggerSensors w) (dirty w).
Definition with_healths (h : gmap Entity Health) (w : World) : World :=
  mkWorld (nextID w) (alive w) (positions w) (velocities w) h (colliders w) (triggerZones w) (triggerSensors w) (dirty w).
Definition with_colliders (c : gmap Entity Collider) (w : World) : World :=
  mkWorld (nextID w) (alive w) (positions w) (velocities w) (healths w) c (triggerZones w) (triggerSensors w) (dirty w).
Definition with_triggerZones (z : gmap Entity TriggerZone) (w : World) : World :=
  mkWorld (nextID w) (alive w) (positions w) (velocities w) (healths w) (colliders w) z (triggerSensors w) (dirty w).
Definition with_triggerSensors (s : gmap Entity TriggerSensor) (w : World) : World :=
  mkWorld (nextID w) (alive w) (positions w) (velocities w) (healths w) (colliders w) (triggerZones w) s (dirty w).
Definition with_dirty (d : gset Entity) (w : World) : World :=
  mkWorld (nextID w) (alive w) (positions w) (velocities w) (healths w) (colliders w) (triggerZones w) (triggerSensors w) d.

Definition NewWorld : World := mkWorld 0%N ∅ ∅ ∅ ∅ ∅ ∅ ∅ ∅.

Definition CreateEntity (w : World) : Entity * World :=
  let e := uint64 (nextID w + 1)%N in
  (e, with_alive ({[e]} ∪ alive w) (with_nextID e w)).

Definition DestroyEntity (e : Entity) (w : World) : World :=
  mkWorld (nextID w) (alive w ∖ {[e]}) (delete e (positions w)) (delete e (velocities w))
    (delete e (healths w)) (delete e (colliders w)) (delete e (triggerZones w))
    (delete e (triggerSensors w)) (dirty w ∖ {[e]}).

Definition markDirty (e : Entity) (w : World) : World := with_dirty ({[e]} ∪ dirty w) w.

Definition Alive (w : World) : gset Entity := alive w.

Definition SetPosition (e : Entity) (p : Position) (w : World) : World :=
  markDirty e (with_positions (<[e := p]> (positions w)) w).
Definition PositionOf (w : World) (e : Entity) : option Position := positions w !! e.
Definition RemovePosition (e : Entity) (w : World) : World :=
  with_dirty (dirty w ∖ {[e]}) (with_positions (delete e (positions w)) w).

Definition SetVelocity (e : Entity) (v : Velocity) (w : World) : World :=
  with_velocities (<[e := v]> (velocities w)) w.
Definition VelocityOf (w : World) (e : Entity) : option Velocity := velocities w !! e.
Definition RemoveVelocity (e : Entity) (w : World) : World :=
  with_velocities (delete e (velocities w)) w.

Definition SetHealth (e : Entity) (h : Health) (w : World) : World :=
  markDirty e (with_healths (<[e := h]> (healths w)) w).
Definition HealthOf (w : World) (e : Entity) : option Health := healths w !! e.
Definition RemoveHealth (e : Entity) (w : World) : World :=
  with_dirty (dirty w ∖ {[e]}) (with_healths (delete e (healths w)) w).

Definition SetCollider (e : Entity) (c : Collider) (w : World) : World :=
  with_colliders (<[e := c]> (colliders w)) w.
Definition ColliderOf (w : World) (e : Entity) : option Collider := colliders w !! e.
Definition RemoveCollider (e : Entity) (w : World) : World :=
  with_colliders (delete e (colliders w)) w.

Definition SetTriggerZone (e : Entity) (z : TriggerZone) (w : World) : World :=
  with_triggerZones (<[e := z]> (triggerZones w)) w.
Definition TriggerZoneOf (w : World) (e : Entity) : option TriggerZone := triggerZones w !! e.
Definition RemoveTriggerZone (e : Entity) (w : World) : World :=
  with_triggerZones (delete e (triggerZones w)) w.

Definition SetTriggerSensor (e : Entity) (s : TriggerSensor) (w : World) : World :=
  with_triggerSensors (<[e := s]> (triggerSensors w)) w.
Definition TriggerSensorOf (w : World) (e : Entity) : option TriggerSensor := triggerSensors w !! e.
Definition RemoveTriggerSensor (e : Entity) (w : World) : World :=
  with_triggerSensors (delete e (triggerSensors w)) w.

(** [range w.alive], [range w.dirty] *)
Definition live (o : iter_order) (w : World) : list Entity := o _ (elements (alive w)).

Definition TakeDirtyEntities (o : iter_order) (w : World) : list Entity * World :=
  (o _ (elements (dirty w)), with_dirty ∅ w).

Definition EntityCount (w : World) : Z := Z.of_nat (size (alive w)).

Definition RestorePersistEntity (id : Entity) (pos : Position) (vel : Velocity) (h : Health)
    (hasHealth : bool) (w : World) : World :=
  let w := with_alive ({[id]} ∪ alive w) w in
  let w := with_positions (<[id := pos]> (positions w)) w in
  let w := with_velocities (<[id := vel]> (velocities w)) w in
  let w := if hasHealth then with_healths (<[id := h]> (healths w)) w
           else with_healths (delete id (healths w)) w in
  if (nextID w <=? id)%N then with_nextID (uint64 (id + 1)%N) w else w.

(** ** Visits: a callback folded over the live entities that have the components *)

Definition visit_if {A} (get : World -> Entity -> option A) (fn : Entity -> A -> World -> World)
    (w : World) (e : Entity) : World :=
  match get w e with Some a => fn e a w | None => w end.

Definition both {A B} (f : World -> Entity -> option A) (g : World -> Entity -> option B)
    (w : World) (e : Entity) : option (A * B) :=
  match f w e, g w e with Some a, Some b => Some (a, b) | _, _ => None end.

Definition visit_all {A} (get : World -> Entity -> option A) (o : iter_order)
    (fn : Entity -> A -> World -> World) (w : World) : World :=
  fold_left (visit_if get fn) (live o w) w.

Definition VisitMovement := visit_all (both PositionOf VelocityOf).
Definition VisitHealth := visit_all HealthOf.
Definition VisitCollidable := visit_all (both PositionOf ColliderOf).
Definition VisitTriggerZones := visit_all (both PositionOf TriggerZoneOf).
Definition VisitTriggerSensors := visit_all (both PositionOf TriggerSensorOf).

(** ** Queries *)

Definition query {A} (get : World -> Entity -> option A) (o : iter_order) (w : World) : list Entity :=
  filter (fun e => is_Some (get w e)) (live o w).

Definition QueryMovement := query (both PositionOf VelocityOf).
Definition QueryHealth := query HealthOf.
Definition QueryCollidable := query (both PositionOf ColliderOf).
Definition QueryTriggerZones := query (both PositionOf TriggerZoneOf).
Definition QueryTriggerSensors := query (both PositionOf TriggerSensorOf).

(** * Systems *)

(** [pos.X += vel.VX * dt] on each axis. *)
Definition integrate (dt : f64) (pos : Position) (vel : Velocity) : Position :=
  mkPosition (X pos + VX vel * dt)%f64 (Y pos + VY vel * dt)%f64 (Z_ pos + VZ vel * dt)%f64.

Definition MovementUpdate (o : iter_order) (dt : f64) (w : World) : World :=
  VisitMovement o (fun e '(pos, vel) w => SetPosition e (integrate dt pos vel) w) w.

Definition regen (rate dt : f64) (h : Health) : Health :=
  let hp := (HP h + rate * dt)%f64 in
  mkHealth (if flt (MaxHP h) hp then MaxHP h else hp) (MaxHP h).

Definition HealthRegenUpdate (rate : f64) (o : iter_order) (dt : f64) (w : World) : World :=
  if fle rate f0 then w
  else VisitHealth o (fun e h w => if fle (MaxHP h) (HP h) then w else SetHealth e (regen rate dt h) w) w.

(** ** [PhysicsCollisionSystem] *)

Definition f_half : f64 := f64_of 1 (-1).
Definition f1 : f64 := f64_of_Z 1.
Definition fm1 : f64 := f64_of_Z (-1).

Definition zeroVelocityXOnImpact (a b : Entity) (w : World) : World :=
  let va := VelocityOf w a in
  let vb := VelocityOf w b in
  let w := match va with Some v => SetVelocity a (mkVelocity f0 (VY v) (VZ v)) w | None => w end in
  match vb with Some v => SetVelocity b (mkVelocity f0 (VY v) (VZ v)) w | None => w end.

Definition zeroVelocityZOnImpact (a b : Entity) (w : World) : World :=
  let va := VelocityOf w a in
  let vb := VelocityOf w b in
  let w := match va with Some v => SetVelocity a (mkVelocity (VX v) (VY v) f0) w | None => w end in
  match vb with Some v => SetVelocity b (mkVelocity (VX v) (VY v) f0) w | None => w end.

(** The direction in which [b] is pushed. *)
Definition push_dir (d : f64) (a b : Entity) : f64 :=
  if flt d f0 then fm1 else if feq d f0 && (b <? a)%N then fm1 else f1.

Definition overlap (ha hb d : f64) : f64 := ((ha + hb) - fabs d)%f64.

(** The body of the inner loop: [a] with its cached position and collider against [b]. *)
Definition resolve_pair (a : Entity) (ca : Collider) (st : World * Position) (b : Entity) : World * Position :=
  let '(w, pa) := st in
  match PositionOf w b, ColliderOf w b with
  | Some pb, Some cb =>
      let dx := (X pb - X pa)%f64 in
      let dz := (Z_ pb - Z_ pa)%f64 in
      let overlapX := overlap (c_HalfX ca) (c_HalfX cb) dx in
      let overlapZ := overlap (c_HalfZ ca) (c_HalfZ cb) dz in
      if fle overlapX f0 || fle overlapZ f0 then st
      else if fle overlapX overlapZ then
        let dir := push_dir dx a b in
        let shift := (overlapX * f_half)%f64 in
        let pa := mkPosition (X pa - dir * shift)%f64 (Y pa) (Z_ pa) in
        let pb := mkPosition (X pb + dir * shift)%f64 (Y pb) (Z_ pb) in
        (zeroVelocityXOnImpact a b (SetPosition b pb (SetPosition a pa w)), pa)
      else
        let dir := push_dir dz a b in
        let shift := (overlapZ * f_half)%f64 in
        let pa := mkPosition (X pa) (Y pa) (Z_ pa - dir * shift)%f64 in
        let pb := mkPosition (X pb) (Y pb) (Z_ pb + dir * shift)%f64 in
        (zeroVelocityZOnImpact a b (SetPosition b pb (SetPosition a pa w)), pa)
  | _, _ => st
  end.

Fixpoint collide (entities : list Entity) (w : World) : World :=
  match entities with
  | [] => w
  | a :: rest =>
      match PositionOf w a, ColliderOf w a with
      | Some pa, Some ca => collide rest (fst (fold_left (resolve_pair a ca) rest (w, pa)))
      | _, _ => collide rest w
      end
  end.

Definition CollisionUpdate (o : iter_order) (w : World) : World := collide (QueryCollidable o w) w.

(** ** [TriggerSystem] *)

Inductive TriggerEventType := TriggerEnter | TriggerExit.

Record TriggerEvent := mkTriggerEvent {
  ev_Type : TriggerEventType; ev_Zone : Entity; ev_ZoneID : string; ev_Sensor : Entity }.

Definition triggerPair : Type := Entity * Entity.

Record TriggerSystem := mkTriggerSystem { active : gset triggerPair; events : list TriggerEvent }.

Definition NewTriggerSystem : TriggerSystem := mkTriggerSystem ∅ [].

Definition overlapsAABB (aPos : Position) (aHalfX aHalfY aHalfZ : f64) (bPos : Position)
    (bHalfX bHalfY bHalfZ : f64) : bool :=
  fle (fabs (X aPos - X bPos)) (aHalfX + bHalfX) &&
  fle (fabs (Y aPos - Y bPos)) (aHalfY + bHalfY) &&
  fle (fabs (Z_ aPos - Z_ bPos)) (aHalfZ + bHalfZ).

(** The body of the double loop for one zone and one sensor. *)
Definition trigger_check (w : World) (prev : gset triggerPair) (st : gset triggerPair * list TriggerEvent)
    (pair : triggerPair) : gset triggerPair * list TriggerEvent :=
  let '(current, evs) := st in
  let '(zEnt, sEnt) := pair in
  match PositionOf w zEnt, TriggerZoneOf w zEnt, PositionOf w sEnt, TriggerSensorOf w sEnt with
  | Some zPos, Some zone, Some sPos, Some sensor =>
      if overlapsAABB zPos (z_HalfX zone) (z_HalfY zone) (z_HalfZ zone)
           sPos (s_HalfX sensor) (s_HalfY sensor) (s_HalfZ sensor)
      then ({[pair]} ∪ current,
            if bool_decide (pair ∈ prev) then evs
            else evs ++ [mkTriggerEvent TriggerEnter zEnt (z_ID zone) sEnt])
      else st
  | _, _, _, _ => st
  end.

Definition exit_event (w : World) (pair : triggerPair) : TriggerEvent :=
  mkTriggerEvent TriggerExit (fst pair)
    (match TriggerZoneOf w (fst pair) with Some z => z_ID z | None => EmptyString end) (snd pair).

(** The queries and the range over [s.active] take their own orders. *)
Definition TriggerUpdate (oz os oa : iter_order) (w : World) (s : TriggerSystem) : TriggerSystem :=
  let zones := QueryTriggerZones oz w in
  let sensors := QueryTriggerSensors os w in
  let '(current, evs) :=
    fold_left (trigger_check w (active s)) (z ← zones; pair z <$> sensors) (∅, events s) in
  let evs := fold_left (fun evs pair =>
      if bool_decide (pair ∈ current) then evs else evs ++ [exit_event w pair])
      (oa _ (elements (active s))) evs in
  mkTriggerSystem current evs.

Definition DrainEvents (s : TriggerSystem) : list TriggerEvent * TriggerSystem :=
  (events s, mkTriggerSystem (active s) []).

(** * The game loop *)

(** Durations are [int64] nanoseconds. *)
Record LoopStats := mkStats {
  TickCount : N; LastTickDur : Z; WorstTickDur : Z; TotalWallDur : Z }.

(** The interface [ecs.System] over the simulation state [S]. *)
Definition System (S : Type) : Type := iter_order -> f64 -> S -> S.

Record GameLoop (S : Type) := mkGameLoop {
  TPS : f64; LWorld : S; Systems : list (System S); Stats : LoopStats; paused : bool }.
Arguments mkGameLoop {S} _ _ _ _ _.
Arguments TPS {S} _.
Arguments LWorld {S} _.
Arguments Systems {S} _.
Arguments Stats {S} _.
Arguments paused {S} _.

Definition NewGameLoop {S} (w : S) (tps : f64) (systems : list (System S)) : GameLoop S :=
  let tps := if fle tps f0 then f64_of_Z 20 else tps in
  mkGameLoop tps w systems (mkStats 0 0 0 0) false.

Definition FixedDT {S} (g : GameLoop S) : f64 := (f1 / TPS g)%f64.

(** Each system of the step ranges over maps in an order of its own. *)
Fixpoint run_systems {S} (os : nat -> iter_order) (dt : f64) (systems : list (System S)) (w : S) : S :=
  match systems with
  | [] => w
  | sys :: rest => run_systems (fun i => os (i + 1)) dt rest (sys (os 0) dt w)
  end.

(** [elapsed] is what the clock measured for the step. *)
Definition Step {S} (os : nat -> iter_order) (elapsed : Z) (g : GameLoop S) : GameLoop S :=
  let dt := FixedDT g in
  let w := run_systems os dt (Systems g) (LWorld g) in
  let st := Stats g in
  mkGameLoop (TPS g) w (Systems g)
    (mkStats (uint64 (TickCount st + 1)) elapsed
       (if (WorstTickDur st <? elapsed)%Z then elapsed else WorstTickDur st)
       (int64 (TotalWallDur st + elapsed)))
    (paused g).

Definition Pause {S} (g : GameLoop S) : GameLoop S :=
  mkGameLoop (TPS g) (LWorld g) (Systems g) (Stats g) true.
Definition Resume {S} (g : GameLoop S) : GameLoop S :=
  mkGameLoop (TPS g) (LWorld g) (Systems g) (Stats g) false.
Definition IsPaused {S} (g : GameLoop S) : bool := paused g.

(** One iteration of [Run] after the ticker fired. *)
Definition on_ticker {S} (os : nat -> iter_order) (elapsed : Z) (g : GameLoop S) : GameLoop S :=
  if IsPaused g then g else Step os elapsed g.

(** [RunSteps(count)], each step with its orders and its measured duration. *)
Definition RunSteps {S} (steps : list ((nat -> iter_order) * Z)) (g : GameLoop S) : GameLoop S :=
  fold_left (fun g '(os, elapsed) => Step os elapsed g) steps g.

(** * Well-formed worlds *)

(** Every identifier in use was handed out: it is at most [nextID]. *)
Definition in_use (w : World) : gset Entity :=
  alive w ∪ dom (positions w) ∪ dom (velocities w) ∪ dom (healths w) ∪ dom (colliders w) ∪
  dom (triggerZones w) ∪ dom (triggerSensors w) ∪ dirty w.

Definition world_wf (w : World) : Prop := forall e, e ∈ in_use w -> (e <= nextID w)%N.

(** The operations of a world. A component is set on an entity that was handed out; identifiers stay
    below the largest [uint64], where [nextID] would wrap. *)
Inductive world_step : World -> World -> Prop :=
  | ws_create w : (nextID w < 2 ^ 64 - 1)%N -> world_step w (snd (CreateEntity w))
  | ws_destroy e w : world_step w (DestroyEntity e w)
  | ws_set_position e p w : (e <= nextID w)%N -> world_step w (SetPosition e p w)
  | ws_set_velocity e v w : (e <= nextID w)%N -> world_step w (SetVelocity e v w)
  | ws_set_health e h w : (e <= nextID w)%N -> world_step w (SetHealth e h w)
  | ws_set_collider e c w : (e <= nextID w)%N -> world_step w (SetCollider e c w)
  | ws_set_zone e z w : (e <= nextID w)%N -> world_step w (SetTriggerZone e z w)
  | ws_set_sensor e s w : (e <= nextID w)%N -> world_step w (SetTriggerSensor e s w)
  | ws_remove_position e w : world_step w (RemovePosition e w)
  | ws_remove_velocity e w : world_step w (RemoveVelocity e w)
  | ws_remove_health e w : world_step w (RemoveHealth e w)
  | ws_remove_collider e w : world_step w (RemoveCollider e w)
  | ws_remove_zone e w : world_step w (RemoveTriggerZone e w)
  | ws_remove_sensor e w : world_step w (RemoveTriggerSensor e w)
  | ws_take_dirty o w : world_step w (snd (TakeDirtyEntities o w))
  | ws_restore id p v h b w : (id < 2 ^ 64 - 1)%N -> world_step w (RestorePersistEntity id p v h b w)
  | ws_move o dt w : world_step w (MovementUpdate o dt w)
  | ws_regen r o dt w : world_step w (HealthRegenUpdate r o dt w)
  | ws_collide o w : world_step w (CollisionUpdate o w).

Lemma in_use_elem w e :
  e ∈ in_use w <-> e ∈ alive w \/ e ∈ dom (positions w) \/ e ∈ dom (velocities w) \/ e ∈ dom (healths w) \/
    e ∈ dom (colliders w) \/ e ∈ dom (triggerZones w) \/ e ∈ dom (triggerSensors w) \/ e ∈ dirty w.
Proof. unfold in_use. rewrite !elem_of_union. tauto. Qed.

(** A world whose identifiers are those of [w] or an identifier handed out by [w'] is well-formed when
    [w] is. *)
Lemma world_wf_mono w w' :
  world_wf w -> (nextID w <= nextID w')%N ->
  (forall e, e ∈ in_use w' -> e ∈ in_use w \/ (e <= nextID w')%N) -> world_wf w'.
Proof. intros Hw Hn H e He. destruct (H e He) as [?%Hw|?]; [lia|done]. Qed.

Ltac in_use_solver :=
  let e := fresh "e" in let H := fresh "H" in
  intros e H; rewrite in_use_elem in *; cbn in *;
  rewrite ?dom_insert, ?dom_delete, ?elem_of_union, ?elem_of_difference, ?elem_of_singleton, ?elem_of_empty in H;
  intuition (subst; auto; try lia).

Lemma in_use_SetPosition e p w x : x ∈ in_use (SetPosition e p w) -> x ∈ in_use w \/ x = e.
Proof. revert x. in_use_solver. Qed.

Lemma in_use_SetVelocity e p w x : x ∈ in_use (SetVelocity e p w) -> x ∈ in_use w \/ x = e.
Proof. revert x. in_use_solver. Qed.

Lemma in_use_SetHealth e p w x : x ∈ in_use (SetHealth e p w) -> x ∈ in_use w \/ x = e.
Proof. revert x. in_use_solver. Qed.

(** A system only touches entities that have components: it keeps the identifiers in use and
    [nextID]. *)
Definition quiet (w w' : World) : Prop :=
  nextID w' = nextID w /\ alive w' = alive w /\ forall e, e ∈ in_use w' -> e ∈ in_use w.

#[export] Instance quiet_preorder : PreOrder quiet.
Proof.
  split; [by intros w|]. intros w1 w2 w3 (H1 & A1 & U1) (H2 & A2 & U2).
  split; [congruence|split; [congruence|]]. auto.
Qed.

Lemma quiet_fold {A} (f : World -> A -> World) (l : list A) w :
  (forall w a, quiet w (f w a)) -> quiet w (fold_left f l w).
Proof.
  intros Hf. revert w. induction l as [|a l IH]; intros w; cbn; [done|]. etrans; [apply Hf|apply IH].
Qed.

Lemma quiet_SetPosition e p p' w : PositionOf w e = Some p' -> quiet w (SetPosition e p w).
Proof.
  intros He. split; [done|split; [done|]]. intros x [?| ->]%in_use_SetPosition; [done|].
  rewrite in_use_elem, elem_of_dom. unfold PositionOf in He. rewrite He. eauto.
Qed.

Lemma quiet_SetVelocity e p p' w : VelocityOf w e = Some p' -> quiet w (SetVelocity e p w).
Proof.
  intros He. split; [done|split; [done|]]. intros x [?| ->]%in_use_SetVelocity; [done|].
  rewrite in_use_elem, !elem_of_dom. unfold VelocityOf in He. rewrite He. eauto.
Qed.

Lemma quiet_SetHealth e p p' w : HealthOf w e = Some p' -> quiet w (SetHealth e p w).
Proof.
  intros He. split; [done|split; [done|]]. intros x [?| ->]%in_use_SetHealth; [done|].
  rewrite in_use_elem, !elem_of_dom. unfold HealthOf in He. rewrite He. naive_solver.
Qed.

Lemma both_Some {A B} (f : World -> Entity -> option A) (g : World -> Entity -> option B) w e a b :
  both f g w e = Some (a, b) <-> f w e = Some a /\ g w e = Some b.
Proof. unfold both. destruct (f w e), (g w e); naive_solver. Qed.

Lemma quiet_movement o dt w : quiet w (MovementUpdate o dt w).
Proof.
  apply quiet_fold. intros w' e. unfold visit_if. destruct (both _ _ _ _) as [[p v]|] eqn:E; [|done].
  apply both_Some in E as [Hp _]. by eapply quiet_SetPosition.
Qed.

Lemma quiet_regen r o dt w : quiet w (HealthRegenUpdate r o dt w).
Proof.
  unfold HealthRegenUpdate. destruct (fle r f0); [done|].
  apply quiet_fold. intros w' e. unfold visit_if. destruct (HealthOf w' e) as [h|] eqn:E; [|done].
  destruct (fle _ _); [done|]. by eapply quiet_SetHealth.
Qed.

Lemma quiet_set_velocity_if e (f : Velocity -> Velocity) w v :
  VelocityOf w e = v ->
  quiet w (match v with Some v => SetVelocity e (f v) w | None => w end).
Proof. destruct v; [intros; by eapply quiet_SetVelocity|done]. Qed.

Lemma VelocityOf_SetVelocity_is_Some e e' v w :
  is_Some (VelocityOf w e) -> is_Some (VelocityOf (SetVelocity e' v w) e).
Proof. unfold VelocityOf. cbn. rewrite lookup_insert_is_Some. destruct (decide (e' = e)); auto. Qed.

Lemma quiet_zero (f g : Velocity -> Velocity) a b w :
  quiet w (let va := VelocityOf w a in let vb := VelocityOf w b in
    let w := match va with Some v => SetVelocity a (f v) w | None => w end in
    match vb with Some v => SetVelocity b (g v) w | None => w end).
Proof.
  cbv zeta. etrans; [by apply (quiet_set_velocity_if a f w (VelocityOf w a))|].
  set (w' := match VelocityOf w a with Some v => SetVelocity a (f v) w | None => w end).
  destruct (VelocityOf w b) as [v|] eqn:E; [|done].
  assert (is_Some (VelocityOf w' b)) as [v' Hv'].
  { unfold w'. destruct (VelocityOf w a); [apply VelocityOf_SetVelocity_is_Some|]; by rewrite E. }
  by eapply quiet_SetVelocity.
Qed.

Lemma quiet_zeroX a b w : quiet w (zeroVelocityXOnImpact a b w).
Proof. apply (quiet_zero (fun v => mkVelocity f0 (VY v) (VZ v)) (fun v => mkVelocity f0 (VY v) (VZ v))). Qed.

Lemma quiet_zeroZ a b w : quiet w (zeroVelocityZOnImpact a b w).
Proof. apply (quiet_zero (fun v => mkVelocity (VX v) (VY v) f0) (fun v => mkVelocity (VX v) (VY v) f0)). Qed.

Lemma positions_zeroX a b w : positions (zeroVelocityXOnImpact a b w) = positions w.
Proof. unfold zeroVelocityXOnImpact. by destruct (VelocityOf w a), (VelocityOf w b). Qed.

Lemma positions_zeroZ a b w : positions (zeroVelocityZOnImpact a b w) = positions w.
Proof. unfold zeroVelocityZOnImpact. by destruct (VelocityOf w a), (VelocityOf w b). Qed.

Lemma PositionOf_SetPosition_is_Some e e' v w :
  is_Some (PositionOf w e) -> is_Some (PositionOf (SetPosition e' v w) e).
Proof. unfold PositionOf. cbn. rewrite lookup_insert_is_Some. destruct (decide (e' = e)); auto. Qed.

Lemma quiet_move_two a b pa pb w :
  is_Some (PositionOf w a) -> is_Some (PositionOf w b) -> quiet w (SetPosition b pb (SetPosition a pa w)).
Proof.
  intros [? Ha] Hb. etrans; [by eapply quiet_SetPosition|].
  apply (PositionOf_SetPosition_is_Some b a pa) in Hb as [? ?]. by eapply quiet_SetPosition.
Qed.

Lemma quiet_resolve_pair a ca w pa b :
  is_Some (PositionOf w a) ->
  quiet w (fst (resolve_pair a ca (w, pa) b)) /\ is_Some (PositionOf (fst (resolve_pair a ca (w, pa) b)) a).
Proof.
  intros Ha. unfold resolve_pair.
  destruct (PositionOf w b) as [pb|] eqn:Eb, (ColliderOf w b) as [cb|]; try done.
  assert (forall p q, is_Some (PositionOf (SetPosition b p (SetPosition a q w)) a)) as Hs.
  { intros. by apply PositionOf_SetPosition_is_Some, PositionOf_SetPosition_is_Some. }
  assert (is_Some (PositionOf w b)) as Hb by (by rewrite Eb).
  destruct (_ || _); [done|]. destruct (fle _ _); cbn [fst].
  - split; [etrans; [|apply quiet_zeroX]; by apply quiet_move_two|].
    unfold PositionOf. rewrite positions_zeroX. apply Hs.
  - split; [etrans; [|apply quiet_zeroZ]; by apply quiet_move_two|].
    unfold PositionOf. rewrite positions_zeroZ. apply Hs.
Qed.

Lemma quiet_resolve_all a ca bs w pa :
  is_Some (PositionOf w a) -> quiet w (fst (fold_left (resolve_pair a ca) bs (w, pa))).
Proof.
  revert w pa. induction bs as [|b bs IH]; intros w pa Ha; cbn [fold_left]; [done|].
  destruct (quiet_resolve_pair a ca w pa b Ha) as [Hq Hs].
  destruct (resolve_pair a ca (w, pa) b) as [w' pa']. cbn in *. etrans; [exact Hq|by apply IH].
Qed.

Lemma quiet_collision o w : quiet w (CollisionUpdate o w).
Proof.
  unfold CollisionUpdate. generalize (QueryCollidable o w) as es. intros es. revert w.
  induction es as [|a es IH]; intros w; cbn [collide]; [done|].
  destruct (PositionOf w a) as [pa|] eqn:Ea, (ColliderOf w a); try apply IH.
  etrans; [|apply IH]. apply quiet_resolve_all. by rewrite Ea.
Qed.

Lemma quiet_wf w w' : quiet w w' -> world_wf w -> world_wf w'.
Proof. intros (Hn & _ & H) Hw. apply (world_wf_mono w); [done|lia|auto]. Qed.

Lemma world_step_wf w w' : world_step w w' -> world_wf w -> (nextID w < 2 ^ 64)%N -> world_wf w' /\ (nextID w' < 2 ^ 64)%N.
Proof.
  intros Hs Hw Hn.
  assert (forall w', quiet w w' -> world_wf w' /\ (nextID w' < 2 ^ 64)%N) as Hq.
  { intros v Hv. split; [by eapply quiet_wf|]. destruct Hv as [-> _]. done. }
  assert (forall w', nextID w' = nextID w ->
    (forall e, e ∈ in_use w' -> e ∈ in_use w \/ (e <= nextID w')%N) -> world_wf w' /\ (nextID w' < 2 ^ 64)%N) as Hm.
  { intros v Hv Hu. split; [apply (world_wf_mono w); [done|lia|done]|lia]. }
  destruct Hs; try (apply Hm; [done|in_use_solver]);
    try (apply Hq; first [apply quiet_movement | apply quiet_regen | apply quiet_collision]).
  - unfold CreateEntity. rewrite uint64_id by lia. cbn.
    split; [apply (world_wf_mono w); [done|cbn; lia|in_use_solver]|lia].
  - unfold RestorePersistEntity. cbn. assert (uint64 (id + 1) = id + 1)%N as -> by (apply uint64_id; lia).
    destruct b; cbn; (destruct (nextID w <=? id)%N eqn:E;
      [apply N.leb_le in E|apply N.leb_gt in E]; cbn;
      (split; [apply (world_wf_mono w); [done|cbn; lia|in_use_solver]|lia])).
Qed.

(** Whatever happened to a world since its creation, and in whatever order its maps were
    visited, a new entity gets an identifier that no live entity, component or pending replication
    entry uses. *)
Theorem CreateEntity_fresh w e w' :
  rtc world_step NewWorld w -> (nextID w < 2 ^ 64 - 1)%N -> CreateEntity w = (e, w') ->
  e ∉ in_use w /\ alive w' = {[e]} ∪ alive w /\ rtc world_step NewWorld w'.
Proof.
  intros Hr Hn Hc. assert (world_wf w /\ (nextID w < 2 ^ 64)%N) as [Hw _].
  { assert (world_wf NewWorld /\ (nextID NewWorld < 2 ^ 64)%N) as H0 by (by split; [intros ? ?|]).
    clear Hn Hc. revert H0. induction Hr as [|w0 w1 w2 Hs Hr IH]; [done|].
    intros [Hw0 Hn0]. apply IH. by eapply world_step_wf. }
  unfold CreateEntity in Hc. rewrite uint64_id in Hc by lia. injection Hc as <- <-.
  split; [intros ?%Hw; lia|]. split; [done|].
  eapply rtc_r; [exact Hr|]. pose proof (ws_create w Hn) as Hs. unfold CreateEntity in Hs.
  by rewrite uint64_id in Hs by lia.
Qed.

Lemma CreateEntity_fresh_witness :
  let w := RestorePersistEntity 41%N (mkPosition f0 f0 f0) (mkVelocity f0 f0 f0) (mkHealth f0 f0) true NewWorld in
  exists e w', CreateEntity w = (e, w') /\ e = 43%N /\ e ∉ in_use w.
Proof.
  intros w. destruct (CreateEntity w) as [e w'] eqn:E. exists e, w'.
  destruct (CreateEntity_fresh w e w') as (H & _ & _); [|done|done|].
  - apply rtc_once. by constructor.
  - split; [done|]. split; [|done]. by vm_compute in E; injection E as <-.
Defined.

(** * What one entity sees: the components of an entity, and local operations *)

(** A world is its [nextID] and, for every identifier, what it holds for it. *)
Record View := mkView {
  v_alive : bool; v_position : option Position; v_velocity : option Velocity; v_health : option Health;
  v_collider : option Collider; v_zone : option TriggerZone; v_sensor : option TriggerSensor;
  v_dirty : bool }.

Definition view (w : World) (e : Entity) : View :=
  mkView (bool_decide (e ∈ alive w)) (positions w !! e) (velocities w !! e) (healths w !! e)
    (colliders w !! e) (triggerZones w !! e) (triggerSensors w !! e) (bool_decide (e ∈ dirty w)).

Lemma world_ext w w' : nextID w = nextID w' -> (forall e, view w e = view w' e) -> w = w'.
Proof.
  destruct w, w'. cbn. intros -> H. unfold view in H. cbn in H.
  f_equal; first [apply map_eq | apply set_eq]; intros e; specialize (H e);
    injection H; intros; first [done | eapply bool_decide_eq_iff; eassumption].
Qed.

(** The callback of a visit that reads and writes its own entity only. *)
Definition local {A} (fn : Entity -> A -> World -> World) (phi : A -> View -> View) : Prop :=
  forall e a w, nextID (fn e a w) = nextID w /\ view (fn e a w) e = phi a (view w e) /\
    forall e', e' <> e -> view (fn e a w) e' = view w e'.

Definition apply_view {A} (gamma : View -> option A) (phi : A -> View -> View) (v : View) : View :=
  match gamma v with Some a => phi a v | None => v end.

Lemma local_fold {A} (get : World -> Entity -> option A) fn gamma phi (l : list Entity) w :
  (forall w e, get w e = gamma (view w e)) -> local fn phi -> NoDup l ->
  nextID (fold_left (visit_if get fn) l w) = nextID w /\
  forall e, view (fold_left (visit_if get fn) l w) e =
    if decide (e ∈ l) then apply_view gamma phi (view w e) else view w e.
Proof.
  intros Hget Hloc Hnd. revert w. induction Hnd as [|x l Hx Hnd IH]; intros w; cbn [fold_left].
  { split; [done|]. intros e. by rewrite decide_False by apply not_elem_of_nil. }
  assert (nextID (visit_if get fn w x) = nextID w /\
    forall e, view (visit_if get fn w x) e = if decide (e = x) then apply_view gamma phi (view w e) else view w e)
    as [Hn Hv].
  { unfold visit_if, apply_view. rewrite Hget. destruct (gamma (view w x)) as [a|] eqn:E.
    - destruct (Hloc x a w) as (Hn & Hs & Ho). split; [done|]. intros e.
      destruct (decide (e = x)) as [->|]; [by rewrite E|by apply Ho].
    - split; [done|]. intros e. destruct (decide (e = x)) as [->|]; [by rewrite E|done]. }
  destruct (IH (visit_if get fn w x)) as [Hn' Hv']. split; [congruence|].
  intros e. rewrite Hv', Hv. destruct (decide (e = x)) as [->|Hne].
  - rewrite decide_False by done. rewrite decide_True by left. done.
  - destruct (decide (e ∈ l)), (decide (e ∈ x :: l)) as [He|He]; try done.
    + by destruct He; right.
    + by apply elem_of_cons in He as [?|?].
Qed.

Lemma elem_of_live o w e : e ∈ live o w <-> e ∈ alive w.
Proof. unfold live. by rewrite elem_of_visit, elem_of_elements. Qed.

Lemma NoDup_live o w : NoDup (live o w).
Proof. unfold live. apply NoDup_visit, NoDup_elements. Qed.

Lemma local_visit {A} (get : World -> Entity -> option A) fn gamma phi o w :
  (forall w e, get w e = gamma (view w e)) -> local fn phi ->
  nextID (visit_all get o fn w) = nextID w /\
  forall e, view (visit_all get o fn w) e =
    if v_alive (view w e) then apply_view gamma phi (view w e) else view w e.
Proof.
  intros Hget Hloc. destruct (local_fold get fn gamma phi (live o w) w Hget Hloc (NoDup_live o w)) as [Hn Hv].
  split; [exact Hn|]. intros e. unfold visit_all. rewrite Hv. cbn [v_alive view].
  destruct (decide (e ∈ live o w)) as [He|He]; rewrite elem_of_live in He.
  - by rewrite bool_decide_eq_true_2.
  - by rewrite bool_decide_eq_false_2.
Qed.

Lemma bool_decide_marked (e : Entity) (d : gset Entity) : bool_decide (e ∈ {[e]} ∪ d) = true.
Proof. apply bool_decide_eq_true_2, elem_of_union_l, elem_of_singleton. done. Qed.

Lemma bool_decide_markDirty (e e' : Entity) (d : gset Entity) :
  e' <> e -> bool_decide (e' ∈ {[e]} ∪ d) = bool_decide (e' ∈ d).
Proof. intros. apply bool_decide_ext. set_solver. Qed.

(** What one tick of movement does to an entity that has a position and a velocity. *)
Definition moved (dt : f64) (v : View) : View :=
  match v_position v, v_velocity v with
  | Some p, Some u => mkView (v_alive v) (Some (integrate dt p u)) (v_velocity v) (v_health v)
      (v_collider v) (v_zone v) (v_sensor v) true
  | _, _ => v
  end.

(** What one tick of regeneration does to an entity below its maximum. *)
Definition healed (rate dt : f64) (v : View) : View :=
  match v_health v with
  | Some h => if fle (MaxHP h) (HP h) then v
      else mkView (v_alive v) (v_position v) (v_velocity v) (Some (regen rate dt h))
        (v_collider v) (v_zone v) (v_sensor v) true
  | None => v
  end.

Lemma movement_view o dt w :
  nextID (MovementUpdate o dt w) = nextID w /\
  forall e, view (MovementUpdate o dt w) e = if v_alive (view w e) then moved dt (view w e) else view w e.
Proof.
  destruct (local_visit (both PositionOf VelocityOf) (fun e '(pos, vel) w => SetPosition e (integrate dt pos vel) w)
    (fun v => match v_position v, v_velocity v with Some p, Some u => Some (p, u) | _, _ => None end)
    (fun '(p, u) v => mkView (v_alive v) (Some (integrate dt p u)) (v_velocity v) (v_health v)
      (v_collider v) (v_zone v) (v_sensor v) true) o w) as [Hn Hv].
  - done.
  - intros e [p u] w'. split; [done|]. unfold view. cbn. split.
    + by rewrite lookup_insert_eq, bool_decide_marked.
    + intros e' Hne. rewrite lookup_insert_ne by done. by rewrite bool_decide_markDirty.
  - split; [exact Hn|]. intros e. unfold MovementUpdate, VisitMovement. rewrite Hv.
    by destruct (view w e) as [[] [] [] ? ? ? ? ?].
Qed.

Lemma regen_view rate o dt w :
  fle rate f0 = false ->
  nextID (HealthRegenUpdate rate o dt w) = nextID w /\
  forall e, view (HealthRegenUpdate rate o dt w) e = if v_alive (view w e) then healed rate dt (view w e) else view w e.
Proof.
  intros Hr. unfold HealthRegenUpdate. rewrite Hr.
  destruct (local_visit HealthOf (fun e h w => if fle (MaxHP h) (HP h) then w else SetHealth e (regen rate dt h) w)
    v_health (fun h v => if fle (MaxHP h) (HP h) then v
      else mkView (v_alive v) (v_position v) (v_velocity v) (Some (regen rate dt h))
        (v_collider v) (v_zone v) (v_sensor v) true) o w) as [Hn Hv].
  - done.
  - intros e h w'. destruct (fle (MaxHP h) (HP h)); [done|]. split; [done|]. unfold view. cbn. split.
    + by rewrite lookup_insert_eq, bool_decide_marked.
    + intros e' Hne. rewrite lookup_insert_ne by done. by rewrite bool_decide_markDirty.
  - split; [exact Hn|]. intros e. unfold VisitHealth. rewrite Hv.
    by destruct (view w e) as [[] ? ? [] ? ? ? ?].
Qed.

(** One tick of movement moves every live entity that has a position and a velocity by
    [velocity * dt] on each axis, marks exactly those entities for replication and changes nothing
    else; the order in which the map of live entities is visited does not matter. *)
Theorem MovementUpdate_spec o o' dt w :
  nextID (MovementUpdate o dt w) = nextID w /\
  (forall e, view (MovementUpdate o dt w) e =
     if v_alive (view w e) then moved dt (view w e) else view w e) /\
  MovementUpdate o dt w = MovementUpdate o' dt w.
Proof.
  destruct (movement_view o dt w) as [Hn Hv], (movement_view o' dt w) as [Hn' Hv'].
  split; [done|split; [done|]]. apply world_ext; [congruence|]. intros e. by rewrite Hv, Hv'.
Qed.

Lemma regen_le_max rate dt h :
  is_nan (MaxHP h) = false -> is_nan (HP h + rate * dt)%f64 = false -> fle (HP (regen rate dt h)) (MaxHP h) = true.
Proof.
  intros Hm Hh. cbn. destruct (flt _ _) eqn:E; [by apply fle_refl|by apply flt_total in E].
Qed.

(** One tick of regeneration, with a positive rate, replaces the health of exactly the live
    entities that are below their maximum, never raising it above the maximum (when the sum is a
    number), whatever the order of the visit; a rate that is not positive changes nothing. *)
Theorem HealthRegenUpdate_spec rate o o' dt w :
  (fle rate f0 = true -> HealthRegenUpdate rate o dt w = w) /\
  (fle rate f0 = false -> nextID (HealthRegenUpdate rate o dt w) = nextID w /\
     forall e, view (HealthRegenUpdate rate o dt w) e =
       if v_alive (view w e) then healed rate dt (view w e) else view w e) /\
  HealthRegenUpdate rate o dt w = HealthRegenUpdate rate o' dt w /\
  (forall h, is_nan (MaxHP h) = false -> is_nan (HP h + rate * dt)%f64 = false ->
     fle (HP (regen rate dt h)) (MaxHP h) = true).
Proof.
  assert (fle rate f0 = true -> forall o, HealthRegenUpdate rate o dt w = w) as Hz.
  { intros H o1. unfold HealthRegenUpdate. by rewrite H. }
  split; [auto|]. split; [apply regen_view|]. split; [|apply regen_le_max].
  destruct (fle rate f0) eqn:E; [by rewrite !Hz|].
  destruct (regen_view rate o dt w E) as [Hn Hv], (regen_view rate o' dt w E) as [Hn' Hv'].
  apply world_ext; [congruence|]. intros e. by rewrite Hv, Hv'.
Qed.

(** Two collidable entities do not overlap (the sums are compared as the code computes them). *)
Definition apart (w : World) (a b : Entity) : Prop :=
  forall pa ca pb cb, PositionOf w a = Some pa -> ColliderOf w a = Some ca ->
    PositionOf w b = Some pb -> ColliderOf w b = Some cb ->
    fle (overlap (c_HalfX ca) (c_HalfX cb) (X pb - X pa)) f0 = true \/
    fle (overlap (c_HalfZ ca) (c_HalfZ cb) (Z_ pb - Z_ pa)) f0 = true.

Lemma resolve_apart a ca pa bs w :
  PositionOf w a = Some pa -> ColliderOf w a = Some ca -> (forall b, b ∈ bs -> apart w a b) ->
  fold_left (resolve_pair a ca) bs (w, pa) = (w, pa).
Proof.
  intros Hp Hc. induction bs as [|b bs IH]; intros Ha; cbn [fold_left]; [done|].
  assert (resolve_pair a ca (w, pa) b = (w, pa)) as ->; [|apply IH; intros; apply Ha; by right].
  unfold resolve_pair. destruct (PositionOf w b) as [pb|] eqn:Eb; [|done].
  destruct (ColliderOf w b) as [cb|] eqn:Ec; [|done].
  destruct (Ha b ltac:(left) pa ca pb cb Hp Hc Eb Ec) as [-> | ->]; [done|by rewrite orb_true_r].
Qed.

Lemma collide_apart es w : (forall a b, a ∈ es -> b ∈ es -> a <> b -> apart w a b) -> NoDup es -> collide es w = w.
Proof.
  induction es as [|a es IH]; intros Ha Hnd; cbn [collide]; [done|]. apply NoDup_cons in Hnd as [Hn Hnd].
  assert (collide es w = w) as Hw by (apply IH; [|done]; intros; apply Ha; [by right..|done]).
  destruct (PositionOf w a) as [pa|] eqn:Ep, (ColliderOf w a) as [ca|] eqn:Ec; try done.
  rewrite resolve_apart; try done. intros b Hb. apply Ha; [left|by right|]. by intros ->.
Qed.

Lemma elem_of_query {A} (get : World -> Entity -> option A) o w e :
  e ∈ query get o w <-> e ∈ alive w /\ is_Some (get w e).
Proof. unfold query. rewrite list_elem_of_filter, elem_of_live. tauto. Qed.

Lemma NoDup_query {A} (get : World -> Entity -> option A) o w : NoDup (query get o w).
Proof. apply NoDup_filter, NoDup_live. Qed.

Lemma health_zeroX a b w : healths (zeroVelocityXOnImpact a b w) = healths w /\ colliders (zeroVelocityXOnImpact a b w) = colliders w.
Proof. unfold zeroVelocityXOnImpact. by destruct (VelocityOf w a), (VelocityOf w b). Qed.

Lemma health_zeroZ a b w : healths (zeroVelocityZOnImpact a b w) = healths w /\ colliders (zeroVelocityZOnImpact a b w) = colliders w.
Proof. unfold zeroVelocityZOnImpact. by destruct (VelocityOf w a), (VelocityOf w b). Qed.

Lemma resolve_pair_frame a ca st b :
  healths (fst (resolve_pair a ca st b)) = healths (fst st) /\ colliders (fst (resolve_pair a ca st b)) = colliders (fst st).
Proof.
  destruct st as [w pa]. unfold resolve_pair. destruct (PositionOf w b), (ColliderOf w b); try done.
  destruct (_ || _); [done|]. destruct (fle _ _); cbn [fst].
  - destruct (health_zeroX a b (SetPosition b (mkPosition (X p + push_dir (X p - X pa) a b *
      (overlap (c_HalfX ca) (c_HalfX c) (X p - X pa) * f_half))%f64 (Y p) (Z_ p))
      (SetPosition a (mkPosition (X pa - push_dir (X p - X pa) a b *
      (overlap (c_HalfX ca) (c_HalfX c) (X p - X pa) * f_half))%f64 (Y pa) (Z_ pa)) w))) as [-> ->]. done.
  - destruct (health_zeroZ a b (SetPosition b (mkPosition (X p) (Y p) (Z_ p + push_dir (Z_ p - Z_ pa) a b *
      (overlap (c_HalfZ ca) (c_HalfZ c) (Z_ p - Z_ pa) * f_half))%f64)
      (SetPosition a (mkPosition (X pa) (Y pa) (Z_ pa - push_dir (Z_ p - Z_ pa) a b *
      (overlap (c_HalfZ ca) (c_HalfZ c) (Z_ p - Z_ pa) * f_half))%f64) w))) as [-> ->]. done.
Qed.

Lemma resolve_all_frame a ca bs st :
  healths (fst (fold_left (resolve_pair a ca) bs st)) = healths (fst st) /\
  colliders (fst (fold_left (resolve_pair a ca) bs st)) = colliders (fst st).
Proof.
  revert st. induction bs as [|b bs IH]; intros st; cbn [fold_left]; [done|].
  destruct (IH (resolve_pair a ca st b)) as [-> ->]. apply resolve_pair_frame.
Qed.

Lemma collide_frame es w : healths (collide es w) = healths w /\ colliders (collide es w) = colliders w.
Proof.
  revert w. induction es as [|a es IH]; intros w; cbn [collide]; [done|].
  destruct (PositionOf w a) as [pa|], (ColliderOf w a) as [ca|]; try apply IH.
  destruct (IH (fst (fold_left (resolve_pair a ca) es (w, pa)))) as [-> ->].
  apply (resolve_all_frame a ca es (w, pa)).
Qed.

(** A collision pass never creates or destroys an entity, touches neither health nor colliders,
    brings no identifier into use, and a world in which no two collidable entities overlap is left
    exactly as it is, whatever the order of the query. *)
Theorem CollisionUpdate_spec o w :
  nextID (CollisionUpdate o w) = nextID w /\ alive (CollisionUpdate o w) = alive w /\
  healths (CollisionUpdate o w) = healths w /\ colliders (CollisionUpdate o w) = colliders w /\
  (forall e, e ∈ in_use (CollisionUpdate o w) -> e ∈ in_use w) /\
  ((forall a b, a ∈ alive w -> b ∈ alive w -> a <> b -> apart w a b) -> CollisionUpdate o w = w).
Proof.
  destruct (quiet_collision o w) as (Hn & Ha & Hu). destruct (collide_frame (QueryCollidable o w) w) as [Hh Hc].
  repeat (split; [done|]). intros Hap. apply collide_apart; [|apply NoDup_query].
  intros a b [Haa _]%elem_of_query [Hab _]%elem_of_query. by apply Hap.
Qed.

(** ** Triggers *)

(** The zone and the sensor of a pair overlap now. *)
Definition touching (w : World) (pair : triggerPair) : bool :=
  match PositionOf w (fst pair), TriggerZoneOf w (fst pair), PositionOf w (snd pair), TriggerSensorOf w (snd pair) with
  | Some zPos, Some zone, Some sPos, Some sensor =>
      overlapsAABB zPos (z_HalfX zone) (z_HalfY zone) (z_HalfZ zone)
        sPos (s_HalfX sensor) (s_HalfY sensor) (s_HalfZ sensor)
  | _, _, _, _ => false
  end.

Definition enter_event (w : World) (pair : triggerPair) : TriggerEvent :=
  mkTriggerEvent TriggerEnter (fst pair)
    (match TriggerZoneOf w (fst pair) with Some z => z_ID z | None => EmptyString end) (snd pair).

(** The pairs that overlap in a world, both of their entities being alive. *)
Definition in_contact (w : World) (pair : triggerPair) : Prop :=
  fst pair ∈ alive w /\ snd pair ∈ alive w /\ touching w pair = true.

Lemma trigger_check_eq w prev current evs pair :
  trigger_check w prev (current, evs) pair =
  if touching w pair
  then ({[pair]} ∪ current, if bool_decide (pair ∈ prev) then evs else evs ++ [enter_event w pair])
  else (current, evs).
Proof.
  destruct pair as [z s]. unfold trigger_check, touching, enter_event. cbn [fst snd].
  destruct (PositionOf w z), (TriggerZoneOf w z) as [zone|], (PositionOf w s), (TriggerSensorOf w s); done.
Qed.

Lemma trigger_fold w prev pairs current evs :
  fold_left (trigger_check w prev) pairs (current, evs) =
  (list_to_set (filter (fun p => touching w p = true) pairs) ∪ current,
   evs ++ (enter_event w <$> filter (fun p => touching w p = true /\ p ∉ prev) pairs)).
Proof.
  revert current evs. induction pairs as [|p pairs IH]; intros current evs; cbn [fold_left].
  { cbn. rewrite app_nil_r. f_equal. apply set_eq. intros x. rewrite elem_of_union, elem_of_empty. tauto. }
  rewrite trigger_check_eq, !filter_cons. destruct (touching w p) eqn:Et.
  - rewrite IH. rewrite decide_True by done. f_equal.
    + apply set_eq. intros x. cbn [list_to_set]. rewrite !elem_of_union. tauto.
    + destruct (bool_decide_reflect (p ∈ prev)) as [Hp|Hp].
      * by rewrite decide_False by (by intros []).
      * rewrite decide_True by done. by rewrite <- app_assoc.
  - rewrite IH. by rewrite !decide_False by naive_solver.
Qed.

Lemma exit_fold (w : World) (current : gset triggerPair) (l : list triggerPair) evs :
  fold_left (fun evs pair => if bool_decide (pair ∈ current) then evs else evs ++ [exit_event w pair]) l evs =
  evs ++ (exit_event w <$> filter (fun p => p ∉ current) l).
Proof.
  revert evs. induction l as [|p l IH]; intros evs; cbn [fold_left].
  { cbn. by rewrite app_nil_r. }
  rewrite IH, filter_cons. destruct (bool_decide_reflect (p ∈ current)).
  - by rewrite decide_False by naive_solver.
  - rewrite decide_True by done. by rewrite <- app_assoc.
Qed.

Lemma elem_of_pairs (zs ss : list Entity) p : p ∈ (z ← zs; pair z <$> ss) <-> fst p ∈ zs /\ snd p ∈ ss.
Proof.
  rewrite list_elem_of_bind. setoid_rewrite list_elem_of_fmap. destruct p as [z s]. cbn. naive_solver.
Qed.

Lemma NoDup_pairs (zs ss : list Entity) : NoDup zs -> NoDup ss -> NoDup (z ← zs; pair z <$> ss).
Proof.
  intros Hz Hs. induction Hz as [|z zs Hn Hz IH]; cbn; [constructor|].
  apply NoDup_app. split; [by apply NoDup_fmap_2; [intros ? ? [=]|]|]. split; [|done].
  intros p (s & -> & _)%list_elem_of_fmap [Hin _]%elem_of_pairs. done.
Qed.

(** After an update the active pairs are exactly the zone and sensor pairs in contact, and the
    update appends one enter event for each pair that came into contact and one exit event for each
    pair that left it, no other event, whatever the orders of the maps: the events of every pair
    alternate between enter and exit. *)
Theorem TriggerUpdate_spec oz os oa w s :
  (forall p, p ∈ active (TriggerUpdate oz os oa w s) <-> in_contact w p) /\
  exists new, events (TriggerUpdate oz os oa w s) = events s ++ new /\
    new ≡ₚ (enter_event w <$> elements (active (TriggerUpdate oz os oa w s) ∖ active s)) ++
           (exit_event w <$> elements (active s ∖ active (TriggerUpdate oz os oa w s))).
Proof.
  unfold TriggerUpdate. rewrite trigger_fold. cbn [active events].
  set (zs := QueryTriggerZones oz w). set (ss := QueryTriggerSensors os w).
  set (cur := list_to_set (filter (fun p => touching w p = true) (z ← zs; pair z <$> ss)) ∪ ∅ : gset triggerPair).
  assert (forall p, p ∈ cur <-> in_contact w p) as Hcur.
  { intros p. unfold cur. rewrite elem_of_union, elem_of_list_to_set, list_elem_of_filter, elem_of_pairs, elem_of_empty.
    unfold zs, ss, QueryTriggerZones, QueryTriggerSensors, in_contact. rewrite !elem_of_query. split.
    - tauto.
    - intros (Hz & Hs & Ht). left. split; [done|]. unfold touching in Ht. unfold both.
      destruct (PositionOf w (fst p)), (TriggerZoneOf w (fst p)), (PositionOf w (snd p)), (TriggerSensorOf w (snd p)); done. }
  split; [exact Hcur|]. rewrite exit_fold. eexists. split; [by rewrite <- app_assoc|].
  apply Permutation_app; apply fmap_Permutation, NoDup_Permutation.
  - by apply NoDup_filter, NoDup_pairs; apply NoDup_query.
  - apply NoDup_elements.
  - intros p. rewrite elem_of_elements, elem_of_difference. unfold cur.
    rewrite elem_of_union, elem_of_list_to_set, !list_elem_of_filter, elem_of_empty. tauto.
  - apply NoDup_filter, NoDup_visit, NoDup_elements.
  - apply NoDup_elements.
  - intros p. by rewrite list_elem_of_filter, elem_of_visit, !elem_of_elements, elem_of_difference, (and_comm (p ∈ active s)).
Qed.

(** ** The loop *)

(** Running [k] steps (and ticks that find the loop paused) advances the tick counter by
    exactly the number of steps executed, modulo [2^64]; the worst duration is the maximum measured. *)
Theorem RunSteps_stats {S} (steps : list ((nat -> iter_order) * Z)) (g : GameLoop S) os elapsed :
  (TickCount (Stats g) < 2 ^ 64)%N ->
  TickCount (Stats (RunSteps steps g)) = uint64 (TickCount (Stats g) + N.of_nat (length steps)) /\
  WorstTickDur (Stats (RunSteps steps g)) = fold_left Z.max (snd <$> steps) (WorstTickDur (Stats g)) /\
  TPS (RunSteps steps g) = TPS g /\ paused (RunSteps steps g) = paused g /\
  on_ticker os elapsed (Pause g) = Pause g /\ on_ticker os elapsed (Resume g) = Step os elapsed (Resume g).
Proof.
  intros Hc. cut (TickCount (Stats (RunSteps steps g)) = uint64 (TickCount (Stats g) + N.of_nat (length steps)) /\
    WorstTickDur (Stats (RunSteps steps g)) = fold_left Z.max (snd <$> steps) (WorstTickDur (Stats g)) /\
    TPS (RunSteps steps g) = TPS g /\ paused (RunSteps steps g) = paused g).
  { by intros (? & ? & ? & ?). }
  revert g Hc. unfold RunSteps. induction steps as [|[o d] steps IH]; intros g Hc.
  { cbn. rewrite N.add_0_r, uint64_id by done. done. }
  cbn [fold_left length]. destruct (IH (Step o d g)) as (H1 & H2 & H3 & H4); [apply uint64_lt|].
  split; [|split; [|by split]].
  - rewrite H1. cbn [Step Stats TickCount]. unfold uint64. rewrite N.Div0.add_mod_idemp_l. f_equal. lia.
  - rewrite H2. cbn. f_equal. destruct (Z.ltb_spec (WorstTickDur (Stats g)) d); lia.
Qed.

Lemma RunSteps_stats_witness :
  let g := NewGameLoop NewWorld (f64_of_Z 25) [fun o dt w => MovementUpdate o dt w] in
  TickCount (Stats (RunSteps [(fun _ => order_id, 5%Z); (fun _ => order_rev, 7%Z)] g)) = 2%N.
Proof. intros g. destruct (RunSteps_stats [(fun _ => order_id, 5%Z); (fun _ => order_rev, 7%Z)] g (fun _ => order_id) 1%Z) as [H _]; [done|exact H]. Defined.
