(* ===== verification/Aoi.v ===== *)
(** [internal/ecs/aoi/grid.go]: the uniform grid that answers area-of-interest queries. *)
From Stdlib Require Import ZArith Lia.
From S2P Require Import Prelude GoFloat Ecs.
Local Open Scope list_scope.

Definition CellKey : Type := Z * Z.

Record SpatialGrid := mkGrid {
  cellSize : f64;
  buckets : gmap CellKey (list Entity);
  entityCell : gmap Entity CellKey
}.

Definition ReplicationDefaultCellSize : f64 := f64_of_Z 50.

Definition NewSpatialGrid (size : f64) : SpatialGrid :=
  mkGrid (if fle size f0 then ReplicationDefaultCellSize else size) ∅ ∅.

Definition key_of (g : SpatialGrid) (x z : f64) : CellKey :=
  (int_floor (x / cellSize g), int_floor (z / cellSize g)).

(** [g.buckets[k]]: nil when the key is missing. *)
Definition bucket (g : SpatialGrid) (k : CellKey) : list Entity := default [] (buckets g !! k).

Fixpoint index_of (e : Entity) (l : list Entity) : option nat :=
  match l with
  | [] => None
  | id :: l' => if (id =? e)%N then Some 0 else S <$> index_of e l'
  end.

(** [sl[i] = sl[last]; sl[:last]] *)
Definition swap_remove (sl : list Entity) (i : nat) : list Entity :=
  let last := pred (length sl) in
  match sl !! last with
  | Some x => take last (<[i := x]> sl)
  | None => sl
  end.

Definition RemoveEntity (e : Entity) (g : SpatialGrid) : SpatialGrid :=
  match entityCell g !! e with
  | None => g
  | Some old =>
      let g := mkGrid (cellSize g) (buckets g) (delete e (entityCell g)) in
      let sl := bucket g old in
      match index_of e sl with
      | None => g
      | Some i =>
          let rest := swap_remove sl i in
          if Nat.eqb (length rest) 0 then mkGrid (cellSize g) (delete old (buckets g)) (entityCell g)
          else mkGrid (cellSize g) (<[old := rest]> (buckets g)) (entityCell g)
      end
  end.

(** [g.entityCell[e] = k; g.buckets[k] = append(g.buckets[k], e)] *)
Definition insert_at (e : Entity) (k : CellKey) (g : SpatialGrid) : SpatialGrid :=
  mkGrid (cellSize g) (<[k := bucket g k ++ [e]]> (buckets g)) (<[e := k]> (entityCell g)).

Definition UpdateEntity (w : World) (e : Entity) (g : SpatialGrid) : SpatialGrid :=
  match PositionOf w e with
  | None => RemoveEntity e g
  | Some p =>
      let k := key_of g (X p) (Z_ p) in
      if bool_decide (entityCell g !! e = Some k) then g
      else insert_at e k (RemoveEntity e g)
  end.

Definition index_one (w : World) (g : SpatialGrid) (e : Entity) : SpatialGrid :=
  match PositionOf w e with
  | None => g
  | Some p => insert_at e (key_of g (X p) (Z_ p)) g
  end.

Definition RebuildFromWorld (o : iter_order) (w : World) (g : SpatialGrid) : SpatialGrid :=
  fold_left (index_one w) (live o w) (mkGrid (cellSize g) ∅ ∅).

(** [for i := lo; i <= hi; i++] *)
Definition range_incl (lo hi : Z) : list Z := seqZ lo (hi - lo + 1).

Definition within (cx cz r2 : f64) (p : Position) : bool :=
  let dx := (X p - cx)%f64 in
  let dz := (Z_ p - cz)%f64 in
  fle (dx * dx + dz * dz)%f64 r2.

Definition query_step (w : World) (cx cz r2 : f64) (out : list Entity) (e : Entity) : list Entity :=
  if bool_decide (e ∈ out) then out
  else match PositionOf w e with
       | None => out
       | Some p => if within cx cz r2 p then out ++ [e] else out
       end.

(** The cells the query scans. *)
Definition scanned (g : SpatialGrid) (cx cz r : f64) : list CellKey :=
  let minIx := int_floor ((cx - r) / cellSize g) in
  let maxIx := int_floor ((cx + r) / cellSize g) in
  let minIz := int_floor ((cz - r) / cellSize g) in
  let maxIz := int_floor ((cz + r) / cellSize g) in
  ix ← range_incl minIx maxIx; pair ix <$> range_incl minIz maxIz.

(** The set [seen] always holds the elements of [out]. *)
Definition QueryRadius (w : World) (cx cz r : f64) (g : SpatialGrid) : list Entity :=
  if flt r f0 then []
  else fold_left (query_step w cx cz (r * r)%f64) (k ← scanned g cx cz r; bucket g k) [].

Definition NeighborCellKeys (ix iz ring : Z) : list CellKey :=
  let ring := if (ring <? 0)%Z then 0%Z else ring in
  dx ← range_incl (- ring) ring; (fun dz => (int64 (ix + dx), int64 (iz + dz))) <$> range_incl (- ring) ring.

(** The interface [ecs.WorldSpatialIndex] and the system that keeps the index current; the
    simulation state is the world and the index. *)
Definition NetworkReplicationUpdate (o : iter_order) (w : World) (Index : option SpatialGrid) : option SpatialGrid :=
  match Index with
  | None => None
  | Some g => Some (RebuildFromWorld o w g)
  end.

(** * The grid invariant *)

(** Each entity is in the bucket of the cell recorded for it, once, and in no other; no bucket is
    empty. *)
Definition grid_wf (g : SpatialGrid) : Prop :=
  (forall k, NoDup (bucket g k)) /\
  (forall e k, e ∈ bucket g k <-> entityCell g !! e = Some k) /\
  (forall k, buckets g !! k <> Some []).

Lemma index_of_Some e l i : index_of e l = Some i -> l !! i = Some e.
Proof.
  revert i. induction l as [|x l IH]; intros i; cbn; [done|].
  destruct (N.eqb_spec x e) as [->|]; [by intros [= <-]|].
  intros (j & Hj & ->)%fmap_Some. by apply IH.
Qed.

Lemma index_of_None e l : index_of e l = None -> e ∉ l.
Proof.
  induction l as [|x l IH]; cbn; [by intros _ ?%not_elem_of_nil|].
  destruct (N.eqb_spec x e) as [->|]; [done|]. intros H%fmap_None [->|?]%elem_of_cons; [done|by apply IH].
Qed.

(** Removing by swapping with the last element removes one occurrence. *)
Lemma swap_remove_perm l i e : l !! i = Some e -> l ≡ₚ e :: swap_remove l i.
Proof.
  intros Hi. destruct (exists_last (l := l)) as (l' & x & ->); [by intros ->|].
  unfold swap_remove. rewrite length_app. cbn [length]. rewrite Nat.add_1_r. cbn [pred].
  rewrite lookup_app_r, Nat.sub_diag by done. cbn.
  destruct (decide (i = length l')) as [->|Hne].
  - rewrite lookup_app_r, Nat.sub_diag in Hi by done. injection Hi as ->.
    rewrite insert_app_r_alt, Nat.sub_diag by done. cbn. rewrite take_app_length.
    by rewrite Permutation_app_comm.
  - assert (i < length l') as Hlt.
    { apply lookup_lt_Some in Hi. rewrite length_app in Hi. cbn in Hi. lia. }
    rewrite lookup_app_l in Hi by done. rewrite insert_app_l by done.
    rewrite take_app_le by (by rewrite length_insert). rewrite take_ge by (by rewrite length_insert).
    apply take_drop_middle in Hi as Hl. rewrite <- Hl at 1.
    rewrite insert_take_drop by done. solve_Permutation.
Qed.

Lemma bucket_insert g k l k' c ec :
  bucket (mkGrid c (<[k := l]> (buckets g)) ec) k' = if decide (k' = k) then l else bucket g k'.
Proof.
  unfold bucket. cbn. destruct (decide (k' = k)) as [->|]; [by rewrite lookup_insert_eq|by rewrite lookup_insert_ne].
Qed.

Lemma bucket_delete g k k' c ec :
  bucket (mkGrid c (delete k (buckets g)) ec) k' = if decide (k' = k) then [] else bucket g k'.
Proof.
  unfold bucket. cbn. destruct (decide (k' = k)) as [->|]; [by rewrite lookup_delete_eq|by rewrite lookup_delete_ne].
Qed.

Lemma grid_remove e g :
  grid_wf g -> grid_wf (RemoveEntity e g) /\ entityCell (RemoveEntity e g) = delete e (entityCell g) /\
    cellSize (RemoveEntity e g) = cellSize g.
Proof.
  intros (Hnd & Hin & Hne). unfold RemoveEntity. destruct (entityCell g !! e) as [old|] eqn:E.
  2:{ split; [done|]. by rewrite delete_id. }
  change (bucket (mkGrid (cellSize g) (buckets g) (delete e (entityCell g))) old) with (bucket g old).
  destruct (index_of e (bucket g old)) as [i|] eqn:Ei.
  2:{ apply index_of_None in Ei. by apply Hin in E. }
  apply index_of_Some, swap_remove_perm in Ei. set (rest := swap_remove (bucket g old) i) in *.
  pose proof (Hnd old) as Hold. rewrite Ei in Hold. apply NoDup_cons in Hold as [Hni Hndr].
  assert (forall x, x ∈ rest <-> x <> e /\ x ∈ bucket g old) as Hrest.
  { intros x. rewrite Ei, elem_of_cons. split; [intros Hx; split; [by intros ->|by right]|].
    by intros [? [?|?]]. }
  assert (forall c bs ec, (forall k, bucket (mkGrid c bs ec) k = if decide (k = old) then rest else bucket g k) ->
    ec = delete e (entityCell g) -> (forall k, bs !! k <> Some []) -> grid_wf (mkGrid c bs ec)) as Hwf.
  { intros c bs ec Hb -> Hbs. split; [|split; [|done]].
    - intros k. rewrite Hb. destruct (decide (k = old)); [done|apply Hnd].
    - intros x k. rewrite Hb. cbn. destruct (decide (k = old)) as [->|Hk].
      + rewrite Hrest, Hin, lookup_delete_Some. naive_solver.
      + rewrite Hin, lookup_delete_Some. split; [|naive_solver]. intros Hx. split; [|done]. intros <-. congruence. }
  destruct (Nat.eqb_spec (length rest) 0) as [Hl|Hl]; cbn [cellSize buckets entityCell]; (split; [|done]); apply Hwf; try done.
  - intros k. rewrite (bucket_delete g). destruct (decide (k = old)); [|done]. by apply nil_length_inv in Hl.
  - intros k. destruct (decide (k = old)) as [->|]; [by rewrite lookup_delete_eq|by rewrite lookup_delete_ne].
  - intros k. apply (bucket_insert g).
  - intros k. destruct (decide (k = old)) as [->|]; [rewrite lookup_insert_eq|by rewrite lookup_insert_ne].
    intros [= Hr]. by rewrite Hr in Hl.
Qed.

Lemma grid_insert e k g :
  grid_wf g -> entityCell g !! e = None -> grid_wf (insert_at e k g).
Proof.
  intros (Hnd & Hin & Hne) He. assert (forall k', e ∉ bucket g k') as Hni by (intros k'; rewrite Hin; congruence).
  unfold insert_at. split; [|split].
  - intros k'. rewrite (bucket_insert g). destruct (decide (k' = k)); [|apply Hnd].
    apply NoDup_app. split; [apply Hnd|]. split; [|apply NoDup_singleton].
    intros x Hx ->%list_elem_of_singleton. by apply Hni in Hx.
  - intros x k'. rewrite (bucket_insert g). cbn. destruct (decide (x = e)) as [->|Hx].
    + rewrite lookup_insert_eq. destruct (decide (k' = k)) as [->|Hk].
      * split; [done|]. intros _. apply elem_of_app. right. by apply list_elem_of_singleton.
      * split; [intros []%Hni|congruence].
    + rewrite lookup_insert_ne, <- Hin by done. destruct (decide (k' = k)) as [->|]; [|done].
      rewrite elem_of_app, list_elem_of_singleton. naive_solver.
  - intros k'. cbn. destruct (decide (k' = k)) as [->|]; [rewrite lookup_insert_eq|by rewrite lookup_insert_ne].
    intros [= Hr]. by destruct (bucket g k).
Qed.

(** The index records the cell of every live entity that has a position, and nothing else. *)
Definition cell_of_entity (g : SpatialGrid) (w : World) (e : Entity) : option CellKey :=
  if bool_decide (e ∈ alive w) then
    match PositionOf w e with Some p => Some (key_of g (X p) (Z_ p)) | None => None end
  else None.

Definition indexes (g : SpatialGrid) (w : World) : Prop :=
  grid_wf g /\ forall e, entityCell g !! e = cell_of_entity g w e.

Lemma rebuild_fold w l g :
  grid_wf g -> NoDup l -> (forall e, e ∈ l -> entityCell g !! e = None) ->
  grid_wf (fold_left (index_one w) l g) /\ cellSize (fold_left (index_one w) l g) = cellSize g /\
  forall e, entityCell (fold_left (index_one w) l g) !! e =
    if bool_decide (e ∈ l) then
      match PositionOf w e with Some p => Some (key_of g (X p) (Z_ p)) | None => None end
    else entityCell g !! e.
Proof.
  revert g. induction l as [|x l IH]; intros g Hg Hnd Hl; cbn [fold_left].
  { split; [done|split; [done|]]. intros e. by rewrite bool_decide_eq_false_2 by apply not_elem_of_nil. }
  apply NoDup_cons in Hnd as [Hx Hnd].
  assert (grid_wf (index_one w g x) /\ cellSize (index_one w g x) = cellSize g /\
    forall e, e <> x -> entityCell (index_one w g x) !! e = entityCell g !! e) as (Hwf & Hcs & Hoth).
  { unfold index_one. destruct (PositionOf w x) as [p|]; [|done]. split; [|split; [done|]].
    - apply grid_insert; [done|apply Hl; left].
    - intros e Hne. cbn. by rewrite lookup_insert_ne. }
  destruct (IH (index_one w g x)) as (H1 & H2 & H3); [done|done| |].
  { intros e He. rewrite Hoth by (by intros ->). apply Hl. by right. }
  split; [done|split; [congruence|]]. intros e. rewrite H3.
  destruct (decide (e = x)) as [->|Hne].
  - rewrite bool_decide_eq_false_2 by done. rewrite bool_decide_eq_true_2 by left.
    unfold index_one. destruct (PositionOf w x); [cbn; by rewrite lookup_insert_eq|apply Hl; left].
  - rewrite Hoth by done. rewrite (bool_decide_ext (e ∈ l) (e ∈ x :: l)).
    + unfold key_of. by rewrite Hcs.
    + rewrite elem_of_cons. tauto.
Qed.

Lemma empty_grid_wf c : grid_wf (mkGrid c ∅ ∅).
Proof.
  split; [|split]; unfold bucket; cbn.
  - intros k. rewrite lookup_empty. constructor.
  - intros e k. rewrite !lookup_empty. split; [by intros ?%not_elem_of_nil|done].
  - intros k. by rewrite lookup_empty.
Qed.

Lemma rebuild_indexes o w g : indexes (RebuildFromWorld o w g) w.
Proof.
  unfold RebuildFromWorld.
  destruct (rebuild_fold w (live o w) (mkGrid (cellSize g) ∅ ∅) (empty_grid_wf _) (NoDup_live o w)) as (H1 & H2 & H3).
  { intros. apply lookup_empty. }
  split; [done|]. intros e. rewrite H3. unfold cell_of_entity, key_of. rewrite H2. cbn.
  rewrite (bool_decide_ext (e ∈ live o w) (e ∈ alive w)) by apply elem_of_live.
  destruct (bool_decide _); [done|apply lookup_empty].
Qed.

Lemma update_grid_wf w e g : grid_wf g -> grid_wf (UpdateEntity w e g).
Proof.
  intros Hg. unfold UpdateEntity. destruct (grid_remove e g Hg) as (Hr & He & _).
  destruct (PositionOf w e); [|done]. destruct (bool_decide _); [done|].
  apply grid_insert; [done|]. by rewrite He, lookup_delete_eq.
Qed.

(** The grid invariant (each entity in exactly the bucket recorded for it, no empty bucket) is
    preserved by every operation, and each operation has its functional effect: a rebuild indexes
    exactly the live entities that have a position, in the cell of their position, whatever the order
    of the map; an update moves one entity to the cell of its position and leaves the others. *)
Theorem grid_operations_spec o w e g :
  indexes (RebuildFromWorld o w g) w /\
  (grid_wf g ->
    grid_wf (RemoveEntity e g) /\ grid_wf (UpdateEntity w e g) /\
    entityCell (RemoveEntity e g) = delete e (entityCell g) /\
    entityCell (UpdateEntity w e g) !! e =
      match PositionOf w e with Some p => Some (key_of g (X p) (Z_ p)) | None => None end /\
    forall e', e' <> e -> entityCell (UpdateEntity w e g) !! e' = entityCell g !! e').
Proof.
  split; [apply rebuild_indexes|]. intros Hg. destruct (grid_remove e g Hg) as (Hr & He & Hc).
  split; [done|split; [by apply update_grid_wf|split; [done|]]]. unfold UpdateEntity.
  destruct (PositionOf w e) as [p|]; [|rewrite He; split; [by rewrite lookup_delete_eq|intros; by rewrite lookup_delete_ne]].
  destruct (bool_decide_reflect (entityCell g !! e = Some (key_of g (X p) (Z_ p)))); [done|]. cbn.
  split; [by rewrite lookup_insert_eq|]. intros e' Hne. by rewrite lookup_insert_ne, He, lookup_delete_ne.
Qed.

(** C36: updating the index incrementally gives the index that a rebuild gives: after an entity of an
    indexed world is moved, [UpdateEntity] restores the correspondence, and the recorded cells and the
    contents of every bucket are those of [RebuildFromWorld] up to the order in a bucket. *)
Theorem UpdateEntity_is_rebuild o w e p g :
  indexes g w -> e ∈ alive w ->
  let w' := SetPosition e p w in
  indexes (UpdateEntity w' e g) w' /\
  entityCell (UpdateEntity w' e g) = entityCell (RebuildFromWorld o w' g) /\
  forall k, bucket (UpdateEntity w' e g) k ≡ₚ bucket (RebuildFromWorld o w' g) k.
Proof.
  intros [Hg Hi] Ha w'. destruct (grid_remove e g Hg) as (Hr & He & Hc).
  assert (PositionOf w' e = Some p) as Hp by apply lookup_insert_eq.
  assert (cellSize (UpdateEntity w' e g) = cellSize g) as Hcs.
  { unfold UpdateEntity. rewrite Hp. by destruct (bool_decide _). }
  assert (indexes (UpdateEntity w' e g) w') as Hu.
  { split; [by apply update_grid_wf|]. intros x. unfold cell_of_entity, key_of. rewrite Hcs.
    change (alive w') with (alive w). destruct (decide (x = e)) as [->|Hx].
    - rewrite bool_decide_eq_true_2, Hp by done. unfold UpdateEntity. rewrite Hp.
      destruct (bool_decide_reflect (entityCell g !! e = Some (key_of g (X p) (Z_ p)))); [done|].
      cbn. by rewrite lookup_insert_eq.
    - assert (PositionOf w' x = PositionOf w x) as -> by (apply lookup_insert_ne; congruence).
      unfold UpdateEntity. rewrite Hp. transitivity (entityCell g !! x); [|apply Hi].
      destruct (bool_decide_reflect (entityCell g !! e = Some (key_of g (X p) (Z_ p)))); [done|].
      cbn. by rewrite lookup_insert_ne, He, lookup_delete_ne. }
  destruct (rebuild_indexes o w' g) as [Hwf Hb]. destruct Hu as [Huw Hue].
  assert (forall x, entityCell (UpdateEntity w' e g) !! x = entityCell (RebuildFromWorld o w' g) !! x) as Heq.
  { intros x. rewrite Hue, Hb. unfold cell_of_entity, key_of. rewrite Hcs.
    assert (cellSize (RebuildFromWorld o w' g) = cellSize g) as ->; [|done].
    unfold RebuildFromWorld. edestruct (rebuild_fold w' (live o w') (mkGrid (cellSize g) ∅ ∅)) as (_ & Hz & _);
      [apply empty_grid_wf|apply NoDup_live|intros; apply lookup_empty|exact Hz]. }
  split; [done|]. split; [by apply map_eq|]. intros k. destruct Huw as (N1 & I1 & _), Hwf as (N2 & I2 & _).
  apply NoDup_Permutation; [done..|]. intros x. by rewrite I1, I2, Heq.
Qed.

Lemma UpdateEntity_is_rebuild_witness :
  let w := snd (CreateEntity NewWorld) in
  let g := RebuildFromWorld order_id w (NewSpatialGrid f0) in
  let p := mkPosition (f64_of_Z 120) f0 (f64_of_Z (-1)) in
  entityCell (UpdateEntity (SetPosition 1%N p w) 1%N g) !! 1%N = Some (2, -1)%Z /\
  entityCell (UpdateEntity (SetPosition 1%N p w) 1%N g) = entityCell (RebuildFromWorld order_rev (SetPosition 1%N p w) g).
Proof.
  intros w g p. split; [vm_compute; reflexivity|].
  refine (proj1 (proj2 (UpdateEntity_is_rebuild order_rev w 1%N p g _ _))); [apply rebuild_indexes|].
  apply (bool_decide_eq_true_1 (1%N ∈ alive w)). vm_compute. reflexivity.
Defined.

(** ** Radius queries *)

Lemma elem_of_range_incl lo hi i : i ∈ range_incl lo hi <-> (lo <= i <= hi)%Z.
Proof. unfold range_incl. rewrite elem_of_seqZ. lia. Qed.

(** The scanned block of cells. *)
Definition in_block (g : SpatialGrid) (cx cz r : f64) (k : CellKey) : Prop :=
  (int_floor ((cx - r) / cellSize g) <= fst k <= int_floor ((cx + r) / cellSize g))%Z /\
  (int_floor ((cz - r) / cellSize g) <= snd k <= int_floor ((cz + r) / cellSize g))%Z.

Lemma elem_of_scanned g cx cz r k : k ∈ scanned g cx cz r <-> in_block g cx cz r k.
Proof.
  unfold scanned, in_block. rewrite list_elem_of_bind. destruct k as [ix iz]. cbn [fst snd].
  rewrite <- !elem_of_range_incl. split.
  - intros (jx & (jz & He & Hz)%list_elem_of_fmap & Hx). by injection He as -> ->.
  - intros [Hx Hz]. exists ix. split; [|done]. apply list_elem_of_fmap. by exists iz.
Qed.

Lemma query_fold w cx cz r2 l out :
  NoDup out ->
  NoDup (fold_left (query_step w cx cz r2) l out) /\
  forall e, e ∈ fold_left (query_step w cx cz r2) l out <->
    e ∈ out \/ (e ∈ l /\ exists p, PositionOf w e = Some p /\ within cx cz r2 p = true).
Proof.
  revert out. induction l as [|x l IH]; intros out Hnd; cbn [fold_left].
  { split; [done|]. intros e. rewrite elem_of_nil. tauto. }
  assert (NoDup (query_step w cx cz r2 out x) /\ forall e, e ∈ query_step w cx cz r2 out x <->
    e ∈ out \/ (e = x /\ exists p, PositionOf w e = Some p /\ within cx cz r2 p = true)) as [Hn He].
  { unfold query_step. destruct (bool_decide_reflect (x ∈ out)) as [Hx|Hx].
    { split; [done|]. intros e. split; [by left|]. by intros [?|[-> _]]. }
    destruct (PositionOf w x) as [p|] eqn:Ep.
    - destruct (within cx cz r2 p) eqn:Ew.
      + split; [apply NoDup_app; split; [done|split; [|apply NoDup_singleton]]|].
        { intros e Hin ->%list_elem_of_singleton. done. }
        intros e. rewrite elem_of_app, list_elem_of_singleton. split; [intros [?| ->]; eauto|].
        intros [?|[-> _]]; auto.
      + split; [done|]. intros e. split; [by left|]. intros [?|(-> & p' & Hp' & Hw)]; [done|]. congruence.
    - split; [done|]. intros e. split; [by left|]. intros [?|(-> & p' & Hp' & Hw)]; [done|]. congruence. }
  destruct (IH _ Hn) as [H1 H2]. split; [done|]. intros e. rewrite H2, He, elem_of_cons. tauto.
Qed.

(** A radius query on a well-formed index returns, once each, exactly the entities whose
    recorded cell lies in the scanned block and whose current position is within the radius (squared
    distances compared as the code computes them); a negative radius returns nothing. *)
Theorem QueryRadius_spec w cx cz r g :
  grid_wf g ->
  NoDup (QueryRadius w cx cz r g) /\
  forall e, e ∈ QueryRadius w cx cz r g <->
    flt r f0 = false /\ (exists k, entityCell g !! e = Some k /\ in_block g cx cz r k) /\
    exists p, PositionOf w e = Some p /\ within cx cz (r * r)%f64 p = true.
Proof.
  intros (_ & Hin & _). unfold QueryRadius. destruct (flt r f0).
  { split; [constructor|]. intros e. rewrite elem_of_nil. by split; [|intros [? _]]. }
  destruct (query_fold w cx cz (r * r)%f64 (k ← scanned g cx cz r; bucket g k) [] (NoDup_nil_2)) as [H1 H2].
  split; [done|]. intros e. rewrite H2, elem_of_nil, list_elem_of_bind.
  setoid_rewrite elem_of_scanned. setoid_rewrite Hin. split.
  - intros [[]|[(k & Hk & Hb) Hp]]. split; [done|split; [by exists k|done]].
  - intros (_ & (k & Hk & Hb) & Hp). right. split; [by exists k|done].
Qed.

Lemma QueryRadius_spec_witness :
  let w := SetPosition 1%N (mkPosition (f64_of_Z 120) f0 (f64_of_Z (-1))) (snd (CreateEntity NewWorld)) in
  let g := RebuildFromWorld order_id w (NewSpatialGrid f0) in
  1%N ∈ QueryRadius w (f64_of_Z 100) f0 (f64_of_Z 50) g.
Proof.
  intros w g. apply (proj2 (QueryRadius_spec w (f64_of_Z 100) f0 (f64_of_Z 50) g (proj1 (rebuild_indexes order_id w _))) 1%N).
  split; [reflexivity|]. split.
  - exists (2, -1)%Z. split; [vm_compute; reflexivity|]. vm_compute. split; split; congruence.
  - exists (mkPosition (f64_of_Z 120) f0 (f64_of_Z (-1))). split; [reflexivity|vm_compute; reflexivity].
Defined.
