(* ===== verification/Replic.v ===== *)
(** [internal/replic] ([priority.go], [replic.go]): the order in which entities are replicated and
    the snapshot and delta messages built from a world. *)
From Stdlib Require Import ZArith Lia.
From stdpp Require Import sorting.
From S2P Require Import Prelude GoFloat Ecs.
Local Open Scope list_scope.

(** The protobuf messages of [proto/game/v1]. *)
Record Vec3F := mkVec3F { v3X : f32; v3Y : f32; v3Z : f32 }.
Record EntityStateMsg := mkEntityState {
  es_EntityId : N; es_Position : Vec3F; es_Flags : N; es_HealthPct : f32 }.
Record Snapshot := mkSnapshot { sn_Tick : N; sn_Entities : list EntityStateMsg }.
Record Delta := mkDelta {
  d_Tick : N; d_FromTick : N; d_Changed : list EntityStateMsg; d_RemovedEntityIds : list N }.

Definition replicationTierPlayer : Z := 0.
Definition replicationTierNPC : Z := 1.

(** [isPlayer] may be nil. *)
Definition is_player (isPlayer : option (Entity -> bool)) (e : Entity) : bool :=
  match isPlayer with Some f => f e | None => false end.

Definition replicationTier (isPlayer : option (Entity -> bool)) (e : Entity) : Z :=
  if is_player isPlayer e then replicationTierPlayer else replicationTierNPC.

(** [sort.SliceStable]: insertion after the elements that are not greater. *)
Fixpoint insert_stable {A} (less : A -> A -> bool) (x : A) (l : list A) : list A :=
  match l with
  | [] => [x]
  | y :: l' => if less x y then x :: l else y :: insert_stable less x l'
  end.

Definition slice_stable {A} (less : A -> A -> bool) (l : list A) : list A :=
  fold_left (fun acc x => insert_stable less x acc) l [].

Definition priority_less (isPlayer : option (Entity -> bool)) (a b : Entity) : bool :=
  let ti := replicationTier isPlayer a in
  let tj := replicationTier isPlayer b in
  if negb (ti =? tj)%Z then (ti <? tj)%Z else (a <? b)%N.

Definition SortEntitiesReplicationPriority (entities : list Entity) (isPlayer : option (Entity -> bool)) : list Entity :=
  if Nat.leb (length entities) 1 then entities else slice_stable (priority_less isPlayer) entities.

Definition FlagEntityPlayer : N := 1.

Definition vec3f (x y z : f64) : Vec3F := mkVec3F (to_f32 x) (to_f32 y) (to_f32 z).

Definition EntityState (w : World) (e : Entity) (isPlayer : bool) : option EntityStateMsg :=
  match PositionOf w e with
  | None => None
  | Some p =>
      Some (mkEntityState e (vec3f (X p) (Y p) (Z_ p)) (if isPlayer then FlagEntityPlayer else 0%N)
        (match HealthOf w e with
         | Some h => if flt f0 (MaxHP h) then to_f32 (HP h / MaxHP h) else f0
         | None => f0
         end))
  end.

(** The loop that appends the state of each entity that has one. *)
Definition states (w : World) (isPlayer : option (Entity -> bool)) (ents : list Entity) : list EntityStateMsg :=
  omap (fun e => EntityState w e (is_player isPlayer e)) ents.

Definition BuildSnapshot (o : iter_order) (w : World) (tick : N) (isPlayer : option (Entity -> bool)) : Snapshot :=
  let ents := filter (fun e => is_Some (PositionOf w e)) (live o w) in
  mkSnapshot tick (states w isPlayer (SortEntitiesReplicationPriority ents isPlayer)).

Definition BuildSnapshotEntities (w : World) (tick : N) (entities : list Entity) (isPlayer : option (Entity -> bool)) : Snapshot :=
  mkSnapshot tick (states w isPlayer (SortEntitiesReplicationPriority entities isPlayer)).

Definition BuildDelta (w : World) (tick fromTick : N) (changed : list Entity) (isPlayer : option (Entity -> bool)) : Delta :=
  mkDelta tick fromTick (states w isPlayer (SortEntitiesReplicationPriority changed isPlayer)) [].

(** * The replication order *)

Section Priority.
Context (isPlayer : option (Entity -> bool)).

(** Players before the others, and by identifier within a tier. *)
Definition before (a b : Entity) : Prop := priority_less isPlayer b a = false.

Lemma before_iff a b :
  before a b <-> (is_player isPlayer a = true /\ is_player isPlayer b = false) \/
    (is_player isPlayer a = is_player isPlayer b /\ (a <= b)%N).
Proof.
  unfold before, priority_less, replicationTier, replicationTierPlayer, replicationTierNPC.
  destruct (is_player isPlayer a), (is_player isPlayer b); cbn; rewrite ?N.ltb_ge; intuition congruence.
Qed.

#[export] Instance before_total : Total before.
Proof.
  intros a b. rewrite !before_iff. destruct (is_player isPlayer a), (is_player isPlayer b); auto;
    destruct (N.le_ge_cases a b); auto.
Qed.

#[export] Instance before_trans : Transitive before.
Proof.
  intros a b c. rewrite !before_iff.
  destruct (is_player isPlayer a), (is_player isPlayer b), (is_player isPlayer c); intuition (try congruence);
    right; split; auto; lia.
Qed.

#[export] Instance before_antisymm : AntiSymm (=) before.
Proof.
  intros a b. rewrite !before_iff. intros [[? ?]|[? ?]] [[? ?]|[? ?]]; try congruence. lia.
Qed.

Lemma insert_perm x l : insert_stable (priority_less isPlayer) x l ≡ₚ x :: l.
Proof.
  induction l as [|y l IH]; cbn; [done|]. destruct (priority_less _ _ _); [done|].
  rewrite IH. apply Permutation_swap.
Qed.

Lemma insert_sorted x l :
  StronglySorted before l -> StronglySorted before (insert_stable (priority_less isPlayer) x l).
Proof.
  induction 1 as [|y l Hl IH Hy]; cbn; [repeat constructor|].
  destruct (priority_less isPlayer x y) eqn:E.
  - assert (before x y) as Hxy.
    { destruct (before_total x y) as [?|H]; [done|]. unfold before in H. congruence. }
    constructor; [by constructor|]. constructor; [done|]. eapply Forall_impl; [exact Hy|].
    intros z Hz. by etrans.
  - constructor; [done|]. rewrite insert_perm. constructor; [exact E|done].
Qed.

Lemma slice_stable_spec l acc :
  StronglySorted before acc ->
  StronglySorted before (fold_left (fun acc x => insert_stable (priority_less isPlayer) x acc) l acc) /\
  fold_left (fun acc x => insert_stable (priority_less isPlayer) x acc) l acc ≡ₚ l ++ acc.
Proof.
  revert acc. induction l as [|x l IH]; intros acc Ha; cbn [fold_left]; [done|].
  destruct (IH (insert_stable (priority_less isPlayer) x acc)) as [H1 H2]; [by apply insert_sorted|].
  split; [done|]. rewrite H2, insert_perm. solve_Permutation.
Qed.

Lemma sort_spec l :
  StronglySorted before (SortEntitiesReplicationPriority l isPlayer) /\
  SortEntitiesReplicationPriority l isPlayer ≡ₚ l.
Proof.
  unfold SortEntitiesReplicationPriority, slice_stable.
  destruct l as [|x [|y l]]; cbn [length Nat.leb]; [repeat constructor..|].
  destruct (slice_stable_spec (x :: y :: l) []) as [H1 H2]; [constructor|].
  split; [done|]. by rewrite app_nil_r in H2.
Qed.

Lemma sort_unique l l' :
  l ≡ₚ l' -> SortEntitiesReplicationPriority l isPlayer = SortEntitiesReplicationPriority l' isPlayer.
Proof.
  intros Hp. destruct (sort_spec l) as [S1 P1], (sort_spec l') as [S2 P2].
  apply (StronglySorted_unique before); [done..|]. by rewrite P1, P2.
Qed.
End Priority.

Lemma states_ids w isPlayer l :
  es_EntityId <$> states w isPlayer l = filter (fun e => is_Some (PositionOf w e)) l.
Proof.
  unfold states. induction l as [|e l IH]; [done|]. rewrite filter_cons. cbn [omap list_omap].
  unfold EntityState at 1. destruct (PositionOf w e) as [p|].
  - rewrite decide_True by done. cbn [fmap list_fmap]. by rewrite <- IH.
  - rewrite decide_False by (by intros [? ?]). apply IH.
Qed.

Lemma filter_all {A} (P : A -> Prop) `{forall x, Decision (P x)} (l : list A) :
  (forall i x, l !! i = Some x -> P x) -> filter P l = l.
Proof.
  induction l as [|x l IH]; intros Hl; [done|]. rewrite filter_cons_True by (by apply (Hl 0)).
  f_equal. apply IH. intros i y Hy. by apply (Hl (S i)).
Qed.

(** The replication order: the sort returns a permutation of the entities in which players come
    before the others and each tier is ordered by identifier; it depends only on which entities there
    are, not on the order in which they are given. *)
Theorem SortEntitiesReplicationPriority_spec isPlayer l :
  StronglySorted (before isPlayer) (SortEntitiesReplicationPriority l isPlayer) /\
  SortEntitiesReplicationPriority l isPlayer ≡ₚ l /\
  forall l', l ≡ₚ l' -> SortEntitiesReplicationPriority l' isPlayer = SortEntitiesReplicationPriority l isPlayer.
Proof.
  destruct (sort_spec isPlayer l) as [H1 H2]. split; [done|split; [done|]].
  intros l' Hp. by apply sort_unique.
Qed.

(** A full snapshot does not depend on the iteration order of the world; it lists exactly the
    live entities that have a position, once each, players first; a delta lists those of the changed
    entities that still have a position, and does not depend on the order of the dirty set. *)
Theorem BuildSnapshot_spec o o' w tick from isPlayer changed :
  BuildSnapshot o w tick isPlayer = BuildSnapshot o' w tick isPlayer /\
  NoDup (es_EntityId <$> sn_Entities (BuildSnapshot o w tick isPlayer)) /\
  StronglySorted (before isPlayer) (es_EntityId <$> sn_Entities (BuildSnapshot o w tick isPlayer)) /\
  (forall e, e ∈ es_EntityId <$> sn_Entities (BuildSnapshot o w tick isPlayer) <->
     e ∈ alive w /\ is_Some (PositionOf w e)) /\
  (forall changed', changed ≡ₚ changed' ->
     BuildDelta w tick from changed isPlayer = BuildDelta w tick from changed' isPlayer) /\
  (forall e, e ∈ es_EntityId <$> d_Changed (BuildDelta w tick from changed isPlayer) <->
     e ∈ changed /\ is_Some (PositionOf w e)).
Proof.
  set (ents o := filter (fun e => is_Some (PositionOf w e)) (live o w)).
  assert (forall o, NoDup (ents o)) as Hnd by (intros; apply NoDup_filter, NoDup_live).
  assert (forall o e, e ∈ ents o <-> e ∈ alive w /\ is_Some (PositionOf w e)) as Hin.
  { intros o1 e. unfold ents. rewrite list_elem_of_filter, elem_of_live. tauto. }
  assert (forall o, es_EntityId <$> sn_Entities (BuildSnapshot o w tick isPlayer) =
    SortEntitiesReplicationPriority (ents o) isPlayer) as Hids.
  { intros o1. unfold BuildSnapshot. cbn [sn_Entities]. rewrite states_ids. fold (ents o1).
    destruct (sort_spec isPlayer (ents o1)) as [_ Hp]. apply filter_all.
    intros i e He. apply list_elem_of_lookup_2 in He. rewrite Hp in He. by apply Hin in He as [_ ?]. }
  rewrite Hids. destruct (sort_spec isPlayer (ents o)) as [Hs Hp].
  assert (ents o ≡ₚ ents o') as Hoo by (apply NoDup_Permutation; [done..|]; intros; by rewrite !Hin).
  split; [unfold BuildSnapshot; f_equal; f_equal; by apply sort_unique|].
  split; [by rewrite Hp|]. split; [done|]. split; [intros e; by rewrite Hp, Hin|]. split.
  - intros changed' Hc. unfold BuildDelta. by rewrite (sort_unique isPlayer changed changed').
  - intros e. unfold BuildDelta. cbn [d_Changed]. rewrite states_ids, list_elem_of_filter.
    destruct (sort_spec isPlayer changed) as [_ ->]. tauto.
Qed.
