(* ===== verification/CellSim.v ===== *)
(** [internal/cellsim/runtime.go] and [internal/cellsim/snapshot/snapshot.go]: the simulation of one
    cell (world, loop and replication index) and its persistence. *)
From Stdlib Require Import ZArith Lia.
From S2P Require Import Prelude GoFloat Ecs Aoi Replic.
Local Open Scope list_scope.

(** * The runtime *)

(** The world and the index the systems of the loop share. *)
Record SimState := mkSim { sim_World : World; AOIGrid : SpatialGrid }.

(** [Runtime.World] is the world of the loop. *)
Record Runtime := mkRuntime { Loop : GameLoop SimState; npcStarted : bool }.

Definition rt_World (r : Runtime) : World := sim_World (LWorld (Loop r)).

(** Replaces the simulation state of a loop. *)
Definition set_sim {S} (s : S) (g : GameLoop S) : GameLoop S :=
  mkGameLoop (TPS g) s (Systems g) (Stats g) (paused g).
Definition set_world (w : World) (r : Runtime) : Runtime :=
  mkRuntime (set_sim (mkSim w (AOIGrid (LWorld (Loop r)))) (Loop r)) (npcStarted r).

Definition defaultTPS : f64 := f64_of_Z 25.

Definition movement_system : System SimState := fun o dt s =>
  mkSim (MovementUpdate o dt (sim_World s)) (AOIGrid s).
Definition regen_system (rate : f64) : System SimState := fun o dt s =>
  mkSim (HealthRegenUpdate rate o dt (sim_World s)) (AOIGrid s).
Definition replication_system : System SimState := fun o dt s =>
  mkSim (sim_World s) (default (AOIGrid s) (NetworkReplicationUpdate o (sim_World s) (Some (AOIGrid s)))).

Definition NewRuntime : Runtime :=
  mkRuntime (NewGameLoop (mkSim NewWorld (NewSpatialGrid ReplicationDefaultCellSize)) defaultTPS
    [movement_system; regen_system (f64_of_Z 2); replication_system]) false.

(** One iteration of [Run] after the ticker fired. *)
Definition Tick (os : nat -> iter_order) (elapsed : Z) (r : Runtime) : Runtime :=
  mkRuntime (Step os elapsed (Loop r)) (npcStarted r).

(** [0.2], [-0.15] as binary64. *)
Definition f_0_2 : f64 := f64_of 3602879701896397 (-54).
Definition f_m0_15 : f64 := f64_of (-5404319552844595) (-55).

Definition spawn_demo (row col : Z) (w : World) : World :=
  let step := f64_of_Z 12 in
  let '(e, w) := CreateEntity w in
  let x := (f64_of_Z col * step - f64_of_Z 5 * step)%f64 in
  let z := (f64_of_Z row * step - f64_of_Z 5 * step)%f64 in
  let w := SetPosition e (mkPosition x f0 z) w in
  let w := SetVelocity e (mkVelocity f_0_2 f0 f_m0_15) w in
  SetHealth e (mkHealth (f64_of_Z 100) (f64_of_Z 100)) w.

(** The two nested loops: [left] entities remain, the next is at ([row], [col]). *)
Fixpoint spawn_rows (left : nat) (row col : Z) (w : World) : World :=
  match left with
  | O => w
  | S left' =>
      let w := spawn_demo row col w in
      if (col + 1 <? 10)%Z then spawn_rows left' row (col + 1) w else spawn_rows left' (row + 1) 0 w
  end.

Definition SpawnDemoNPCs (n : Z) (r : Runtime) : Runtime :=
  if (n <=? 0)%Z then r
  else if npcStarted r then r
  else let r := mkRuntime (Loop r) true in set_world (spawn_rows (Z.to_nat n) 0 0 (rt_World r)) r.

(** * Persistence *)

Definition SchemaVersion : Z := 1.

Record CellPersistEntity := mkPersistEntity {
  pe_EntityId : N; pe_Position : option Vec3F; pe_Velocity : option Vec3F;
  pe_HpCur : f32; pe_HpMax : f32; pe_Flags : N }.

Record CellPersist := mkPersist {
  p_SchemaVersion : Z; p_Tick : N; LoopTps : f32; p_Entities : list (option CellPersistEntity) }.

Definition encode_entity (w : World) (e : Entity) : option CellPersistEntity :=
  match PositionOf w e with
  | None => None
  | Some pos =>
      let vel := default (mkVelocity f0 f0 f0) (VelocityOf w e) in
      let '(cur, max) :=
        match HealthOf w e with
        | Some h => if flt f0 (MaxHP h) then (to_f32 (HP h), to_f32 (MaxHP h)) else (f0, f0)
        | None => (f0, f0)
        end in
      Some (mkPersistEntity e (Some (vec3f (X pos) (Y pos) (Z_ pos)))
              (Some (vec3f (VX vel) (VY vel) (VZ vel))) cur max 0%N)
  end.

Definition skipped (skipEntity : option (Entity -> bool)) (e : Entity) : bool :=
  match skipEntity with Some f => f e | None => false end.

Definition Encode (o : iter_order) (r : option Runtime) (skipEntity : option (Entity -> bool)) : CellPersist :=
  match r with
  | None => mkPersist SchemaVersion 0 f0 []
  | Some r =>
      mkPersist SchemaVersion (TickCount (Stats (Loop r))) (to_f32 (TPS (Loop r)))
        (Some <$> omap (fun e => if skipped skipEntity e then None else encode_entity (rt_World r) e)
                    (live o (rt_World r)))
  end.

(** Protobuf getters on a message that may be nil. *)
Definition GetX (v : option Vec3F) : f32 := match v with Some v => v3X v | None => f0 end.
Definition GetY (v : option Vec3F) : f32 := match v with Some v => v3Y v | None => f0 end.
Definition GetZ (v : option Vec3F) : f32 := match v with Some v => v3Z v | None => f0 end.

Definition restore_entity (w : World) (ent : option CellPersistEntity) : World :=
  match ent with
  | None => w
  | Some ent =>
      if (pe_EntityId ent =? 0)%N then w
      else
        let pos := mkPosition (of_f32 (GetX (pe_Position ent))) (of_f32 (GetY (pe_Position ent)))
                     (of_f32 (GetZ (pe_Position ent))) in
        let vel := mkVelocity (of_f32 (GetX (pe_Velocity ent))) (of_f32 (GetY (pe_Velocity ent)))
                     (of_f32 (GetZ (pe_Velocity ent))) in
        let hasHealth := flt f0 (pe_HpMax ent) in
        let h := if hasHealth then mkHealth (of_f32 (pe_HpCur ent)) (of_f32 (pe_HpMax ent)) else mkHealth f0 f0 in
        RestorePersistEntity (pe_EntityId ent) pos vel h hasHealth w
  end.

(** [same_world] tells whether [loop.World] and the world argument are one object. *)
Definition Decode (o : iter_order) (same_world : bool) (r : option Runtime) (p : option CellPersist) : result Runtime :=
  match p, r with
  | Some p, Some r =>
      if negb (p_SchemaVersion p =? SchemaVersion)%Z then
        Err (errorf "unsupported persist schema %d" [AInt (p_SchemaVersion p)])
      else if negb same_world then Err (errorf "loop world mismatch" [])
      else
        let w := fold_left (fun w e => DestroyEntity e w) (live o (rt_World r)) (rt_World r) in
        let g := Loop r in
        let st := Stats g in
        let tps := if flt f0 (LoopTps p) then of_f32 (LoopTps p) else TPS g in
        let st := mkStats (p_Tick p) (LastTickDur st) (WorstTickDur st) (TotalWallDur st) in
        let w := fold_left restore_entity (p_Entities p) w in
        Ok (mkRuntime (mkGameLoop tps (mkSim w (AOIGrid (LWorld g))) (Systems g) st (paused g)) (npcStarted r))
  | _, _ => Err (errorf "nil persist or world or loop" [])
  end.

(** * What is persisted *)

Lemma encode_entity_id w e ent : encode_entity w e = Some ent -> pe_EntityId ent = e /\ is_Some (PositionOf w e).
Proof.
  unfold encode_entity. destruct (PositionOf w e); [|done].
  destruct (HealthOf w e) as [h|]; [destruct (flt _ _)|]; intros [= <-]; split; [done|eauto|done|eauto|done|eauto].
Qed.

(** The identifiers of the entities of a persisted state, nil entries left out. *)
Definition persist_ids (p : CellPersist) : list N :=
  pe_EntityId <$> omap id (p_Entities p).

Lemma omap_id_Some {A} (l : list A) : omap id (Some <$> l) = l.
Proof. induction l as [|x l IH]; [done|]. cbn. by rewrite IH. Qed.

(** [Encode] persists exactly the live entities that have a position and are not skipped (the
    players), once each, with their position, velocity and health rounded to single precision; the
    iteration order of the world only permutes the list. *)
Theorem Encode_spec o o' r skip :
  (forall ent, Some ent ∈ p_Entities (Encode o (Some r) skip) <->
     exists e, e ∈ alive (rt_World r) /\ skipped skip e = false /\ encode_entity (rt_World r) e = Some ent) /\
  NoDup (persist_ids (Encode o (Some r) skip)) /\
  p_Entities (Encode o (Some r) skip) ≡ₚ p_Entities (Encode o' (Some r) skip) /\
  p_Tick (Encode o (Some r) skip) = TickCount (Stats (Loop r)).
Proof.
  unfold persist_ids. cbn [Encode p_Entities p_Tick]. rewrite omap_id_Some.
  set (enc := fun e => if skipped skip e then None else encode_entity (rt_World r) e).
  assert (forall e ent, enc e = Some ent <-> skipped skip e = false /\ encode_entity (rt_World r) e = Some ent) as He.
  { intros e ent. unfold enc. destruct (skipped skip e); [split; [done|by intros [? _]]|]. split; [done|by intros [_ ?]]. }
  split; [|split; [|split; [|done]]].
  - intros ent. rewrite list_elem_of_fmap. split.
    + intros (ent' & [= ->] & Hin). apply list_elem_of_omap in Hin as (e & Hl & Hx). exists e.
      apply elem_of_live in Hl. apply He in Hx as [? ?]. done.
    + intros (e & Ha & Hs & Hx). exists ent. split; [done|]. apply list_elem_of_omap. exists e.
      split; [by apply elem_of_live|by apply He].
  - pose proof (NoDup_live o (rt_World r)) as Hnd. induction Hnd as [|e l Hl Hnd IH]; [constructor|].
    cbn [omap list_omap]. destruct (enc e) as [ent|] eqn:E; [|done]. cbn [fmap list_fmap].
    apply NoDup_cons. split; [|done]. apply He in E as [_ E]. apply encode_entity_id in E as [E _].
    intros (ent' & Hx & Hin)%list_elem_of_fmap.
    apply list_elem_of_omap in Hin as (e' & Hl' & Hx'). apply He in Hx' as [_ Hx'].
    apply encode_entity_id in Hx' as [Hx' _]. congruence.
  - apply fmap_Permutation, omap_Permutation. unfold live. by rewrite !visit_perm.
Qed.

(** * Round trip *)

Definition valid_vec (v : Vec3F) : bool := valid_f32 (v3X v) && valid_f32 (v3Y v) && valid_f32 (v3Z v).

(** An entity as [Encode] writes it and the wire format carries it. *)
Record wf_entity (ent : CellPersistEntity) : Prop := {
  wfe_id : pe_EntityId ent <> 0%N;
  wfe_position : exists v, pe_Position ent = Some v /\ valid_vec v = true;
  wfe_velocity : exists v, pe_Velocity ent = Some v /\ valid_vec v = true;
  wfe_cur : valid_f32 (pe_HpCur ent) = true;
  wfe_max : valid_f32 (pe_HpMax ent) = true;
  wfe_health : flt f0 (pe_HpMax ent) = true \/ (pe_HpCur ent = f0 /\ pe_HpMax ent = f0);
  wfe_flags : pe_Flags ent = 0%N }.

Record wf_persist (p : CellPersist) : Prop := {
  wfp_schema : p_SchemaVersion p = SchemaVersion;
  wfp_tps : valid_f32 (LoopTps p) = true /\ flt f0 (LoopTps p) = true;
  wfp_entities : Forall (fun ent => exists e, ent = Some e /\ wf_entity e) (p_Entities p);
  wfp_ids : NoDup (persist_ids p) }.

Lemma vec3f_of_f32 v : valid_vec v = true -> vec3f (of_f32 (v3X v)) (of_f32 (v3Y v)) (of_f32 (v3Z v)) = v.
Proof.
  destruct v as [x y z]. unfold valid_vec, vec3f. cbn. intros [[Hx Hy]%andb_true_iff Hz]%andb_true_iff.
  by rewrite !to_f32_of_f32.
Qed.

(** The components [Encode] reads. *)
Lemma encode_entity_ext w w' e :
  PositionOf w e = PositionOf w' e -> VelocityOf w e = VelocityOf w' e -> HealthOf w e = HealthOf w' e ->
  encode_entity w e = encode_entity w' e.
Proof. intros H1 H2 H3. unfold encode_entity. by rewrite H1, H2, H3. Qed.

Lemma RestorePersistEntity_lookup id pos vel h b w :
  let w' := RestorePersistEntity id pos vel h b w in
  alive w' = {[id]} ∪ alive w /\ positions w' = <[id := pos]> (positions w) /\
  velocities w' = <[id := vel]> (velocities w) /\
  healths w' = (if b then <[id := h]> (healths w) else delete id (healths w)).
Proof. unfold RestorePersistEntity. destruct b; cbn; by destruct (nextID w <=? id)%N. Qed.

Lemma restore_other w ent e :
  (forall x, ent = Some x -> pe_EntityId x <> e) -> encode_entity (restore_entity w ent) e = encode_entity w e.
Proof.
  intros Hne. destruct ent as [ent|]; [|done]. specialize (Hne ent eq_refl). cbn [restore_entity].
  destruct (pe_EntityId ent =? 0)%N; [done|].
  edestruct RestorePersistEntity_lookup as (_ & Hp & Hv & Hh).
  apply encode_entity_ext; unfold PositionOf, VelocityOf, HealthOf.
  - rewrite Hp. by rewrite lookup_insert_ne.
  - rewrite Hv. by rewrite lookup_insert_ne.
  - rewrite Hh. destruct (flt _ _); [by rewrite lookup_insert_ne|by rewrite lookup_delete_ne].
Qed.

Lemma restore_same w ent :
  wf_entity ent -> encode_entity (restore_entity w (Some ent)) (pe_EntityId ent) = Some ent /\
    alive (restore_entity w (Some ent)) = {[pe_EntityId ent]} ∪ alive w.
Proof.
  intros []. cbn [restore_entity]. rewrite (proj2 (N.eqb_neq _ _) wfe_id0).
  edestruct RestorePersistEntity_lookup as (Ha & Hp & Hv & Hh). split; [|exact Ha].
  unfold encode_entity, PositionOf, VelocityOf, HealthOf. rewrite Hp, Hv, Hh, !lookup_insert_eq. cbn [default].
  destruct wfe_position0 as (p & Ep & Hp'), wfe_velocity0 as (v & Ev & Hv').
  destruct ent as [id pos vel cur max flags]. cbn in *. subst. cbn [GetX GetY GetZ X Y Z_ VX VY VZ].
  rewrite !vec3f_of_f32 by done. destruct (flt f0 max) eqn:E.
  - rewrite lookup_insert_eq. cbn [MaxHP HP]. rewrite flt0_of_f32, E by done. by rewrite !to_f32_of_f32.
  - rewrite lookup_delete_eq. destruct wfe_health0 as [?|[-> ->]]; [congruence|done].
Qed.

Lemma restore_fold_other w ents e :
  (forall x, Some x ∈ ents -> pe_EntityId x <> e) ->
  encode_entity (fold_left restore_entity ents w) e = encode_entity w e.
Proof.
  revert w. induction ents as [|ent ents IH]; intros w H; cbn [fold_left]; [done|].
  rewrite IH by (intros x Hx; apply H; by right). apply restore_other. intros x ->. apply H. left.
Qed.

Lemma restore_fold w ents :
  Forall (fun ent => exists e, ent = Some e /\ wf_entity e) ents -> NoDup (pe_EntityId <$> omap id ents) ->
  (forall e, e ∈ alive (fold_left restore_entity ents w) <-> e ∈ alive w \/ e ∈ pe_EntityId <$> omap id ents) /\
  omap (encode_entity (fold_left restore_entity ents w)) (pe_EntityId <$> omap id ents) = omap id ents.
Proof.
  intros Hf. revert w. induction Hf as [|ent ents (x & -> & Hx) Hf IH]; intros w Hnd; cbn [fold_left].
  { split; [|done]. intros e. rewrite elem_of_nil. tauto. }
  cbn [omap list_omap id fmap list_fmap] in *. apply NoDup_cons in Hnd as [Hni Hnd].
  destruct (IH (restore_entity w (Some x)) Hnd) as [Ha He]. destruct (restore_same w x Hx) as [Hs Hal]. split.
  - intros e. rewrite Ha, Hal, elem_of_union, elem_of_singleton, elem_of_cons. tauto.
  - rewrite restore_fold_other, Hs.
    + f_equal. exact He.
    + intros y Hy Heq. apply Hni. rewrite <- Heq. apply list_elem_of_fmap. exists y. split; [done|].
      apply list_elem_of_omap. by exists (Some y).
Qed.

Lemma destroy_all w l e : e ∈ alive (fold_left (fun w e => DestroyEntity e w) l w) <-> e ∈ alive w /\ e ∉ l.
Proof.
  revert w. induction l as [|x l IH]; intros w; cbn [fold_left].
  - rewrite elem_of_nil. tauto.
  - rewrite IH. cbn. rewrite elem_of_difference, elem_of_singleton, elem_of_cons. tauto.
Qed.

Lemma omap_Some_all (ents : list (option CellPersistEntity)) :
  Forall (fun ent => exists e, ent = Some e /\ wf_entity e) ents -> Some <$> omap id ents = ents.
Proof. induction 1 as [|ent ents (x & -> & _) Hf IH]; [done|]. cbn. by f_equal. Qed.

(** C27: [Decode] then [Encode] is the identity on persisted states up to the order of the entities:
    whatever the world held before, and for every iteration order, decoding a well-formed persisted
    state succeeds, replaces the live entities by exactly the persisted ones and restores the tick,
    and encoding the result gives the same tick, rate and entities back. *)
Theorem Decode_Encode_roundtrip o o' r p :
  wf_persist p ->
  exists r', Decode o true (Some r) (Some p) = Ok r' /\
    (forall e, e ∈ alive (rt_World r') <-> e ∈ persist_ids p) /\
    TickCount (Stats (Loop r')) = p_Tick p /\
    p_Entities (Encode o' (Some r') None) ≡ₚ p_Entities p /\
    LoopTps (Encode o' (Some r') None) = LoopTps p /\ p_Tick (Encode o' (Some r') None) = p_Tick p.
Proof.
  intros [Hs [Htv Htp] Hf Hnd]. unfold Decode. rewrite Hs. cbn [Z.eqb negb SchemaVersion Pos.eqb].
  eexists. split; [reflexivity|]. cbn [Encode rt_World sim_World LWorld Loop Stats TickCount TPS p_Entities p_Tick LoopTps].
  set (w0 := fold_left (fun w e => DestroyEntity e w) _ _).
  destruct (restore_fold w0 (p_Entities p) Hf Hnd) as [Ha He].
  assert (forall e, e ∈ alive (fold_left restore_entity (p_Entities p) w0) <-> e ∈ persist_ids p) as Halive.
  { intros e. rewrite Ha. unfold w0. rewrite destroy_all, elem_of_live. unfold persist_ids. tauto. }
  split; [done|]. split; [done|]. split; [|split; [|done]].
  - transitivity (Some <$> omap id (p_Entities p)); [|by rewrite omap_Some_all].
    rewrite <- He. cbn [skipped]. apply fmap_Permutation, omap_Permutation, NoDup_Permutation.
    + apply NoDup_live.
    + exact Hnd.
    + intros e. by rewrite elem_of_live, Halive.
  - rewrite Htp. by apply to_f32_of_f32.
Qed.

(** Two NPCs, one of them without health, are restored into a runtime that already holds demo NPCs. *)
Definition demo_persist : CellPersist :=
  let v a b := mkVec3F (to_f32 (f64_of_Z a)) f0 (to_f32 (f64_of_Z b)) in
  mkPersist 1 77 (to_f32 (f64_of_Z 25))
    [Some (mkPersistEntity 9 (Some (v 3 4)%Z) (Some (v (-1) 0)%Z) (to_f32 (f64_of_Z 50)) (to_f32 (f64_of_Z 100)) 0);
     Some (mkPersistEntity 2 (Some (v 10 (-7))%Z) (Some (v 0 0)%Z) f0 f0 0)].

Lemma Decode_Encode_roundtrip_witness :
  exists r', Decode order_id true (Some (SpawnDemoNPCs 3 NewRuntime)) (Some demo_persist) = Ok r' /\
    p_Entities (Encode order_rev (Some r') None) ≡ₚ p_Entities demo_persist.
Proof.
  destruct (Decode_Encode_roundtrip order_id order_rev (SpawnDemoNPCs 3 NewRuntime) demo_persist)
    as (r' & H1 & _ & _ & H2 & _); [|by exists r'].
  split; [done|by split| |].
  - repeat constructor; eexists; (split; [reflexivity|split]); try done; try (by eexists; split);
      first [by left | by right].
  - apply (bool_decide_unpack _). vm_compute. done.
Defined.
