(* ===== verification/CellSvc.v ===== *)
(** [internal/grpc/cellsvc] ([server.go], [input.go], [aoi_replication.go]): the gRPC server of a
    cell. A handler is a function of the server state; each of its critical sections is a definition
    of its own, so that interleavings of two calls can be stated. Time is an argument. *)
From Stdlib Require Import ZArith Lia.
From S2P Require Import Prelude GoFloat GoString Partition Ecs Aoi Replic CellSim.
Local Open Scope string_scope.
Local Open Scope list_scope.

(** * Messages *)

Record PlayerHandoffState := mkHandoff {
  h_PlayerId : string; h_Position : option Vec3F; h_Velocity : option Vec3F;
  h_HpCur : f32; h_HpMax : f32; h_Tick : N; h_HandoffToken : string;
  h_SourceCellId : string; h_TargetCellId : string; h_SourceEntityId : N }.

Record JoinResponse := mkJoinResp { jr_Ok : bool; jr_CellId : string; jr_Message : string; jr_EntityId : N }.
Record LeaveResponse := mkLeaveResp { lr_Ok : bool; lr_Message : string }.
Record ApplyInputResponse := mkInputResp { ir_Ok : bool; ir_Message : string }.
Record PrepareResponse := mkPrepResp { pr_Ok : bool; pr_Message : string; pr_Payload : option PlayerHandoffState }.
Record AcceptResponse := mkAccResp { ar_Ok : bool; ar_Message : string; ar_EntityId : N }.
Record FinalizeResponse := mkFinResp { fr_Ok : bool; fr_Message : string }.
Record UpdateResponse := mkUpdResp { ur_Ok : bool; ur_Message : text; ur_NpcExportJson : string }.
Record ClientInput := mkInput { in_Mask : N; in_AimYawDeg : f32 }.

(** * The server *)

(** [createdAt] is [None] for the zero time; times are in nanoseconds. *)
Record preparedPlayerHandoff := mkPrepared {
  pp_playerID : string; pp_token : string; pp_entityID : Entity; pp_finalized : bool;
  pp_createdAt : option Z; pp_payload : option PlayerHandoffState }.

(** [onApplyInput] tells whether a hook is set; [hookCalls] are the calls made to it. *)
Record Server := mkServer {
  CellID : string;
  Sim : option Runtime;
  SBounds : option Bounds;
  SLevel : Z;
  players : gset N;
  playerByID : gmap string Entity;
  frozenByID : gset string;
  preparedByID : gmap string string;
  preparedByTk : gmap string preparedPlayerHandoff;
  acceptedByTk : gmap string Entity;
  onApplyInput : bool;
  hookCalls : list bool;
  splitDrain : bool }.

Definition set_Sim (r : option Runtime) (s : Server) : Server :=
  mkServer (CellID s) r (SBounds s) (SLevel s) (players s) (playerByID s) (frozenByID s)
    (preparedByID s) (preparedByTk s) (acceptedByTk s) (onApplyInput s) (hookCalls s) (splitDrain s).
Definition set_players (p : gset N) (b : gmap string Entity) (s : Server) : Server :=
  mkServer (CellID s) (Sim s) (SBounds s) (SLevel s) p b (frozenByID s)
    (preparedByID s) (preparedByTk s) (acceptedByTk s) (onApplyInput s) (hookCalls s) (splitDrain s).
Definition set_handoff (f : gset string) (pid : gmap string string)
    (ptk : gmap string preparedPlayerHandoff) (s : Server) : Server :=
  mkServer (CellID s) (Sim s) (SBounds s) (SLevel s) (players s) (playerByID s) f
    pid ptk (acceptedByTk s) (onApplyInput s) (hookCalls s) (splitDrain s).
Definition set_accepted (a : gmap string Entity) (s : Server) : Server :=
  mkServer (CellID s) (Sim s) (SBounds s) (SLevel s) (players s) (playerByID s) (frozenByID s)
    (preparedByID s) (preparedByTk s) a (onApplyInput s) (hookCalls s) (splitDrain s).
Definition set_hook (b : bool) (calls : list bool) (s : Server) : Server :=
  mkServer (CellID s) (Sim s) (SBounds s) (SLevel s) (players s) (playerByID s) (frozenByID s)
    (preparedByID s) (preparedByTk s) (acceptedByTk s) b calls (splitDrain s).
Definition set_splitDrain (b : bool) (s : Server) : Server :=
  mkServer (CellID s) (Sim s) (SBounds s) (SLevel s) (players s) (playerByID s) (frozenByID s)
    (preparedByID s) (preparedByTk s) (acceptedByTk s) (onApplyInput s) (hookCalls s) b.

(** A section under [Sim.Mu] that rewrites the world. *)
Definition on_world (f : World -> World) (s : Server) : Server :=
  set_Sim (r ← Sim s; Some (set_world (f (rt_World r)) r)) s.

Definition the_world (s : Server) : option World := rt_World <$> Sim s.

Definition handoffInFlightStaleTimeout : Z := 5 * 1000000000.

(** [now.Sub(createdAt) > timeout] for a time that may be zero. *)
Definition stale (now : Z) (createdAt : option Z) : bool :=
  match createdAt with
  | None => true
  | Some t => (handoffInFlightStaleTimeout <? now - t)%Z
  end.

(** One iteration of the pruning loop. *)
Definition prune_one (now : Z) (s : Server) (entry : string * string) : Server :=
  let '(playerID, token) := entry in
  let drop :=
    match preparedByTk s !! token with
    | None => true
    | Some pp => pp_finalized pp || stale now (pp_createdAt pp)
    end in
  if drop then
    set_handoff (frozenByID s ∖ {[playerID]}) (delete playerID (preparedByID s))
      (if String.eqb token "" then preparedByTk s else delete token (preparedByTk s)) s
  else s.

Definition pruneStalePreparedLocked (o : iter_order) (now : Z) (s : Server) : Server :=
  fold_left (prune_one now) (o _ (map_to_list (preparedByID s))) s.

Definition SetApplyInputHook (b : bool) (s : Server) : Server := set_hook b (hookCalls s) s.

Definition PlayerCount (s : Server) : Z := Z.of_nat (size (playerByID s)).

Definition isPlayer (s : Server) (e : Entity) : bool := bool_decide (e ∈ players s).
Definition IsPlayer := isPlayer.

Fixpoint find_entity (e : Entity) (l : list (string * Entity)) : string :=
  match l with
  | [] => ""
  | (pid, ent) :: l' => if (ent =? e)%N then pid else find_entity e l'
  end.

Definition playerIDByEntity (o : iter_order) (s : Server) (e : Entity) : string :=
  find_entity e (o _ (map_to_list (playerByID s))).

(** * Join *)

(** The outcome of a first critical section: the handler returns, or goes on. *)
Inductive decision (R A : Type) := Return (r : R) | Continue (a : A).
Arguments Return {R A} _.
Arguments Continue {R A} _.

Definition join_check (pid : string) (s : Server) : decision JoinResponse unit :=
  match playerByID s !! pid with
  | Some existing => Return (mkJoinResp true (CellID s) "already_joined" existing)
  | None =>
      if splitDrain s then Return (mkJoinResp false (CellID s) "split_drain: new joins disabled" 0)
      else Continue tt
  end.

Definition join_spawn_world (w : World) : Entity * World :=
  let '(e, w) := CreateEntity w in
  let w := SetPosition e (mkPosition f0 f0 f0) w in
  let w := SetVelocity e (mkVelocity f0 f0 f0) w in
  (e, SetHealth e (mkHealth (f64_of_Z 100) (f64_of_Z 100)) w).

Definition join_spawn (s : Server) : Entity * Server :=
  match Sim s with
  | Some r => let '(e, w) := join_spawn_world (rt_World r) in (e, set_Sim (Some (set_world w r)) s)
  | None => (0%N, s)
  end.

(** [playerByID[pid] = e; players[e] = {}] *)
Definition register_player (pid : string) (e : Entity) (s : Server) : Server :=
  set_players ({[e]} ∪ players s) (<[pid := e]> (playerByID s)) s.

Definition Join (player_id : string) (s : Server) : Server * JoinResponse :=
  let pid := trim_space player_id in
  if String.eqb pid "" then (s, mkJoinResp false (CellID s) "empty player_id" 0)
  else match Sim s with
  | None => (s, mkJoinResp true (CellID s) "no_sim" 0)
  | Some _ =>
      match join_check pid s with
      | Return r => (s, r)
      | Continue _ =>
          let '(e, s) := join_spawn s in
          (register_player pid e s, mkJoinResp true (CellID s) "spawned" e)
      end
  end.

(** * Leave *)

(** The entry of the player in [preparedByID] and the entry its token names. *)
Definition leave_tokens (pid : string) (s : Server) : gmap string string * gmap string preparedPlayerHandoff :=
  match preparedByID s !! pid with
  | Some tok => (delete pid (preparedByID s), delete tok (preparedByTk s))
  | None => (preparedByID s, preparedByTk s)
  end.

Definition leave_unregister (pid : string) (s : Server) : option Entity * Server :=
  let e := playerByID s !! pid in
  let s := match e with
           | Some e => set_players (players s ∖ {[e]}) (delete pid (playerByID s)) s
           | None => s
           end in
  let '(byID, byTk) := leave_tokens pid s in
  let byTk := filter (fun '(_, pp) => pp_playerID pp <> pid) byTk in
  (e, set_handoff (frozenByID s ∖ {[pid]}) byID byTk s).

Definition Leave (player_id : string) (s : Server) : Server * LeaveResponse :=
  let pid := trim_space player_id in
  if String.eqb pid "" then (s, mkLeaveResp false "empty player_id")
  else match Sim s with
  | None => (s, mkLeaveResp true "no_sim")
  | Some _ =>
      match leave_unregister pid s with
      | (None, s) => (s, mkLeaveResp true "noop")
      | (Some e, s) => (on_world (DestroyEntity e) s, mkLeaveResp true "left")
      end
  end.

(** * ApplyInput *)

Definition InputForward : N := 1.
Definition InputBack : N := 2.
Definition InputLeft : N := 4.
Definition InputRight : N := 8.

Definition math_Pi : f64 := f64_of 7074237752028440 (-51).

Definition has_bit (m bit : N) : bool := negb (N.land m bit =? 0)%N.

(** The raw velocity of a mask, before the rotation. *)
Definition mask_velocity (m : N) : f64 * f64 :=
  let speed := f64_of_Z 6 in
  let vz := if has_bit m InputForward then (f0 + speed)%f64 else f0 in
  let vz := if has_bit m InputBack then (vz - speed)%f64 else vz in
  let vx := if has_bit m InputLeft then (f0 - speed)%f64 else f0 in
  let vx := if has_bit m InputRight then (vx + speed)%f64 else vx in
  (vx, vz).

Section Trigonometry.
(** [math.Cos] and [math.Sin]. *)
Context (cos sin : f64 -> f64).

Definition velocityFromClientInput (inp : option ClientInput) : Velocity :=
  match inp with
  | None => mkVelocity f0 f0 f0
  | Some inp =>
      let '(vx, vz) := mask_velocity (in_Mask inp) in
      let yaw := (of_f32 (in_AimYawDeg inp) * math_Pi / f64_of_Z 180)%f64 in
      if negb (feq vx f0) || negb (feq vz f0) then
        let c := cos yaw in let s := sin yaw in
        mkVelocity (vx * c - vz * s)%f64 f0 (vx * s + vz * c)%f64
      else mkVelocity vx f0 vz
  end.
End Trigonometry.

Definition reportApplyInput (ok : bool) (s : Server) : Server :=
  if onApplyInput s then set_hook true (hookCalls s ++ [ok]) s else s.

Definition ApplyInput (cos sin : f64 -> f64) (player_id : string) (inp : option ClientInput) (s : Server)
    : Server * ApplyInputResponse :=
  let pid := trim_space player_id in
  if String.eqb pid "" then (reportApplyInput false s, mkInputResp false "empty player_id")
  else
    let inp := default (mkInput 0 f0) inp in
    match Sim s with
    | None => (reportApplyInput false s, mkInputResp false "no_sim")
    | Some r =>
        match playerByID s !! pid with
        | None => (reportApplyInput false s, mkInputResp false "unknown_player")
        | Some e =>
            if bool_decide (pid ∈ frozenByID s)
            then (reportApplyInput false s, mkInputResp false "player_handoff_frozen")
            else
              let vel := velocityFromClientInput cos sin (Some inp) in
              match PositionOf (rt_World r) e with
              | None => (reportApplyInput false s, mkInputResp false "entity_gone")
              | Some _ => (reportApplyInput true (on_world (SetVelocity e vel) s), mkInputResp true "ok")
              end
        end
    end.

(** * The handoff of a player *)

(** The first section of [PreparePlayerHandoff]: [now1] prunes, [now2] ages the handoff in flight. *)
Definition prepare_begin (o : iter_order) (now1 now2 : Z) (playerID token : string) (s : Server)
    : Server * decision PrepareResponse Entity :=
  let s := pruneStalePreparedLocked o now1 s in
  match preparedByTk s !! token with
  | Some (mkPrepared _ _ _ _ _ (Some payload)) => (s, Return (mkPrepResp true "already_prepared" (Some payload)))
  | _ =>
      let in_flight :=
        match preparedByID s !! playerID with
        | Some inFlightToken =>
            if String.eqb inFlightToken token then Some s
            else
              let expired := match preparedByTk s !! inFlightToken with
                             | None => true
                             | Some inFlight => stale now2 (pp_createdAt inFlight)
                             end in
              if expired
              then Some (set_handoff (frozenByID s ∖ {[playerID]}) (delete playerID (preparedByID s))
                           (delete inFlightToken (preparedByTk s)) s)
              else None
        | None => Some s
        end in
      match in_flight with
      | None => (s, Return (mkPrepResp false "handoff already in progress for player" None))
      | Some s =>
          match playerByID s !! playerID with
          | None => (s, Return (mkPrepResp false "unknown_player" None))
          | Some entityID =>
              (set_handoff ({[playerID]} ∪ frozenByID s) (<[playerID := token]> (preparedByID s)) (preparedByTk s) s,
               Continue entityID)
          end
      end
  end.

(** The section under [Sim.Mu]: reads the entity and stops it. *)
Record Captured := mkCaptured { cap_pos : option Position; cap_vel : Velocity; cap_hp : option Health; cap_tick : N }.

Definition prepare_capture (entityID : Entity) (s : Server) : Server * Captured :=
  match Sim s with
  | None => (s, mkCaptured None (mkVelocity f0 f0 f0) None 0)
  | Some r =>
      let w := rt_World r in
      let pos := PositionOf w entityID in
      let vel := default (mkVelocity f0 f0 f0) (VelocityOf w entityID) in
      let s' := match pos with
                | Some _ => on_world (SetVelocity entityID (mkVelocity f0 f0 f0)) s
                | None => s
                end in
      (s', mkCaptured pos vel (HealthOf w entityID) (TickCount (Stats (Loop r))))
  end.

Definition PreparePlayerHandoff (o : iter_order) (now1 now2 now3 : Z) (player_id target_cell_id handoff_token : string)
    (s : Server) : Server * PrepareResponse :=
  let playerID := trim_space player_id in
  let targetCellID := trim_space target_cell_id in
  let token := trim_space handoff_token in
  if String.eqb playerID "" || String.eqb targetCellID "" || String.eqb token ""
  then (s, mkPrepResp false "player_id, target_cell_id, handoff_token required" None)
  else match Sim s with
  | None => (s, mkPrepResp false "no_sim" None)
  | Some _ =>
      match prepare_begin o now1 now2 playerID token s with
      | (s, Return r) => (s, r)
      | (s, Continue entityID) =>
          let '(s, cap) := prepare_capture entityID s in
          match cap_pos cap with
          | None =>
              (set_handoff (frozenByID s ∖ {[playerID]}) (delete playerID (preparedByID s)) (preparedByTk s) s,
               mkPrepResp false "entity_gone" None)
          | Some pos =>
              let hp := match cap_hp cap with
                        | Some h => if fle (MaxHP h) f0 then mkHealth (f64_of_Z 100) (f64_of_Z 100) else h
                        | None => mkHealth (f64_of_Z 100) (f64_of_Z 100)
                        end in
              let vel := cap_vel cap in
              let payload :=
                mkHandoff playerID (Some (vec3f (X pos) (Y pos) (Z_ pos))) (Some (vec3f (VX vel) (VY vel) (VZ vel)))
                  (to_f32 (HP hp)) (to_f32 (MaxHP hp)) (cap_tick cap) token (CellID s) targetCellID entityID in
              (set_handoff (frozenByID s) (preparedByID s)
                 (<[token := mkPrepared playerID token entityID false (Some now3) (Some payload)]> (preparedByTk s)) s,
               mkPrepResp true "prepared" (Some payload))
          end
      end
  end.

(** The first section of [AcceptPlayerHandoff] and the creation of the entity when the player is not
    registered. *)
Definition accept_begin (playerID token : string) (s : Server) : decision AcceptResponse (option Entity) :=
  match acceptedByTk s !! token with
  | Some e => Return (mkAccResp true "already_accepted" e)
  | None => Continue (playerByID s !! playerID)
  end.

Definition accept_create (existing : option Entity) (s : Server) : Entity * Server :=
  match existing with
  | Some e => (e, s)
  | None =>
      match Sim s with
      | Some r => let '(e, w) := CreateEntity (rt_World r) in (e, set_Sim (Some (set_world w r)) s)
      | None => (0%N, s)
      end
  end.

(** The state the target gives the entity. *)
Definition handoff_position (p : PlayerHandoffState) : Position :=
  mkPosition (of_f32 (GetX (h_Position p))) (of_f32 (GetY (h_Position p))) (of_f32 (GetZ (h_Position p))).
Definition handoff_velocity (p : PlayerHandoffState) : Velocity :=
  mkVelocity (of_f32 (GetX (h_Velocity p))) (of_f32 (GetY (h_Velocity p))) (of_f32 (GetZ (h_Velocity p))).
Definition handoff_health (p : PlayerHandoffState) : Health :=
  let maxHP := of_f32 (h_HpMax p) in
  let maxHP := if fle maxHP f0 then f64_of_Z 100 else maxHP in
  let curHP := of_f32 (h_HpCur p) in
  mkHealth (if fle curHP f0 then maxHP else curHP) maxHP.

Definition accept_world (e : Entity) (p : PlayerHandoffState) (w : World) : World :=
  SetHealth e (handoff_health p) (SetVelocity e (handoff_velocity p) (SetPosition e (handoff_position p) w)).

Definition accept_register (playerID token : string) (e : Entity) (s : Server) : Server :=
  let s := register_player playerID e s in set_accepted (<[token := e]> (acceptedByTk s)) s.

Definition AcceptPlayerHandoff (payload : option PlayerHandoffState) (s : Server) : Server * AcceptResponse :=
  match payload with
  | None => (s, mkAccResp false "empty payload" 0)
  | Some p =>
      let playerID := trim_space (h_PlayerId p) in
      let token := trim_space (h_HandoffToken p) in
      if String.eqb playerID "" || String.eqb token ""
      then (s, mkAccResp false "payload.player_id and payload.handoff_token required" 0)
      else match Sim s with
      | None => (s, mkAccResp false "no_sim" 0)
      | Some _ =>
          match accept_begin playerID token s with
          | Return r => (s, r)
          | Continue existing =>
              let '(e, s) := accept_create existing s in
              let s := on_world (accept_world e p) s in
              (accept_register playerID token e s, mkAccResp true "accepted" e)
          end
      end
  end.

(** The section of [FinalizePlayerHandoff]: the entity to destroy. *)
Definition finalize_section (playerID token : string) (s : Server) : Server * decision FinalizeResponse (option Entity) :=
  match preparedByTk s !! token with
  | None =>
      let s := if bool_decide (preparedByID s !! playerID = Some token)
               then set_handoff (frozenByID s ∖ {[playerID]}) (delete playerID (preparedByID s)) (preparedByTk s) s
               else s in
      (s, Return (mkFinResp false "unknown handoff_token"))
  | Some prepared =>
      if negb (String.eqb (pp_playerID prepared) playerID)
      then (s, Return (mkFinResp false "handoff_token does not match player_id"))
      else if pp_finalized prepared then (s, Return (mkFinResp true "already_finalized"))
      else
        let s := set_handoff (frozenByID s ∖ {[playerID]}) (delete playerID (preparedByID s))
                   (<[token := mkPrepared (pp_playerID prepared) (pp_token prepared) (pp_entityID prepared) true
                                 (pp_createdAt prepared) (pp_payload prepared)]> (preparedByTk s)) s in
        match playerByID s !! playerID with
        | Some cur => (set_players (players s ∖ {[cur]}) (delete playerID (playerByID s)) s, Continue (Some cur))
        | None => (s, Continue (if (pp_entityID prepared =? 0)%N then None else Some (pp_entityID prepared)))
        end
  end.

Definition FinalizePlayerHandoff (player_id handoff_token : string) (s : Server) : Server * FinalizeResponse :=
  let playerID := trim_space player_id in
  let token := trim_space handoff_token in
  if String.eqb playerID "" || String.eqb token "" then (s, mkFinResp false "player_id and handoff_token required")
  else match Sim s with
  | None => (s, mkFinResp false "no_sim")
  | Some _ =>
      match finalize_section playerID token s with
      | (s, Return r) => (s, r)
      | (s, Continue (Some e)) => (on_world (DestroyEntity e) s, mkFinResp true "finalized")
      | (s, Continue None) => (s, mkFinResp true "finalized")
      end
  end.

(** * Update, split planning and the other unary calls *)

Inductive UpdatePayload :=
  | UNil
  | UNoop
  | USetTargetTps (tps : Z)
  | USplitPrepare (reason : option string)
  | USetSplitDrain (enabled : option bool)
  | UExportNpcPersist (reason : option string)
  | UImportNpcPersist (req : option (string * string))
  | UMergePrepare (req : option (list (option CellSpec) * string))
  | UOther.

(** [msg += " reason=" + reason] *)
Definition add_reason (msg : text) (reason : string) : text :=
  if String.eqb reason "" then msg else Fmt "%s reason=%s" [ATxt msg; AStr reason].

Definition upd (ok : bool) (msg : text) : UpdateResponse := mkUpdResp ok msg "".

Definition set_tps (tps : f64) (r : Runtime) : Runtime :=
  let g := Loop r in
  mkRuntime (mkGameLoop tps (LWorld g) (Systems g) (Stats g) (paused g)) (npcStarted r).

Section Json.
(** [protojson.Marshal] and [protojson.Unmarshal] on [CellPersist]. *)
Context (marshal : CellPersist -> result string) (unmarshal : string -> result CellPersist).

Definition Update (o : iter_order) (req : option UpdatePayload) (s : Server) : Server * UpdateResponse :=
  match req with
  | None => (s, upd false (lit "nil request"))
  | Some UNil | Some UNoop | Some UOther => (s, upd true (lit "noop"))
  | Some (USetTargetTps tps) =>
      if (tps <? 1)%Z || (120 <? tps)%Z then (s, upd false (lit "target_tps out of range [1,120]"))
      else match Sim s with
      | None => (s, upd false (lit "no_sim"))
      | Some r => (set_Sim (Some (set_tps (f64_of_Z tps) r)) s, upd true (lit "ok"))
      end
  | Some (USplitPrepare req) =>
      match SBounds s with
      | None => (s, upd false (lit "no bounds on cell server"))
      | Some _ =>
          match ChildSpecsForSplit (CellID s) (SBounds s) (SLevel s) with
          | Err e => (s, upd false (Fmt "split_prepare invalid parent id: %s" [ATxt (err_text e)]))
          | Ok children =>
              let reason := match req with Some r => trim_space r | None => "" end in
              let entities := match Sim s with Some r => EntityCount (rt_World r) | None => 0%Z end in
              let msg := Fmt "split_prepare ok children=%d players=%d entities=%d"
                [AInt (Z.of_nat (length children)); AInt (PlayerCount s); AInt entities] in
              (s, upd true (Fmt "%s child_ids=%s" [ATxt (add_reason msg reason); AStr (join "," (ch_Id <$> children))]))
          end
      end
  | Some (USetSplitDrain req) =>
      let en := default false req in
      (set_splitDrain en s, upd true (lit (if en then "split_drain enabled" else "split_drain disabled")))
  | Some (UExportNpcPersist req) =>
      match Sim s with
      | None => (s, upd false (lit "no_sim"))
      | Some r =>
          let reason := match req with Some r => trim_space r | None => "" end in
          let persist := Encode o (Some r) (Some (isPlayer s)) in
          match marshal persist with
          | Err e => (s, upd false (Fmt "marshal: %s" [ATxt (err_text e)]))
          | Ok raw =>
              let msg := Fmt "export_npc_persist entities=%d" [AInt (Z.of_nat (length (p_Entities persist)))] in
              (s, mkUpdResp true (add_reason msg reason) raw)
          end
      end
  | Some (UImportNpcPersist req) =>
      match Sim s with
      | None => (s, upd false (lit "no_sim"))
      | Some r =>
          if (0 <? PlayerCount s)%Z then (s, upd false (lit "import_npc_persist blocked: players connected"))
          else
            let raw := match req with Some (json, _) => trim_space json | None => "" end in
            if String.eqb raw "" then (s, upd false (lit "empty npc_import_json"))
            else match unmarshal raw with
            | Err e => (s, upd false (Fmt "json: %s" [ATxt (err_text e)]))
            | Ok persist =>
                match Decode o true (Some r) (Some persist) with
                | Err e => (s, upd false (Fmt "decode: %s" [ATxt (err_text e)]))
                | Ok r' =>
                    let reason := match req with Some (_, r) => trim_space r | None => "" end in
                    let msg := Fmt "import_npc_persist entities=%d" [AInt (Z.of_nat (length (p_Entities persist)))] in
                    (set_Sim (Some r') s, upd true (add_reason msg reason))
                end
            end
      end
  | Some (UMergePrepare req) =>
      match SBounds s with
      | None => (s, upd false (lit "no bounds on cell server"))
      | Some _ =>
          let '(children, reason) := match req with Some (cs, r) => (cs, trim_space r) | None => ([], "") end in
          match ValidateMergeChildren (SBounds s) (SLevel s) children with
          | Err e => (s, upd false (Fmt "merge_prepare invalid: %s" [ATxt (err_text e)]))
          | Ok _ =>
              (s, upd true (add_reason (Fmt "merge_prepare ok children=%d" [AInt (Z.of_nat (length children))]) reason))
          end
      end
  end.
End Json.

Definition PlanSplit (s : Server) : result (list PlanSplitResponseChild) :=
  match SBounds s with
  | None => Err (statusf FailedPrecondition "no bounds on cell server" [])
  | Some _ =>
      match ChildSpecsForSplit (CellID s) (SBounds s) (SLevel s) with
      | Err e => Err (statusf FailedPrecondition "invalid parent id: %v" [ATxt (err_text e)])
      | Ok children => Ok children
      end
  end.

Record MigrationCandidate := mkCandidate {
  mc_EntityId : N; mc_Position : Vec3F; mc_IsPlayer : bool; mc_PlayerId : string }.

(** [op] orders the reads of the player map. *)
Definition ListMigrationCandidates (o op : iter_order) (s : Server) : list MigrationCandidate :=
  match Sim s with
  | None => []
  | Some r =>
      omap (fun e =>
        match PositionOf (rt_World r) e with
        | None => None
        | Some p => Some (mkCandidate e (vec3f (X p) (Y p) (Z_ p)) (isPlayer s e) (playerIDByEntity op s e))
        end) (live o (rt_World r))
  end.

Record PingResponse := mkPing {
  pi_CellId : string; pi_ServerTimeUnixMs : Z; pi_PlayerCount : Z; pi_EntityCount : Z;
  pi_LastTickDur : Z; pi_ConfiguredTps : f64 }.

(** [LastTickDurationSeconds] is kept in nanoseconds. *)
Definition Ping (nowMs : Z) (s : Server) : PingResponse :=
  match Sim s with
  | None => mkPing (CellID s) nowMs (int32 (PlayerCount s)) 0 0 f0
  | Some r => mkPing (CellID s) nowMs (int32 (PlayerCount s)) (int32 (EntityCount (rt_World r)))
      (LastTickDur (Stats (Loop r))) (TPS (Loop r))
  end.

(** * Replication: [aoi_replication.go] and [SubscribeDeltas] *)

Definition replicationAOIRadius : f64 := f64_of_Z 50.
Definition adaptiveReplicationNearDistance : f64 := f64_of_Z 15.
Definition replicationIntervalNear : Z := 100 * 1000000.
Definition replicationIntervalDefault : Z := 200 * 1000000.
Definition replicationIntervalFar : Z := 300 * 1000000.
(** [math.MaxFloat64] *)
Definition MaxFloat64 : f64 := f64_of 9007199254740991 971.

Definition visibleSetFromSlice (list : list Entity) : gset Entity := list_to_set list.

Definition visibleEntitiesAOI (o : iter_order) (w : World) (grid : SpatialGrid) (viewer : Entity) (radius : f64)
    : list Entity :=
  match PositionOf w viewer with
  | None => []
  | Some p =>
      let list := QueryRadius w (X p) (Z_ p) radius grid in
      o _ (elements ({[viewer]} ∪ visibleSetFromSlice list))
  end.

Section Hypot.
(** [math.Hypot]. *)
Context (hypot : f64 -> f64 -> f64).

Definition min_dist_step (w : World) (viewer : Entity) (vp : Position) (minDist : f64) (e : Entity) : f64 :=
  if (e =? viewer)%N then minDist
  else match PositionOf w e with
       | None => minDist
       | Some p =>
           let d := hypot (X p - X vp)%f64 (Z_ p - Z_ vp)%f64 in
           if flt d minDist then d else minDist
       end.

Definition pickAdaptiveReplicationInterval (w : World) (viewer : Entity) (visible : list Entity) : Z :=
  match PositionOf w viewer with
  | None => replicationIntervalDefault
  | Some vp =>
      let minDist := fold_left (min_dist_step w viewer vp) visible MaxFloat64 in
      if feq minDist MaxFloat64 then replicationIntervalFar
      else if fle minDist adaptiveReplicationNearDistance then replicationIntervalNear
      else replicationIntervalDefault
  end.

(** The local variables of one subscription. *)
Record Subscription := mkSub {
  viewer : Entity; useAOI : bool; prevVisible : option (gset Entity);
  lastSendTick : N; first : bool; interval : Z }.

Definition Subscribe (viewer_entity_id : N) : Subscription :=
  mkSub viewer_entity_id (negb (viewer_entity_id =? 0)%N) None 0 true replicationIntervalDefault.

Inductive WorldChunk := ChunkSnapshot (s : Snapshot) | ChunkDelta (d : Delta).

(** The changed entities of an AOI delta: the dirty ones in view, then those that came into view. *)
Definition aoi_changed (ov : iter_order) (dirty : list Entity) (cur : gset Entity) (prev : option (gset Entity))
    (viewer : Entity) : list Entity :=
  let changed := filter (fun e => e ∈ cur \/ e = viewer) dirty in
  match prev with
  | None => changed
  | Some prev => changed ++ filter (fun e => e ∉ prev /\ e ∉ changed) (ov _ (elements cur))
  end.

(** One iteration of the loop: the chunk built, [None] when nothing is sent. [od] orders the dirty
    set and the world, [oq] the visible set, [ov] the set differences. *)
Definition subscribe_step (od oq ov : iter_order) (sub : Subscription) (s : Server)
    : Server * Subscription * option WorldChunk :=
  match Sim s with
  | None => (s, sub, None)
  | Some r =>
      let w := rt_World r in
      let grid := AOIGrid (LWorld (Loop r)) in
      let tick := TickCount (Stats (Loop r)) in
      let aoi := useAOI sub && match PositionOf w (viewer sub) with Some _ => true | None => false end in
      let ip := Some (isPlayer s) in
      if first sub then
        if aoi then
          let vis := visibleEntitiesAOI oq w grid (viewer sub) replicationAOIRadius in
          (s, mkSub (viewer sub) aoi (Some (visibleSetFromSlice vis)) tick false
                (pickAdaptiveReplicationInterval w (viewer sub) vis),
           Some (ChunkSnapshot (BuildSnapshotEntities w tick vis ip)))
        else
          (s, mkSub (viewer sub) aoi (prevVisible sub) tick false replicationIntervalDefault,
           Some (ChunkSnapshot (BuildSnapshot od w tick ip)))
      else
        let '(dirty, w) := TakeDirtyEntities od w in
        let s := set_Sim (Some (set_world w r)) s in
        let '(prev, intv, delta) :=
          if aoi then
            let curSlice := visibleEntitiesAOI oq w grid (viewer sub) replicationAOIRadius in
            let cur := visibleSetFromSlice curSlice in
            let changed := aoi_changed ov dirty cur (prevVisible sub) (viewer sub) in
            let d := BuildDelta w tick (lastSendTick sub) changed ip in
            let removed := match prevVisible sub with
                           | Some prev => filter (fun e => e ∉ cur) (ov _ (elements prev))
                           | None => []
                           end in
            (Some cur, pickAdaptiveReplicationInterval w (viewer sub) curSlice,
             mkDelta (d_Tick d) (d_FromTick d) (d_Changed d) removed)
          else
            (prevVisible sub, replicationIntervalDefault, BuildDelta w tick (lastSendTick sub) dirty ip) in
        let sub := mkSub (viewer sub) aoi prev tick false intv in
        if Nat.ltb 0 (length (d_Changed delta)) || Nat.ltb 0 (length (d_RemovedEntityIds delta))
        then (s, sub, Some (ChunkDelta delta)) else (s, sub, None)
  end.
End Hypot.

