(* ===== verification/CellInv.v ===== *)
(** The invariant of the cell server of [CellSvc.v]: registry, handoff state and world agree, and
    every handler, tick and subscription preserves it. *)
From Stdlib Require Import ZArith Lia.
From S2P Require Import Prelude GoFloat GoString Partition Ecs Aoi Replic CellSim CellSvc.
Local Open Scope string_scope.
Local Open Scope list_scope.

(** * The invariant of a cell server *)

(** [players] is the image of [playerByID], which is injective. *)
Definition registry_ok (p : gset N) (b : gmap string Entity) : Prop :=
  (forall e, e ∈ p <-> exists pid, b !! pid = Some e) /\
  (forall pid pid' e, b !! pid = Some e -> b !! pid' = Some e -> pid = pid').

(** A player is frozen exactly while a handoff of it is in flight: its token names an entry of its
    own that is not finalized, and every entry that is not finalized is in flight. A player in
    handoff is registered. *)
Record handoff_ok (f : gset string) (byid : gmap string string)
    (bytk : gmap string preparedPlayerHandoff) (b : gmap string Entity) : Prop := {
  ho_frozen : f = dom byid;
  ho_flight pid tok : byid !! pid = Some tok ->
    is_Some (b !! pid) /\ exists pp, bytk !! tok = Some pp /\ pp_playerID pp = pid /\ pp_finalized pp = false;
  ho_entry tok pp : bytk !! tok = Some pp ->
    tok <> "" /\ pp_token pp = tok /\ is_Some (pp_payload pp) /\
    (pp_finalized pp = false -> byid !! pp_playerID pp = Some tok) }.

(** The world is well-formed and every registered player is alive and has a position. *)
Definition holds_players (b : gmap string Entity) (w : World) : Prop :=
  forall pid e, b !! pid = Some e -> e ∈ alive w /\ is_Some (PositionOf w e).

Definition world_ok (w : World) : Prop := world_wf w /\ (nextID w < 2 ^ 64)%N.

Record server_wf (s : Server) : Prop := {
  swf_registry : registry_ok (players s) (playerByID s);
  swf_handoff : handoff_ok (frozenByID s) (preparedByID s) (preparedByTk s) (playerByID s);
  swf_sim : forall r, Sim s = Some r -> world_ok (rt_World r) /\ holds_players (playerByID s) (rt_World r) }.

Lemma registry_insert p b pid e :
  registry_ok p b -> (forall pid', b !! pid' = Some e -> pid' = pid) -> (b !! pid = None \/ b !! pid = Some e) ->
  registry_ok ({[e]} ∪ p) (<[pid := e]> b).
Proof.
  intros [Hp Hinj] He Hb. split.
  - intros x. rewrite elem_of_union, elem_of_singleton, Hp. split.
    + intros [->|[pid' Hx]]; [exists pid; by rewrite lookup_insert_eq|].
      exists pid'. rewrite lookup_insert_Some. destruct (decide (pid = pid')) as [->|]; [|by right].
      left. destruct Hb as [Hb|Hb]; [congruence|]. rewrite Hb in Hx. by injection Hx.
    + intros (pid' & [[_ ->]|[_ Hx]]%lookup_insert_Some); [by left|right; eauto].
  - intros p1 p2 x [[<- <-]|[? H1]]%lookup_insert_Some [[<- Hx]|[? H2]]%lookup_insert_Some; try done.
    + by apply He in H2.
    + subst x. by apply He in H1.
    + by eapply Hinj.
Qed.

Lemma registry_delete p b pid e :
  registry_ok p b -> b !! pid = Some e -> registry_ok (p ∖ {[e]}) (delete pid b).
Proof.
  intros [Hp Hinj] Hb. split.
  - intros x. rewrite elem_of_difference, elem_of_singleton, Hp. split.
    + intros [[pid' Hx] Hne]. exists pid'. apply lookup_delete_Some. split; [|done]. intros <-. congruence.
    + intros (pid' & [Hne Hx]%lookup_delete_Some). split; [eauto|]. intros ->. by destruct (Hinj pid pid' e).
  - intros p1 p2 x [_ H1]%lookup_delete_Some [_ H2]%lookup_delete_Some. by eapply Hinj.
Qed.

Section Handoff.
#[local] Set Default Proof Using "Type*".
Context (f : gset string) (byid : gmap string string) (bytk : gmap string preparedPlayerHandoff)
  (b : gmap string Entity) (H : handoff_ok f byid bytk b).

(** Dropping a handoff in flight. *)
Lemma handoff_drop pid tok :
  byid !! pid = Some tok -> handoff_ok (f ∖ {[pid]}) (delete pid byid) (delete tok bytk) b.
Proof.
  intros Hp. destruct H as [Hf Hfl Hen]. split.
  - rewrite dom_delete_L. by rewrite Hf.
  - intros pid' tok' [Hne Hp']%lookup_delete_Some. destruct (Hfl _ _ Hp') as (Hr & pp & Hpp & Hid & Hfin).
    split; [done|]. exists pp. split; [|done]. apply lookup_delete_Some. split; [|done]. intros ->.
    destruct (Hfl _ _ Hp) as (_ & pp' & Hpp' & Hid' & _). congruence.
  - intros tok' pp [Hne Hpp]%lookup_delete_Some. destruct (Hen _ _ Hpp) as (? & ? & ? & Hact).
    repeat (split; [done|]). intros Hfin. specialize (Hact Hfin). apply lookup_delete_Some. split; [|done].
    intros ->. congruence.
Qed.

(** Preparing a handoff with a token that is not in use. *)
Lemma handoff_prepare pid pp :
  byid !! pid = None -> bytk !! pp_token pp = None -> is_Some (b !! pid) -> pp_token pp <> "" ->
  pp_playerID pp = pid -> pp_finalized pp = false -> is_Some (pp_payload pp) ->
  handoff_ok ({[pid]} ∪ f) (<[pid := pp_token pp]> byid) (<[pp_token pp := pp]> bytk) b.
Proof.
  intros Hid Htk Hb Hne <- Hfin Hpay. destruct H as [Hf Hfl Hen]. split.
  - rewrite dom_insert_L. by rewrite Hf.
  - intros pid' tok' [[<- <-]|[Hn Hp]]%lookup_insert_Some.
    + split; [done|]. exists pp. by rewrite lookup_insert_eq.
    + destruct (Hfl _ _ Hp) as (Hr & pp' & Hpp & Hid' & Hfin'). split; [done|]. exists pp'.
      rewrite lookup_insert_ne; [done|]. intros Heq. congruence.
  - intros tok' pp' [[<- <-]|[Hn Hp]]%lookup_insert_Some.
    + repeat (split; [done|]). intros _. by rewrite lookup_insert_eq.
    + destruct (Hen _ _ Hp) as (? & ? & ? & Hact). repeat (split; [done|]). intros Hfin'.
      rewrite lookup_insert_ne; [by apply Hact|]. intros Heq. specialize (Hact Hfin'). congruence.
Qed.

(** Marking the entry of a handoff in flight as finalized and unregistering the player. *)
Lemma handoff_finalize tok pp pp' :
  bytk !! tok = Some pp -> pp_finalized pp = false -> pp_finalized pp' = true ->
  pp_token pp' = pp_token pp -> pp_payload pp' = pp_payload pp ->
  handoff_ok (f ∖ {[pp_playerID pp]}) (delete (pp_playerID pp) byid) (<[tok := pp']> bytk) (delete (pp_playerID pp) b).
Proof.
  intros Hpp Hfin Hfin' Htok' Hpay'. destruct H as [Hf Hfl Hen].
  destruct (Hen _ _ Hpp) as (Hne & Htok & Hpay & Hact). specialize (Hact Hfin). split.
  - rewrite dom_delete_L. by rewrite Hf.
  - intros pid tok' [Hnp Hp]%lookup_delete_Some. destruct (Hfl _ _ Hp) as (Hr & q & Hq & Hid & Hqf).
    rewrite lookup_delete_ne by done. split; [done|]. exists q. rewrite lookup_insert_ne; [done|]. intros <-.
    congruence.
  - intros tok' q [[<- <-]|[Hn Hq]]%lookup_insert_Some.
    + rewrite Htok', Hpay', Hfin'. done.
    + destruct (Hen _ _ Hq) as (? & ? & ? & Hqa). repeat (split; [done|]). intros Hqf.
      specialize (Hqa Hqf). rewrite lookup_delete_ne; [done|]. intros Heq. congruence.
Qed.

(** Forgetting the entries of a player that has no handoff in flight, and the player. *)
Lemma handoff_forget pid :
  byid !! pid = None ->
  handoff_ok (f ∖ {[pid]}) byid (filter (fun '(_, pp) => pp_playerID pp <> pid) bytk) (delete pid b).
Proof.
  intros Hp. destruct H as [Hf Hfl Hen]. split.
  - rewrite Hf. apply set_eq. intros x. rewrite elem_of_difference, elem_of_singleton.
    split; [by intros [? _]|]. intros Hx. split; [done|]. intros ->. by apply elem_of_dom in Hx as [? Hx]; rewrite Hp in Hx.
  - intros pid' tok Hp'. assert (pid' <> pid) by congruence. rewrite lookup_delete_ne by done.
    destruct (Hfl _ _ Hp') as (Hr & pp & Hpp & Hid & Hfin). split; [done|]. exists pp. split; [|done].
    apply map_lookup_filter_Some. split; [done|]. congruence.
  - intros tok pp [Hpp _]%map_lookup_filter_Some. by apply Hen.
Qed.

Lemma handoff_more b' : (forall pid, is_Some (b !! pid) -> is_Some (b' !! pid)) -> handoff_ok f byid bytk b'.
Proof.
  intros Hb. destruct H as [Hf Hfl Hen]. split; [done| |done].
  intros pid tok Hp. destruct (Hfl _ _ Hp) as (? & ?). auto.
Qed.
End Handoff.

(** ** Worlds under a handler *)

Lemma world_ok_step w w' : world_step w w' -> world_ok w -> world_ok w'.
Proof. intros Hs [Hw Hn]. by eapply world_step_wf. Qed.

Lemma world_ok_steps w w' : rtc world_step w w' -> world_ok w -> world_ok w'.
Proof. induction 1; eauto using world_ok_step. Qed.

(** A world that keeps the entities that have a position. *)
Definition keeps (w w' : World) : Prop :=
  forall e, e ∈ alive w -> is_Some (PositionOf w e) -> e ∈ alive w' /\ is_Some (PositionOf w' e).

Lemma holds_keeps b w w' : keeps w w' -> holds_players b w -> holds_players b w'.
Proof. intros Hk Hb pid e Hp. destruct (Hb pid e Hp). by apply Hk. Qed.

Lemma keeps_SetPosition e p w : keeps w (SetPosition e p w).
Proof. intros x Ha Hp. split; [done|]. by apply PositionOf_SetPosition_is_Some. Qed.

Lemma keeps_refl w w' : alive w' = alive w -> positions w' = positions w -> keeps w w'.
Proof. intros Ha Hp e. unfold PositionOf. by rewrite Ha, Hp. Qed.

#[export] Instance keeps_preorder : PreOrder keeps.
Proof.
  split; [by intros w e|]. intros w1 w2 w3 H1 H2 e Ha Hp. destruct (H1 e Ha Hp). by apply H2.
Qed.

Lemma create_fresh w : world_ok w -> (nextID w < 2 ^ 64 - 1)%N ->
  CreateEntity w = (nextID w + 1, with_alive ({[nextID w + 1]} ∪ alive w) (with_nextID (nextID w + 1) w))%N /\
  (nextID w + 1)%N ∉ alive w.
Proof.
  intros [Hw _] Hn. unfold CreateEntity. rewrite uint64_id by lia. split; [done|].
  intros Hin. assert (nextID w + 1 <= nextID w)%N; [|lia]. apply Hw, in_use_elem. by left.
Qed.

(** What [Join] and [AcceptPlayerHandoff] do to the world: a new entity, given components. *)
Lemma create_components w e w1 (f : World -> World) :
  world_ok w -> (nextID w < 2 ^ 64 - 1)%N -> CreateEntity w = (e, w1) ->
  (forall w, nextID w = e -> world_ok w -> world_ok (f w)) -> (forall w, keeps w (f w)) ->
  (forall w, e ∈ alive w -> e ∈ alive (f w) /\ is_Some (PositionOf (f w) e)) ->
  world_ok (f w1) /\ keeps w (f w1) /\ e ∉ alive w /\ e ∈ alive (f w1) /\ is_Some (PositionOf (f w1) e).
Proof.
  intros Hw Hn Hc Hok Hk Hpos. pose proof (ws_create w Hn) as Hs. rewrite Hc in Hs. cbn in Hs.
  destruct (create_fresh w Hw Hn) as [Hc' Hfresh]. rewrite Hc in Hc'. injection Hc' as -> ->.
  split; [apply Hok; [done|by eapply world_ok_step]|]. split; [|split; [done|]].
  - etrans; [|apply Hk]. intros x Hx Hp. split; [cbn; set_solver|done].
  - apply Hpos. cbn. set_solver.
Qed.

Lemma world_ok_SetPosition e p w : (e <= nextID w)%N -> world_ok w -> world_ok (SetPosition e p w).
Proof. intros. eapply world_ok_step; [by constructor|done]. Qed.
Lemma world_ok_SetVelocity e v w : (e <= nextID w)%N -> world_ok w -> world_ok (SetVelocity e v w).
Proof. intros. eapply world_ok_step; [by constructor|done]. Qed.
Lemma world_ok_SetHealth e h w : (e <= nextID w)%N -> world_ok w -> world_ok (SetHealth e h w).
Proof. intros. eapply world_ok_step; [by constructor|done]. Qed.

Lemma in_use_le w e : world_ok w -> e ∈ alive w -> (e <= nextID w)%N.
Proof. intros [Hw _] He. apply Hw, in_use_elem. by left. Qed.

(** Setting position, velocity and health of an entity, as accepting a handoff does. *)
Definition set_components (e : Entity) (p : Position) (v : Velocity) (h : Health) (w : World) : World :=
  SetHealth e h (SetVelocity e v (SetPosition e p w)).

Lemma set_components_ok e p v h w :
  (e <= nextID w)%N -> world_ok w -> world_ok (set_components e p v h w).
Proof. intros. by apply world_ok_SetHealth, world_ok_SetVelocity, world_ok_SetPosition. Qed.

Lemma set_components_keeps e p v h w : keeps w (set_components e p v h w).
Proof. etrans; [apply (keeps_SetPosition e p)|by apply keeps_refl]. Qed.

Lemma set_components_position e p v h w :
  e ∈ alive w -> e ∈ alive (set_components e p v h w) /\ is_Some (PositionOf (set_components e p v h w) e).
Proof. intros. split; [done|]. unfold PositionOf. cbn. rewrite lookup_insert_eq. eauto. Qed.

Lemma holds_insert b w pid e :
  holds_players b w -> e ∈ alive w -> is_Some (PositionOf w e) -> holds_players (<[pid := e]> b) w.
Proof. intros Hb Ha Hp pid' e' [[<- <-]|[_ H]]%lookup_insert_Some; [done|by eapply Hb]. Qed.

Lemma holds_delete b w pid : holds_players b w -> holds_players (delete pid b) w.
Proof. intros Hb pid' e' [_ H]%lookup_delete_Some. by eapply Hb. Qed.

(** Destroying an entity no registered player has. *)
Lemma holds_destroy b w e :
  (forall pid, b !! pid <> Some e) -> holds_players b w -> holds_players b (DestroyEntity e w).
Proof.
  intros Hne Hb pid e' Hp. destruct (Hb pid e' Hp) as [Ha Hpos].
  assert (e' <> e) by (intros ->; by apply Hne in Hp). split; [cbn; set_solver|].
  unfold PositionOf. cbn. by rewrite lookup_delete_ne.
Qed.

(** ** Every handler preserves the invariant *)

Lemma Join_wf player_id s :
  server_wf s -> (forall r, Sim s = Some r -> nextID (rt_World r) < 2 ^ 64 - 1)%N ->
  server_wf (fst (Join player_id s)).
Proof.
  intros Hs Hn. pose proof Hs as [Hreg Hho Hsim]. unfold Join. destruct (String.eqb _ _); [done|].
  destruct (Sim s) as [r|] eqn:Er; [|done]. unfold join_check.
  destruct (playerByID s !! trim_space player_id) as [e|] eqn:Ep; [done|].
  destruct (splitDrain s); [done|]. unfold join_spawn. rewrite Er. unfold join_spawn_world.
  destruct (CreateEntity (rt_World r)) as [e w1] eqn:Ec.
  destruct (Hsim r eq_refl) as [Hw Hb].
  destruct (create_components (rt_World r) e w1 (set_components e (mkPosition f0 f0 f0) (mkVelocity f0 f0 f0)
    (mkHealth (f64_of_Z 100) (f64_of_Z 100)))) as (Hok & Hk & Hf & Ha & Hp); try done.
  { by apply Hn. }
  { intros w <- Hw'. apply set_components_ok; [lia|done]. }
  { intros w. apply set_components_keeps. }
  { intros w. apply set_components_position. }
  cbn [fst]. split; cbn [players playerByID frozenByID preparedByID preparedByTk Sim register_player set_players set_Sim].
  - apply registry_insert; [done| |by left]. intros pid' Hpid. by destruct (Hb pid' e Hpid).
  - eapply handoff_more; [exact Hho|]. intros pid. rewrite lookup_insert_is_Some.
    destruct (decide (trim_space player_id = pid)); auto.
  - intros r' [= <-]. change (rt_World (set_world ?w r)) with w. split; [exact Hok|].
    apply holds_insert; [by eapply holds_keeps|done|done].
Qed.

Lemma set_world_id w r : rt_World (set_world w r) = w.
Proof. done. Qed.

Lemma Leave_wf player_id s : server_wf s -> server_wf (fst (Leave player_id s)).
Proof.
  intros Hs. pose proof Hs as [Hreg Hho Hsim]. unfold Leave. destruct (String.eqb _ _); [done|].
  destruct (Sim s) as [r|] eqn:Er; [|done]. set (pid := trim_space player_id). unfold leave_unregister.
  assert (forall p b, leave_tokens pid (set_players p b s) = leave_tokens pid s) as Hlt by done.
  assert (handoff_ok (frozenByID s ∖ {[pid]}) (fst (leave_tokens pid s))
    (filter (fun '(_, pp) => pp_playerID pp <> pid) (snd (leave_tokens pid s))) (delete pid (playerByID s))) as Hho'.
  { unfold leave_tokens. destruct (preparedByID s !! pid) as [tok|] eqn:E; cbn [fst snd].
    - pose proof (handoff_drop _ _ _ _ Hho pid tok E) as Hd.
      eapply handoff_forget with (pid := pid) in Hd; [|apply lookup_delete_eq].
      by replace (frozenByID s ∖ {[pid]} ∖ {[pid]}) with (frozenByID s ∖ {[pid]}) in Hd by set_solver.
    - by eapply handoff_forget. }
  destruct (playerByID s !! pid) as [e|] eqn:Ep; rewrite ?Hlt; destruct (leave_tokens pid s) as [byID byTk]; cbn [fst snd] in *.
  - split; cbn [players playerByID frozenByID preparedByID preparedByTk Sim set_players set_Sim set_handoff on_world].
    + by apply registry_delete.
    + done.
    + rewrite Er. intros r' [= <-]. rewrite set_world_id. destruct (Hsim r eq_refl) as [Hw Hb]. split.
      * eapply world_ok_step; [constructor|done].
      * apply holds_destroy; [|by apply holds_delete]. intros pid' [Hne Hp']%lookup_delete_Some.
        destruct Hreg as [_ Hinj]. by destruct (Hinj pid pid' e).
  - rewrite delete_id in Hho' by done. split; cbn [players playerByID frozenByID preparedByID preparedByTk Sim set_handoff]; try done.
    by rewrite Er.
Qed.

(** The handoff state is the only thing pruning changes. *)
Definition same_but_handoff (s s' : Server) : Prop :=
  Sim s' = Sim s /\ players s' = players s /\ playerByID s' = playerByID s /\ acceptedByTk s' = acceptedByTk s /\
  CellID s' = CellID s /\ SBounds s' = SBounds s /\ SLevel s' = SLevel s /\ splitDrain s' = splitDrain s /\
  onApplyInput s' = onApplyInput s /\ hookCalls s' = hookCalls s.

#[export] Instance same_but_handoff_preorder : PreOrder same_but_handoff.
Proof.
  split; [by intros s; repeat split|]. unfold same_but_handoff. intros s1 s2 s3 H1 H2. destruct_and!.
  repeat split; congruence.
Qed.

Lemma prune_one_spec now s pid tok :
  handoff_ok (frozenByID s) (preparedByID s) (preparedByTk s) (playerByID s) -> preparedByID s !! pid = Some tok ->
  let s' := prune_one now s (pid, tok) in
  handoff_ok (frozenByID s') (preparedByID s') (preparedByTk s') (playerByID s') /\ same_but_handoff s s' /\
  (forall pid', pid' <> pid -> preparedByID s' !! pid' = preparedByID s !! pid') /\
  (exists pp, preparedByTk s !! tok = Some pp /\ pp_playerID pp = pid /\
     if stale now (pp_createdAt pp)
     then preparedByID s' = delete pid (preparedByID s) /\ preparedByTk s' = delete tok (preparedByTk s)
     else s' = s).
Proof.
  intros Hho Hp. pose proof (ho_flight _ _ _ _ Hho pid tok Hp) as (_ & pp & Hpp & Hid & Hfin).
  pose proof (ho_entry _ _ _ _ Hho tok pp Hpp) as (Hne & _). apply String.eqb_neq in Hne.
  unfold prune_one. rewrite Hpp, Hfin, Hne. cbn [orb].
  destruct (stale now (pp_createdAt pp)) eqn:Est.
  - split; [by apply handoff_drop|]. split; [by repeat split|]. split.
    + intros pid' Hne'. by apply lookup_delete_ne.
    + exists pp. by rewrite Est.
  - split; [done|]. split; [by repeat split|]. split; [done|]. exists pp. by rewrite Est.
Qed.

(** An entry of [preparedByID] whose handoff has not expired. *)
Definition live_handoff (now : Z) (s : Server) (pid tok : string) : Prop :=
  preparedByID s !! pid = Some tok /\
  exists pp, preparedByTk s !! tok = Some pp /\ stale now (pp_createdAt pp) = false.

Lemma prune_fold now l s :
  handoff_ok (frozenByID s) (preparedByID s) (preparedByTk s) (playerByID s) ->
  NoDup l.*1 -> (forall pid tok, (pid, tok) ∈ l -> preparedByID s !! pid = Some tok) ->
  let s' := fold_left (prune_one now) l s in
  handoff_ok (frozenByID s') (preparedByID s') (preparedByTk s') (playerByID s') /\ same_but_handoff s s' /\
  (forall pid tok, preparedByID s' !! pid = Some tok <->
     preparedByID s !! pid = Some tok /\ (pid ∈ l.*1 -> live_handoff now s pid tok)) /\
  (forall tok pp, preparedByTk s' !! tok = Some pp -> preparedByTk s !! tok = Some pp).
Proof.
  revert s. induction l as [|[pid tok] l IH]; intros s Hho Hnd Hl; cbn [fold_left].
  { split; [done|split; [by repeat split|split; [|done]]]. intros pid tok. cbn. rewrite elem_of_nil. tauto. }
  cbn [fmap list_fmap fst] in *. apply NoDup_cons in Hnd as [Hni Hnd].
  assert (preparedByID s !! pid = Some tok) as Hp by (apply Hl; left).
  destruct (prune_one_spec now s pid tok Hho Hp) as (Hho' & Hsame & Hoth & pp & Hpp & Hpid & Hcase).
  set (s1 := prune_one now s (pid, tok)) in *.
  destruct (IH s1 Hho' Hnd) as (H1 & H2 & H3 & H4).
  { intros pid' tok' Hin. rewrite Hoth; [apply Hl; by right|]. intros ->. apply Hni, list_elem_of_fmap. by exists (pid, tok'). }
  split; [done|split; [by etrans|split]].
  - intros pid' tok'. rewrite H3. destruct (decide (pid' = pid)) as [->|Hne].
    + rewrite elem_of_cons. destruct (stale now (pp_createdAt pp)) eqn:Est.
      * destruct Hcase as [Hd _]. rewrite Hd, lookup_delete_eq. split; [by intros [? _]|].
        intros [Hp' Hlive]. exfalso. rewrite Hp in Hp'. injection Hp' as <-.
        destruct Hlive as [_ (q & Hq & Hst)]; [by left|]. congruence.
      * rewrite Hcase. split; [|intros [? _]; by split].
        intros [Hp' _]. split; [done|]. intros _. split; [done|]. rewrite Hp in Hp'. injection Hp' as <-. eauto.
    + rewrite (Hoth pid' Hne), elem_of_cons. unfold live_handoff. rewrite (Hoth pid' Hne).
      assert (forall q, preparedByID s !! pid' = Some tok' ->
        preparedByTk s1 !! tok' = Some q <-> preparedByTk s !! tok' = Some q) as Htk.
      { intros q Hp'. destruct (stale now (pp_createdAt pp)) eqn:Est; [|by rewrite Hcase].
        destruct Hcase as [_ ->]. rewrite lookup_delete_ne; [done|]. intros <-.
        destruct (ho_flight _ _ _ _ Hho pid' tok Hp') as (_ & pp' & Hpp' & Hid' & _). congruence. }
      split; intros [Hp' Hlive]; (split; [done|]).
      * intros [?|Hin]; [done|]. destruct (Hlive Hin) as [_ (q & Hq & Hst)]. split; [done|]. exists q. split; [by apply Htk|done].
      * intros Hin. destruct (Hlive (or_intror Hin)) as [_ (q & Hq & Hst)]. split; [done|]. exists q. split; [by apply Htk|done].
  - intros t q Hq. apply H4 in Hq. destruct (stale now (pp_createdAt pp)) eqn:Est; [|by rewrite Hcase in Hq].
    destruct Hcase as [_ Hd]. rewrite Hd in Hq. by apply lookup_delete_Some in Hq as [_ ?].
Qed.

Lemma prune_spec o now s :
  handoff_ok (frozenByID s) (preparedByID s) (preparedByTk s) (playerByID s) ->
  let s' := pruneStalePreparedLocked o now s in
  handoff_ok (frozenByID s') (preparedByID s') (preparedByTk s') (playerByID s') /\ same_but_handoff s s' /\
  (forall pid tok, preparedByID s' !! pid = Some tok <-> live_handoff now s pid tok) /\
  (forall tok pp, preparedByTk s' !! tok = Some pp -> preparedByTk s !! tok = Some pp).
Proof.
  intros Hho. unfold pruneStalePreparedLocked.
  assert (forall x, x ∈ o _ (map_to_list (preparedByID s)) <-> preparedByID s !! x.1 = Some x.2) as Hin.
  { intros [pid tok]. by rewrite elem_of_visit, elem_of_map_to_list. }
  destruct (prune_fold now (o _ (map_to_list (preparedByID s))) s Hho) as (H1 & H2 & H3 & H4).
  - rewrite (visit_perm o _ (map_to_list (preparedByID s))). apply NoDup_fst_map_to_list.
  - intros pid tok Hx. by apply Hin in Hx.
  - split; [done|split; [done|split; [|done]]]. intros pid tok. rewrite H3. split.
    + intros [Hp Hl]. apply Hl, list_elem_of_fmap. exists (pid, tok). split; [done|]. by apply Hin.
    + intros Hl. split; [by destruct Hl|done].
Qed.

Lemma prune_wf o now s : server_wf s -> server_wf (pruneStalePreparedLocked o now s).
Proof.
  intros [Hreg Hho Hsim]. destruct (prune_spec o now s Hho) as (H1 & (E1 & E2 & E3 & _) & _).
  split; [by rewrite E2, E3|done|]. rewrite E1, E3. done.
Qed.

(** A section that only rewrites the handoff state. *)
Lemma set_handoff_wf f byid bytk s :
  server_wf s -> handoff_ok f byid bytk (playerByID s) -> server_wf (set_handoff f byid bytk s).
Proof. intros [] ?. by split. Qed.

(** A section under [Sim.Mu] that keeps the entities with a position. *)
Lemma on_world_wf (f : World -> World) s :
  server_wf s -> (forall r, Sim s = Some r -> world_ok (rt_World r) -> world_ok (f (rt_World r)) /\ keeps (rt_World r) (f (rt_World r))) ->
  server_wf (on_world f s).
Proof.
  intros [Hreg Hho Hsim] Hf. split; [done|done|]. cbn [Sim on_world set_Sim playerByID]. intros r' Hr.
  destruct (Sim s) as [r|] eqn:Er; [|done]. injection Hr as <-. rewrite set_world_id.
  destruct (Hsim r eq_refl) as [Hw Hb]. destruct (Hf r eq_refl Hw) as [Hw' Hk]. split; [done|by eapply holds_keeps].
Qed.

Lemma registered_le s pid e r :
  server_wf s -> playerByID s !! pid = Some e -> Sim s = Some r -> (e <= nextID (rt_World r))%N.
Proof.
  intros [_ _ Hsim] Hp Hr. destruct (Hsim r Hr) as [Hw Hb]. destruct (Hb pid e Hp) as [Ha _]. by apply in_use_le.
Qed.

Lemma SetVelocity_wf s pid e v : server_wf s -> playerByID s !! pid = Some e -> server_wf (on_world (SetVelocity e v) s).
Proof.
  intros Hs Hp. apply on_world_wf; [done|]. intros r Hr Hw. split; [|by apply keeps_refl].
  apply world_ok_SetVelocity; [by eapply registered_le|done].
Qed.

(** What the first section of a prepare leaves: either it answers, or the player is registered, has
    no handoff in flight and the token is unused, and the section marks it. *)
Lemma prepare_begin_spec o now1 now2 pid tok s s' d :
  server_wf s -> prepare_begin o now1 now2 pid tok s = (s', d) ->
  match d with
  | Return r => server_wf s'
  | Continue e => exists s0, server_wf s0 /\ playerByID s0 = playerByID s /\ Sim s0 = Sim s /\ CellID s0 = CellID s /\
      acceptedByTk s0 = acceptedByTk s /\ splitDrain s0 = splitDrain s /\
      playerByID s !! pid = Some e /\ preparedByID s0 !! pid = None /\ preparedByTk s0 !! tok = None /\
      s' = set_handoff ({[pid]} ∪ frozenByID s0) (<[pid := tok]> (preparedByID s0)) (preparedByTk s0) s0
  end.
Proof.
  intros Hs. unfold prepare_begin. pose proof (prune_wf o now1 s Hs) as Hs1.
  destruct (prune_spec o now1 s (swf_handoff s Hs)) as (_ & Hsame & _ & _).
  set (s1 := pruneStalePreparedLocked o now1 s) in *.
  assert (preparedByTk s1 !! tok = None \/ exists q, preparedByTk s1 !! tok = Some q /\ is_Some (pp_payload q)) as Htok.
  { destruct (preparedByTk s1 !! tok) as [q|] eqn:E; [right|by left]. exists q. split; [done|].
    by apply (ho_entry _ _ _ _ (swf_handoff s1 Hs1)) in E as (_ & _ & ? & _). }
  destruct Htok as [Htok|(q & Hq & pl & Hpl)].
  2:{ rewrite Hq. destruct q as [? ? ? ? ? pay]. cbn in Hpl. subst pay. intros [= <- <-]. exact Hs1. }
  rewrite Htok. destruct Hsame as (Esim & Epl & Ebyid & Eacc & Ecell & _ & _ & Edrain & _).
  assert (forall s2, server_wf s2 -> playerByID s2 = playerByID s -> Sim s2 = Sim s -> CellID s2 = CellID s ->
    acceptedByTk s2 = acceptedByTk s -> splitDrain s2 = splitDrain s ->
    preparedByID s2 !! pid = None -> preparedByTk s2 !! tok = None ->
    match playerByID s2 !! pid with
    | None => (s2, Return (mkPrepResp false "unknown_player" None))
    | Some entityID =>
        (set_handoff ({[pid]} ∪ frozenByID s2) (<[pid := tok]> (preparedByID s2)) (preparedByTk s2) s2, Continue entityID)
    end = (s', d) ->
    match d with
    | Return r => server_wf s'
    | Continue e => exists s0, server_wf s0 /\ playerByID s0 = playerByID s /\ Sim s0 = Sim s /\ CellID s0 = CellID s /\
        acceptedByTk s0 = acceptedByTk s /\ splitDrain s0 = splitDrain s /\
        playerByID s !! pid = Some e /\ preparedByID s0 !! pid = None /\ preparedByTk s0 !! tok = None /\
        s' = set_handoff ({[pid]} ∪ frozenByID s0) (<[pid := tok]> (preparedByID s0)) (preparedByTk s0) s0
    end) as Hcont.
  { intros s2 Hs2 E1 E2 E3 E4 E5 Hp Ht. rewrite E1. destruct (playerByID s !! pid) as [e|] eqn:Ee; intros [= <- <-]; [|done].
    exists s2. repeat (split; [done|]). done. }
  destruct (preparedByID s1 !! pid) as [tok'|] eqn:Ep; [|by apply Hcont].
  destruct (ho_flight _ _ _ _ (swf_handoff s1 Hs1) pid tok' Ep) as (_ & q & Hq & Hid & _).
  destruct (String.eqb_spec tok' tok) as [->|Hne]; [congruence|]. rewrite Hq.
  destruct (stale now2 (pp_createdAt q)); [|intros [= <- <-]; exact Hs1].
  apply Hcont; cbn; try done.
  - apply set_handoff_wf; [done|]. apply handoff_drop; [apply Hs1|done].
  - apply lookup_delete_eq.
  - by rewrite lookup_delete_ne.
Qed.

Lemma Prepare_wf o n1 n2 n3 player_id target token s :
  server_wf s -> server_wf (fst (PreparePlayerHandoff o n1 n2 n3 player_id target token s)).
Proof.
  intros Hs. unfold PreparePlayerHandoff. destruct (_ || _) eqn:Eguard; [done|].
  apply orb_false_iff in Eguard as [_ Htok%String.eqb_neq]. destruct (Sim s) as [r|] eqn:Er; [|done].
  set (pid := trim_space player_id) in *. set (tok := trim_space token) in *.
  destruct (prepare_begin o n1 n2 pid tok s) as [s1 d] eqn:Eb. apply prepare_begin_spec in Eb; [|done].
  destruct d as [resp|e]; [done|].
  destruct Eb as (s0 & Hs0 & Ebyid & Esim & _ & _ & _ & He & Hp & Ht & ->). rewrite Er in Esim.
  unfold prepare_capture. cbn [Sim set_handoff]. rewrite Esim. cbn [cap_pos].
  assert (server_wf s0) as [Hreg Hho Hsim] by done. destruct (Hsim r Esim) as [Hw Hb].
  destruct (Hb pid e) as [Ha [pos Hpos]]; [by rewrite Ebyid|]. rewrite Hpos. cbn [cap_pos fst].
  assert (server_wf (on_world (SetVelocity e (mkVelocity f0 f0 f0)) s0)) as Hs2.
  { eapply SetVelocity_wf; [done|]. by rewrite Ebyid. }
  split; [apply Hs2| |apply Hs2].
  cbn [frozenByID preparedByID preparedByTk playerByID set_handoff on_world set_Sim].
  refine (handoff_prepare _ _ _ _ Hho pid (mkPrepared pid tok e false (Some n3) (Some _)) Hp Ht _ Htok _ _ _); try done.
  by rewrite Ebyid, He.
Qed.

Lemma Accept_wf payload s :
  server_wf s -> (forall r, Sim s = Some r -> nextID (rt_World r) < 2 ^ 64 - 1)%N ->
  server_wf (fst (AcceptPlayerHandoff payload s)).
Proof.
  intros Hs Hn. unfold AcceptPlayerHandoff. destruct payload as [p|]; [|done].
  destruct (_ || _); [done|]. destruct (Sim s) as [r|] eqn:Er; [|done].
  set (pid := trim_space (h_PlayerId p)). set (tok := trim_space (h_HandoffToken p)).
  unfold accept_begin. destruct (acceptedByTk s !! tok); [done|].
  pose proof Hs as [Hreg Hho Hsim]. destruct (Hsim r Er) as [Hw Hb].
  assert (forall e w s1, Sim s1 = Some (set_world w r) -> players s1 = players s -> playerByID s1 = playerByID s ->
    frozenByID s1 = frozenByID s -> preparedByID s1 = preparedByID s -> preparedByTk s1 = preparedByTk s ->
    registry_ok ({[e]} ∪ players s) (<[pid := e]> (playerByID s)) ->
    world_ok w -> keeps (rt_World r) w -> e ∈ alive w -> is_Some (PositionOf w e) ->
    server_wf (accept_register pid tok e s1)) as Hreg'.
  { intros e w s1 E1 E2 E3 E4 E5 E6 Hr Hw' Hk Ha Hp. split.
    - cbn. by rewrite E2, E3.
    - cbn. rewrite E3, E4, E5, E6. eapply handoff_more; [exact Hho|]. intros x. rewrite lookup_insert_is_Some.
      destruct (decide (pid = x)); auto.
    - cbn. rewrite E1. intros r' [= <-]. rewrite set_world_id. split; [done|]. rewrite E3.
      apply holds_insert; [by eapply holds_keeps|done|done]. }
  destruct (playerByID s !! pid) as [e|] eqn:Ep; cbn [accept_create].
  - destruct (Hb pid e Ep) as [Ha Hp]. cbn [fst].
    refine (Hreg' e (accept_world e p (rt_World r)) (on_world (accept_world e p) s) _ _ _ _ _ _ _ _ _ _ _); try done.
    + cbn. by rewrite Er.
    + apply registry_insert; [done| |by right]. intros pid' H'. by eapply Hreg.
    + apply set_components_ok; [by apply in_use_le|done].
    + apply set_components_keeps.
    + by apply set_components_position.
  - rewrite Er. destruct (CreateEntity (rt_World r)) as [e w1] eqn:Ec. cbn [fst].
    destruct (create_components (rt_World r) e w1 (set_components e (handoff_position p) (handoff_velocity p) (handoff_health p)))
      as (Hok & Hk & Hf & Ha & Hp); try done.
    { by apply Hn. }
    { intros w <- Hw'. apply set_components_ok; [lia|done]. }
    { intros w. apply set_components_keeps. }
    { intros w. apply set_components_position. }
    refine (Hreg' e (accept_world e p w1) _ _ _ _ _ _ _ _ Hok Hk Ha Hp); try done.
    apply registry_insert; [done| |by left]. intros pid' Hpid. by destruct (Hb pid' e Hpid).
Qed.

Lemma Finalize_wf player_id token s : server_wf s -> server_wf (fst (FinalizePlayerHandoff player_id token s)).
Proof.
  intros Hs. unfold FinalizePlayerHandoff. destruct (_ || _); [done|]. destruct (Sim s) as [r|] eqn:Er; [|done].
  set (pid := trim_space player_id). set (tok := trim_space token). pose proof Hs as [Hreg Hho Hsim].
  unfold finalize_section. destruct (preparedByTk s !! tok) as [pp|] eqn:Ept.
  2:{ destruct (bool_decide_reflect (preparedByID s !! pid = Some tok)) as [Hp|]; [|done].
      destruct (ho_flight _ _ _ _ Hho pid tok Hp) as (_ & q & Hq & _). congruence. }
  destruct (String.eqb_spec (pp_playerID pp) pid) as [Hpid|]; cbn [negb]; [|done].
  destruct (pp_finalized pp) eqn:Efin; [done|].
  destruct (ho_entry _ _ _ _ Hho tok pp Ept) as (_ & _ & _ & Hact). specialize (Hact Efin).
  destruct (ho_flight _ _ _ _ Hho _ tok Hact) as ([e He] & _). rewrite Hpid in He.
  cbn [playerByID set_handoff]. rewrite He. cbn [fst].
  split; cbn [players playerByID frozenByID preparedByID preparedByTk Sim set_players set_Sim set_handoff on_world].
  - by apply registry_delete.
  - rewrite <- Hpid. by eapply handoff_finalize.
  - rewrite Er. intros r' [= <-]. rewrite set_world_id. destruct (Hsim r Er) as [Hw Hb]. split.
    + eapply world_ok_step; [constructor|done].
    + apply holds_destroy; [|by apply holds_delete]. intros pid' [Hne Hp']%lookup_delete_Some.
      destruct Hreg as [_ Hinj]. by destruct (Hinj pid pid' e).
Qed.

Lemma hook_wf b s : server_wf s -> server_wf (reportApplyInput b s).
Proof. intros [? ? ?]. unfold reportApplyInput. by destruct (onApplyInput s). Qed.

Lemma ApplyInput_wf cos sin player_id inp s :
  server_wf s -> server_wf (fst (ApplyInput cos sin player_id inp s)).
Proof.
  intros Hs. unfold ApplyInput. destruct (String.eqb _ _); [by apply hook_wf|].
  destruct (Sim s) as [r|]; [|by apply hook_wf].
  destruct (playerByID s !! trim_space player_id) as [e|] eqn:Ep; [|by apply hook_wf].
  destruct (bool_decide _); [by apply hook_wf|]. destruct (PositionOf _ _); [|by apply hook_wf].
  apply hook_wf. by eapply SetVelocity_wf.
Qed.

Lemma decode_steps (ents : list (option CellPersistEntity)) w :
  Forall (fun ent => forall e, ent = Some e -> pe_EntityId e < 2 ^ 64 - 1)%N ents ->
  rtc world_step w (fold_left restore_entity ents w).
Proof.
  intros Hf. revert w. induction Hf as [|ent ents He Hf IH]; intros w; cbn [fold_left]; [done|].
  etrans; [|apply IH]. destruct ent as [ent|]; [|done]. cbn [restore_entity].
  destruct (pe_EntityId ent =? 0)%N; [done|]. apply rtc_once. constructor. by apply He.
Qed.

Lemma destroy_steps (l : list Entity) w : rtc world_step w (fold_left (fun w e => DestroyEntity e w) l w).
Proof.
  revert w. induction l as [|e l IH]; intros w; cbn [fold_left]; [done|].
  etrans; [|apply IH]. apply rtc_once. constructor.
Qed.

Lemma PlayerCount_0 s : (0 <? PlayerCount s)%Z = false -> playerByID s = ∅.
Proof. intros H. apply map_size_empty_inv. unfold PlayerCount in H. lia. Qed.

(** The identifiers of an imported state leave room for new entities. *)
Definition import_ids_ok (unmarshal : string -> result CellPersist) (req : option UpdatePayload) : Prop :=
  forall json reason p, req = Some (UImportNpcPersist (Some (json, reason))) -> unmarshal (trim_space json) = Ok p ->
    Forall (fun ent => forall e, ent = Some e -> pe_EntityId e < 2 ^ 64 - 1)%N (p_Entities p).

Lemma Update_wf marshal unmarshal o req s :
  server_wf s -> import_ids_ok unmarshal req -> server_wf (fst (Update marshal unmarshal o req s)).
Proof.
  intros Hs Himp. destruct req as [[| |tps|rs|en|rs|rs|rs|]|]; cbn [Update fst]; try done.
  - destruct (_ || _); [done|]. destruct (Sim s) as [r|] eqn:Er; [|done]. destruct Hs as [? ? Hsim].
    split; [done|done|]. intros r' [= <-]. exact (Hsim r Er).
  - destruct (SBounds s) as [b|]; [|done]. by destruct (ChildSpecsForSplit _ _ _).
  - destruct Hs. by split.
  - destruct (Sim s); [|done]. by destruct (marshal _).
  - destruct (Sim s) as [r|] eqn:Er; [|done]. destruct (0 <? PlayerCount s)%Z eqn:Ec; [done|].
    apply PlayerCount_0 in Ec. destruct rs as [[json reason]|]; [|done].
    destruct (String.eqb _ _); [done|]. destruct (unmarshal (trim_space json)) as [p|] eqn:Eu; [|done].
    unfold Decode. destruct (negb _); [done|]. cbn [negb fst]. destruct Hs as [Hreg Hho Hsim].
    split; [done|done|]. cbn [Sim set_Sim playerByID]. intros r' [= <-]. rewrite Ec. split; [|by intros ? ?].
    cbn [rt_World Loop LWorld sim_World]. destruct (Hsim r Er) as [Hw _].
    eapply world_ok_steps; [|exact Hw]. etrans; [apply destroy_steps|]. apply decode_steps. by eapply Himp.
  - destruct (SBounds s); [|done]. destruct rs as [[cs reason]|]; by destruct (ValidateMergeChildren _ _ _).
Qed.

Lemma Tick_keeps os d r : world_ok (rt_World r) -> (exists rate, Systems (Loop r) = [movement_system; regen_system rate; replication_system]) ->
  world_ok (rt_World (Tick os d r)) /\ keeps (rt_World r) (rt_World (Tick os d r)).
Proof.
  intros Hw [rate Hsys]. unfold Tick, Step, rt_World. cbn [Loop LWorld]. rewrite Hsys.
  cbn [run_systems movement_system regen_system replication_system sim_World].
  set (w := sim_World (LWorld (Loop r))). set (dt := FixedDT (Loop r)). split.
  - eapply world_ok_step; [apply ws_regen|]. eapply world_ok_step; [apply ws_move|exact Hw].
  - transitivity (MovementUpdate (os 0) dt w).
    + intros e Ha Hp. destruct (movement_view (os 0) dt w) as [_ Hv]. specialize (Hv e).
      destruct (quiet_movement (os 0) dt w) as (_ & -> & _). split; [done|]. unfold PositionOf.
      change (is_Some (v_position (view (MovementUpdate (os 0) dt w) e))). rewrite Hv.
      destruct (v_alive _); [|done]. unfold moved. cbn. destruct Hp as [p Hp]. unfold PositionOf in Hp. rewrite Hp.
      destruct (velocities w !! e); cbn; [eauto|]. by rewrite Hp.
    + set (w1 := MovementUpdate (os 0) dt w). intros e Ha Hp.
      destruct (quiet_regen rate (os (0 + 1)) dt w1) as (_ & -> & _). split; [done|].
      destruct (fle rate f0) eqn:Er; [unfold HealthRegenUpdate; by rewrite Er|].
      destruct (regen_view rate (os (0 + 1)) dt w1 Er) as [_ Hv]. specialize (Hv e). unfold PositionOf.
      change (is_Some (v_position (view (HealthRegenUpdate rate (os (0 + 1)) dt w1) e))). rewrite Hv.
      destruct (v_alive _); [|exact Hp]. unfold healed. cbn. destruct (healths w1 !! e) as [h|]; [|done].
      destruct (fle (MaxHP h) (HP h)); exact Hp.
Qed.

Lemma subscribe_wf hypot od oq ov sub s :
  server_wf s -> server_wf (fst (fst (subscribe_step hypot od oq ov sub s))).
Proof.
  intros Hs. unfold subscribe_step. destruct (Sim s) as [r|] eqn:Er; [|done].
  destruct (first sub); [by destruct (_ && _)|]. cbn [TakeDirtyEntities].
  match goal with |- context [set_Sim ?x s] => set (s' := set_Sim x s) end.
  assert (server_wf s') as Hs'.
  { destruct Hs as [Hreg Hho Hsim]. split; [done|done|]. cbn. intros r' [= <-]. rewrite set_world_id.
    destruct (Hsim r Er) as [Hw Hb]. split; [eapply world_ok_step; [apply (ws_take_dirty od)|exact Hw]|].
    intros pid e He. destruct (Hb pid e He). done. }
  destruct (_ && _); by destruct (_ || _).
Qed.

(** ** The server as a transition system *)

Definition room_for_entity (s : Server) : Prop :=
  forall r, Sim s = Some r -> (nextID (rt_World r) < 2 ^ 64 - 1)%N.

(** The handlers, a tick of the simulation and an iteration of a subscription, for every clock, every
    iteration order and all external functions. *)
Inductive server_step : Server -> Server -> Prop :=
  | ss_join pid s : room_for_entity s -> server_step s (fst (Join pid s))
  | ss_leave pid s : server_step s (fst (Leave pid s))
  | ss_input cos sin pid inp s : server_step s (fst (ApplyInput cos sin pid inp s))
  | ss_prepare o n1 n2 n3 pid target tok s : server_step s (fst (PreparePlayerHandoff o n1 n2 n3 pid target tok s))
  | ss_accept payload s : room_for_entity s -> server_step s (fst (AcceptPlayerHandoff payload s))
  | ss_finalize pid tok s : server_step s (fst (FinalizePlayerHandoff pid tok s))
  | ss_update marshal unmarshal o req s : import_ids_ok unmarshal req -> server_step s (fst (Update marshal unmarshal o req s))
  | ss_subscribe hypot od oq ov sub s : server_step s (fst (fst (subscribe_step hypot od oq ov sub s)))
  | ss_hook b s : server_step s (SetApplyInputHook b s)
  | ss_tick os d r rate s :
      Sim s = Some r -> Systems (Loop r) = [movement_system; regen_system rate; replication_system] ->
      server_step s (set_Sim (Some (Tick os d r)) s).

(** A server before its first call: no players and no handoffs, its world well-formed. *)
Definition server_init (s : Server) : Prop :=
  players s = ∅ /\ playerByID s = ∅ /\ frozenByID s = ∅ /\ preparedByID s = ∅ /\ preparedByTk s = ∅ /\
  acceptedByTk s = ∅ /\ forall r, Sim s = Some r -> world_ok (rt_World r).

Lemma init_wf s : server_init s -> server_wf s.
Proof.
  intros (E1 & E2 & E3 & E4 & E5 & _ & Hw). split.
  - rewrite E1, E2. split; [|by intros ? ? ? ?]. intros e. rewrite elem_of_empty. split; [done|by intros [? ?]].
  - rewrite E2, E3, E4, E5. split; [by rewrite dom_empty_L|done|done].
  - intros r Hr. split; [by apply Hw|]. rewrite E2. by intros ? ?.
Qed.

Lemma step_wf s s' : server_step s s' -> server_wf s -> server_wf s'.
Proof.
  destruct 1; intros Hs.
  - by apply Join_wf.
  - by apply Leave_wf.
  - by apply ApplyInput_wf.
  - by apply Prepare_wf.
  - by apply Accept_wf.
  - by apply Finalize_wf.
  - by apply Update_wf.
  - by apply subscribe_wf.
  - by destruct Hs.
  - destruct Hs as [Hreg Hho Hsim]. split; [done|done|]. cbn. intros r' [= <-].
    destruct (Hsim r) as [Hw Hb]; [done|]. destruct (Tick_keeps os d r Hw) as [Hw' Hk]; [by exists rate|].
    split; [done|by eapply holds_keeps].
Qed.

Lemma reachable_wf s s' : server_wf s -> rtc server_step s s' -> server_wf s'.
Proof. intros Hs Hr. induction Hr; eauto using step_wf. Qed.

(** C18: in every state a cell server reaches by calls that do not overlap, ticks and subscriptions: the entities
    marked as players are exactly those registered under a player id, no two players share an entity,
    every registered player is alive and has a position, a player is frozen exactly while it has a
    handoff in flight, and its token names an unfinalized entry of its own with a payload. (Two joins
    of one player that overlap break it: [CellOps.joins_interleaved_orphan].) *)
Theorem server_invariant s0 s :
  server_init s0 -> rtc server_step s0 s ->
  (forall e, isPlayer s e = true <-> exists pid, playerByID s !! pid = Some e) /\
  (forall pid pid' e, playerByID s !! pid = Some e -> playerByID s !! pid' = Some e -> pid = pid') /\
  (forall pid e r, playerByID s !! pid = Some e -> Sim s = Some r ->
     e ∈ alive (rt_World r) /\ is_Some (PositionOf (rt_World r) e)) /\
  (forall pid, pid ∈ frozenByID s <-> exists tok pp, preparedByID s !! pid = Some tok /\
     preparedByTk s !! tok = Some pp /\ pp_playerID pp = pid /\ pp_finalized pp = false /\ is_Some (pp_payload pp)) /\
  (forall pid, pid ∈ frozenByID s -> is_Some (playerByID s !! pid)).
Proof.
  intros Hi Hr. destruct (reachable_wf s0 s (init_wf s0 Hi) Hr) as [[Hreg Hinj] Hho Hsim].
  split; [|split; [done|split; [|split]]].
  - intros e. unfold isPlayer. by rewrite bool_decide_eq_true, Hreg.
  - intros pid e r Hp Hrr. destruct (Hsim r Hrr) as [_ Hb]. by eapply Hb.
  - intros pid. rewrite (ho_frozen _ _ _ _ Hho), elem_of_dom. split.
    + intros [tok Hp]. destruct (ho_flight _ _ _ _ Hho pid tok Hp) as (_ & pp & Hpp & Hid & Hfin).
      exists tok, pp. destruct (ho_entry _ _ _ _ Hho tok pp Hpp) as (_ & _ & ? & _). done.
    + intros (tok & pp & Hp & _). eauto.
  - intros pid. rewrite (ho_frozen _ _ _ _ Hho), elem_of_dom. intros [tok Hp].
    by destruct (ho_flight _ _ _ _ Hho pid tok Hp) as [? _].
Qed.

Definition fresh_server (id : string) : Server :=
  mkServer id (Some NewRuntime) (Some world_bounds) 0 ∅ ∅ ∅ ∅ ∅ ∅ false [] false.

Lemma fresh_init id : server_init (fresh_server id).
Proof. repeat (split; [done|]). intros r [= <-]. split; [by intros ? ?|done]. Qed.

Lemma fresh_room id : room_for_entity (fresh_server id).
Proof. by intros r [= <-]. Qed.

Lemma server_invariant_witness :
  let s := fst (PreparePlayerHandoff order_id 0 0 0 "bob" "cell_q1" "t1" (fst (Join "bob" (fresh_server "cell_root")))) in
  "bob" ∈ frozenByID s /\ is_Some (playerByID s !! "bob").
Proof.
  intros s. split; [apply (bool_decide_eq_true_1 ("bob" ∈ frozenByID s)); vm_compute; reflexivity|].
  destruct (server_invariant (fresh_server "cell_root") s) as (_ & _ & _ & _ & H); [apply fresh_init| |].
  - eapply rtc_l; [apply (ss_join "bob"), fresh_room|]. apply rtc_once.
    apply (ss_prepare order_id 0 0 0 "bob" "cell_q1" "t1").
  - apply H. apply (bool_decide_eq_true_1 ("bob" ∈ frozenByID s)). vm_compute. reflexivity.
Defined.

