(* ===== verification/CellRun.v ===== *)
(** The pace of a cell: [cellsim/runtime.go] [Run] and [ecs/loop.go] [Run] take the interval of their ticker
    from the TPS once, at the start; every step takes its length from the TPS of that moment. *)
From Stdlib Require Import ZArith Lia.
From Stdlib.Floats Require Import SpecFloat.
From S2P Require Import Prelude GoFloat GoString Partition Registry Ecs Aoi Replic CellSim CellSvc CellInv.
Local Open Scope list_scope.
Local Open Scope Z_scope.

(** * The ticker *)

(** [int64] of a float on amd64: towards zero, or the smallest when it is out of range. *)
Definition int64_of_f64 (x : f64) : Z :=
  match x with
  | S754_zero _ => 0
  | S754_finite s m e =>
      let a := default 0 (floorZ (S754_finite false m e)) in
      let z := if s then - a else a in
      if (- 2 ^ 63 <=? z) && (z <? 2 ^ 63) then z else - 2 ^ 63
  | _ => - 2 ^ 63
  end.

Definition NsPerSecond : Z := 1000000000.

(** [time.Duration(float64(time.Second) / g.TPS)] *)
Definition tick_interval (tps : f64) : Z := int64_of_f64 (f64_of_Z NsPerSecond / tps)%f64.

(** [time.NewTicker] panics unless the interval is positive. *)
Definition NewTicker (interval : Z) : result Z :=
  if interval <=? 0 then Err (errorf "non-positive interval for NewTicker" []) else Ok interval.

Definition GameLoop_Run {S} (g : GameLoop S) : result Z := NewTicker (tick_interval (TPS g)).

(** * A running cell

    The server, the interval of the ticker, the time since the start, and the calls of [OnTick]. *)
Record Running := mkRunning { rn_server : Server; rn_interval : Z; rn_time : Z; rn_OnTick : nat }.

Definition Run (s : Server) : result Running :=
  match Sim s with
  | None => Err (errorf "invalid memory address or nil pointer dereference" [])
  | Some r => interval ← NewTicker (tick_interval (TPS (Loop r))); Ok (mkRunning s interval 0 0)
  end.

(** The ticker fires, or a handler runs; each holds the lock of the world. A tick measures its duration. *)
Inductive run_event := Fires (os : nat -> iter_order) (elapsed : Z) | Handles (h : Server -> Server).

(** Here the pause of the loop is not looked at. *)
Definition run_event_step (ev : run_event) (rn : Running) : Running :=
  match ev with
  | Fires os elapsed =>
      mkRunning (match Sim (rn_server rn) with Some r => set_Sim (Some (Tick os elapsed r)) (rn_server rn) | None => rn_server rn end)
        (rn_interval rn) (rn_time rn + rn_interval rn) (S (rn_OnTick rn))
  | Handles h => mkRunning (h (rn_server rn)) (rn_interval rn) (rn_time rn) (rn_OnTick rn)
  end.
Definition run_events (evs : list run_event) (rn : Running) : Running := fold_left (fun rn ev => run_event_step ev rn) evs rn.

Definition fires (ev : run_event) : bool := match ev with Fires _ _ => true | Handles _ => false end.

(** * The rate of the ticks *)

(** The rates a cell may be told, and the interval of each: a second divided, rounded down. *)
Lemma interval_of_rate n : 1 <= n <= 120 -> tick_interval (f64_of_Z n) = NsPerSecond / n.
Proof.
  intros Hn. assert (forallb (fun k => tick_interval (f64_of_Z (Z.of_nat k)) =? NsPerSecond / Z.of_nat k) (seq 1 120) = true) as H by by vm_compute.
  rewrite forallb_forall in H. specialize (H (Z.to_nat n)). rewrite Z2Nat.id in H by lia. apply Z.eqb_eq, H, in_seq. lia.
Qed.

(** The ticker of such a rate starts; the ticks of the rate fit into a second, which has less than [n]
    nanoseconds more. *)
Lemma ticker_rate n : 1 <= n <= 120 ->
  exists i, NewTicker (tick_interval (f64_of_Z n)) = Ok i /\ i * n <= NsPerSecond < i * n + n.
Proof.
  intros Hn. rewrite interval_of_rate by done. exists (NsPerSecond / n). pose proof (Z.div_mod NsPerSecond n ltac:(lia)). pose proof (Z.mod_pos_bound NsPerSecond n ltac:(lia)).
  assert (1 <= NsPerSecond / n) by (apply Z.div_le_lower_bound; unfold NsPerSecond; lia).
  unfold NewTicker. destruct (Z.leb_spec (NsPerSecond / n) 0); [lia|]. split; [done|]. nia.
Qed.

(** The ticker keeps its interval, whatever is handled; the time is that of the ticks. *)
Lemma run_clock evs rn :
  let rn' := run_events evs rn in
  rn_interval rn' = rn_interval rn /\ rn_OnTick rn' = (rn_OnTick rn + length (base.filter (fun ev => fires ev = true) evs))%nat /\
  rn_time rn' = rn_time rn + Z.of_nat (length (base.filter (fun ev => fires ev = true) evs)) * rn_interval rn.
Proof.
  revert rn. induction evs as [|ev evs IH]; intros rn; cbn zeta; [by cbn; rewrite Nat.add_0_r, Z.add_0_r|].
  cbn [run_events fold_left]. destruct (IH (run_event_step ev rn)) as (H1 & H2 & H3). unfold run_events in *. rewrite H1, H2, H3, filter_cons.
  destruct ev as [os d|h]; cbn [fires run_event_step rn_interval rn_OnTick rn_time].
  - rewrite decide_True by done. cbn [length]. split; [done|]. split; lia.
  - rewrite decide_False by done. done.
Qed.

(** A cell that is told another rate goes on at the old one, with steps of the new length. *)
Lemma update_leaves_ticker marshal unmarshal o n rn rn' :
  1 <= n <= 120 -> Sim (rn_server rn) <> None ->
  rn' = run_event_step (Handles (fun s => fst (Update marshal unmarshal o (Some (USetTargetTps n)) s))) rn ->
  rn_interval rn' = rn_interval rn /\ exists r, Sim (rn_server rn') = Some r /\ FixedDT (Loop r) = (f1 / f64_of_Z n)%f64.
Proof.
  intros Hn Hs ->. split; [done|]. cbn [run_event_step rn_server Update]. destruct (Z.ltb_spec n 1), (Z.ltb_spec 120 n); try lia. cbn [orb].
  destruct (Sim (rn_server rn)) as [r|]; [|done]. eexists. split; [reflexivity|done].
Qed.

(** * Examples *)

(** A cell with one entity that moves at one metre a second along x. *)
Definition walker : Server :=
  set_Sim (Some (set_world (SetVelocity 1%N (mkVelocity f1 f0 f0) (SetPosition 1%N (mkPosition f0 f0 f0) (snd (CreateEntity NewWorld)))) NewRuntime)) (fresh_server "cell_root").
Definition ticks (n : nat) : list run_event := replicate n (Fires (fun _ => order_id) 0).
Definition walked (rn : Running) : option f64 := r ← Sim (rn_server rn); X <$> PositionOf (rt_World r) 1%N.
Definition set_rate (n : Z) : run_event :=
  Handles (fun s => fst (Update (fun _ => Err (errorf "no codec" [])) (fun _ => Err (errorf "no codec" [])) order_id (Some (USetTargetTps n)) s)).

(** A second of the walker: a metre at the rate the cell was started with, half of it after the rate was
    doubled. *)
Example doubled_rate_halves_speed :
  match Run walker with
  | Ok rn =>
      rn_time (run_events (ticks 25) rn) = NsPerSecond /\ rn_time (run_events (set_rate 50 :: ticks 25) rn) = NsPerSecond /\
      match walked (run_events (ticks 25) rn), walked (run_events (set_rate 50 :: ticks 25) rn) with
      | Some x, Some y => flt (f64_of 99 (-7)) x = true /\ flt y (f64_of 65 (-7)) = true
      | _, _ => False
      end
  | Err _ => False
  end.
Proof. vm_compute. repeat split. Qed.

(** The cell goes on while its loop is paused; the loop's own [Run] would not. *)
Example pause_is_not_seen :
  match Run walker with
  | Ok rn =>
      let paused_ := run_events (Handles (fun s => match Sim s with Some r => set_Sim (Some (mkRuntime (Pause (Loop r)) (npcStarted r))) s | None => s end) :: ticks 1) rn in
      match Sim (rn_server paused_) with
      | Some r => IsPaused (Loop r) = true /\ TickCount (Stats (Loop r)) = 1%N /\
                  TickCount (Stats (on_ticker (fun _ => order_id) 0 (Loop r))) = 1%N
      | None => False
      end
  | Err _ => False
  end.
Proof. vm_compute. repeat split. Qed.

(** A restored rate that is tiny makes an interval out of range, and the process stops. *)
Example tiny_rate_panics : is_ok (NewTicker (tick_interval (f64_of 1 (-100)))) = false.
Proof. by vm_compute. Qed.
