(* ===== verification/Handoff.v ===== *)
(** The player handoff protocol of [internal/grpc/cellsvc/server.go] between two cells: prepare,
    accept, finalize, their retries and their exclusion. *)
From Stdlib Require Import ZArith Lia.
From S2P Require Import Prelude GoFloat GoString Partition Ecs Aoi Replic CellSim CellSvc CellInv.
Local Open Scope string_scope.
Local Open Scope list_scope.

(** * The handoff of a player, end to end *)

(** The payload a source cell builds for an entity of its world. *)
Definition handoff_payload (cell pid target tok : string) (e : Entity) (r : Runtime) (pos : Position) : PlayerHandoffState :=
  let w := rt_World r in
  let vel := default (mkVelocity f0 f0 f0) (VelocityOf w e) in
  let hp := match HealthOf w e with
            | Some h => if fle (MaxHP h) f0 then mkHealth (f64_of_Z 100) (f64_of_Z 100) else h
            | None => mkHealth (f64_of_Z 100) (f64_of_Z 100)
            end in
  mkHandoff pid (Some (vec3f (X pos) (Y pos) (Z_ pos))) (Some (vec3f (VX vel) (VY vel) (VZ vel)))
    (to_f32 (HP hp)) (to_f32 (MaxHP hp)) (TickCount (Stats (Loop r))) tok cell target e.

Section Transfer.
#[local] Set Default Proof Using "Type*".
(** A trimmed player id and token, and a source server in which the player can be prepared. *)
Context (player_id handoff_token : string).
Let pid := trim_space player_id.
Let tok := trim_space handoff_token.
Context (Hpid : pid <> "") (Htok : tok <> "").

(** A prepare of a player that has no handoff in flight and whose token is unused after pruning. *)
Lemma prepare_pruned target_cell_id o n1 n2 n3 s r e pos :
  let target := trim_space target_cell_id in target <> "" -> server_wf s -> Sim s = Some r -> playerByID s !! pid = Some e -> PositionOf (rt_World r) e = Some pos ->
  let s0 := pruneStalePreparedLocked o n1 s in
  preparedByTk s0 !! tok = None -> preparedByID s0 !! pid = None ->
  let pl := handoff_payload (CellID s) pid target tok e r pos in
  PreparePlayerHandoff o n1 n2 n3 player_id target_cell_id handoff_token s =
  (set_handoff ({[pid]} ∪ frozenByID s0) (<[pid := tok]> (preparedByID s0))
     (<[tok := mkPrepared pid tok e false (Some n3) (Some pl)]> (preparedByTk s0))
     (on_world (SetVelocity e (mkVelocity f0 f0 f0)) s0),
   mkPrepResp true "prepared" (Some pl)).
Proof.
  intros target Htarget Hs Hr He Hpos s0 Htk0 Hid0 pl. unfold PreparePlayerHandoff. fold pid target tok.
  rewrite (proj2 (String.eqb_neq _ _) Hpid), (proj2 (String.eqb_neq _ _) Htarget), (proj2 (String.eqb_neq _ _) Htok).
  cbn [orb]. rewrite Hr. unfold prepare_begin. fold s0. rewrite Htk0, Hid0.
  destruct (prune_spec o n1 s (swf_handoff s Hs)) as (_ & Hsame & _). fold s0 in Hsame.
  destruct Hsame as (Esim & _ & Ebyid & _ & Ecell & _). rewrite Ebyid, He.
  unfold prepare_capture. cbn [Sim set_handoff]. rewrite Esim, Hr, Hpos. cbn [cap_pos cap_vel cap_hp cap_tick].
  cbn [CellID set_handoff on_world set_Sim]. rewrite Ecell. unfold on_world. cbn [Sim set_handoff]. rewrite Esim, Hr. done.
Qed.

Lemma prepare_success target_cell_id o n1 n2 n3 s r e pos :
  let target := trim_space target_cell_id in target <> "" -> server_wf s -> Sim s = Some r -> playerByID s !! pid = Some e -> PositionOf (rt_World r) e = Some pos ->
  preparedByTk s !! tok = None -> (forall tok', ~ live_handoff n1 s pid tok') ->
  let s0 := pruneStalePreparedLocked o n1 s in
  let pl := handoff_payload (CellID s) pid target tok e r pos in
  PreparePlayerHandoff o n1 n2 n3 player_id target_cell_id handoff_token s =
  (set_handoff ({[pid]} ∪ frozenByID s0) (<[pid := tok]> (preparedByID s0))
     (<[tok := mkPrepared pid tok e false (Some n3) (Some pl)]> (preparedByTk s0))
     (on_world (SetVelocity e (mkVelocity f0 f0 f0)) s0),
   mkPrepResp true "prepared" (Some pl)).
Proof.
  intros target Htarget Hs Hr He Hpos Ht Hlive s0 pl.
  destruct (prune_spec o n1 s (swf_handoff s Hs)) as (_ & _ & Hid & Htk). fold s0 in Hid, Htk.
  apply prepare_pruned; try done; fold s0.
  - destruct (preparedByTk s0 !! tok) as [q|] eqn:E; [|done]. apply Htk in E. congruence.
  - destruct (preparedByID s0 !! pid) as [t|] eqn:E; [|done]. by apply Hid, Hlive in E.
Qed.

Lemma input_frozen cos sin inp s r e :
  Sim s = Some r -> playerByID s !! pid = Some e -> pid ∈ frozenByID s ->
  snd (ApplyInput cos sin player_id inp s) = mkInputResp false "player_handoff_frozen".
Proof.
  intros Hr He Hf. unfold ApplyInput. fold pid. rewrite (proj2 (String.eqb_neq _ _) Hpid), Hr, He.
  by rewrite bool_decide_eq_true_2.
Qed.

Lemma finalize_success s r e pp :
  server_wf s -> Sim s = Some r -> playerByID s !! pid = Some e ->
  preparedByTk s !! tok = Some pp -> pp_playerID pp = pid -> pp_finalized pp = false ->
  exists f byid bytk,
    FinalizePlayerHandoff player_id handoff_token s =
    (on_world (DestroyEntity e) (set_players (players s ∖ {[e]}) (delete pid (playerByID s)) (set_handoff f byid bytk s)),
     mkFinResp true "finalized") /\
    pid ∉ f /\ (exists q, bytk !! tok = Some q /\ pp_playerID q = pid /\ pp_finalized q = true).
Proof.
  intros Hs Hr He Hpp Hid Hfin. unfold FinalizePlayerHandoff. fold pid tok.
  rewrite (proj2 (String.eqb_neq _ _) Hpid), (proj2 (String.eqb_neq _ _) Htok). cbn [orb]. rewrite Hr.
  unfold finalize_section. rewrite Hpp, Hid, String.eqb_refl, Hfin. cbn [negb playerByID set_handoff].
  rewrite He. eexists _, _, _. split; [reflexivity|]. split; [set_solver|].
  eexists. rewrite lookup_insert_eq. split; [reflexivity|]. done.
Qed.

Lemma accept_success payload s r :
  server_wf s -> Sim s = Some r -> room_for_entity s ->
  h_PlayerId payload = pid -> h_HandoffToken payload = tok ->
  acceptedByTk s !! tok = None ->
  let e := default (fst (CreateEntity (rt_World r))) (playerByID s !! pid) in
  exists w, AcceptPlayerHandoff (Some payload) s =
    (accept_register pid tok e (set_Sim (Some (set_world w r)) s), mkAccResp true "accepted" e) /\
    PositionOf w e = Some (handoff_position payload) /\ VelocityOf w e = Some (handoff_velocity payload) /\
    HealthOf w e = Some (handoff_health payload) /\ e ∈ alive w /\ keeps (rt_World r) w.
Proof.
  intros Hs Hr Hroom Hp Ht Hacc e. unfold AcceptPlayerHandoff. rewrite Hp, Ht. unfold pid at 1 2 3 4, tok at 1 2 3.
  rewrite !trim_space_idem. fold pid tok.
  rewrite (proj2 (String.eqb_neq _ _) Hpid), (proj2 (String.eqb_neq _ _) Htok). cbn [orb]. rewrite Hr.
  unfold accept_begin. rewrite Hacc. destruct (swf_sim s Hs r Hr) as [Hw Hb]. unfold e.
  assert (forall x w, PositionOf (accept_world x payload w) x = Some (handoff_position payload) /\
    VelocityOf (accept_world x payload w) x = Some (handoff_velocity payload) /\
    HealthOf (accept_world x payload w) x = Some (handoff_health payload)) as Hcomp.
  { intros x w. unfold PositionOf, VelocityOf, HealthOf. cbn. by rewrite !lookup_insert_eq. }
  destruct (playerByID s !! pid) as [x|] eqn:Ep; cbn [accept_create default].
  - exists (accept_world x payload (rt_World r)). split; [unfold on_world; by rewrite Hr|].
    destruct (Hcomp x (rt_World r)) as (? & ? & ?). repeat (split; [done|]).
    split; [by eapply Hb|apply set_components_keeps].
  - rewrite Hr. destruct (create_fresh (rt_World r) Hw (Hroom r Hr)) as [Hc Hf]. rewrite Hc. cbn [fst].
    set (x := (nextID (rt_World r) + 1)%N). set (w1 := with_alive _ _).
    exists (accept_world x payload w1). split; [done|].
    destruct (Hcomp x w1) as (? & ? & ?). repeat (split; [done|]). split; [cbn; set_solver|].
    etrans; [|apply set_components_keeps]. intros y Hy Hpy. split; [cbn; set_solver|done].
Qed.
End Transfer.

(** A value rounded to single precision and back. *)
Definition round32 (x : f64) : f64 := of_f32 (to_f32 x).

Definition round_position (p : Position) : Position := mkPosition (round32 (X p)) (round32 (Y p)) (round32 (Z_ p)).

(** The situation before a handoff: the player is registered at the source and not at the target, no
    handoff of it is live, and the token is new to both. *)
Record handoff_ready (pid tok : string) (now : Z) (src dst : Server) (r rd : Runtime) (e : Entity) (pos : Position) : Prop := {
  hr_src : server_wf src; hr_dst : server_wf dst;
  hr_sim : Sim src = Some r; hr_simd : Sim dst = Some rd; hr_room : room_for_entity dst;
  hr_player : playerByID src !! pid = Some e; hr_pos : PositionOf (rt_World r) e = Some pos;
  hr_token : preparedByTk src !! tok = None; hr_live : forall tok', ~ live_handoff now src pid tok';
  hr_tokend : acceptedByTk dst !! tok = None; hr_playerd : playerByID dst !! pid = None }.

(** C1: the handoff protocol moves a player from one cell to another: from a ready situation, prepare
    on the source, accept of its payload on the target and finalize on the source all succeed;
    afterwards the target has the player at the position (rounded to single precision) it had, the
    source has neither the player nor its entity and the player is not frozen there, and no other
    player of either cell is affected. Between prepare and finalize the source still owns the player,
    stopped, and refuses its input. *)
Theorem handoff_moves_player o n1 n2 n3 cos sin inp p t k src dst r rd e pos :
  trim_space p <> "" -> trim_space t <> "" -> trim_space k <> "" ->
  handoff_ready (trim_space p) (trim_space k) n1 src dst r rd e pos ->
  let '(src1, prep) := PreparePlayerHandoff o n1 n2 n3 p t k src in
  let '(dst1, acc) := AcceptPlayerHandoff (pr_Payload prep) dst in
  let '(src2, fin) := FinalizePlayerHandoff p k src1 in
  pr_Ok prep = true /\ ar_Ok acc = true /\ fin = mkFinResp true "finalized" /\
  (* at the source, while in flight *)
  playerByID src1 = playerByID src /\
  VelocityOf (default (rt_World r) (the_world src1)) e = Some (mkVelocity f0 f0 f0) /\
  snd (ApplyInput cos sin p inp src1) = mkInputResp false "player_handoff_frozen" /\
  (* at the target *)
  playerByID dst1 !! trim_space p = Some (ar_EntityId acc) /\
  (exists w, the_world dst1 = Some w /\ ar_EntityId acc ∈ alive w /\
     PositionOf w (ar_EntityId acc) = Some (round_position pos)) /\
  (* at the source, afterwards *)
  playerByID src2 !! trim_space p = None /\ trim_space p ∉ frozenByID src2 /\
  (exists w, the_world src2 = Some w /\ e ∉ alive w) /\
  (forall q, q <> trim_space p -> playerByID src2 !! q = playerByID src !! q /\ playerByID dst1 !! q = playerByID dst !! q).
Proof.
  intros Hp Ht Hk []. rewrite (prepare_success p k Hp Hk t o n1 n2 n3 src r e pos) by done.
  set (s0 := pruneStalePreparedLocked o n1 src). set (pl := handoff_payload _ _ _ _ _ _ _). cbn [pr_Payload].
  destruct (accept_success p k Hp Hk pl dst rd) as (w & Hacc & Hpos' & _ & _ & Ha & _); try done.
  rewrite Hacc. clear Hacc. rewrite hr_playerd0 in *. cbn [default] in *. set (e' := fst (CreateEntity (rt_World rd))) in *.
  destruct (prune_spec o n1 src (swf_handoff src hr_src0)) as (_ & (Esim & Epl & Ebyid & _) & _). fold s0 in Esim, Epl, Ebyid.
  set (src1 := set_handoff _ _ _ _).
  assert (Hw1 : server_wf src1).
  { pose proof (Prepare_wf o n1 n2 n3 p t k src hr_src0) as Hw.
    by rewrite (prepare_success p k Hp Hk t o n1 n2 n3 src r e pos) in Hw. }
  assert (Sim src1 = Some (set_world (SetVelocity e (mkVelocity f0 f0 f0) (rt_World r)) r)) as Hs1.
  { cbn. by rewrite Esim, hr_sim0. }
  assert (playerByID src1 = playerByID src) as Hb1 by (cbn; by rewrite Ebyid).
  destruct (finalize_success p k Hp Hk src1 _ e (mkPrepared (trim_space p) (trim_space k) e false (Some n3) (Some pl)) Hw1 Hs1)
    as (f & byid & bytk & Hfin & Hf & _); try done.
  { by rewrite Hb1. }
  { apply lookup_insert_eq. }
  rewrite Hfin. cbn [pr_Ok ar_Ok ar_EntityId].
  repeat (split; [done|]). split.
  { unfold the_world. rewrite Hs1. unfold VelocityOf. cbn. by rewrite lookup_insert_eq. }
  split. { eapply input_frozen; [done|done|by rewrite Hb1|cbn; set_solver]. }
  split; [apply lookup_insert_eq|]. split. { exists w. by rewrite Hpos'. }
  split. { cbn. rewrite Ebyid. apply lookup_delete_eq. }
  split; [exact Hf|]. split.
  { exists (DestroyEntity e (SetVelocity e (mkVelocity f0 f0 f0) (rt_World r))). unfold the_world. cbn. rewrite Esim, hr_sim0.
    split; [done|]. cbn. set_solver. }
  intros q Hq. cbn. rewrite Ebyid. by rewrite lookup_delete_ne, lookup_insert_ne.
Qed.

Definition bob_joined : Server := fst (Join " bob" (fresh_server "cell_root")).

Lemma bob_ready : exists r, handoff_ready "bob" "t1" 0 bob_joined (fresh_server "cell_q3") r NewRuntime 1%N (mkPosition f0 f0 f0).
Proof.
  eexists. split.
  - apply Join_wf; [apply init_wf, fresh_init|apply fresh_room].
  - apply init_wf, fresh_init.
  - reflexivity.
  - reflexivity.
  - apply fresh_room.
  - vm_compute. reflexivity.
  - vm_compute. reflexivity.
  - vm_compute. reflexivity.
  - intros tok' [H _]. vm_compute in H. done.
  - reflexivity.
  - reflexivity.
Qed.

Lemma handoff_moves_player_witness :
  let '(src1, prep) := PreparePlayerHandoff order_id 0 0 0 "bob" "cell_q3" "t1" bob_joined in
  let '(dst1, acc) := AcceptPlayerHandoff (pr_Payload prep) (fresh_server "cell_q3") in
  let '(src2, fin) := FinalizePlayerHandoff "bob" "t1" src1 in
  playerByID dst1 !! "bob" = Some (ar_EntityId acc) /\ playerByID src2 !! "bob" = None.
Proof.
  destruct bob_ready as [r Hr].
  pose proof (handoff_moves_player order_id 0 0 0 (fun x => x) (fun x => x) None "bob" "cell_q3" "t1" _ _ r NewRuntime 1%N _
    ltac:(done) ltac:(done) ltac:(done) Hr) as H.
  destruct (PreparePlayerHandoff _ _ _ _ _ _ _ _) as [src1 prep] eqn:E1.
  destruct (AcceptPlayerHandoff _ _) as [dst1 acc] eqn:E2.
  destruct (FinalizePlayerHandoff _ _ _) as [src2 fin].
  destruct H as (_ & _ & _ & _ & _ & _ & H1 & _ & H2 & _). split; [exact H1|exact H2].
Defined.

(** * Retries and exclusion *)

Lemma Join_retry p s :
  Sim s <> None -> jr_Ok (snd (Join p s)) = true ->
  Join p (fst (Join p s)) =
    (fst (Join p s), mkJoinResp true (CellID s) "already_joined" (jr_EntityId (snd (Join p s)))).
Proof.
  intros Hsim. unfold Join. destruct (String.eqb (trim_space p) "") eqn:Ep; [done|].
  destruct (Sim s) as [r|] eqn:Er; [|done]. unfold join_check.
  destruct (playerByID s !! trim_space p) as [e|] eqn:Ee.
  { cbn [fst snd]. by rewrite Er, Ee. }
  destruct (splitDrain s); [done|]. unfold join_spawn. rewrite Er.
  destruct (join_spawn_world (rt_World r)) as [e w]. cbn [fst snd Sim register_player set_players set_Sim playerByID].
  by rewrite lookup_insert_eq.
Qed.

Lemma Accept_retry pl s :
  Sim s <> None -> ar_Ok (snd (AcceptPlayerHandoff pl s)) = true ->
  AcceptPlayerHandoff pl (fst (AcceptPlayerHandoff pl s)) =
    (fst (AcceptPlayerHandoff pl s), mkAccResp true "already_accepted" (ar_EntityId (snd (AcceptPlayerHandoff pl s)))).
Proof.
  intros Hsim. unfold AcceptPlayerHandoff. destruct pl as [p|]; [|done]. destruct (_ || _); [done|].
  destruct (Sim s) as [r|] eqn:Er; [|done]. unfold accept_begin.
  destruct (acceptedByTk s !! trim_space (h_HandoffToken p)) as [e|] eqn:Ea.
  { cbn [fst snd]. by rewrite Er, Ea. }
  destruct (playerByID s !! trim_space (h_PlayerId p)) as [e|] eqn:Ee; cbn [accept_create].
  - cbn. rewrite Er. cbn. by rewrite lookup_insert_eq.
  - rewrite Er. destruct (CreateEntity (rt_World r)) as [e w]. cbn. by rewrite lookup_insert_eq.
Qed.

Lemma Finalize_retry p k s :
  Sim s <> None -> fr_Ok (snd (FinalizePlayerHandoff p k s)) = true ->
  FinalizePlayerHandoff p k (fst (FinalizePlayerHandoff p k s)) =
    (fst (FinalizePlayerHandoff p k s), mkFinResp true "already_finalized").
Proof.
  intros Hsim. unfold FinalizePlayerHandoff. destruct (_ || _); [done|].
  destruct (Sim s) as [r|] eqn:Er; [|done]. unfold finalize_section.
  destruct (preparedByTk s !! trim_space k) as [pp|] eqn:Ek; [|by destruct (bool_decide _)].
  destruct (String.eqb (pp_playerID pp) (trim_space p)) eqn:Ep; cbn [negb]; [|done].
  destruct (pp_finalized pp) eqn:Ef; [cbn [fst snd]; by rewrite Er, Ek, Ep, Ef|].
  cbn [playerByID set_handoff]. destruct (playerByID s !! trim_space p) as [e|]; cbn -[String.eqb].
  - rewrite Er. cbn -[String.eqb]. rewrite lookup_insert_eq. cbn -[String.eqb]. by rewrite Ep.
  - destruct (pp_entityID pp =? 0)%N; cbn -[String.eqb]; rewrite Er; cbn -[String.eqb]; rewrite lookup_insert_eq; cbn -[String.eqb]; by rewrite Ep.
Qed.

Lemma Leave_retry p s :
  Sim s <> None -> trim_space p <> "" -> server_wf s ->
  Leave p (fst (Leave p s)) = (fst (Leave p s), mkLeaveResp true "noop") /\
  playerByID (fst (Leave p s)) !! trim_space p = None /\ trim_space p ∉ frozenByID (fst (Leave p s)) /\
  preparedByID (fst (Leave p s)) !! trim_space p = None /\
  (forall tok pp, preparedByTk (fst (Leave p s)) !! tok = Some pp -> pp_playerID pp <> trim_space p).
Proof.
  intros Hsim Hp Hs. assert (exists r, Sim (fst (Leave p s)) = Some r) as [r' Hr'].
  { unfold Leave. destruct (String.eqb _ _); [cbn; destruct (Sim s); [eauto|done]|].
    destruct (Sim s) as [r|] eqn:Er; [|done]. unfold leave_unregister. destruct (leave_tokens _ _).
    destruct (playerByID s !! trim_space p); cbn; rewrite Er; cbn; eauto. }
  assert (playerByID (fst (Leave p s)) !! trim_space p = None /\ trim_space p ∉ frozenByID (fst (Leave p s)) /\
    preparedByID (fst (Leave p s)) !! trim_space p = None /\
    (forall tok pp, preparedByTk (fst (Leave p s)) !! tok = Some pp -> pp_playerID pp <> trim_space p)) as H.
  { unfold Leave. rewrite (proj2 (String.eqb_neq _ _) Hp). destruct (Sim s) as [r|] eqn:Er; [|done].
    unfold leave_unregister.
    assert (forall q b, fst (leave_tokens (trim_space p) (set_players q b s)) !! trim_space p = None) as Hid.
    { intros q b. unfold leave_tokens. cbn. destruct (preparedByID s !! trim_space p) eqn:E; [apply lookup_delete_eq|done]. }
    assert (fst (leave_tokens (trim_space p) s) !! trim_space p = None) as Hid0 by apply (Hid (players s) (playerByID s)).
    destruct (playerByID s !! trim_space p) as [e|] eqn:Ee.
    - specialize (Hid (players s ∖ {[e]}) (delete (trim_space p) (playerByID s))).
      destruct (leave_tokens _ _) as [byID byTk]. cbn in *. split; [apply lookup_delete_eq|]. split; [set_solver|].
      split; [done|]. by intros tok pp [_ ?]%map_lookup_filter_Some.
    - destruct (leave_tokens _ _) as [byID byTk]. cbn in *. split; [done|]. split; [set_solver|]. split; [done|].
      by intros tok pp [_ ?]%map_lookup_filter_Some. }
  split; [|exact H]. destruct H as (H1 & H2 & H3 & H4). set (s1 := fst (Leave p s)) in *. unfold Leave.
  rewrite (proj2 (String.eqb_neq _ _) Hp), Hr'. unfold leave_unregister, leave_tokens. rewrite H1, H3. f_equal.
  assert (frozenByID s1 ∖ {[trim_space p]} = frozenByID s1) as -> by set_solver.
  assert (base.filter (fun '(_, pp) => pp_playerID pp <> trim_space p) (preparedByTk s1) = preparedByTk s1) as ->.
  { apply map_filter_id. exact H4. }
  by destruct s1.
Qed.

(** A prepare repeated with its token while the handoff is live only drops the handoffs that have expired. *)
Lemma Prepare_retry o n1 n2 n3 p t k s tok_entry pl :
  server_wf s -> Sim s <> None -> trim_space p <> "" -> trim_space t <> "" -> trim_space k <> "" ->
  preparedByTk s !! trim_space k = Some tok_entry -> pp_finalized tok_entry = false ->
  pp_payload tok_entry = Some pl -> stale n1 (pp_createdAt tok_entry) = false ->
  let '(s', r) := PreparePlayerHandoff o n1 n2 n3 p t k s in
  r = mkPrepResp true "already_prepared" (Some pl) /\ same_but_handoff s s' /\
  preparedByTk s' !! trim_space k = Some tok_entry /\ preparedByID s' !! pp_playerID tok_entry = Some (trim_space k) /\
  (forall pid tok, preparedByID s' !! pid = Some tok <-> live_handoff n1 s pid tok) /\
  (forall tok pp, preparedByTk s' !! tok = Some pp -> preparedByTk s !! tok = Some pp).
Proof.
  intros Hs Hsim Hp Ht Hk Hpp Hfin Hpl Hst. unfold PreparePlayerHandoff.
  rewrite (proj2 (String.eqb_neq _ _) Hp), (proj2 (String.eqb_neq _ _) Ht), (proj2 (String.eqb_neq _ _) Hk). cbn [orb].
  destruct (Sim s) as [r|] eqn:Er; [|done]. unfold prepare_begin.
  destruct (prune_spec o n1 s (swf_handoff s Hs)) as (Hho & Hsame & Hid & Htk).
  destruct (ho_entry _ _ _ _ (swf_handoff s Hs) _ _ Hpp) as (_ & _ & _ & Hact). specialize (Hact Hfin).
  set (s1 := pruneStalePreparedLocked o n1 s) in *.
  assert (preparedByID s1 !! pp_playerID tok_entry = Some (trim_space k)) as Hid1.
  { apply Hid. split; [done|]. by exists tok_entry. }
  assert (preparedByTk s1 !! trim_space k = Some tok_entry) as Htk1.
  { destruct (ho_flight _ _ _ _ Hho _ _ Hid1) as (_ & q & Hq & _). pose proof (Htk _ _ Hq) as Hq'.
    rewrite Hpp in Hq'. injection Hq' as <-. done. }
  rewrite Htk1. destruct tok_entry as [? ? ? ? ? pay]. cbn in Hpl. subst pay. done.
Qed.

(** C29: the calls of the protocol can be retried. A join, an accept or a finalize that succeeded, repeated, is answered
    as already done, with the same entity, and changes nothing. A leave repeated is answered as a no-op and changes
    nothing; the first has left no trace of the player and its handoffs. A prepare repeated with its
    token while the handoff is live is answered with the payload of the first; it keeps that handoff and
    only drops the ones that have expired. *)
Theorem handlers_idempotent o n1 n2 n3 p t k pl s :
  server_wf s -> Sim s <> None -> trim_space p <> "" -> trim_space t <> "" -> trim_space k <> "" ->
  (let '(s1, j) := Join p s in jr_Ok j = true ->
     Join p s1 = (s1, mkJoinResp true (CellID s) "already_joined" (jr_EntityId j))) /\
  (let '(s1, a) := AcceptPlayerHandoff pl s in ar_Ok a = true ->
     AcceptPlayerHandoff pl s1 = (s1, mkAccResp true "already_accepted" (ar_EntityId a))) /\
  (let '(s1, f) := FinalizePlayerHandoff p k s in fr_Ok f = true ->
     FinalizePlayerHandoff p k s1 = (s1, mkFinResp true "already_finalized")) /\
  (let s1 := fst (Leave p s) in Leave p s1 = (s1, mkLeaveResp true "noop") /\
     playerByID s1 !! trim_space p = None /\ trim_space p ∉ frozenByID s1 /\
     forall tok pp, preparedByTk s1 !! tok = Some pp -> pp_playerID pp <> trim_space p) /\
  (forall entry payload, preparedByTk s !! trim_space k = Some entry -> pp_finalized entry = false ->
     pp_payload entry = Some payload -> stale n1 (pp_createdAt entry) = false ->
     let '(s1, r) := PreparePlayerHandoff o n1 n2 n3 p t k s in
     r = mkPrepResp true "already_prepared" (Some payload) /\ same_but_handoff s s1 /\ preparedByTk s1 !! trim_space k = Some entry /\
     (forall pid tok, preparedByID s1 !! pid = Some tok <-> live_handoff n1 s pid tok) /\
     (forall tok pp, preparedByTk s1 !! tok = Some pp -> preparedByTk s !! tok = Some pp)).
Proof.
  intros Hs Hsim Hp Ht Hk. split; [|split; [|split; [|split]]].
  - destruct (Join p s) as [s1 j] eqn:E. pose proof (Join_retry p s Hsim) as H. by rewrite E in H.
  - destruct (AcceptPlayerHandoff pl s) as [s1 a] eqn:E. pose proof (Accept_retry pl s Hsim) as H. by rewrite E in H.
  - destruct (FinalizePlayerHandoff p k s) as [s1 f] eqn:E. pose proof (Finalize_retry p k s Hsim) as H. by rewrite E in H.
  - destruct (Leave_retry p s Hsim Hp Hs) as (? & ? & ? & _ & ?). done.
  - intros entry payload H1 H2 H3 H4.
    pose proof (Prepare_retry o n1 n2 n3 p t k s entry payload Hs Hsim Hp Ht Hk H1 H2 H3 H4) as H.
    destruct (PreparePlayerHandoff _ _ _ _ _ _ _ _) as [s1 r]. destruct H as (? & ? & ? & _ & ? & ?). done.
Qed.

Lemma handlers_idempotent_witness :
  snd (Leave "bob" (fst (Leave "bob" bob_joined))) = mkLeaveResp true "noop".
Proof.
  refine (f_equal snd (proj1 (proj1 (proj2 (proj2 (proj2 (handlers_idempotent order_id 0 0 0 "bob" "cell_q3" "t1" None bob_joined _ _ _ _ _))))))); try done.
  apply Join_wf; [apply init_wf, fresh_init|apply fresh_room].
Defined.
