(* ===== verification/CellOps.v ===== *)
(** What the other calls of the cell server of [CellSvc.v] do: the area-of-interest stream as its
    client sees it, the transfer of NPCs by export and import, and interleavings of two calls. *)
From Stdlib Require Import ZArith Lia.
From S2P Require Import Prelude GoFloat GoString Partition Ecs Aoi Replic CellSim CellSvc CellInv.
Local Open Scope string_scope.
Local Open Scope list_scope.

(** * The stream of a subscription *)

(** The entities a client that applies the chunks in order has on screen. *)
Definition client_apply (known : gset N) (c : option WorldChunk) : gset N :=
  match c with
  | None => known
  | Some (ChunkSnapshot sn) => list_to_set (es_EntityId <$> sn_Entities sn)
  | Some (ChunkDelta d) =>
      (known ∪ list_to_set (es_EntityId <$> d_Changed d)) ∖ list_to_set (d_RemovedEntityIds d)
  end.

(** One iteration, with its iteration orders and the server as it is then. *)
Record Iteration := mkIteration { it_od : iter_order; it_oq : iter_order; it_ov : iter_order; it_server : Server }.

Definition sub_iterate (hypot : f64 -> f64 -> f64) (st : Subscription * gset N) (it : Iteration) : Subscription * gset N :=
  let '(sub, known) := st in
  let '(_, sub, chunk) := subscribe_step hypot (it_od it) (it_oq it) (it_ov it) sub (it_server it) in
  (sub, client_apply known chunk).

(** The entities in the area of interest of [v]. *)
Definition in_view (v : Entity) (s : Server) : gset Entity :=
  match Sim s with
  | Some r => list_to_set (visibleEntitiesAOI order_id (rt_World r) (AOIGrid (LWorld (Loop r))) v replicationAOIRadius)
  | None => ∅
  end.

Definition viewer_present (v : Entity) (it : Iteration) : Prop :=
  exists r p, Sim (it_server it) = Some r /\ PositionOf (rt_World r) v = Some p.

Lemma elem_of_visible o w grid v radius e :
  e ∈ visibleEntitiesAOI o w grid v radius <->
  exists p, PositionOf w v = Some p /\ (e = v \/ e ∈ QueryRadius w (X p) (Z_ p) radius grid).
Proof.
  unfold visibleEntitiesAOI. destruct (PositionOf w v) as [p|].
  - rewrite elem_of_visit, elem_of_elements, elem_of_union, elem_of_singleton. unfold visibleSetFromSlice.
    rewrite elem_of_list_to_set. split; [by exists p|]. by intros (q & [= <-] & ?).
  - rewrite elem_of_nil. split; [done|by intros (? & ? & _)].
Qed.

Lemma visible_order o o' w grid v radius :
  (list_to_set (visibleEntitiesAOI o w grid v radius) : gset Entity) = list_to_set (visibleEntitiesAOI o' w grid v radius).
Proof. apply set_eq. intros e. by rewrite !elem_of_list_to_set, !elem_of_visible. Qed.

Lemma query_fold_positioned w cx cz r2 l out e :
  e ∈ fold_left (query_step w cx cz r2) l out -> e ∈ out \/ is_Some (PositionOf w e).
Proof.
  revert out. induction l as [|x l IH]; intros out; cbn [fold_left]; [by left|]. intros [Hin|?]%IH; [|by right].
  unfold query_step in Hin. destruct (bool_decide _); [by left|].
  destruct (PositionOf w x) as [p|] eqn:Ep; [|by left]. destruct (within _ _ _ _); [|by left].
  apply elem_of_app in Hin as [?| ->%list_elem_of_singleton]; [by left|]. right. by rewrite Ep.
Qed.

Lemma visible_positioned o w grid v radius e :
  e ∈ visibleEntitiesAOI o w grid v radius -> is_Some (PositionOf w e).
Proof.
  intros (p & Hp & [->|Hq])%elem_of_visible; [by rewrite Hp|]. unfold QueryRadius in Hq.
  destruct (flt _ _); [by apply not_elem_of_nil in Hq|].
  apply query_fold_positioned in Hq as [?%not_elem_of_nil|?]; done.
Qed.

Lemma states_sorted_elem w ip l e :
  e ∈ es_EntityId <$> states w ip (SortEntitiesReplicationPriority l ip) <-> e ∈ l /\ is_Some (PositionOf w e).
Proof.
  rewrite states_ids, list_elem_of_filter. destruct (sort_spec ip l) as [_ ->]. tauto.
Qed.

(** The entities a delta announces: nothing out of view, and everything that came into view. *)
Lemma aoi_changed_elem ov dirty cur prev v e :
  v ∈ cur -> (e ∈ aoi_changed ov dirty cur (Some prev) v -> e ∈ cur) /\
  (e ∈ cur -> e ∉ prev -> e ∈ aoi_changed ov dirty cur (Some prev) v).
Proof.
  intros Hv. unfold aoi_changed. rewrite elem_of_app, !list_elem_of_filter, elem_of_visit, elem_of_elements. split.
  - intros [[[?| ->] _]|[_ ?]]; done.
  - intros Hc Hp. destruct (decide (e ∈ dirty)); [left; split; [by left|done]|].
    right. split; [|done]. split; [done|]. by intros [_ ?].
Qed.

(** The client's set after an iteration. *)
Definition tracks (v : Entity) (st : Subscription * gset N) : Prop :=
  viewer (fst st) = v /\ useAOI (fst st) = true /\
  (first (fst st) = false -> prevVisible (fst st) = Some (snd st)).

Lemma sub_iterate_tracks hypot v st it :
  tracks v st -> viewer_present v it ->
  tracks v (sub_iterate hypot st it) /\ snd (sub_iterate hypot st it) = in_view v (it_server it) /\
  first (fst (sub_iterate hypot st it)) = false.
Proof.
  destruct st as [sub known]. intros (Hv & Ha & Hk) (r & p & Hr & Hp). cbn [fst snd] in *.
  unfold sub_iterate, subscribe_step, in_view. rewrite Hr, Hv, Ha, Hp. cbn [andb].
  set (w := rt_World r) in *. set (grid := AOIGrid (LWorld (Loop r))).
  set (vis := visibleEntitiesAOI (it_oq it) w grid v replicationAOIRadius).
  assert (forall e, e ∈ vis -> is_Some (PositionOf w e)) as Hpos by (intros e; apply visible_positioned).
  rewrite (visible_order order_id (it_oq it)). fold vis.
  destruct (first sub) eqn:Ef.
  - cbn [client_apply sn_Entities BuildSnapshotEntities fst snd first prevVisible viewer useAOI].
    assert (list_to_set (es_EntityId <$> states w (Some (isPlayer (it_server it)))
      (SortEntitiesReplicationPriority vis (Some (isPlayer (it_server it))))) = (list_to_set vis : gset N)) as Hset.
    { apply set_eq. intros e. rewrite !elem_of_list_to_set, states_sorted_elem.
      split; [by intros [? _]|]. intros He. split; [done|by apply Hpos]. }
    rewrite Hset. repeat split; done.
  - specialize (Hk eq_refl). rewrite Hk. cbn [TakeDirtyEntities].
    set (cur := visibleSetFromSlice _).
    assert (cur = list_to_set vis) as Hcur by done.
    assert (v ∈ cur) as Hvc.
    { rewrite Hcur. apply elem_of_list_to_set, elem_of_visible. exists p. split; [done|by left]. }
    set (changed := aoi_changed _ _ _ _ _). set (removed := filter _ _).
    set (d := BuildDelta _ _ _ _ _).
    assert (forall e, e ∈ es_EntityId <$> d_Changed d <-> e ∈ changed) as Hch.
    { intros e. unfold d, BuildDelta. cbn [d_Changed]. rewrite states_sorted_elem. split; [by intros [? _]|].
      intros He. split; [done|]. apply (Hpos e). apply (proj1 (aoi_changed_elem _ _ cur known v e Hvc)) in He.
      by rewrite Hcur, elem_of_list_to_set in He. }
    assert (forall e, e ∈ removed <-> e ∈ known /\ e ∉ cur) as Hrm.
    { intros e. unfold removed. rewrite list_elem_of_filter, elem_of_visit, elem_of_elements. tauto. }
    assert ((known ∪ list_to_set (es_EntityId <$> d_Changed d)) ∖ list_to_set removed = list_to_set vis) as Happly.
    { rewrite <- Hcur. apply set_eq. intros e.
      rewrite elem_of_difference, elem_of_union, !elem_of_list_to_set, Hch, Hrm.
      destruct (aoi_changed_elem (it_ov it) (it_od it _ (elements (dirty w))) cur known v e Hvc) as [H1 H2].
      fold changed in H1, H2. destruct (decide (e ∈ cur)), (decide (e ∈ known)); tauto. }
    destruct (Nat.ltb 0 (length (d_Changed d)) || Nat.ltb 0 (length removed)) eqn:Esend;
      cbn [client_apply d_Changed d_RemovedEntityIds fst snd first prevVisible viewer useAOI] in *;
      cbn [length] in *; rewrite ?Esend; cbn [client_apply d_Changed d_RemovedEntityIds fst snd first prevVisible viewer useAOI].
    + rewrite Happly. repeat split; done.
    + apply orb_false_iff in Esend as [E1 E2]. apply Nat.ltb_ge in E1, E2.
      destruct (d_Changed d) as [|? ?] eqn:Ed; [|cbn in E1; lia]. destruct removed; [|cbn in E2; lia].
      cbn in Happly. assert (known = list_to_set vis) as ->.
      { rewrite <- Happly. set_solver. }
      repeat split; done.
Qed.

(** The state after a list of iterations. *)
Definition sub_run (hypot : f64 -> f64 -> f64) (v : Entity) (its : list Iteration) : Subscription * gset N :=
  fold_left (sub_iterate hypot) its (Subscribe v, ∅).

Lemma sub_run_tracks hypot v its : v <> 0%N -> Forall (viewer_present v) its -> tracks v (sub_run hypot v its).
Proof.
  intros Hv Hits. unfold sub_run. assert (tracks v (Subscribe v, ∅)) as H0.
  { split; [done|split; [|done]]. cbn. apply negb_true_iff, N.eqb_neq, Hv. }
  generalize (Subscribe v, ∅ : gset N), H0. induction Hits as [|i its Hi Hits IH]; intros st Hst; [done|].
  cbn [fold_left]. apply IH. by apply sub_iterate_tracks.
Qed.

(** The chunks that the iterations send. *)
Fixpoint sub_chunks (hypot : f64 -> f64 -> f64) (sub : Subscription) (its : list Iteration) : list WorldChunk :=
  match its with
  | [] => []
  | it :: its =>
      let '(_, sub, chunk) := subscribe_step hypot (it_od it) (it_oq it) (it_ov it) sub (it_server it) in
      match chunk with Some c => c :: sub_chunks hypot sub its | None => sub_chunks hypot sub its end
  end.

(** The client's set is what the chunks make of it. *)
Lemma sub_chunks_known hypot sub known its :
  snd (fold_left (sub_iterate hypot) its (sub, known)) = fold_left client_apply (Some <$> sub_chunks hypot sub its) known.
Proof.
  revert sub known. induction its as [|it its IH]; intros sub known; [done|]. cbn [fold_left sub_chunks sub_iterate].
  destruct (subscribe_step _ _ _ _ _ _) as [[s' sub'] [c|]]; cbn [fmap list_fmap fold_left client_apply]; apply IH.
Qed.

(** Whatever happens to the cell between the iterations of a subscription (entities moving in
    and out, dying, the index being rebuilt) and for every iteration order, a client that applies the
    snapshot and the deltas it was sent has on screen exactly the entities in the viewer's area of
    interest at the last iteration, as long as the viewer has a position. *)
Theorem subscription_tracks_view hypot v its it :
  v <> 0%N -> Forall (viewer_present v) (its ++ [it]) ->
  snd (sub_run hypot v (its ++ [it])) = in_view v (it_server it).
Proof.
  intros Hv [Hits Hit]%Forall_app. rewrite Forall_singleton in Hit. unfold sub_run. rewrite fold_left_app. cbn [fold_left].
  by destruct (sub_iterate_tracks hypot v _ it (sub_run_tracks hypot v its Hv Hits) Hit) as (_ & ? & _).
Qed.

Lemma subscription_tracks_view_witness :
  let s := fst (Join "bob" (fresh_server "cell_root")) in
  let it := mkIteration order_id order_id order_rev s in
  snd (sub_run (fun x _ => x) 1%N [it; it]) = in_view 1%N s.
Proof.
  intros s it. apply (subscription_tracks_view (fun x _ => x) 1%N [it] it); [done|].
  assert (viewer_present 1%N it) as H by (eexists _, _; split; reflexivity).
  by repeat constructor.
Defined.

(** * Export and import of the NPCs *)

Lemma restore_lookup w ent :
  pe_EntityId ent <> 0%N ->
  PositionOf (restore_entity w (Some ent)) (pe_EntityId ent) =
    Some (mkPosition (of_f32 (GetX (pe_Position ent))) (of_f32 (GetY (pe_Position ent))) (of_f32 (GetZ (pe_Position ent)))) /\
  alive (restore_entity w (Some ent)) = {[pe_EntityId ent]} ∪ alive w.
Proof.
  intros Hid. cbn [restore_entity]. rewrite (proj2 (N.eqb_neq _ _) Hid).
  edestruct RestorePersistEntity_lookup as (Ha & Hp & _). split; [|exact Ha].
  unfold PositionOf. rewrite Hp. apply lookup_insert_eq.
Qed.

Lemma restore_zero w ent : pe_EntityId ent = 0%N -> restore_entity w (Some ent) = w.
Proof. intros Hid. cbn [restore_entity]. by rewrite (proj2 (N.eqb_eq _ _) Hid). Qed.

Lemma restore_position_other w ent e :
  pe_EntityId ent <> e -> PositionOf (restore_entity w (Some ent)) e = PositionOf w e.
Proof.
  intros Hne. destruct (decide (pe_EntityId ent = 0%N)) as [H0|H0]; [by rewrite restore_zero|].
  cbn [restore_entity]. rewrite (proj2 (N.eqb_neq _ _) H0).
  edestruct RestorePersistEntity_lookup as (_ & Hp & _). unfold PositionOf. rewrite Hp. by rewrite lookup_insert_ne.
Qed.

Lemma restore_list ents w :
  NoDup (pe_EntityId <$> ents) ->
  let w' := fold_left restore_entity (Some <$> ents) w in
  (forall e, e ∈ alive w' <-> e ∈ alive w \/ (e <> 0%N /\ e ∈ pe_EntityId <$> ents)) /\
  (forall e, e ∉ pe_EntityId <$> ents -> PositionOf w' e = PositionOf w e) /\
  (forall ent, ent ∈ ents -> pe_EntityId ent <> 0%N -> PositionOf w' (pe_EntityId ent) =
    Some (mkPosition (of_f32 (GetX (pe_Position ent))) (of_f32 (GetY (pe_Position ent))) (of_f32 (GetZ (pe_Position ent))))).
Proof.
  revert w. induction ents as [|ent ents IH]; intros w Hnd; cbn [fmap list_fmap fold_left] in *.
  { split; [|split; [done|by intros ? ?%not_elem_of_nil]]. intros e. rewrite elem_of_nil. tauto. }
  apply NoDup_cons in Hnd as [Hni Hnd]. destruct (IH (restore_entity w (Some ent)) Hnd) as (Ha & Ho & Hs).
  split; [|split].
  - intros e. rewrite Ha, elem_of_cons. destruct (decide (pe_EntityId ent = 0%N)) as [H0|H0].
    + rewrite restore_zero by done. intuition congruence.
    + rewrite (proj2 (restore_lookup w ent H0)), elem_of_union, elem_of_singleton. intuition congruence.
  - intros e [Hne Hn]%not_elem_of_cons. rewrite Ho by done. by apply restore_position_other.
  - intros x [->|Hx]%elem_of_cons Hx0; [|by apply Hs]. rewrite Ho by done. by apply restore_lookup.
Qed.

Lemma encode_entity_position w e ent pos :
  encode_entity w e = Some ent -> PositionOf w e = Some pos ->
  mkPosition (of_f32 (GetX (pe_Position ent))) (of_f32 (GetY (pe_Position ent))) (of_f32 (GetZ (pe_Position ent))) =
  mkPosition (of_f32 (to_f32 (X pos))) (of_f32 (to_f32 (Y pos))) (of_f32 (to_f32 (Z_ pos))).
Proof.
  unfold encode_entity. intros He Hp. rewrite Hp in He.
  destruct (HealthOf w e) as [h|]; [destruct (flt _ _)|]; injection He as <-; done.
Qed.

(** The persisted state a cell exports. *)
Definition export_state (o : iter_order) (s : Server) (r : Runtime) : CellPersist :=
  Encode o (Some r) (Some (isPlayer s)).

(** The live NPCs of a cell. *)
Definition npc (s : Server) (r : Runtime) (e : Entity) : Prop :=
  e <> 0%N /\ e ∈ alive (rt_World r) /\ isPlayer s e = false /\ is_Some (PositionOf (rt_World r) e).

Lemma encode_entity_is_Some w e : is_Some (encode_entity w e) <-> is_Some (PositionOf w e).
Proof.
  unfold encode_entity. destruct (PositionOf w e); [|by split; intros [? ?]].
  destruct (HealthOf w e) as [h|]; [destruct (flt _ _)|]; split; eauto.
Qed.

Lemma export_entities o s r :
  exists ents, p_Entities (export_state o s r) = Some <$> ents /\ NoDup (pe_EntityId <$> ents) /\
    forall ent, ent ∈ ents <-> exists e, e ∈ alive (rt_World r) /\ isPlayer s e = false /\ encode_entity (rt_World r) e = Some ent.
Proof.
  set (enc := fun e => if isPlayer s e then None else encode_entity (rt_World r) e).
  exists (omap enc (live o (rt_World r))). split; [done|].
  assert (forall e ent, enc e = Some ent <-> isPlayer s e = false /\ encode_entity (rt_World r) e = Some ent) as He.
  { intros e ent. unfold enc. destruct (isPlayer s e); [split; [done|by intros [? _]]|]. split; [done|by intros [_ ?]]. }
  split.
  - pose proof (NoDup_live o (rt_World r)) as Hnd. induction Hnd as [|e l Hl Hnd IH]; [constructor|].
    cbn [omap list_omap]. destruct (enc e) as [ent|] eqn:E; [|done]. cbn [fmap list_fmap].
    apply NoDup_cons. split; [|done]. apply He in E as [_ E]. apply encode_entity_id in E as [E _].
    intros (ent' & Hx & Hin)%list_elem_of_fmap.
    apply list_elem_of_omap in Hin as (e' & Hl' & Hx'). apply He in Hx' as [_ Hx'].
    apply encode_entity_id in Hx' as [Hx' _]. congruence.
  - intros ent. rewrite list_elem_of_omap. split.
    + intros (e & Hl%elem_of_live & Hx). apply He in Hx as [? ?]. by exists e.
    + intros (e & Ha & Hs & Hx). exists e. split; [by apply elem_of_live|by apply He].
Qed.

Lemma exported_ids s r (ents : list CellPersistEntity) :
  (forall ent, ent ∈ ents <-> exists e, e ∈ alive (rt_World r) /\ isPlayer s e = false /\ encode_entity (rt_World r) e = Some ent) ->
  forall e, e ∈ pe_EntityId <$> ents <-> e ∈ alive (rt_World r) /\ isPlayer s e = false /\ is_Some (PositionOf (rt_World r) e).
Proof.
  intros Hin e. rewrite list_elem_of_fmap. split.
  - intros (ent & -> & (x & H1 & H2 & H3)%Hin). by apply encode_entity_id in H3 as [-> ?].
  - intros (H1 & H2 & [ent H3]%encode_entity_is_Some). exists ent.
    split; [by apply encode_entity_id in H3 as [? _]|]. apply Hin. by exists e.
Qed.

(** Decoding what a cell exported into any runtime: its live entities are then exactly the exporting
    cell's live NPCs, each at its position rounded to single precision, and its tick is that cell's. *)
Lemma decode_export o1 o2 src r rd :
  exists rd', Decode o2 true (Some rd) (Some (export_state o1 src r)) = Ok rd' /\
    (forall e, e ∈ alive (rt_World rd') <-> npc src r e) /\
    (forall e pos, npc src r e -> PositionOf (rt_World r) e = Some pos ->
       PositionOf (rt_World rd') e =
         Some (mkPosition (of_f32 (to_f32 (X pos))) (of_f32 (to_f32 (Y pos))) (of_f32 (to_f32 (Z_ pos))))) /\
    TickCount (Stats (Loop rd')) = TickCount (Stats (Loop r)).
Proof.
  unfold Decode. change (p_SchemaVersion (export_state o1 src r)) with SchemaVersion. cbn [Z.eqb negb SchemaVersion Pos.eqb].
  eexists. split; [reflexivity|]. cbn [rt_World Loop LWorld sim_World Stats TickCount]. fold (rt_World rd).
  set (w0 := fold_left _ (live o2 (rt_World rd)) _).
  destruct (export_entities o1 src r) as (ents & He & Hnd & Hin). rewrite He.
  destruct (restore_list ents w0 Hnd) as (Ha & _ & Hs).
  pose proof (exported_ids src r ents Hin) as Hids.
  split; [|split; [|done]].
  - intros e. rewrite Ha, Hids. unfold w0, npc. rewrite destroy_all, elem_of_live. tauto.
  - intros e pos (H0 & H1 & H2 & H3) Hpos. apply encode_entity_is_Some in H3 as [ent Hent].
    pose proof (encode_entity_id _ _ _ Hent) as [Hid _]. rewrite <- Hid, Hs; [|apply Hin; by exists e|congruence].
    f_equal. by eapply encode_entity_position.
Qed.

(** C37: importing into a cell what another cell exported. If players are connected the import is
    refused and nothing changes. Otherwise, when the JSON codec gives the exported state back, the
    import succeeds and the cell then has exactly the exporting cell's live NPCs, none of its players
    and nothing it had before, each at its position rounded to single precision, and its tick. *)
Theorem npc_export_import marshal unmarshal o1 o2 src dst r rd reason reason' json :
  Sim src = Some r -> Sim dst = Some rd ->
  marshal (export_state o1 src r) = Ok json -> unmarshal (trim_space json) = Ok (export_state o1 src r) ->
  trim_space json <> "" ->
  let '(src', exp) := Update marshal unmarshal o1 (Some (UExportNpcPersist reason)) src in
  let '(dst', imp) := Update marshal unmarshal o2 (Some (UImportNpcPersist (Some (ur_NpcExportJson exp, reason')))) dst in
  src' = src /\ ur_Ok exp = true /\
  (playerByID dst <> ∅ -> imp = upd false (lit "import_npc_persist blocked: players connected") /\ dst' = dst) /\
  (playerByID dst = ∅ -> ur_Ok imp = true /\ exists rd', Sim dst' = Some rd' /\
     (forall e, e ∈ alive (rt_World rd') <-> npc src r e) /\
     (forall e pos, npc src r e -> PositionOf (rt_World r) e = Some pos ->
        PositionOf (rt_World rd') e =
          Some (mkPosition (of_f32 (to_f32 (X pos))) (of_f32 (to_f32 (Y pos))) (of_f32 (to_f32 (Z_ pos))))) /\
     TickCount (Stats (Loop rd')) = TickCount (Stats (Loop r))).
Proof.
  intros Hr Hrd Hm Hu Hj. cbn [Update]. rewrite Hr. fold (export_state o1 src r). rewrite Hm. cbn [ur_NpcExportJson].
  rewrite Hrd. destruct (0 <? PlayerCount dst)%Z eqn:Ec.
  { split; [done|split; [done|split; [done|]]]. intros He. exfalso. unfold PlayerCount in Ec.
    rewrite He, map_size_empty in Ec. done. }
  apply PlayerCount_0 in Ec. rewrite (proj2 (String.eqb_neq _ _) Hj), Hu.
  destruct (decode_export o1 o2 src r rd) as (rd' & -> & H1 & H2 & H3).
  split; [done|split; [done|split; [done|]]]. intros _. split; [done|]. by exists rd'.
Qed.

(** A codec that knows one message. *)
Lemma npc_export_import_witness :
  let src := fresh_server "cell_q0" in let dst := fresh_server "cell_q1" in
  let codec := fun p : CellPersist => Ok "{}" in
  let decode := fun _ : string => Ok (export_state order_id src NewRuntime) in
  exists dst' imp, Update codec decode order_rev (Some (UImportNpcPersist (Some ("{}", "")))) dst = (dst', imp) /\ ur_Ok imp = true.
Proof.
  intros src dst codec decode.
  pose proof (npc_export_import codec decode order_id order_rev src dst NewRuntime NewRuntime None "" "{}"
    eq_refl eq_refl eq_refl eq_refl ltac:(done)) as H.
  destruct (Update codec decode order_id _ src) as [src' exp] eqn:E1. injection E1 as _ <-. cbn [ur_NpcExportJson] in H.
  destruct (Update codec decode order_rev _ dst) as [dst' imp]. exists dst', imp. split; [done|].
  destruct H as (_ & _ & _ & H). by apply H.
Defined.

(** * Interleavings *)

(** Two joins of one player whose critical sections interleave: both pass the check, both spawn. *)
Definition joins_interleaved (pid : string) (s : Server) : option (Entity * Entity * Server) :=
  match join_check pid s, join_check pid s with
  | Continue _, Continue _ =>
      let '(e1, s) := join_spawn s in
      let '(e2, s) := join_spawn s in
      Some (e1, e2, register_player pid e2 (register_player pid e1 s))
  | _, _ => None
  end.

Lemma joins_interleaved_orphan pid s r :
  server_wf s -> Sim s = Some r -> (nextID (rt_World r) < 2 ^ 64 - 2)%N ->
  playerByID s !! pid = None -> splitDrain s = false ->
  exists e1 e2 s', joins_interleaved pid s = Some (e1, e2, s') /\ e1 <> e2 /\
    isPlayer s' e1 = true /\ e1 ∈ default ∅ (alive <$> the_world s') /\
    (forall pid', playerByID s' !! pid' <> Some e1).
Proof.
  intros Hs Hr Hn Hp Hd. unfold joins_interleaved, join_check. rewrite Hp, Hd.
  unfold join_spawn at 1. rewrite Hr. unfold join_spawn_world at 1.
  destruct (swf_sim s Hs r Hr) as [Hw Hb].
  destruct (create_fresh (rt_World r) Hw) as [Hc Hf]; [lia|]. rewrite Hc.
  unfold join_spawn. cbn [Sim set_Sim]. rewrite set_world_id. unfold join_spawn_world, CreateEntity.
  cbn [nextID SetHealth SetVelocity SetPosition markDirty with_dirty with_healths with_velocities with_positions with_alive with_nextID].
  rewrite uint64_id by lia. eexists _, _, _. split; [reflexivity|]. split; [lia|]. split; [|split].
  - unfold isPlayer. apply bool_decide_eq_true_2. cbn. set_solver.
  - cbn. set_solver.
  - intros pid'. cbn. rewrite lookup_insert_Some, lookup_insert_Some. intros [[_ ?]|[Hne [[? _]|[_ H]]]]; [lia|done|].
    destruct (Hb _ _ H) as [Ha _]. done.
Qed.

(** Two subscriptions of one cell share the set of dirty entities: what the first reports, the second
    is never told. *)
Definition two_subscribers : option WorldChunk * option WorldChunk :=
  let w := SetHealth 1%N (mkHealth f1 (f64_of_Z 2)) (SetPosition 1%N (mkPosition f0 f0 f0) (snd (CreateEntity NewWorld))) in
  let s := set_Sim (Some (set_world w NewRuntime)) (fresh_server "cell_root") in
  let sub := mkSub 0 false None 0 false replicationIntervalDefault in
  let '(s, _, c1) := subscribe_step (fun x _ => x) order_id order_id order_id sub s in
  let '(_, _, c2) := subscribe_step (fun x _ => x) order_id order_id order_id sub s in
  (c1, c2).

Example second_subscriber_misses_change :
  match two_subscribers with
  | (Some (ChunkDelta d), None) => es_EntityId <$> d_Changed d = [1%N]
  | _ => False
  end.
Proof. vm_compute. reflexivity. Qed.

(** The token of an accepted handoff outlives the player: after the player left the target, accepting
    the payload again answers with an entity that is gone. *)
Definition stale_accept : option (AcceptResponse * bool) :=
  let pl := mkHandoff "bob" None None f0 f0 0 "t1" "a" "b" 1 in
  let '(s, _) := AcceptPlayerHandoff (Some pl) (fresh_server "cell_root") in
  let '(s, _) := Leave "bob" s in
  let '(s, acc) := AcceptPlayerHandoff (Some pl) s in
  w ← the_world s; Some (acc, bool_decide (ar_EntityId acc ∈ alive w)).

Example accept_after_leave_is_stale :
  stale_accept = Some (mkAccResp true "already_accepted" 1, false).
Proof. vm_compute. reflexivity. Qed.
