(* ===== verification/Transfer.v ===== *)
(** A player handoff driven from outside, call by call, with retries: the joint invariant of the source
    and the target cell which the three calls of [internal/grpc/cellsvc/server.go] keep in any state the
    calls of one handoff lead to, and that every call can be made again. *)
From Stdlib Require Import ZArith Lia.
From S2P Require Import Prelude GoFloat GoString Partition Ecs Aoi Replic CellSim CellSvc CellInv Handoff.
Local Open Scope string_scope.
Local Open Scope list_scope.

(** * What pruning keeps *)

Lemma prune_one_keeps now s pid tok tok' :
  tok' <> tok -> preparedByTk (prune_one now s (pid, tok')) !! tok = preparedByTk s !! tok.
Proof.
  intros Hne. unfold prune_one. destruct (match preparedByTk s !! tok' with Some _ => _ | None => _ end); [|done].
  cbn. destruct (String.eqb tok' ""); [done|]. by apply lookup_delete_ne.
Qed.

Lemma prune_fold_keeps now l s tok :
  tok ∉ l.*2 -> preparedByTk (fold_left (prune_one now) l s) !! tok = preparedByTk s !! tok.
Proof.
  revert s. induction l as [|[pid tok'] l IH]; intros s Hni; [done|]. cbn [fold_left].
  cbn [fmap list_fmap snd] in Hni. apply not_elem_of_cons in Hni as [Hne Hni].
  rewrite IH by done. apply prune_one_keeps. congruence.
Qed.

(** Finalized handoffs are not pruned. *)
Lemma prune_keeps_finalized o now s tok pp :
  server_wf s -> preparedByTk s !! tok = Some pp -> pp_finalized pp = true ->
  preparedByTk (pruneStalePreparedLocked o now s) !! tok = Some pp.
Proof.
  intros Hs Hpp Hfin. unfold pruneStalePreparedLocked. rewrite prune_fold_keeps; [done|].
  intros Hin. apply list_elem_of_fmap in Hin as ([pid tok'] & Heq & Hin). cbn in Heq. subst tok'.
  apply elem_of_visit, elem_of_map_to_list in Hin.
  destruct (ho_flight _ _ _ _ (swf_handoff s Hs) _ _ Hin) as (_ & q & Hq & _ & Hf). congruence.
Qed.

(** * The joint invariant *)

(** The states of two cells between which the player [pid] is moved under [tok]: nobody else uses the
    token, no other handoff of the player is in flight at the source, the target knows the player once
    it accepted the token, and the source has let the player go only after that. *)
Record transfer_ok (pid tok : string) (src dst : Server) : Prop := {
  to_src : server_wf src; to_dst : server_wf dst;
  to_sim : Sim src <> None; to_simd : Sim dst <> None;
  to_room : acceptedByTk dst !! tok = None -> room_for_entity dst;
  to_entry pp : preparedByTk src !! tok = Some pp ->
    pp_playerID pp = pid /\ (forall pl, pp_payload pp = Some pl -> h_PlayerId pl = pid) /\
    (pp_finalized pp = true -> is_Some (acceptedByTk dst !! tok) /\ playerByID src !! pid = None);
  to_flight tok' : preparedByID src !! pid = Some tok' -> tok' = tok;
  to_accepted e : acceptedByTk dst !! tok = Some e -> playerByID dst !! pid = Some e;
  to_nonzero e : playerByID dst !! pid = Some e -> e <> 0%N;
  to_somewhere : is_Some (playerByID src !! pid) \/
    exists pp, preparedByTk src !! tok = Some pp /\ pp_finalized pp = true }.

(** The player is registered at the source or at the target. *)
Lemma transfer_keeps_player pid tok src dst :
  transfer_ok pid tok src dst -> is_Some (playerByID src !! pid) \/ is_Some (playerByID dst !! pid).
Proof.
  intros H. destruct (to_somewhere _ _ _ _ H) as [?|(pp & Hpp & Hfin)]; [by left|right].
  destruct (to_entry _ _ _ _ H pp Hpp) as (_ & _ & Hf). destruct (Hf Hfin) as [[e He] _].
  exists e. by apply (to_accepted _ _ _ _ H).
Qed.

Section Calls.
#[local] Set Default Proof Using "Type*".
Context (player_id target_cell_id handoff_token : string).
Let pid := trim_space player_id.
Let target := trim_space target_cell_id.
Let tok := trim_space handoff_token.
Context (Hpid : pid <> "") (Htarget : target <> "") (Htok : tok <> "").

(** A prepare answers with a payload for the player, and the token is prepared. *)
Lemma transfer_prepare o n1 n2 n3 src dst :
  transfer_ok pid tok src dst ->
  let '(src', r) := PreparePlayerHandoff o n1 n2 n3 player_id target_cell_id handoff_token src in
  transfer_ok pid tok src' dst /\ pr_Ok r = true /\ is_Some (preparedByTk src' !! tok) /\
  exists pl, pr_Payload r = Some pl /\ h_PlayerId pl = pid.
Proof.
  intros H. pose proof (to_src _ _ _ _ H) as Hs. destruct (Sim src) as [r|] eqn:Er; [|by destruct (to_sim _ _ _ _ H)].
  pose proof (Prepare_wf o n1 n2 n3 player_id target_cell_id handoff_token src Hs) as Hwf.
  destruct (prune_spec o n1 src (swf_handoff src Hs)) as (Hho & Hsame & Hid & Htk).
  pose proof (prune_keeps_finalized o n1 src tok) as Hkeep.
  set (s0 := pruneStalePreparedLocked o n1 src) in *. destruct Hsame as (Esim & Epl & Ebyid & _).
  destruct (preparedByTk s0 !! tok) as [pp|] eqn:Epp.
  - (* already prepared *)
    assert (preparedByTk src !! tok = Some pp) as Hpp by by apply Htk.
    destruct (ho_entry _ _ _ _ (swf_handoff src Hs) tok pp Hpp) as (_ & _ & [pl Hpl] & _).
    assert (PreparePlayerHandoff o n1 n2 n3 player_id target_cell_id handoff_token src =
      (s0, mkPrepResp true "already_prepared" (Some pl))) as E.
    { unfold PreparePlayerHandoff. fold pid target tok.
      rewrite (proj2 (String.eqb_neq _ _) Hpid), (proj2 (String.eqb_neq _ _) Htarget), (proj2 (String.eqb_neq _ _) Htok).
      cbn [orb]. rewrite Er. unfold prepare_begin. fold s0. rewrite Epp. destruct pp as [? ? ? ? ? pay]. cbn in Hpl. by subst pay. }
    rewrite E in Hwf |- *. cbn [fst] in Hwf. destruct (to_entry _ _ _ _ H pp Hpp) as (Hp1 & Hp2 & Hp3).
    split; [|split; [done|split; [by rewrite Epp|exists pl; split; [done|by apply Hp2]]]].
    destruct H. split; try done.
    + by rewrite Esim, Er.
    + intros q Hq. rewrite Ebyid. apply to_entry0. by apply Htk.
    + intros t Ht. apply to_flight0. by apply Hid in Ht as [? _].
    + rewrite Ebyid. destruct to_somewhere0 as [?|(q & Hq & Hf)]; [by left|right]. exists q. split; [|done]. rewrite Epp. by apply Hkeep.
  - (* a fresh prepare *)
    assert (preparedByID s0 !! pid = None) as Hid0.
    { destruct (preparedByID s0 !! pid) as [t|] eqn:E; [|done].
      assert (t = tok) as -> by (apply (to_flight _ _ _ _ H); by apply Hid in E as [? _]).
      destruct (ho_flight _ _ _ _ Hho _ _ E) as (_ & q & Hq & _). congruence. }
    destruct (to_somewhere _ _ _ _ H) as [[e He]|(q & Hq & Hf)]; [|by pose proof (Hkeep q Hs Hq Hf)].
    destruct (swf_sim src Hs r Er) as [Hw Hb]. destruct (Hb pid e He) as [_ [pos Hpos]].
    pose proof (prepare_pruned player_id handoff_token Hpid Htok target_cell_id o n1 n2 n3 src r e pos Htarget Hs Er He Hpos
      Epp Hid0) as E. fold pid tok target s0 in E.
    rewrite E in Hwf |- *. cbn [fst] in Hwf. clear E.
    split; [|split; [done|split; [cbn; rewrite lookup_insert_eq; eauto|by eexists]]].
    destruct H. split; try done.
    + cbn. by rewrite Esim, Er.
    + cbn. intros q [[_ <-]|[Hn _]]%lookup_insert_Some; [|done]. split; [done|]. by split; [intros pl [= <-]|].
    + cbn. intros t. rewrite lookup_insert_eq. by intros [= ->].
    + left. cbn. rewrite Ebyid, He. eauto.
Qed.

(** An accept of such a payload succeeds. *)
Lemma transfer_accept payload src dst :
  transfer_ok pid tok src dst -> h_PlayerId payload = pid -> h_HandoffToken payload = tok ->
  let '(dst', r) := AcceptPlayerHandoff (Some payload) dst in
  transfer_ok pid tok src dst' /\ ar_Ok r = true /\ ar_EntityId r <> 0%N /\ acceptedByTk dst' !! tok = Some (ar_EntityId r).
Proof.
  intros H Hp Ht. destruct (Sim dst) as [r|] eqn:Er; [|by destruct (to_simd _ _ _ _ H)].
  destruct (acceptedByTk dst !! tok) as [e|] eqn:Eacc.
  - assert (AcceptPlayerHandoff (Some payload) dst = (dst, mkAccResp true "already_accepted" e)) as ->.
    { unfold AcceptPlayerHandoff. rewrite Hp, Ht. unfold pid, tok. rewrite !trim_space_idem. fold pid tok.
      rewrite (proj2 (String.eqb_neq _ _) Hpid), (proj2 (String.eqb_neq _ _) Htok). cbn [orb]. rewrite Er.
      unfold accept_begin. by rewrite Eacc. }
    split; [done|]. split; [done|]. split; [|done]. apply (to_nonzero _ _ _ _ H), (to_accepted _ _ _ _ H), Eacc.
  - pose proof (to_room _ _ _ _ H Eacc) as Hroom. pose proof (Accept_wf (Some payload) dst (to_dst _ _ _ _ H) Hroom) as Hwf.
    destruct (accept_success player_id handoff_token Hpid Htok payload dst r) as (w & E & _); try done.
    { by apply H. }
    fold pid tok in E. set (e := default _ _) in E. rewrite E in Hwf |- *. cbn [fst] in Hwf. clear E.
    assert (e <> 0%N) as He0.
    { unfold e. destruct (playerByID dst !! pid) as [x|] eqn:Ex; [by apply (to_nonzero _ _ _ _ H)|]. cbn [default].
      destruct (swf_sim dst (to_dst _ _ _ _ H) r Er) as [Hw _].
      destruct (create_fresh (rt_World r) Hw (Hroom r Er)) as [-> _]. cbn. lia. }
    split; [|split; [done|split; [done|apply lookup_insert_eq]]].
    destruct H. split; try done.
    + cbn. intros Hn. by rewrite lookup_insert_eq in Hn.
    + intros pp Hpp. destruct (to_entry0 pp Hpp) as (? & ? & Hf). split; [done|]. split; [done|].
      intros Hfin. destruct (Hf Hfin) as [[x Hx] ?]. by rewrite Eacc in Hx.
    + cbn. intros x. rewrite !lookup_insert_eq. by intros [= ->].
    + cbn. intros x. rewrite lookup_insert_eq. by intros [= <-].
Qed.

(** A finalize after that succeeds and the source has let the player go. *)
Lemma transfer_finalize src dst :
  transfer_ok pid tok src dst -> is_Some (preparedByTk src !! tok) -> is_Some (acceptedByTk dst !! tok) ->
  let '(src', r) := FinalizePlayerHandoff player_id handoff_token src in
  transfer_ok pid tok src' dst /\ fr_Ok r = true /\ playerByID src' !! pid = None.
Proof.
  intros H [pp Hpp] Hacc. destruct (Sim src) as [r|] eqn:Er; [|by destruct (to_sim _ _ _ _ H)].
  pose proof (to_src _ _ _ _ H) as Hs. destruct (to_entry _ _ _ _ H pp Hpp) as (Hp1 & Hp2 & Hp3).
  pose proof (Finalize_wf player_id handoff_token src Hs) as Hwf.
  destruct (pp_finalized pp) eqn:Efin.
  - assert (FinalizePlayerHandoff player_id handoff_token src = (src, mkFinResp true "already_finalized")) as ->.
    { unfold FinalizePlayerHandoff. fold pid tok.
      rewrite (proj2 (String.eqb_neq _ _) Hpid), (proj2 (String.eqb_neq _ _) Htok). cbn [orb]. rewrite Er.
      unfold finalize_section. by rewrite Hpp, Hp1, String.eqb_refl, Efin. }
    split; [done|]. split; [done|]. by apply Hp3.
  - destruct (to_somewhere _ _ _ _ H) as [[e He]|(q & Hq & Hf)]; [|congruence].
    destruct (finalize_success player_id handoff_token Hpid Htok src r e pp) as (f & byid & bytk & E & Hf & q & Hq & Hq1 & Hq2); try done.
    fold pid tok in E. revert Hwf. rewrite E. cbn [fst]. intros Hwf.
    assert (bytk = <[tok := mkPrepared (pp_playerID pp) (pp_token pp) (pp_entityID pp) true (pp_createdAt pp) (pp_payload pp)]> (preparedByTk src)
            /\ byid = delete pid (preparedByID src)) as [-> ->].
    { unfold FinalizePlayerHandoff in E. fold pid tok in E.
      rewrite (proj2 (String.eqb_neq _ _) Hpid), (proj2 (String.eqb_neq _ _) Htok) in E. cbn [orb] in E. rewrite Er in E.
      unfold finalize_section in E. rewrite Hpp, Hp1, String.eqb_refl, Efin in E. cbn in E. rewrite He in E. cbn in E.
      rewrite Hp1. by injection E as _ <- <-. }
    split; [|split; [done|apply lookup_delete_eq]].
    destruct H. split; try done.
    + cbn. by rewrite Er.
    + cbn. intros p [[_ <-]|[Hn _]]%lookup_insert_Some; [|done]. cbn. split; [done|]. split; [done|].
      intros _. split; [done|apply lookup_delete_eq].
    + cbn. intros t Ht. by rewrite lookup_delete_eq in Ht.
    + right. cbn. eexists. rewrite lookup_insert_eq. by split.
Qed.
End Calls.
