(* ===== verification/RegistrySvc.v ===== *)
(** [internal/grpc/registrysvc] ([server.go], [forward_cell.go], [forward_player.go],
    [forward_merge.go]): the registry service of the grid manager, which drives the cell servers of
    [CellSvc.v] over a network that may lose a request or a reply. *)
From Stdlib Require Import Ascii ZArith Lia.
From S2P Require Import Prelude Effects GoFloat GoString Partition Registry Ecs Aoi Replic CellSim CellSvc.
Local Open Scope string_scope.
Local Open Scope list_scope.

(** * The cluster *)

Record MergeEvent := mkMergeEvent {
  ev_ParentCellID : string; ev_Stage : string; ev_Message : text; ev_ChildCellID : string; ev_Successful : bool }.

Record MergeState := mkMergeState {
  ms_parent : string; ms_removed : list string; ms_handoff_enabled : bool; ms_handoff_count : Z }.

(** The grid manager's own state ([Server]: [Store], [NATS], [mergeInFlight]), the cell servers by
    endpoint, Redis, and the number of remote calls made. [Store] and [NATS] may be nil. *)
Record Cluster (C : Type) := mkCluster {
  Store : option C;
  NATS : bool;
  mergeInFlight : gset string;
  cellServers : gmap string Server;
  redis : gmap string MergeState;
  published : list MergeEvent;
  calls : nat }.
Arguments mkCluster {C} _ _ _ _ _ _ _.
Arguments Store {C} _.
Arguments NATS {C} _.
Arguments mergeInFlight {C} _.
Arguments cellServers {C} _.
Arguments redis {C} _.
Arguments published {C} _.
Arguments calls {C} _.

(** The environment: the network, the clock and the map orders at each call, the JSON codec, the
    client constructor and the process environment. *)
Record Env := mkEnv {
  net : nat -> Outcome;
  clock : nat -> Z;
  order : nat -> iter_order;
  marshal : CellPersist -> result string;
  unmarshal : string -> result CellPersist;
  NewClient : string -> result unit;
  unreachable : error;
  env_handoff : string;
  env_handoff_max : string;
  RedisAddr : string }.

(** A computation on the cluster that may fail. *)
Abbreviation M C := (St (Cluster C)).

(** The fields of the cluster. *)
Definition set_servers {C} (s : gmap string Server) (cl : Cluster C) : Cluster C :=
  mkCluster (Store cl) (NATS cl) (mergeInFlight cl) s (redis cl) (published cl) (calls cl).
Definition set_inflight {C} (m : gset string) (cl : Cluster C) : Cluster C :=
  mkCluster (Store cl) (NATS cl) m (cellServers cl) (redis cl) (published cl) (calls cl).
Definition set_store {C} (c : option C) (cl : Cluster C) : Cluster C :=
  mkCluster c (NATS cl) (mergeInFlight cl) (cellServers cl) (redis cl) (published cl) (calls cl).
Definition set_redis {C} (r : gmap string MergeState) (cl : Cluster C) : Cluster C :=
  mkCluster (Store cl) (NATS cl) (mergeInFlight cl) (cellServers cl) r (published cl) (calls cl).
Definition add_event {C} (ev : MergeEvent) (cl : Cluster C) : Cluster C :=
  mkCluster (Store cl) (NATS cl) (mergeInFlight cl) (cellServers cl) (redis cl) (published cl ++ [ev]) (calls cl).
Definition count_call {C} (cl : Cluster C) : Cluster C :=
  mkCluster (Store cl) (NATS cl) (mergeInFlight cl) (cellServers cl) (redis cl) (published cl) (calls cl + 1).

(** * The process environment *)

Definition mergePlayerHandoffEnabled (env : Env) : bool :=
  let raw := trim_space (env_handoff env) in
  EqualFold raw "1" || EqualFold raw "true" || EqualFold raw "yes".

Definition mergePlayerHandoffMaxPlayers (env : Env) : Z :=
  let raw := trim_space (env_handoff_max env) in
  if String.eqb raw "" then 32
  else match atoi raw with
       | Some n => if (n <=? 0)%Z then 32 else n
       | None => 32
       end.

Fixpoint unique_ids (seen : gset string) (l : list string) : list string :=
  match l with
  | [] => []
  | raw :: l' =>
      let id := trim_space raw in
      if String.eqb id "" then unique_ids seen l'
      else if bool_decide (id ∈ seen) then unique_ids seen l'
      else id :: unique_ids ({[id]} ∪ seen) l'
  end.

Definition uniqueCellIDs (l : list string) : list string := unique_ids ∅ l.

(** * Calls to the cells *)

Section Service.
Context {C : Type} `{!Catalog C} (env : Env).

(** A unary call of a cell server behind an endpoint. *)
Definition call_cell {A} (ep : string) (handler : nat -> Server -> Server * A) : M C A := fun cl =>
  let n := calls cl in
  let cl := count_call cl in
  match net env n with
  | LostRequest e => (Err e, cl)
  | o =>
      match cellServers cl !! ep with
      | None => (Err (unreachable env), cl)
      | Some s =>
          let '(s, a) := handler n s in
          let cl := set_servers (<[ep := s]> (cellServers cl)) cl in
          match o with LostReply e => (Err e, cl) | _ => (Ok a, cl) end
      end
  end.

(** The order in which the next call sees the maps. *)
Definition now_order : M C iter_order := fun cl => (Ok (order env (calls cl)), cl).

Definition find_cell (cellID : string) : M C (option CellSpec) := fun cl =>
  match Store cl with
  | None => (Err (statusf FailedPrecondition "no catalog" []), cl)
  | Some c =>
      match FindCellByID (order env (calls cl)) c cellID with
      | Ok r => (Ok r, cl)
      | Err e => (Err (mkError (Some Unavailable) (error_string e)), cl)
      end
  end.

(** The client is its endpoint. *)
Definition dialCellClient (cellID : string) : M C (string * CellSpec) :=
  found ← find_cell cellID;
  match found with
  | None => throw (statusf NotFound "cell not found: %s" [AStr cellID])
  | Some spec =>
      let ep := GrpcEndpoint spec in
      if String.eqb ep "" then throw (statusf FailedPrecondition "cell has empty grpc_endpoint" [])
      else match NewClient env ep with
           | Err e => throw (statusf Unavailable "dial cell: %v" [ATxt (error_string e)])
           | Ok _ => mret (ep, spec)
           end
  end.

Definition doForwardCellUpdate (cellID : string) (upd : option UpdatePayload) : M C UpdateResponse :=
  match upd with
  | None => throw (statusf InvalidArgument "nil update" [])
  | Some u =>
      if String.eqb cellID "" then throw (statusf InvalidArgument "empty cell_id" [])
      else
        conn ← dialCellClient cellID;
        call_cell (fst conn) (fun n s => Update (marshal env) (unmarshal env) (order env n) (Some u) s)
  end.

(** * The registry's own calls *)

Record RegisterResponse := mkRegResp { rr_Ok : bool; rr_ErrorMessage : text }.

(** A method of a nil [Store]: the handler panics and answers nothing. *)
Definition nil_dereference : error := errorf "runtime error: invalid memory address or nil pointer dereference" [].

Definition SvcRegister (req : option (option CellSpec)) : M C RegisterResponse := fun cl =>
  match req with
  | Some (Some cell) =>
      match Store cl with
      | None => (Err nil_dereference, cl)
      | Some c =>
          match RegisterCell c (Some cell) with
          | Err e => (Ok (mkRegResp false (error_string e)), cl)
          | Ok c' => (Ok (mkRegResp true (lit "")), set_store (Some c') cl)
          end
      end
  | _ => (Ok (mkRegResp false (lit "empty request")), cl)
  end.

Definition SvcListCells : M C (list (option CellSpec)) := fun cl =>
  match Store cl with
  | None => (Err nil_dereference, cl)
  | Some c =>
      match Registry.ListCells (order env (calls cl)) c with
      | Ok l => (Ok l, cl)
      | Err e => (Err (mkError (Some Unavailable) (error_string e)), cl)
      end
  end.

(** [None] answers [Found: false]. *)
Definition ResolvePosition (req : option (f64 * f64)) : M C (option CellSpec) := fun cl =>
  match req with
  | None => (Err (statusf InvalidArgument "empty request" []), cl)
  | Some (x, z) =>
      match Store cl with
      | None => (Err nil_dereference, cl)
      | Some c =>
          match Resolve (order env (calls cl)) c x z with
          | Err e => (Err (mkError (Some Unavailable) (error_string e)), cl)
          | Ok r => (Ok r, cl)
          end
      end
  end.

Definition ForwardCellUpdate (req : option (string * option UpdatePayload)) : M C UpdateResponse :=
  match req with
  | Some (cellID, Some u) =>
      if String.eqb cellID "" then throw (statusf InvalidArgument "empty cell_id" [])
      else doForwardCellUpdate cellID (Some u)
  | _ => throw (statusf InvalidArgument "empty request or update" [])
  end.

(** * Handoffs *)

Record NpcHandoffResponse := mkNpcResp { nh_Message : text; nh_Count : Z }.

Record NpcHandoffRequest := mkNpcReq { nr_ParentCellId : string; nr_ChildCellId : string; nr_Reason : string }.

Definition ForwardNpcHandoff (req : option NpcHandoffRequest) : M C NpcHandoffResponse :=
  match req with None => throw (statusf InvalidArgument "empty request" []) | Some req =>
  let parent := nr_ParentCellId req in
  let child := nr_ChildCellId req in
  let reason := nr_Reason req in
  let reason := if String.eqb reason "" then "ForwardNpcHandoff" else reason in
  _ ← guard_fail (String.eqb parent "" || String.eqb child "")
        (statusf InvalidArgument "parent_cell_id and child_cell_id required" []);
  _ ← guard_fail (String.eqb parent child) (statusf InvalidArgument "parent_cell_id must differ from child_cell_id" []);
  exp ← doForwardCellUpdate parent (Some (UExportNpcPersist (Some reason)));
  _ ← guard_fail (negb (ur_Ok exp)) (statusf FailedPrecondition "parent export failed: %s" [ATxt (ur_Message exp)]);
  let json := ur_NpcExportJson exp in
  _ ← guard_fail (String.eqb json "") (statusf FailedPrecondition "empty npc_export_json from parent" []);
  p ← match unmarshal env json with
      | Ok p => mret p
      | Err e => throw (statusf Internal "parent export json: %v" [ATxt (error_string e)])
      end;
  imp ← doForwardCellUpdate child (Some (UImportNpcPersist (Some (json, (reason +:+ "/import")%string))));
  _ ← guard_fail (negb (ur_Ok imp)) (statusf FailedPrecondition "child import failed: %s" [ATxt (ur_Message imp)]);
  mret (mkNpcResp (Fmt "handoff: parent export ok; child import ok (%s -> %s)" [ATxt (ur_Message exp); ATxt (ur_Message imp)])
          (int32 (Z.of_nat (length (p_Entities p)))))
  end.

(** [payload.SourceCellId = ...; payload.TargetCellId = ...; payload.HandoffToken = token]. The reply
    was decoded from the wire, so the payload kept by the parent is not touched. *)
Definition stamp (source target token : string) (p : PlayerHandoffState) : PlayerHandoffState :=
  mkHandoff (h_PlayerId p) (h_Position p) (h_Velocity p) (h_HpCur p) (h_HpMax p) (h_Tick p) token source target (h_SourceEntityId p).

(** The reason is only logged. The answer is the entity the player has at the child. *)
Record PlayerHandoffRequest := mkPlayerReq {
  pq_ParentCellId : string; pq_ChildCellId : string; pq_PlayerId : string; pq_HandoffToken : string }.

Definition ForwardPlayerHandoff (req : option PlayerHandoffRequest) : M C N :=
  match req with None => throw (statusf InvalidArgument "empty request" []) | Some req =>
  let parentID := trim_space (pq_ParentCellId req) in
  let childID := trim_space (pq_ChildCellId req) in
  let playerID := trim_space (pq_PlayerId req) in
  let token := trim_space (pq_HandoffToken req) in
  _ ← guard_fail (String.eqb parentID "" || String.eqb childID "" || String.eqb playerID "" || String.eqb token "")
        (statusf InvalidArgument "parent_cell_id, child_cell_id, player_id, handoff_token required" []);
  _ ← guard_fail (String.eqb parentID childID) (statusf InvalidArgument "parent_cell_id must differ from child_cell_id" []);
  parent ← dialCellClient parentID;
  child ← dialCellClient childID;
  prep ← call_cell (fst parent) (fun n s =>
           PreparePlayerHandoff (order env n) (clock env n) (clock env n) (clock env n) playerID childID token s);
  payload ← match pr_Payload prep with
            | Some p => if pr_Ok prep then mret p
                        else throw (statusf FailedPrecondition "prepare failed: %s" [AStr (pr_Message prep)])
            | None => throw (statusf FailedPrecondition "prepare failed: %s" [AStr (pr_Message prep)])
            end;
  let payload := stamp (Id (snd parent)) (Id (snd child)) token payload in
  acc ← call_cell (fst child) (fun _ s => AcceptPlayerHandoff (Some payload) s);
  _ ← guard_fail (negb (ar_Ok acc) || (ar_EntityId acc =? 0)%N)
        (statusf FailedPrecondition "accept failed: %s" [AStr (ar_Message acc)]);
  fin ← call_cell (fst parent) (fun _ s => FinalizePlayerHandoff playerID token s);
  _ ← guard_fail (negb (fr_Ok fin)) (statusf FailedPrecondition "finalize failed: %s" [AStr (fr_Message fin)]);
  mret (ar_EntityId acc)
  end.

(** * Merging four cells into their parent *)

Definition publishMergeWorkflowEvent (ev : MergeEvent) : M C unit := fun cl =>
  (Ok tt, if NATS cl then add_event ev cl else cl).

Definition event (parent stage : string) (msg : text) (child : string) (ok : bool) : M C unit :=
  publishMergeWorkflowEvent (mkMergeEvent parent stage msg child ok).

Definition tryAcquireMerge (parentCellID : string) : M C bool := fun cl =>
  let p := trim_space parentCellID in
  if String.eqb p "" then (Ok false, cl)
  else if bool_decide (p ∈ mergeInFlight cl) then (Ok false, cl)
  else (Ok true, set_inflight ({[p]} ∪ mergeInFlight cl) cl).

Definition releaseMerge (parentCellID : string) : M C unit := fun cl =>
  let p := trim_space parentCellID in
  (Ok tt, if String.eqb p "" then cl else set_inflight (mergeInFlight cl ∖ {[p]}) cl).

Definition pingPlayerCount (cellID : string) : M C Z :=
  found ← find_cell cellID;
  match found with
  | None => throw (statusf NotFound "cell not found or endpoint empty: %s" [AStr cellID])
  | Some spec =>
      if String.eqb (trim_space (GrpcEndpoint spec)) ""
      then throw (statusf NotFound "cell not found or endpoint empty: %s" [AStr cellID])
      else match NewClient env (GrpcEndpoint spec) with
           | Err e => throw (statusf Unavailable "dial %s: %v" [AStr cellID; ATxt (error_string e)])
           | Ok _ =>
               r ← call_cell (GrpcEndpoint spec) (fun n s => (s, Ping (clock env n) s));
               mret (pi_PlayerCount r)
           end
  end.

Definition listMergePlayerCandidates (childID : string) : M C (list (string * string)) :=
  conn ← dialCellClient childID;
  cands ← call_cell (fst conn) (fun n s => (s, ListMigrationCandidates (order env n) (order env n) s));
  mret (omap (fun cand =>
    if negb (mc_IsPlayer cand) then None
    else let pid := trim_space (mc_PlayerId cand) in
         if String.eqb pid "" then None else Some (childID, pid)) cands).

Fixpoint list_all_candidates (childIDs : list string) : M C (list (string * string)) :=
  match childIDs with
  | [] => mret []
  | c :: rest => here ← listMergePlayerCandidates c; more ← list_all_candidates rest; mret (here ++ more)
  end.

(** [fmt.Sprintf("merge:%s:%s:%d", ...)] *)
Definition merge_token (childID playerID : string) (nanos : Z) : string :=
  ("merge:" +:+ childID +:+ ":" +:+ playerID +:+ ":" +:+ itoa nanos)%string.

Definition merge_handoff_one (parentID : string) (c : string * string) : M C unit := fun cl =>
  on_error (fun e => _ ← event parentID "player_handoff_failed" (error_string e) (fst c) false; throw e)
    (_ ← ForwardPlayerHandoff (Some (mkPlayerReq (fst c) parentID (snd c) (merge_token (fst c) (snd c) (clock env (calls cl))))); mret tt) cl.

Definition runMergePlayerHandoffs (parentID : string) (childIDs : list string) : M C Z :=
  candidates ← list_all_candidates childIDs;
  if Nat.eqb (length candidates) 0 then mret 0%Z
  else
    let n := Z.of_nat (length candidates) in
    _ ← event parentID "player_handoffs_running" (Fmt "player handoffs started: %d" [AInt n]) "" false;
    _ ← for_each (merge_handoff_one parentID) candidates;
    _ ← event parentID "player_handoffs_done" (Fmt "player handoffs completed: %d" [AInt n]) "" true;
    mret n.

(** The Redis write may fail like a remote call. *)
Definition saveMergeAutomationState (parentID : string) (childIDs : list string) (movedPlayers : Z) (handoffEnabled : bool)
    : M C unit := fun cl =>
  if String.eqb (RedisAddr env) "" then (Ok tt, cl)
  else
    let n := calls cl in
    let cl := count_call cl in
    let stored := set_redis (<[("mmo:grid:merge:state:" +:+ trim_space parentID)%string :=
        mkMergeState parentID childIDs handoffEnabled movedPlayers]> (redis cl)) cl in
    match net env n with
    | Delivered => (Ok tt, stored)
    | LostRequest e => (Err (statusf Unavailable "redis merge state: %v" [ATxt (error_string e)]), cl)
    | LostReply e => (Err (statusf Unavailable "redis merge state: %v" [ATxt (error_string e)]), stored)
    end.

Definition drain (cellID : string) (on : bool) : M C unit :=
  ignore (doForwardCellUpdate cellID (Some (USetSplitDrain (Some on)))).
(** [publishMergeWorkflowEvent(failed); return nil, e] *)
Definition fail_merge {A} (parentID child : string) (e : error) : M C A :=
  _ ← event parentID "failed" (error_string e) child false; throw e.

Record MergeHandoffResponse := mkMergeResp { mr_Message : text; mr_ChildCount : Z; mr_NpcEntityCount : Z }.
Record MergeHandoffRequest := mkMergeReq { mq_ParentCellId : string; mq_ChildCellIds : list string; mq_Reason : string }.

(** The player counts of the children, refused as soon as one has players that may not be moved. *)
Fixpoint count_child_players (enabled : bool) (ids : list string) (total : Z) : M C Z :=
  match ids with
  | [] => mret total
  | cid :: rest =>
      players ← pingPlayerCount cid;
      _ ← guard_fail (negb enabled && (0 <? players)%Z)
            (statusf FailedPrecondition "merge blocked: child %s has active players=%d" [AStr cid; AInt players]);
      count_child_players enabled rest (total + players)
  end.

(** The checks of [ForwardMergeHandoff] after the reentry guard: the ordered children and the number
    of players on them. *)
Definition merge_checks (parentID : string) (childIDs : list string) : M C (list string * Z) := fun cl =>
  if negb (Nat.eqb (length childIDs) 4)
  then fail_merge parentID "" (statusf InvalidArgument "need exactly 4 unique child_cell_ids, got %d"
                                 [AInt (Z.of_nat (length childIDs))]) cl
  else match Store cl with
  | None => fail_merge parentID "" (statusf FailedPrecondition "no catalog" []) cl
  | Some c =>
      (found ← find_cell parentID;
       match found with
       | None | Some (mkCellSpec _ _ None _) =>
           throw (statusf NotFound "parent not found or has no bounds: %s" [AStr parentID])
       | Some parentSpec =>
           allCells ← SvcListCells;
           children ← match CatalogMergeChildren (Some parentSpec) allCells with
                      | Ok l => mret l
                      | Err e => throw (statusf FailedPrecondition "merge children resolve: %v" [ATxt (error_string e)])
                      end;
           let ordered := (fun ch => trim_space (Id ch)) <$> children in
           _ ← match list_find (fun id => id ∉ ordered) childIDs with
               | Some (_, id) => throw (statusf InvalidArgument "child_cell_ids mismatch catalog merge quadrants: %s" [AStr id])
               | None => mret tt
               end;
           _ ← match ValidateMergeChildren (CBounds parentSpec) (Level parentSpec) (Some <$> children) with
               | Ok _ => mret tt
               | Err e => throw (statusf FailedPrecondition "merge geometry invalid: %v" [ATxt (error_string e)])
               end;
           parentPlayers ← pingPlayerCount parentID;
           _ ← guard_fail (0 <? parentPlayers)%Z
                 (statusf FailedPrecondition "merge blocked: parent has active players=%d" [AInt parentPlayers]);
           let enabled := mergePlayerHandoffEnabled env in
           total ← count_child_players enabled ordered 0;
           let max := mergePlayerHandoffMaxPlayers env in
           _ ← guard_fail (enabled && (0 <? max)%Z && (max <? total)%Z)
                 (statusf FailedPrecondition "merge player handoff blocked: active players=%d > max=%d" [AInt total; AInt max]);
           mret (ordered, total)
       end) cl
  end.

(** Collects the NPCs of the children. *)
Fixpoint export_children (parentID reason : string) (ids : list string) : M C (list (option CellPersistEntity)) :=
  match ids with
  | [] => mret []
  | cid :: rest =>
      exp ← on_error (fail_merge parentID cid)
              (doForwardCellUpdate cid (Some (UExportNpcPersist (Some (reason +:+ "/export/" +:+ cid)%string))));
      _ ← (if negb (ur_Ok exp) || String.eqb (trim_space (ur_NpcExportJson exp)) ""
           then fail_merge parentID cid (statusf FailedPrecondition "child export failed: %s (%s)" [AStr cid; ATxt (ur_Message exp)])
           else mret tt);
      p ← match unmarshal env (ur_NpcExportJson exp) with
          | Ok p => mret p
          | Err e => throw (statusf Internal "child export json decode %s: %v" [AStr cid; ATxt (error_string e)])
          end;
      _ ← event parentID "child_exported" (lit "child export ok") cid false;
      more ← export_children parentID reason rest;
      mret (p_Entities p ++ more)
  end.

(** What is done while the cells are drained. *)
Definition merge_move (parentID reason : string) (ordered : list string) (totalChildPlayers : Z) : M C MergeHandoffResponse :=
  entities ← export_children parentID reason ordered;
  raw ← match marshal env (mkPersist SchemaVersion 0 f0 entities) with
        | Ok raw => mret raw
        | Err e => throw (statusf Internal "merge marshal: %v" [ATxt (error_string e)])
        end;
  imp ← on_error (fail_merge parentID "")
          (doForwardCellUpdate parentID (Some (UImportNpcPersist (Some (raw, (reason +:+ "/import_parent")%string)))));
  _ ← (if negb (ur_Ok imp)
       then fail_merge parentID "" (statusf FailedPrecondition "parent import failed: %s" [ATxt (ur_Message imp)])
       else mret tt);
  let enabled := mergePlayerHandoffEnabled env in
  movedPlayers ← (if enabled && (0 <? totalChildPlayers)%Z
                  then on_error (fail_merge parentID "") (runMergePlayerHandoffs parentID ordered)
                  else mret 0%Z);
  _ ← on_error (fail_merge parentID "") (saveMergeAutomationState parentID ordered movedPlayers enabled);
  _ ← event parentID "done" (lit "merge handoff completed") "" true;
  mret (mkMergeResp (Fmt "merge handoff ok: children exported/imported, moved_players=%d" [AInt movedPlayers])
          (int32 (Z.of_nat (length ordered))) (int32 (Z.of_nat (length entities)))).

(** Drains the parent and the children for the time of the move. The deferred calls run in reverse
    order: the children first. *)
Definition merge_drained (parentID reason : string) (ordered : list string) (totalChildPlayers : Z) : M C MergeHandoffResponse :=
  _ ← drain parentID true;
  defer (drain parentID false)
    (_ ← for_each (fun cid => _ ← drain cid true;
                              event parentID "child_drain_enabled" (lit "split_drain enabled") cid false) ordered;
     defer (for_each (fun cid => drain cid false) ordered)
       (merge_move parentID reason ordered totalChildPlayers)).

Definition ForwardMergeHandoff (req : option MergeHandoffRequest) : M C MergeHandoffResponse :=
  match req with None => throw (statusf InvalidArgument "empty request" []) | Some req =>
  let parentID := trim_space (mq_ParentCellId req) in
  let childIDs := uniqueCellIDs (mq_ChildCellIds req) in
  let reason := trim_space (mq_Reason req) in
  let reason := if String.eqb reason "" then "ForwardMergeHandoff" else reason in
  _ ← event parentID "detected" (lit "merge workflow detected") "" false;
  if String.eqb parentID "" then fail_merge parentID "" (statusf InvalidArgument "parent_cell_id required" [])
  else
    acquired ← tryAcquireMerge parentID;
    if negb acquired then
      let e := statusf FailedPrecondition "merge already in progress for parent: %s" [AStr parentID] in
      _ ← event parentID "skipped_reentry" (error_string e) "" false; throw e
    else
      defer (releaseMerge parentID)
        (checked ← merge_checks parentID childIDs;
         merge_drained parentID reason (fst checked) (snd checked))
  end.
(** * Calling the registry service *)

(** A call of the registry service over the network, by the gateway or by the grid manager itself: the
    handler works on the same cluster, and has ended when the caller goes on. *)
Definition remote {A} (handler : M C A) : M C A := fun cl =>
  let n := calls cl in
  let cl := count_call cl in
  match net env n with
  | Delivered => handler cl
  | LostRequest e => (Err e, cl)
  | LostReply e => (Err e, snd (handler cl))
  end.

(** A call of the registry service at [registryAddr]. *)
Definition call_registry {A} (registryAddr : string) (handler : M C A) : M C A :=
  _ ← lift (NewClient env registryAddr); remote handler.

End Service.
