(* ===== verification/RegistryLogic.v ===== *)
(** Reasoning about the registry service: what a computation may change ([steps_in]), which cell a
    call reaches ([reaches]), and the frame of each operation, proved once for every relation that
    allows the single steps. *)
From Stdlib Require Import Ascii ZArith Lia.
From S2P Require Import Prelude Effects GoFloat GoString Partition Registry Ecs Aoi Replic CellSim CellSvc RegistrySvc.
Local Open Scope string_scope.
Local Open Scope list_scope.

(** * Looking up a cell changes nothing *)

Section Pure.
Context {C : Type} `{!Catalog C} (env : Env).

Lemma find_cell_pure id cl : snd (find_cell (C:=C) env id cl) = cl.
Proof. unfold find_cell. destruct (Store cl); [|done]. by destruct (FindCellByID _ _ _). Qed.

Lemma dial_pure id cl : snd (dialCellClient (C:=C) env id cl) = cl.
Proof.
  unfold dialCellClient, mbind, St_bind. pose proof (find_cell_pure id cl) as H.
  destruct (find_cell env id cl) as [[[spec|]|e] cl1]; cbn in *; subst cl1; try done.
  destruct (String.eqb _ _); [done|]. by destruct (NewClient _ _).
Qed.

(** An answered call was served by the server behind the endpoint. *)
Lemma call_inv {A} ep (h : nat -> Server -> Server * A) (cl : Cluster C) a cl' :
  call_cell env ep h cl = (Ok a, cl') ->
  exists s, cellServers cl !! ep = Some s /\ a = snd (h (calls cl) s) /\ Store cl' = Store cl /\
    cellServers cl' = <[ep := fst (h (calls cl) s)]> (cellServers cl).
Proof.
  unfold call_cell. change (cellServers (count_call cl)) with (cellServers cl).
  destruct (net env (calls cl)) as [|e|e]; [|done|]; (destruct (cellServers cl !! ep) as [s|]; [|done]);
    destruct (h (calls cl) s) as [s' x] eqn:Eh; [|done].
  intros [= <- <-]. exists s. by rewrite Eh.
Qed.
End Pure.

(** * The frame of the operations *)

Section Frame.
Context {C : Type} `{!Catalog C} (env : Env).
(** A relation that allows calls, events and Redis writes, and of the servers' changes those in
    [allowed]. *)
Context (R : relation (Cluster C)) `{HR : !PreOrder R} (allowed : relation Server).
Context (R_count : forall cl, R cl (count_call cl)) (R_event : forall ev cl, R cl (add_event ev cl)).
Context (R_redis : forall r cl, R cl (set_redis r cl)).
Context (R_server : forall ep s s' cl, cellServers cl !! ep = Some s -> allowed s s' ->
  R cl (set_servers (<[ep := s']> (cellServers cl)) cl)).
#[local] Set Default Proof Using "All".

Lemma frame_call {A} ep (h : nat -> Server -> Server * A) :
  (forall n s, allowed s (fst (h n s))) -> steps_in R (call_cell (C:=C) env ep h).
Proof.
  intros Hh cl. unfold call_cell. destruct (net env (calls cl)) as [|e|e]; [|apply R_count|];
    (destruct (cellServers (count_call cl) !! ep) as [s|] eqn:E; [|apply R_count]); specialize (Hh (calls cl) s);
    (destruct (h (calls cl) s) as [s' a]); (etrans; [apply R_count|by eapply R_server]).
Qed.

Lemma frame_dial id : steps_in R (dialCellClient (C:=C) env id).
Proof. apply steps_pure; [done|]. apply dial_pure. Qed.

Lemma frame_find id : steps_in R (find_cell (C:=C) env id).
Proof. apply steps_pure; [done|]. apply find_cell_pure. Qed.

Lemma frame_publish ev : steps_in R (publishMergeWorkflowEvent (C:=C) ev).
Proof. intros cl. unfold publishMergeWorkflowEvent. cbn. by destruct (NATS cl). Qed.

Lemma frame_fail {A} parent child e : steps_in R (fail_merge (C:=C) (A:=A) parent child e).
Proof. unfold fail_merge, event. steps. apply frame_publish. Qed.

(** ** Calls that only read *)
Context (allowed_refl : forall s, allowed s s).

Lemma frame_ping id : steps_in R (pingPlayerCount (C:=C) env id).
Proof. unfold pingPlayerCount. steps; [apply frame_find|]. by apply frame_call. Qed.

Lemma frame_candidates id : steps_in R (listMergePlayerCandidates (C:=C) env id).
Proof. unfold listMergePlayerCandidates. steps; [apply frame_dial|]. by apply frame_call. Qed.

Lemma frame_all_candidates ids : steps_in R (list_all_candidates (C:=C) env ids).
Proof. induction ids as [|id ids IH]; cbn; steps; [apply frame_candidates|done]. Qed.

Lemma frame_count enabled ids total : steps_in R (count_child_players (C:=C) env enabled ids total).
Proof. revert total. induction ids as [|id ids IH]; intros total; cbn; steps; [apply frame_ping|apply IH]. Qed.

Lemma frame_list : steps_in R (SvcListCells (C:=C) env).
Proof. apply steps_pure; [done|]. intros cl. unfold SvcListCells. destruct (Store cl); [|done]. by destruct (ListCells _ _). Qed.

Lemma frame_checks parent childIDs : steps_in R (merge_checks (C:=C) env parent childIDs).
Proof.
  intros cl. unfold merge_checks. destruct (negb _); [apply frame_fail|]. destruct (Store cl); [|apply frame_fail].
  match goal with |- R cl (snd (?m cl)) => enough (steps_in R m) by done end. steps.
  - apply frame_find.
  - apply frame_list.
  - apply frame_ping.
  - apply frame_count.
Qed.

(** ** Updates and handoffs *)
Definition allows_update (u : UpdatePayload) : Prop := forall o s, allowed s (fst (Update (marshal env) (unmarshal env) o (Some u) s)).

Lemma frame_update id u : allows_update u -> steps_in R (doForwardCellUpdate (C:=C) env id (Some u)).
Proof. intros Hu. cbn. steps; [apply frame_dial|]. apply frame_call. intros n s. apply Hu. Qed.

Lemma frame_save parent ids n h : steps_in R (saveMergeAutomationState (C:=C) env parent ids n h).
Proof.
  intros cl. unfold saveMergeAutomationState. destruct (String.eqb _ _); [done|].
  destruct (net env (calls cl)); cbn [snd]; [|apply R_count|]; (etrans; [apply R_count|apply R_redis]).
Qed.

Lemma frame_drain id b : allows_update (USetSplitDrain (Some b)) -> steps_in R (drain (C:=C) env id b).
Proof. intros Hb. unfold drain. steps. by apply frame_update. Qed.

Context (allowed_export : forall r, allows_update (UExportNpcPersist r)).

Lemma frame_exports parent reason ids : steps_in R (export_children (C:=C) env parent reason ids).
Proof.
  induction ids as [|id ids IH]; cbn [export_children]; unfold event; steps; try apply frame_fail; try apply frame_publish; try done.
  by apply frame_update.
Qed.

Context (allowed_prepare : forall o n1 n2 n3 p t k s, allowed s (fst (PreparePlayerHandoff o n1 n2 n3 p t k s))).
Context (allowed_accept : forall pl s, allowed s (fst (AcceptPlayerHandoff pl s))).
Context (allowed_finalize : forall p k s, allowed s (fst (FinalizePlayerHandoff p k s))).

Lemma frame_handoff req : steps_in R (ForwardPlayerHandoff (C:=C) env req).
Proof.
  unfold ForwardPlayerHandoff. steps; try apply frame_dial; apply frame_call; intros n s.
  - apply allowed_prepare.
  - apply allowed_accept.
  - apply allowed_finalize.
Qed.

Lemma frame_runs parent ids : steps_in R (runMergePlayerHandoffs (C:=C) env parent ids).
Proof.
  unfold runMergePlayerHandoffs, event. steps; try apply frame_publish; [apply frame_all_candidates|].
  intros cl. unfold merge_handoff_one, event.
  match goal with |- R cl (snd (?m cl)) => enough (steps_in R m) by done end.
  steps; [apply frame_publish|apply frame_handoff].
Qed.

Context (allowed_import : forall r, allows_update (UImportNpcPersist r)).

Lemma frame_move parent reason ordered total : steps_in R (merge_move (C:=C) env parent reason ordered total).
Proof.
  unfold merge_move, event. steps; try apply frame_fail; try apply frame_publish.
  - apply frame_exports.
  - by apply frame_update.
  - apply frame_runs.
  - apply frame_save.
Qed.

Context (allowed_drain : forall b, allows_update (USetSplitDrain (Some b))).

Lemma frame_drained parent reason ordered total : steps_in R (merge_drained (C:=C) env parent reason ordered total).
Proof. unfold merge_drained, event. steps; try (by apply frame_drain); try apply frame_publish. apply frame_move. Qed.
End Frame.

(** The catalog knows the cell [id] under [spec], in every map order, at an endpoint. *)
Definition located {C} `{!Catalog C} (c : C) (id : string) (spec : CellSpec) : Prop :=
  (forall o, FindCellByID o c id = Ok (Some spec)) /\ GrpcEndpoint spec <> "".
