(* ===== verification/RegistryProps.v ===== *)
(** What the registry service guarantees: the exclusion of merges, the drains that a merge takes back,
    and the player handoff over a network that loses requests and replies. *)
From Stdlib Require Import Ascii ZArith Lia.
From S2P Require Import Prelude Effects GoFloat GoString Partition Registry Ecs Aoi Replic.
From S2P Require Import CellSim CellSvc CellInv Handoff Transfer RegistrySvc RegistryLogic.
Local Open Scope string_scope.
Local Open Scope list_scope.

(** * The merge lock *)

(** The set of merges in progress is the same. *)
Definition same_lock {C} (cl cl' : Cluster C) : Prop := mergeInFlight cl' = mergeInFlight cl.

#[export] Instance same_lock_preorder {C} : PreOrder (same_lock (C:=C)).
Proof. split; [done|]. unfold same_lock. congruence. Qed.

Section Lock.
Context {C : Type} `{!Catalog C} (env : Env).

Lemma lock_checks parent ids : steps_in same_lock (merge_checks (C:=C) env parent ids).
Proof. by eapply (frame_checks env same_lock (fun _ _ => True)). Qed.

Lemma lock_drained parent reason ordered total : steps_in same_lock (merge_drained (C:=C) env parent reason ordered total).
Proof. by eapply (frame_drained env same_lock (fun _ _ => True)). Qed.

(** The part of a merge between acquiring and releasing the lock. *)
Lemma lock_body parent reason ids :
  steps_in same_lock (checked ← merge_checks (C:=C) env parent ids; merge_drained env parent reason (fst checked) (snd checked)).
Proof. apply steps_bind; [apply _|apply lock_checks|]. intros a. apply lock_drained. Qed.

Lemma event_fields p st m ch ok (cl : Cluster C) :
  let cl' := snd (event p st m ch ok cl) in
  fst (event p st m ch ok cl) = Ok tt /\
  Store cl' = Store cl /\ mergeInFlight cl' = mergeInFlight cl /\ cellServers cl' = cellServers cl /\ redis cl' = redis cl /\
  calls cl' = calls cl.
Proof. unfold event, publishMergeWorkflowEvent. cbn. by destruct (NATS cl). Qed.

(** C21: a merge request leaves the set of merges in progress as it found it, whatever fails on the
    way, so that a parent can be merged again after any error; and while a merge of the parent is in
    progress a second request fails with [FailedPrecondition] before it touches the catalog, a cell
    or Redis. *)
Theorem merge_lock_released req (cl : Cluster C) :
  let '(r, cl') := ForwardMergeHandoff env req cl in
  same_lock cl cl' /\
  (forall q, req = Some q -> trim_space (mq_ParentCellId q) ∈ mergeInFlight cl -> trim_space (mq_ParentCellId q) <> "" ->
     (exists e, r = Err e /\ err_code e = Some FailedPrecondition) /\
     Store cl' = Store cl /\ cellServers cl' = cellServers cl /\ redis cl' = redis cl /\ calls cl' = calls cl).
Proof.
  unfold same_lock at 1. destruct req as [q|]; [|by split; [|intros ? ?]]. unfold ForwardMergeHandoff.
  set (p := trim_space (mq_ParentCellId q)). set (ids := uniqueCellIDs _). set (reason := if String.eqb (trim_space (mq_Reason q)) "" then _ else _).
  unfold mbind at 1, St_bind at 1.
  destruct (event p "detected" (lit "merge workflow detected") "" false cl) as [u cl1] eqn:E1.
  pose proof (event_fields p "detected" (lit "merge workflow detected") "" false cl) as Hev.
  rewrite E1 in Hev. cbn in Hev. destruct Hev as (-> & EStore & ELock & ECells & ERedis & ECalls).
  assert (forall (cl2 : Cluster C) (st : string) (e : error),
    let '(r, cl') := (_ ← event p st (error_string e) "" false; throw e : M C MergeHandoffResponse) cl2 in
    r = Err e /\ Store cl' = Store cl2 /\ mergeInFlight cl' = mergeInFlight cl2 /\ cellServers cl' = cellServers cl2 /\
    redis cl' = redis cl2 /\ calls cl' = calls cl2) as Hfail.
  { intros cl2 st e. unfold mbind, St_bind. pose proof (event_fields p st (error_string e) "" false cl2) as H.
    destruct (event p st (error_string e) "" false cl2) as [u2 cl3]. cbn in H. destruct H as (-> & H). by cbn. }
  destruct (String.eqb_spec p "") as [Hp|Hp].
  { unfold fail_merge. specialize (Hfail cl1 "failed" (statusf InvalidArgument "parent_cell_id required" [])).
    match type of Hfail with (let '(_, _) := ?x in _) => destruct x as [r cl'] end. destruct Hfail as (-> & ? & ? & ? & ? & ?). split; [congruence|].
    by intros q' [= <-]. }
  unfold mbind at 1, St_bind at 1, tryAcquireMerge, p. rewrite trim_space_idem. fold p. rewrite (proj2 (String.eqb_neq _ _) Hp).
  destruct (bool_decide_reflect (p ∈ mergeInFlight cl1)) as [Hin|Hin]; cbn [negb].
  { specialize (Hfail cl1 "skipped_reentry" (statusf FailedPrecondition "merge already in progress for parent: %s" [AStr p])).
    match type of Hfail with (let '(_, _) := ?x in _) => destruct x as [r cl'] end. destruct Hfail as (-> & ? & ? & ? & ? & ?). split; [congruence|].
    intros q' [= <-] _ _. split; [by eexists|]. repeat split; congruence. }
  rewrite ELock in Hin. unfold defer. pose proof (lock_body p reason ids (set_inflight ({[p]} ∪ mergeInFlight cl1) cl1)) as Hbody.
  match type of Hbody with same_lock _ (snd ?x) => destruct x as [r cl'] end. cbn [snd] in Hbody. unfold same_lock in Hbody. cbn [mergeInFlight set_inflight] in Hbody.
  unfold releaseMerge, p. rewrite trim_space_idem. fold p. rewrite (proj2 (String.eqb_neq _ _) Hp). cbn [snd mergeInFlight set_inflight].
  split; [rewrite Hbody, ELock; set_solver|]. by intros q' [= <-].
Qed.
End Lock.

(** ** Concurrent merges *)

(** Requests that run at the same time: each takes the lock, does its work in steps that leave the
    lock alone, and gives it back. [holders] are the parents whose merges are running. *)
Inductive merge_step {C} : Cluster C * list string -> Cluster C * list string -> Prop :=
  | ms_acquire p cl cl' hs : tryAcquireMerge p cl = (Ok true, cl') -> merge_step (cl, hs) (cl', trim_space p :: hs)
  | ms_refused p cl cl' hs : tryAcquireMerge p cl = (Ok false, cl') -> merge_step (cl, hs) (cl', hs)
  | ms_work cl cl' hs : same_lock cl cl' -> merge_step (cl, hs) (cl', hs)
  | ms_release p cl hs1 hs2 : merge_step (cl, hs1 ++ trim_space p :: hs2) (snd (releaseMerge p cl), hs1 ++ hs2).

(** However the requests interleave, no parent is merged twice at the same time, the lock set is
    exactly the set of running merges, and an attempt to merge a parent is let through exactly when no
    merge of it is running. *)
Theorem merge_exclusion {C} (cl0 cl : Cluster C) hs p :
  mergeInFlight cl0 = ∅ -> rtc merge_step (cl0, []) (cl, hs) -> trim_space p <> "" ->
  NoDup hs /\ list_to_set hs = mergeInFlight cl /\ fst (tryAcquireMerge p cl) = Ok (bool_decide (trim_space p ∉ hs)).
Proof.
  intros H0 Hrtc Hp.
  assert (NoDup hs /\ list_to_set hs = mergeInFlight cl /\ "" ∉ hs) as (Hnd & Hset & _).
  { assert (forall x y : Cluster C * list string, rtc merge_step x y ->
      (NoDup x.2 /\ list_to_set x.2 = mergeInFlight x.1 /\ "" ∉ x.2) -> NoDup y.2 /\ list_to_set y.2 = mergeInFlight y.1 /\ "" ∉ y.2) as Hind.
    { induction 1 as [|x y z Hs Hr IH]; [done|]. intros Hx. apply IH. clear IH Hr.
      destruct Hs as [q c c' h Ha|q c c' h Ha|c c' h Hw|q c h1 h2]; cbn [fst snd] in *; destruct Hx as (Hnd & Hset & Hne).
      - unfold tryAcquireMerge in Ha. destruct (String.eqb_spec (trim_space q) "") as [|Hq]; [done|].
        destruct (bool_decide_reflect (trim_space q ∈ mergeInFlight c)) as [|Hni]; [done|]. injection Ha as <-.
        cbn [mergeInFlight set_inflight list_to_set]. rewrite <- Hset in Hni |- *. rewrite elem_of_list_to_set in Hni.
        split; [by constructor|]. split; [done|]. by rewrite not_elem_of_cons.
      - unfold tryAcquireMerge in Ha. destruct (String.eqb _ _); [by injection Ha as <-|].
        destruct (bool_decide _); [by injection Ha as <-|done].
      - by rewrite Hw.
      - apply NoDup_app in Hnd as (Hn1 & Hd & Hn2). apply NoDup_cons in Hn2 as [Hni Hn2].
        unfold releaseMerge. destruct (String.eqb_spec (trim_space q) "") as [Hq|Hq].
        { exfalso. apply Hne, elem_of_app. right. rewrite Hq. left. }
        cbn [snd mergeInFlight set_inflight]. rewrite <- Hset. split; [|split].
        + apply NoDup_app. split; [done|]. split; [|done]. intros x Hx Hx2. eapply Hd; [done|by right].
        + apply set_eq. intros x. rewrite elem_of_difference, elem_of_singleton, !elem_of_list_to_set, !elem_of_app, elem_of_cons.
          split; [|tauto]. intros Hx. split; [tauto|]. intros ->. destruct Hx as [Hx|Hx]; [|done]. apply (Hd _ Hx). left.
        + rewrite elem_of_app in Hne |- *. rewrite elem_of_cons in Hne. tauto. }
    apply (Hind _ _ Hrtc). cbn [fst snd]. rewrite H0. split; [apply NoDup_nil_2|]. split; [done|]. apply not_elem_of_nil. }
  split; [done|]. split; [done|]. unfold tryAcquireMerge. rewrite (proj2 (String.eqb_neq _ _) Hp), <- Hset.
  destruct (bool_decide_reflect (trim_space p ∈ (list_to_set hs : gset string))) as [Hin|Hin];
    rewrite elem_of_list_to_set in Hin; cbn [fst]; f_equal; symmetry.
  - apply bool_decide_eq_false. tauto.
  - by apply bool_decide_eq_true.
Qed.

Lemma merge_exclusion_witness :
  let cl0 := mkCluster (None : option Memory) false ∅ ∅ ∅ [] 0 in
  exists cl hs, rtc merge_step (cl0, []) (cl, hs) /\ fst (tryAcquireMerge " a " cl) = Ok false /\ fst (tryAcquireMerge "b" cl) = Ok true.
Proof.
  intros cl0. exists (snd (tryAcquireMerge "a" cl0)), ["a"].
  assert (rtc merge_step (cl0, []) (snd (tryAcquireMerge "a" cl0), ["a"])) as Hr by (apply rtc_once; by apply (ms_acquire "a")).
  split; [exact Hr|]. split.
  - by apply (merge_exclusion cl0 _ _ " a " eq_refl Hr).
  - by apply (merge_exclusion cl0 _ _ "b" eq_refl Hr).
Defined.

(** * The player handoff over the network *)

Section PlayerHandoff.
#[local] Set Default Proof Using "Type*".
Context {C : Type} `{!Catalog C} (c : C).

Lemma dial_located env id spec (cl : Cluster C) :
  Store cl = Some c -> located c id spec ->
  dialCellClient env id cl =
    (match NewClient env (GrpcEndpoint spec) with
     | Ok _ => Ok (GrpcEndpoint spec, spec)
     | Err e => Err (statusf Unavailable "dial cell: %v" [ATxt (error_string e)])
     end, cl).
Proof.
  intros Hst [Hf Hep]. unfold dialCellClient, mbind, St_bind, find_cell. rewrite Hst, Hf.
  rewrite (proj2 (String.eqb_neq _ _) Hep). by destruct (NewClient env _).
Qed.

(** The three fates of a call to a running cell. *)
Lemma call_cases {A} env ep (h : nat -> Server -> Server * A) (cl : Cluster C) s :
  cellServers cl !! ep = Some s ->
  let '(r, cl') := call_cell env ep h cl in
  Store cl' = Store cl /\
  ((cellServers cl' = cellServers cl /\ exists e, r = Err e /\ net env (calls cl) = LostRequest e) \/
   (cellServers cl' = <[ep := fst (h (calls cl) s)]> (cellServers cl) /\
    (r = Ok (snd (h (calls cl) s)) \/ exists e, r = Err e /\ net env (calls cl) = LostReply e))).
Proof.
  intros Hs. unfold call_cell. destruct (net env (calls cl)) as [|e|e] eqn:En;
    (change (cellServers (count_call cl)) with (cellServers cl)); rewrite ?Hs.
  - destruct (h (calls cl) s) as [s' a]. split; [done|]. right. split; [done|]. by left.
  - split; [done|]. left. split; [done|]. by exists e.
  - destruct (h (calls cl) s) as [s' a]. split; [done|]. right. split; [done|]. right. by exists e.
Qed.

(** No request and no reply is lost. *)
Definition lossless (env : Env) : Prop := forall n, net env n = Delivered.

Context (pspec cspec : CellSpec) (req : PlayerHandoffRequest).
Let parentID := trim_space (pq_ParentCellId req).
Let childID := trim_space (pq_ChildCellId req).
Let playerID := trim_space (pq_PlayerId req).
Let token := trim_space (pq_HandoffToken req).
Context (Hparent : located c parentID pspec) (Hchild : located c childID cspec).
Context (Hep : GrpcEndpoint pspec <> GrpcEndpoint cspec).
Context (Hids : parentID <> "" /\ childID <> "" /\ playerID <> "" /\ token <> "" /\ parentID <> childID).

(** The two cells are in the cluster in a state of the transfer. *)
Definition pair_at (cl : Cluster C) (src dst : Server) : Prop :=
  Store cl = Some c /\ cellServers cl !! GrpcEndpoint pspec = Some src /\ cellServers cl !! GrpcEndpoint cspec = Some dst /\
  transfer_ok playerID token src dst.

Definition elsewhere_same (cl cl' : Cluster C) : Prop :=
  forall ep, ep <> GrpcEndpoint pspec -> ep <> GrpcEndpoint cspec -> cellServers cl' !! ep = cellServers cl !! ep.

(** What is true after an attempt that answered [r]. *)
Definition attempt_post (env : Env) (cl : Cluster C) (out : result N * Cluster C) : Prop :=
  exists src' dst', pair_at (snd out) src' dst' /\ elsewhere_same cl (snd out) /\
    (forall e, fst out = Ok e -> playerByID dst' !! playerID = Some e /\ playerByID src' !! playerID = None) /\
    (lossless env -> exists e, fst out = Ok e).

(** A call to the parent or the child inside an attempt. *)
Lemma call_parent {A} env (h : nat -> Server -> Server * A) cl0 cl src dst (k : A -> M C N) :
  pair_at cl src dst -> elsewhere_same cl0 cl ->
  (forall n, transfer_ok playerID token (fst (h n src)) dst) ->
  (forall n cl', pair_at cl' (fst (h n src)) dst -> elsewhere_same cl0 cl' -> attempt_post env cl0 (k (snd (h n src)) cl')) ->
  attempt_post env cl0 ((call_cell env (GrpcEndpoint pspec) h ≫= k) cl).
Proof.
  intros (Hst & Hs & Hd & Hok) Helse Htrans Hk. unfold mbind, St_bind.
  pose proof (call_cases env (GrpcEndpoint pspec) h cl src Hs) as Hc.
  destruct (call_cell env (GrpcEndpoint pspec) h cl) as [r cl']. destruct Hc as (Hst' & Hc). rewrite Hst in Hst'.
  destruct Hc as [(Hcs & e & -> & Hn)|(Hcs & Hr)].
  { exists src, dst. cbn. rewrite <- Hcs in Hs, Hd. split; [done|]. split; [|split; [done|]].
    - intros ep H1 H2. rewrite Hcs. by apply Helse.
    - intros Hl. by rewrite Hl in Hn. }
  assert (pair_at cl' (fst (h (calls cl) src)) dst) as Hp.
  { split; [done|]. rewrite Hcs, lookup_insert_eq, lookup_insert_ne by done. split; [done|]. by split; [|apply Htrans]. }
  assert (elsewhere_same cl0 cl') as He.
  { intros ep H1 H2. rewrite Hcs, lookup_insert_ne by done. by apply Helse. }
  destruct Hr as [->|(e & -> & Hn)]; [by apply Hk|].
  eexists _, _. cbn. split; [exact Hp|]. split; [exact He|]. split; [done|]. intros Hl. by rewrite Hl in Hn.
Qed.

Lemma call_child {A} env (h : nat -> Server -> Server * A) cl0 cl src dst (k : A -> M C N) :
  pair_at cl src dst -> elsewhere_same cl0 cl ->
  (forall n, transfer_ok playerID token src (fst (h n dst))) ->
  (forall n cl', pair_at cl' src (fst (h n dst)) -> elsewhere_same cl0 cl' -> attempt_post env cl0 (k (snd (h n dst)) cl')) ->
  attempt_post env cl0 ((call_cell env (GrpcEndpoint cspec) h ≫= k) cl).
Proof.
  intros (Hst & Hs & Hd & Hok) Helse Htrans Hk. unfold mbind, St_bind.
  pose proof (call_cases env (GrpcEndpoint cspec) h cl dst Hd) as Hc.
  destruct (call_cell env (GrpcEndpoint cspec) h cl) as [r cl']. destruct Hc as (Hst' & Hc). rewrite Hst in Hst'.
  destruct Hc as [(Hcs & e & -> & Hn)|(Hcs & Hr)].
  { exists src, dst. cbn. rewrite <- Hcs in Hs, Hd. split; [done|]. split; [|split; [done|]].
    - intros ep H1 H2. rewrite Hcs. by apply Helse.
    - intros Hl. by rewrite Hl in Hn. }
  assert (pair_at cl' src (fst (h (calls cl) dst))) as Hp.
  { split; [done|]. rewrite Hcs, lookup_insert_eq, lookup_insert_ne by done. split; [done|]. by split; [|apply Htrans]. }
  assert (elsewhere_same cl0 cl') as He.
  { intros ep H1 H2. rewrite Hcs, lookup_insert_ne by done. by apply Helse. }
  destruct Hr as [->|(e & -> & Hn)]; [by apply Hk|].
  eexists _, _. cbn. split; [exact Hp|]. split; [exact He|]. split; [done|]. intros Hl. by rewrite Hl in Hn.
Qed.

(** One attempt, on any network. *)
Lemma handoff_attempt env cl src dst :
  NewClient env (GrpcEndpoint pspec) = Ok tt -> NewClient env (GrpcEndpoint cspec) = Ok tt ->
  pair_at cl src dst -> attempt_post env cl (ForwardPlayerHandoff env (Some req) cl).
Proof.
  intros Hc1 Hc2 Hp. unfold ForwardPlayerHandoff. fold parentID childID playerID token.
  destruct Hids as (Hi1 & Hi2 & Hi3 & Hi4 & Hi5). pose proof Hp as (Hst & _).
  rewrite run_guard by (by rewrite (proj2 (String.eqb_neq _ _) Hi1), (proj2 (String.eqb_neq _ _) Hi2), (proj2 (String.eqb_neq _ _) Hi3),
    (proj2 (String.eqb_neq _ _) Hi4)).
  rewrite run_guard by (by apply String.eqb_neq).
  pose proof (dial_located env parentID pspec cl Hst Hparent) as D1. rewrite Hc1 in D1.
  pose proof (dial_located env childID cspec cl Hst Hchild) as D2. rewrite Hc2 in D2.
  rewrite (run_bind _ _ _ _ _ D1), (run_bind _ _ _ _ _ D2). clear D1 D2. cbn [fst snd].
  assert (trim_space childID = childID) as E1 by apply trim_space_idem.
  assert (trim_space playerID = playerID) as E2 by apply trim_space_idem.
  assert (trim_space token = token) as E3 by apply trim_space_idem.
  assert (forall n s d, transfer_ok playerID token s d ->
    let '(s', r) := PreparePlayerHandoff (order env n) (clock env n) (clock env n) (clock env n) playerID childID token s in
    transfer_ok playerID token s' d /\ pr_Ok r = true /\ is_Some (preparedByTk s' !! token) /\
      exists pl, pr_Payload r = Some pl /\ h_PlayerId pl = playerID) as Hprep.
  { intros n s d Hok. pose proof (transfer_prepare playerID childID token) as Hx. rewrite E1, E2, E3 in Hx. by apply Hx. }
  eapply call_parent; [exact Hp|done| |].
  { intros n. destruct Hp as (_ & _ & _ & Hok). specialize (Hprep n src dst Hok).
    destruct (PreparePlayerHandoff _ _ _ _ _ _ _ _) as [s1 r]. apply Hprep. }
  intros n cl1 Hp1 He1. pose proof Hp as (_ & _ & _ & Hok). specialize (Hprep n src dst Hok). clear Hp Hok.
  destruct (PreparePlayerHandoff _ _ _ _ _ _ _ _) as [src1 prep]. cbn [fst snd] in *.
  destruct Hprep as (_ & Hpok & Htk & pl & Hpl & Hplid). rewrite Hpl, Hpok.
  rewrite (run_bind (mret pl) _ cl1 pl cl1 eq_refl).
  set (payload := stamp _ _ _ pl).
  assert (forall s d, transfer_ok playerID token s d ->
    let '(d', r) := AcceptPlayerHandoff (Some payload) d in
    transfer_ok playerID token s d' /\ ar_Ok r = true /\ ar_EntityId r <> 0%N /\ acceptedByTk d' !! token = Some (ar_EntityId r)) as Hacc.
  { intros s d Hok. pose proof (transfer_accept playerID token) as Hx. rewrite E2, E3 in Hx. by apply Hx. }
  eapply call_child; [exact Hp1|exact He1| |].
  { intros k. destruct Hp1 as (_ & _ & _ & Hok). specialize (Hacc src1 dst Hok).
    destruct (AcceptPlayerHandoff (Some payload) dst) as [d1 r]. apply Hacc. }
  intros k cl2 Hp2 He2. destruct Hp1 as (_ & _ & _ & Hok). specialize (Hacc src1 dst Hok). clear Hok.
  destruct (AcceptPlayerHandoff (Some payload) dst) as [dst1 acc]. cbn [fst snd] in *.
  destruct Hacc as (_ & Haok & Haid & Hacc).
  rewrite run_guard by (by rewrite Haok, (proj2 (N.eqb_neq _ _) Haid)).
  assert (let '(s', r) := FinalizePlayerHandoff playerID token src1 in
    transfer_ok playerID token s' dst1 /\ fr_Ok r = true /\ playerByID s' !! playerID = None) as Hfin.
  { destruct Hp2 as (_ & _ & _ & Hok). pose proof (transfer_finalize playerID token) as Hx. rewrite E2, E3 in Hx.
    by apply Hx. }
  eapply call_parent; [exact Hp2|exact He2| |].
  { intros _. destruct (FinalizePlayerHandoff playerID token src1) as [s r]. apply Hfin. }
  intros _ cl3 Hp3 He3. destruct (FinalizePlayerHandoff playerID token src1) as [src2 fin]. cbn [fst snd] in *.
  destruct Hfin as (_ & Hfok & Hgone). rewrite run_guard by (by rewrite Hfok).
  exists src2, dst1. cbn. split; [exact Hp3|]. split; [exact He3|]. split; [|by eexists].
  intros e [= <-]. split; [|exact Hgone]. destruct Hp3 as (_ & _ & _ & Hok). by apply (to_accepted _ _ _ _ Hok).
Qed.
End PlayerHandoff.

(** Repeated attempts of one handoff, each on a network of its own. *)
Definition attempts {C} `{!Catalog C} (req : PlayerHandoffRequest) (envs : list Env) (cl : Cluster C) : Cluster C :=
  fold_left (fun cl env => snd (ForwardPlayerHandoff env (Some req) cl)) envs cl.

(** The request is complete and the catalog knows its two cells at two endpoints. *)
Record handoff_request {C} `{!Catalog C} (c : C) (pspec cspec : CellSpec) (req : PlayerHandoffRequest) : Prop := {
  hq_parent : located c (trim_space (pq_ParentCellId req)) pspec;
  hq_child : located c (trim_space (pq_ChildCellId req)) cspec;
  hq_endpoints : GrpcEndpoint pspec <> GrpcEndpoint cspec;
  hq_fields : trim_space (pq_ParentCellId req) <> "" /\ trim_space (pq_ChildCellId req) <> "" /\
    trim_space (pq_PlayerId req) <> "" /\ trim_space (pq_HandoffToken req) <> "" /\
    trim_space (pq_ParentCellId req) <> trim_space (pq_ChildCellId req) }.

(** The client constructor accepts the endpoints. *)
Definition dialable (pspec cspec : CellSpec) (env : Env) : Prop :=
  NewClient env (GrpcEndpoint pspec) = Ok tt /\ NewClient env (GrpcEndpoint cspec) = Ok tt.

(** C2: a player handoff driven by the grid manager survives the network. However many attempts with
    one token are made, whatever requests and replies each of them loses, the player is always
    registered at the parent or at the child and no other cell is touched; and the first attempt after
    them that loses nothing succeeds: then the child has the player under the entity it answers and the
    parent does not have it any more. *)
Theorem player_handoff_survives_network {C} `{!Catalog C} (c : C) pspec cspec req envs env (cl : Cluster C) src dst :
  handoff_request c pspec cspec req -> Forall (dialable pspec cspec) (env :: envs) ->
  Store cl = Some c -> cellServers cl !! GrpcEndpoint pspec = Some src -> cellServers cl !! GrpcEndpoint cspec = Some dst ->
  let pid := trim_space (pq_PlayerId req) in
  transfer_ok pid (trim_space (pq_HandoffToken req)) src dst ->
  let cl1 := attempts req envs cl in
  elsewhere_same pspec cspec cl cl1 /\
  (exists src1 dst1, cellServers cl1 !! GrpcEndpoint pspec = Some src1 /\ cellServers cl1 !! GrpcEndpoint cspec = Some dst1 /\
     (is_Some (playerByID src1 !! pid) \/ is_Some (playerByID dst1 !! pid))) /\
  (lossless env ->
     let '(r, cl2) := ForwardPlayerHandoff env (Some req) cl1 in
     exists e src2 dst2, r = Ok e /\ cellServers cl2 !! GrpcEndpoint pspec = Some src2 /\
       cellServers cl2 !! GrpcEndpoint cspec = Some dst2 /\ playerByID dst2 !! pid = Some e /\ playerByID src2 !! pid = None).
Proof.
  intros [Hq1 Hq2 Hq3 Hq4] Henv Hst Hs Hd pid Hok. apply Forall_cons in Henv as [[He1 He2] Henvs].
  assert (exists src1 dst1, pair_at c pspec cspec req (attempts req envs cl) src1 dst1 /\
    elsewhere_same pspec cspec cl (attempts req envs cl)) as (src1 & dst1 & Hp & Helse).
  { assert (pair_at c pspec cspec req cl src dst) as Hp by done.
    assert (elsewhere_same pspec cspec cl cl) as Helse by done.
    revert Hp Helse. clear Hst Hs Hd Hok. generalize cl at 1 3 4 6. revert src dst.
    induction Henvs as [|env' envs [Hx1 Hx2] Henvs IH]; intros src dst cl' Hp Helse; [by exists src, dst|].
    cbn [attempts fold_left].
    destruct (handoff_attempt c pspec cspec req Hq1 Hq2 Hq3 Hq4 env' cl' src dst Hx1 Hx2 Hp) as (src1 & dst1 & Hp1 & Helse1 & _).
    apply (IH src1 dst1 _ Hp1). intros ep H1 H2. rewrite Helse1 by done. by apply Helse. }
  split; [done|]. split.
  - pose proof Hp as (_ & H1 & H2 & Hok1). exists src1, dst1. split; [done|]. split; [done|]. by eapply transfer_keeps_player.
  - intros Hl. destruct (handoff_attempt c pspec cspec req Hq1 Hq2 Hq3 Hq4 env _ src1 dst1 He1 He2 Hp)
      as (src2 & dst2 & (_ & H1 & H2 & _) & _ & Hr & Hsucc).
    destruct (ForwardPlayerHandoff env (Some req) _) as [r cl2]. cbn [fst snd] in *. destruct (Hsucc Hl) as [e ->].
    exists e, src2, dst2. destruct (Hr e eq_refl). done.
Qed.

(** A player at the source, unknown at the target, with a fresh token. *)
Lemma transfer_start pid tok src dst :
  server_wf src -> server_wf dst -> Sim src <> None -> Sim dst <> None -> room_for_entity dst ->
  is_Some (playerByID src !! pid) -> preparedByID src !! pid = None -> preparedByTk src !! tok = None ->
  acceptedByTk dst !! tok = None -> playerByID dst !! pid = None ->
  transfer_ok pid tok src dst.
Proof. intros. split; try done; try congruence. by left. Qed.

Lemma located_intro {C} `{CatalogLaws C} (c : C) id spec :
  catalog_inv c -> FindCellByID order_id c id = Ok (Some spec) -> GrpcEndpoint spec <> "" -> located c id spec.
Proof. intros Hc Hf He. split; [|done]. intros o. by eapply find_order. Qed.

(** An environment with the given network in which every endpoint can be dialled. *)
Definition plain_env (net : nat -> Outcome) : Env :=
  mkEnv net (fun n => Z.of_nat n) (fun _ => order_id) (fun _ => Err (errorf "no codec" [])) (fun _ => Err (errorf "no codec" []))
    (fun _ => Ok tt) (statusf Unavailable "unreachable" []) "" "" "".

Definition q3_spec : CellSpec := mkCellSpec "cell_-1_-1_1" 1 (Some world_bounds) "q3:50051".

Definition two_cells : Memory := default NewMemory
  (match (m ← Register NewMemory (Some root_spec); Register m (Some q3_spec)) with Ok m => Some m | Err _ => None end).

Definition two_servers : Cluster Memory :=
  mkCluster (Some two_cells) false ∅ (<["root:50051" := bob_joined]> (<["q3:50051" := fresh_server "cell_-1_-1_1"]> ∅)) ∅ [] 0.

Lemma two_cells_wf : registry_wf two_cells.
Proof. apply (bool_decide_eq_true_1 (registry_wf two_cells)). vm_compute. reflexivity. Qed.

Lemma player_handoff_survives_network_witness :
  let req := mkPlayerReq "cell_root" " cell_-1_-1_1" "bob" "t1" in
  let flaky := plain_env (fun n => if Nat.eqb n 1 then LostReply (errorf "timeout" []) else Delivered) in
  exists e cl2, ForwardPlayerHandoff (plain_env (fun _ => Delivered)) (Some req) (attempts req [flaky; flaky] two_servers) = (Ok e, cl2).
Proof.
  intros req flaky.
  destruct (player_handoff_survives_network two_cells root_spec q3_spec req [flaky; flaky] (plain_env (fun _ => Delivered))
    two_servers bob_joined (fresh_server "cell_-1_-1_1")) as (_ & _ & H).
  - split; [| |done|by vm_compute]; (apply located_intro; [exact two_cells_wf|by vm_compute|done]).
  - by repeat constructor.
  - reflexivity.
  - apply lookup_insert_eq.
  - etrans; [by apply lookup_insert_ne|apply lookup_insert_eq].
  - destruct bob_ready as [r []]. apply transfer_start; try done. apply init_wf, fresh_init.
  - specialize (H (fun _ => eq_refl)). destruct (ForwardPlayerHandoff _ _ _) as [r cl2].
    destruct H as (e & _ & _ & -> & _). by exists e, cl2.
Defined.
