(* ===== verification/MergeProps.v ===== *)
(** What a merge of four cells into their parent does to the cells: every drain it switched on is
    switched off again, and the NPCs of the children end up in the parent. *)
From Stdlib Require Import Ascii ZArith Lia.
From S2P Require Import Prelude Effects GoFloat GoString Partition Registry Ecs Aoi Replic.
From S2P Require Import CellSim CellSvc CellInv Handoff CellOps RegistrySvc RegistryLogic.
Local Open Scope string_scope.
Local Open Scope list_scope.

(** * The cell behind an id *)

Section Reach.
Context {C : Type} `{CatalogLaws C} (env : Env) (c : C).

(** A call to the cell [id] goes to the endpoint [ep]. *)
Definition reaches (id ep : string) : Prop :=
  exists spec, (forall o, FindCellByID o c id = Ok (Some spec)) /\ GrpcEndpoint spec = ep /\ ep <> "" /\
    is_ok (NewClient env ep) = true.

Lemma reaches_fun id ep ep' : reaches id ep -> reaches id ep' -> ep = ep'.
Proof.
  intros (s & Hs & <- & _) (s' & Hs' & <- & _). specialize (Hs order_id). rewrite (Hs' order_id) in Hs. by injection Hs as ->.
Qed.

Lemma dial_inv id cl ep spec cl' :
  catalog_inv c -> Store cl = Some c -> dialCellClient env id cl = (Ok (ep, spec), cl') -> cl' = cl /\ reaches id ep.
Proof.
  intros Hc Hst. unfold dialCellClient, mbind, St_bind, find_cell. rewrite Hst.
  destruct (FindCellByID (order env (calls cl)) c id) as [[s|]|e] eqn:Ef; try done.
  destruct (String.eqb_spec (GrpcEndpoint s) "") as [|Hne]; [done|].
  destruct (NewClient env (GrpcEndpoint s)) as [u|e] eqn:En; [|done]. intros [= <- <- <-]. split; [done|].
  exists s. split; [intros o; by eapply find_order|]. split; [done|]. split; [done|]. by rewrite En.
Qed.

Lemma dial_reaches id cl ep :
  Store cl = Some c -> reaches id ep -> exists spec, dialCellClient env id cl = (Ok (ep, spec), cl).
Proof.
  intros Hst (s & Hs & Hep & Hne & Hn). exists s. unfold dialCellClient, mbind, St_bind, find_cell. rewrite Hst, Hs, Hep.
  rewrite (proj2 (String.eqb_neq _ _) Hne). by destruct (NewClient env ep).
Qed.
End Reach.

(** * Drains *)

Definition draining {C} (cl : Cluster C) (ep : string) : Prop :=
  exists s, cellServers cl !! ep = Some s /\ splitDrain s = true.

(** No cell starts to drain and the catalog stays. *)
Definition no_new_drain {C} (cl cl' : Cluster C) : Prop :=
  Store cl' = Store cl /\ forall ep, draining cl' ep -> draining cl ep.

#[export] Instance no_new_drain_preorder {C} : PreOrder (no_new_drain (C:=C)).
Proof. split; [by split|]. intros c1 c2 c3 [H1 H2] [H3 H4]. split; [congruence|]. eauto. Qed.

(** The handlers other than [SetSplitDrain] leave the flag alone. *)
Lemma drain_prune o now s : splitDrain (pruneStalePreparedLocked o now s) = splitDrain s.
Proof.
  unfold pruneStalePreparedLocked. generalize (o _ (map_to_list (preparedByID s))) as l. intros l. revert s.
  induction l as [|[p t] l IH]; intros s; [done|]. cbn [fold_left]. rewrite IH. unfold prune_one.
  by destruct (match preparedByTk s !! t with Some _ => _ | None => _ end).
Qed.

Lemma drain_prepare o n1 n2 n3 p t k s : splitDrain (fst (PreparePlayerHandoff o n1 n2 n3 p t k s)) = splitDrain s.
Proof.
  unfold PreparePlayerHandoff. destruct (_ || _); [done|]. destruct (Sim s); [|done].
  assert (splitDrain (fst (prepare_begin o n1 n2 (trim_space p) (trim_space k) s)) = splitDrain s) as Hb.
  { unfold prepare_begin. rewrite <- (drain_prune o n1 s). set (s1 := pruneStalePreparedLocked o n1 s).
    repeat (break_match; try done); simplify_eq; done. }
  destruct (prepare_begin _ _ _ _ _ s) as [s1 [x|e]]; cbn [fst] in Hb; [done|].
  unfold prepare_capture. destruct (Sim s1) as [r1|] eqn:E1; cbn [cap_pos]; [|done].
  by destruct (PositionOf (rt_World r1) e).
Qed.

Lemma drain_accept pl s : splitDrain (fst (AcceptPlayerHandoff pl s)) = splitDrain s.
Proof.
  unfold AcceptPlayerHandoff. destruct pl as [p|]; [|done]. destruct (_ || _); [done|]. destruct (Sim s) as [r|] eqn:Er; [|done].
  unfold accept_begin. destruct (acceptedByTk s !! _); [done|]. unfold accept_create. rewrite Er.
  destruct (playerByID s !! _); [done|]. by destruct (CreateEntity (rt_World r)).
Qed.

Lemma drain_finalize p k s : splitDrain (fst (FinalizePlayerHandoff p k s)) = splitDrain s.
Proof.
  unfold FinalizePlayerHandoff. destruct (_ || _); [done|]. destruct (Sim s) as [r|]; [|done].
  unfold finalize_section. destruct (preparedByTk s !! _) as [pp|]; [|by destruct (bool_decide _)].
  destruct (negb _); [done|]. destruct (pp_finalized pp); [done|]. cbn [playerByID set_handoff].
  destruct (playerByID s !! _); [done|]. by destruct (_ =? 0)%N.
Qed.

Lemma drain_update m u o pl s :
  (forall en, pl <> USetSplitDrain en) -> splitDrain (fst (Update m u o (Some pl) s)) = splitDrain s.
Proof.
  intros Hne. destruct pl as [| |t|r|en|r|r|r|]; cbn [Update]; try done; try by destruct (Hne en).
  all: repeat (break_match; try done).
Qed.

Section Drains.
Context {C : Type} `{CatalogLaws C} (env : Env) (c : C) (Hc : catalog_inv c).
#[local] Set Default Proof Using "Type*".

Definition flag_kept (s s' : Server) : Prop := splitDrain s' = splitDrain s.

Lemma no_new_server ep s s' (cl : Cluster C) :
  cellServers cl !! ep = Some s -> flag_kept s s' -> no_new_drain cl (set_servers (<[ep := s']> (cellServers cl)) cl).
Proof.
  intros Hs Hf. split; [done|]. intros ep' (x & Hx & Hd). cbn in Hx. apply lookup_insert_Some in Hx as [[<- <-]|[_ Hx]]; [|by exists x].
  exists s. split; [done|]. by rewrite <- Hf.
Qed.

Lemma move_no_new_drain parent reason ordered total : steps_in no_new_drain (merge_move (C:=C) env parent reason ordered total).
Proof.
  eapply (frame_move env no_new_drain flag_kept); try done.
  - apply no_new_server.
  - intros r o s. by apply drain_update.
  - intros. apply drain_prepare.
  - intros. apply drain_accept.
  - intros. apply drain_finalize.
  - intros r o s. by apply drain_update.
Qed.

Lemma checks_no_new_drain parent ids : steps_in no_new_drain (merge_checks (C:=C) env parent ids).
Proof. eapply (frame_checks env no_new_drain flag_kept); try done. apply no_new_server. Qed.

(** Switching a drain on or off: the flags of the other endpoints stay. *)
Lemma drain_flags id b (cl : Cluster C) :
  Store cl = Some c ->
  let cl' := snd (drain env id b cl) in
  Store cl' = Some c /\
  (forall ep, draining cl' ep -> draining cl ep \/ (b = true /\ reaches env c id ep)) /\
  ((forall n e, net env n <> LostRequest e) -> b = false -> forall ep, draining cl' ep -> ~ reaches env c id ep).
Proof.
  intros Hst. unfold drain, ignore, doForwardCellUpdate. cbn [snd].
  destruct (String.eqb_spec id "") as [->|Hid].
  { split; [done|]. split; [by left|]. intros _ _ ep _ (spec & Hs & _). specialize (Hs order_id). by cbn in Hs. }
  destruct (dialCellClient env id cl) as [[[ep spec]|e] cl1] eqn:Ed.
  2:{ rewrite (run_bind_err _ _ _ _ _ Ed). pose proof (dial_pure env id cl) as Hp. rewrite Ed in Hp. cbn in Hp. subst cl1.
      split; [done|]. split; [by left|]. intros _ _ ep _ Hr.
      destruct (dial_reaches env c id cl ep Hst Hr) as [spec E]. congruence. }
  rewrite (run_bind _ _ _ _ _ Ed). apply (dial_inv env c) in Ed as [-> Hr]; [|done..]. cbn [fst].
  unfold call_cell. change (cellServers (count_call cl)) with (cellServers cl). cbn [Update].
  assert (forall ep', reaches env c id ep' -> ep' = ep) as Hfun by (intros ep' Hr'; by eapply reaches_fun).
  assert (forall s, cellServers cl !! ep = Some s ->
    let cl' := set_servers (<[ep := set_splitDrain b s]> (cellServers cl)) (count_call cl) in
    (forall ep', draining cl' ep' -> draining cl ep' \/ (b = true /\ reaches env c id ep')) /\
    (b = false -> forall ep', draining cl' ep' -> ~ reaches env c id ep')) as Hcase.
  { intros s Hs. split.
    - intros ep' (x & Hx & Hd). cbn in Hx. apply lookup_insert_Some in Hx as [[<- <-]|[_ Hx]]; [|left; by exists x].
      cbn in Hd. right. by split.
    - intros -> ep' (x & Hx & Hd) Hr'. apply Hfun in Hr' as ->. cbn in Hx. rewrite lookup_insert_eq in Hx. by injection Hx as <-. }
  destruct (net env (calls cl)) as [|e|e] eqn:En.
  2:{ split; [done|]. split; [by left|]. intros Hl. by destruct (Hl (calls cl) e). }
  all: destruct (cellServers cl !! ep) as [s|] eqn:Es;
    [destruct (Hcase s eq_refl) as [H1 H2]; cbn [default snd]; split; [done|]; split; [exact H1|]; intros _; exact H2|].
  all: split; [done|]; split; [by left|]; intros _ _ ep' (x & Hx & _) Hr'; apply Hfun in Hr' as ->; cbn in Hx; congruence.
Qed.

(** Drains switched on for a list of cells, and off again. *)
Lemma event_no_new_drain p st m ch ok : steps_in no_new_drain (event (C:=C) p st m ch ok).
Proof. intros cl. unfold event, publishMergeWorkflowEvent. cbn. by destruct (NATS cl). Qed.

Lemma drain_all_on p st m ok ids (cl : Cluster C) :
  Store cl = Some c ->
  let cl' := snd (for_each (fun cid => _ ← drain env cid true; event p st m cid ok) ids cl) in
  Store cl' = Some c /\
  (forall ep, draining cl' ep -> draining cl ep \/ exists id, id ∈ ids /\ reaches env c id ep).
Proof.
  revert cl. induction ids as [|id ids IH]; intros cl Hst; cbn zeta.
  { split; [done|]. by left. }
  cbn [for_each]. destruct (drain_flags id true cl Hst) as (H1 & H2 & _).
  assert (forall cl, fst (drain env id true cl) = Ok tt) as Hok by done.
  destruct (drain env id true cl) as [r cl1] eqn:E1. pose proof (Hok cl) as Hr. rewrite E1 in Hr. cbn in Hr, H1, H2. subst r.
  destruct (event p st m id ok cl1) as [r cl2] eqn:E2. pose proof (event_no_new_drain p st m id ok cl1) as [H3 H4].
  rewrite E2 in H3, H4. cbn in H3, H4. assert (r = Ok tt) as -> by (unfold event, publishMergeWorkflowEvent in E2; by injection E2).
  assert ((_ ← drain env id true; event p st m id ok) cl = (Ok tt, cl2)) as E3 by by rewrite (run_bind _ _ _ _ _ E1).
  rewrite (run_bind _ _ _ _ _ E3). destruct (IH cl2) as [H5 H6]; [congruence|]. split; [done|].
  intros ep Hep. destruct (H6 ep Hep) as [Hd|(x & Hx & Hr)]; [|right; exists x; split; [by right|done]].
  destruct (H2 ep (H4 ep Hd)) as [?|[_ Hr]]; [by left|]. right. exists id. split; [left|done].
Qed.

Lemma drain_all_off ids (cl : Cluster C) :
  (forall n e, net env n <> LostRequest e) -> Store cl = Some c ->
  let cl' := snd (for_each (fun cid => drain env cid false) ids cl) in
  Store cl' = Some c /\
  forall ep, draining cl' ep -> draining cl ep /\ forall id, id ∈ ids -> ~ reaches env c id ep.
Proof.
  intros Hnet. revert cl. induction ids as [|id ids IH]; intros cl Hst; cbn zeta.
  { split; [done|]. intros ep Hep. split; [done|]. by intros id ?%not_elem_of_nil. }
  cbn [for_each]. destruct (drain_flags id false cl Hst) as (H1 & H2 & H3).
  assert (fst (drain env id false cl) = Ok tt) as Hok by done.
  destruct (drain env id false cl) as [r cl1] eqn:E1. cbn [fst snd] in *. subst r.
  rewrite (run_bind _ _ _ _ _ E1). destruct (IH cl1 H1) as [H5 H6]. split; [done|].
  intros ep Hep. destruct (H6 ep Hep) as [Hd Hn]. destruct (H2 ep Hd) as [?|[? _]]; [|done]. split; [done|].
  intros x [->|Hx]%elem_of_cons; [by apply H3|by apply Hn].
Qed.

Lemma drained_restores parent reason ordered total (cl : Cluster C) :
  (forall n e, net env n <> LostRequest e) -> Store cl = Some c ->
  forall ep, draining (snd (merge_drained env parent reason ordered total cl)) ep -> draining cl ep.
Proof.
  intros Hnet Hst ep. unfold merge_drained. destruct (drain_flags parent true cl Hst) as (H1 & H2 & _).
  assert (fst (drain env parent true cl) = Ok tt) as Hok by done.
  destruct (drain env parent true cl) as [r cl1] eqn:E1. cbn [fst snd] in *. subst r.
  rewrite (run_bind _ _ _ _ _ E1). unfold defer at 1.
  match goal with |- context [for_each ?g ordered ≫= ?h] => set (f := g); set (k := h) end.
  destruct (drain_all_on parent "child_drain_enabled" (lit "split_drain enabled") false ordered cl1 H1) as [H3 H4]. fold f in H3, H4.
  assert (fst (for_each f ordered cl1) = Ok tt) as Hok2.
  { clear. generalize cl1. induction ordered as [|x l IH]; intros cl; [done|]. cbn [for_each].
    assert (fst (f x cl) = Ok tt) as Hf.
    { unfold f, mbind, St_bind, drain, ignore, event, publishMergeWorkflowEvent. done. }
    destruct (f x cl) as [r cl2] eqn:E. cbn in Hf. subst r. rewrite (run_bind _ _ _ _ _ E). apply IH. }
  destruct (for_each f ordered cl1) as [r cl2] eqn:E2. cbn [fst snd] in *. subst r.
  rewrite (run_bind _ _ _ _ _ E2). unfold k, defer.
  destruct (merge_move env parent reason ordered total cl2) as [res cl3] eqn:E3.
  pose proof (move_no_new_drain parent reason ordered total cl2) as [H5 H6]. rewrite E3 in H5, H6. cbn [snd] in H5, H6.
  destruct (drain_all_off ordered cl3 Hnet) as [H7 H8]; [congruence|].
  set (cl4 := snd (for_each _ ordered cl3)) in *.
  destruct (drain_flags parent false cl4 H7) as (_ & H9 & H10). intros Hd. cbn [snd] in *.
  pose proof (H10 Hnet eq_refl ep Hd) as Hnp. destruct (H9 ep Hd) as [Hd4|[? _]]; [|done].
  destruct (H8 ep Hd4) as [Hd3 Hnc]. destruct (H4 ep (H6 ep Hd3)) as [Hd1|(id & Hid & Hr)]; [|by destruct (Hnc id Hid)].
  by destruct (H2 ep Hd1) as [?|[_ ?]].
Qed.
End Drains.

(** The state in which the merge of a request does its work: the same cells and catalog as before. *)
Definition same_cells {C} (cl cl' : Cluster C) : Prop := Store cl' = Store cl /\ cellServers cl' = cellServers cl.

#[export] Instance same_cells_preorder {C} : PreOrder (same_cells (C:=C)).
Proof. split; [by split|]. intros c1 c2 c3 [? ?] [? ?]. split; congruence. Qed.

Lemma event_same_cells {C} p st m ch ok : steps_in same_cells (event (C:=C) p st m ch ok).
Proof. intros cl. unfold event, publishMergeWorkflowEvent. cbn. by destruct (NATS cl). Qed.

Lemma checks_same_cells {C} `{!Catalog C} env parent ids : steps_in same_cells (merge_checks (C:=C) env parent ids).
Proof.
  eapply (frame_checks env same_cells eq); try done.
  intros ep s s' cl Hs <-. split; [done|]. cbn. by apply insert_id.
Qed.

(** Either nothing happened to the cells, or the merge did its drained part. *)
Lemma merge_cases {C} `{!Catalog C} env req (cl : Cluster C) :
  let '(r, cl') := ForwardMergeHandoff env req cl in
  (is_ok r = false /\ same_cells cl cl') \/
  exists q cl1 ordered total cl2 cl3, req = Some q /\ same_cells cl cl1 /\
    let p := trim_space (mq_ParentCellId q) in
    merge_checks env p (uniqueCellIDs (mq_ChildCellIds q)) cl1 = (Ok (ordered, total), cl2) /\
    (exists reason, merge_drained env p reason ordered total cl2 = (r, cl3)) /\ same_cells cl3 cl'.
Proof.
  destruct req as [q|]; [|by left]. unfold ForwardMergeHandoff.
  set (p := trim_space (mq_ParentCellId q)). set (ids := uniqueCellIDs _).
  set (reason := if String.eqb (trim_space (mq_Reason q)) "" then _ else _).
  destruct (event p "detected" (lit "merge workflow detected") "" false cl) as [u cl1] eqn:E1.
  pose proof (event_same_cells p "detected" (lit "merge workflow detected") "" false cl) as Hev. rewrite E1 in Hev. cbn [snd] in Hev.
  assert (u = Ok tt) as -> by (unfold event, publishMergeWorkflowEvent in E1; by injection E1).
  rewrite (run_bind _ _ _ _ _ E1).
  assert (forall st (e : error) (cl2 : Cluster C), let '(r, cl') := (_ ← event p st (error_string e) "" false; throw e : M C MergeHandoffResponse) cl2 in
    is_ok r = false /\ same_cells cl2 cl') as Hfail.
  { intros st e cl2. pose proof (event_same_cells p st (error_string e) "" false cl2) as H.
    unfold mbind, St_bind. destruct (event p st (error_string e) "" false cl2) as [[u|e'] cl3]; by split. }
  destruct (String.eqb_spec p "") as [Hp|Hp].
  { specialize (Hfail "failed" (statusf InvalidArgument "parent_cell_id required" []) cl1). unfold fail_merge.
    match type of Hfail with (let '(_, _) := ?x in _) => destruct x as [r cl'] end.
    left. destruct Hfail. split; [done|]. by transitivity cl1. }
  unfold mbind at 1, St_bind at 1, tryAcquireMerge, p. rewrite trim_space_idem. fold p. rewrite (proj2 (String.eqb_neq _ _) Hp).
  destruct (bool_decide (p ∈ mergeInFlight cl1)); cbn [negb].
  { specialize (Hfail "skipped_reentry" (statusf FailedPrecondition "merge already in progress for parent: %s" [AStr p]) cl1).
    match type of Hfail with (let '(_, _) := ?x in _) => destruct x as [r cl'] end.
    left. destruct Hfail. split; [done|]. by transitivity cl1. }
  unfold defer. set (cl2 := set_inflight _ cl1). assert (same_cells cl cl2) as Hs2 by done.
  assert (forall cl3 : Cluster C, same_cells cl3 (snd (releaseMerge p cl3))) as Hrel.
  { intros cl3. unfold releaseMerge. destruct (String.eqb (trim_space p) ""); by split. }
  destruct (merge_checks env p ids cl2) as [[[ordered total]|e] cl3] eqn:E3.
  2:{ rewrite (run_bind_err _ _ _ _ _ E3). left. split; [done|]. etrans; [exact Hs2|]. etrans; [|apply Hrel].
      pose proof (checks_same_cells env p ids cl2) as H. by rewrite E3 in H. }
  rewrite (run_bind _ _ _ _ _ E3). cbn [fst snd].
  destruct (merge_drained env p reason ordered total cl3) as [r cl4] eqn:E4. right.
  exists q, cl2, ordered, total, cl3, cl4. repeat (split; [done|]). split; [by exists reason|]. apply Hrel.
Qed.

(** C20: a merge takes its drains back. On a network that delivers every request, though it may lose
    replies, no cell drains after a merge request that did not drain before it, wherever the merge
    failed. *)
Theorem merge_restores_drains {C} `{CatalogLaws C} env c req (cl : Cluster C) ep :
  catalog_inv c -> Store cl = Some c -> (forall n e, net env n <> LostRequest e) ->
  draining (snd (ForwardMergeHandoff env req cl)) ep -> draining cl ep.
Proof.
  intros Hc Hst Hnet Hd. pose proof (merge_cases env req cl) as Hcases.
  destruct (ForwardMergeHandoff env req cl) as [r cl']. cbn [snd] in Hd.
  assert (forall a b : Cluster C, same_cells a b -> draining b ep -> draining a ep) as Hsame.
  { intros a b [_ E] (s & Hs & ?). exists s. by rewrite <- E. }
  destruct Hcases as [[_ Hs]|(q & cl1 & ordered & total & cl2 & cl3 & -> & Hs1 & Hchk & (reason & Hmv) & Hs3)]; [by apply (Hsame _ cl')|].
  apply (Hsame cl cl1 Hs1). destruct (checks_no_new_drain env c Hc (trim_space (mq_ParentCellId q)) (uniqueCellIDs (mq_ChildCellIds q)) cl1) as [Hst2 Hn].
  rewrite Hchk in Hst2, Hn. cbn [snd] in Hst2, Hn. apply Hn. eapply (drained_restores env c Hc); [exact Hnet| |].
  - destruct Hs1. congruence.
  - rewrite Hmv. by apply (Hsame _ cl').
Qed.

(** * The NPCs *)

(** What a drain and an export leave alone. *)
Definition view (s : Server) : option Runtime * gset N * gmap string Entity := (Sim s, players s, playerByID s).

Definition same_views {C} (cl cl' : Cluster C) : Prop :=
  Store cl' = Store cl /\ view <$> cellServers cl' = view <$> cellServers cl.

#[export] Instance same_views_preorder {C} : PreOrder (same_views (C:=C)).
Proof. split; [by split|]. intros c1 c2 c3 [? ?] [? ?]. split; congruence. Qed.

Lemma same_cells_views {C} (cl cl' : Cluster C) : same_cells cl cl' -> same_views cl cl'.
Proof. intros [? Hs]. split; [done|]. by rewrite Hs. Qed.

Definition view_kept (s s' : Server) : Prop := view s' = view s.

Lemma views_server {C} ep s s' (cl : Cluster C) :
  cellServers cl !! ep = Some s -> view_kept s s' -> same_views cl (set_servers (<[ep := s']> (cellServers cl)) cl).
Proof.
  intros Hs Hv. split; [done|]. cbn. rewrite fmap_insert, Hv. apply insert_id. by rewrite lookup_fmap, Hs.
Qed.

Lemma same_views_sym {C} (cl cl' : Cluster C) : same_views cl cl' -> same_views cl' cl.
Proof. intros [? ?]. by split. Qed.

Lemma fail_merge_err {C A} p ch e (cl : Cluster C) : exists e', fst (fail_merge (C:=C) (A:=A) p ch e cl) = Err e'.
Proof. unfold fail_merge, event, publishMergeWorkflowEvent, mbind, St_bind. by eexists. Qed.

Section Npcs.
Context {C : Type} `{CatalogLaws C} (env : Env) (c : C) (Hc : catalog_inv c).
#[local] Set Default Proof Using "Type*".

Lemma drain_views id b : steps_in same_views (drain (C:=C) env id b).
Proof. eapply (frame_drain env same_views view_kept); try done. apply views_server. Qed.

Lemma export_view r : allows_update env view_kept (UExportNpcPersist r).
Proof. intros o s. cbn [Update]. destruct (Sim s) as [x|]; [|done]. by destruct (marshal env _). Qed.

Lemma update_export_views id r : steps_in same_views (doForwardCellUpdate (C:=C) env id (Some (UExportNpcPersist r))).
Proof. eapply (frame_update env same_views view_kept); try done; [apply views_server|apply export_view]. Qed.

Lemma save_views parent ids n h : steps_in same_views (saveMergeAutomationState (C:=C) env parent ids n h).
Proof. eapply (frame_save env same_views view_kept); try done. apply views_server. Qed.

(** The server behind an id. *)
Definition cell_at (cl : Cluster C) (id : string) (s : Server) : Prop :=
  exists ep, reaches env c id ep /\ cellServers cl !! ep = Some s.

Lemma cell_at_fun cl id s s' : cell_at cl id s -> cell_at cl id s' -> s = s'.
Proof. intros (ep & Hr & Hs) (ep' & Hr' & Hs'). rewrite (reaches_fun env c id ep ep' Hr Hr') in Hs. congruence. Qed.

Lemma cell_at_view cl cl' id s :
  same_views cl cl' -> cell_at cl' id s -> exists s', cell_at cl id s' /\ view s' = view s.
Proof.
  intros [_ Hv] (ep & Hr & Hs). assert ((view <$> cellServers cl') !! ep = Some (view s)) as Hl by by rewrite lookup_fmap, Hs.
  rewrite Hv, lookup_fmap in Hl. destruct (cellServers cl !! ep) as [s'|] eqn:E; [|done]. cbn in Hl. injection Hl as Hl1 Hl2 Hl3.
  exists s'. split; [by exists ep|]. unfold view. congruence.
Qed.

(** An answered update went to the cell behind the id. *)
Lemma update_inv id u cl resp cl' :
  Store cl = Some c -> doForwardCellUpdate env id (Some u) cl = (Ok resp, cl') ->
  exists ep s n, reaches env c id ep /\ cellServers cl !! ep = Some s /\
    let '(s', a) := Update (marshal env) (unmarshal env) (order env n) (Some u) s in
    resp = a /\ Store cl' = Some c /\ cellServers cl' = <[ep := s']> (cellServers cl).
Proof.
  intros Hst. unfold doForwardCellUpdate. destruct (String.eqb id ""); [done|].
  intros ([ep spec] & cl1 & Hd & Hcall)%bind_inv. apply (dial_inv env c) in Hd as [-> Hr]; [|done..]. cbn [fst] in Hcall.
  apply call_inv in Hcall as (s & Hs & -> & Hst' & Hcs). exists ep, s, (calls cl). split; [done|]. split; [done|].
  destruct (Update _ _ _ _ s) as [s' a]. split; [done|]. split; [congruence|done].
Qed.

(** The JSON codec gives back what it wrote, and what it writes is not blank. *)
Definition json_codec : Prop := forall p raw, marshal env p = Ok raw ->
  unmarshal env raw = Ok p /\ trim_space raw = raw /\ raw <> "".

(** An entity that the cell [id] persists. *)
Definition persists (cl : Cluster C) (id : string) (ent : CellPersistEntity) : Prop :=
  exists s r, cell_at cl id s /\ Sim s = Some r /\
    exists e, e ∈ alive (rt_World r) /\ isPlayer s e = false /\ encode_entity (rt_World r) e = Some ent.

Lemma persists_views cl cl' id ent : same_views cl cl' -> persists cl' id ent -> persists cl id ent.
Proof.
  intros Hv (s & r & Hs & Hr & e & He & Hp & Hent). destruct (cell_at_view cl cl' id s Hv Hs) as (s' & Hs' & E).
  unfold view in E. injection E as E1 E2 _. exists s', r. split; [done|]. split; [congruence|]. exists e. split; [done|].
  split; [|done]. unfold isPlayer in *. by rewrite E2.
Qed.

Lemma export_children_inv parent reason ids cl ents cl' :
  json_codec -> Store cl = Some c -> export_children env parent reason ids cl = (Ok ents, cl') ->
  same_views cl cl' /\ (forall id, id ∈ ids -> exists s, cell_at cl id s) /\
  exists ents', ents = Some <$> ents' /\ forall ent, ent ∈ ents' <-> exists id, id ∈ ids /\ persists cl id ent.
Proof.
  intros Hj. revert cl ents cl'. induction ids as [|id ids IH]; intros cl ents cl' Hst; cbn [export_children].
  { intros [= <- <-]. split; [done|]. split; [by intros id ?%not_elem_of_nil|]. exists []. split; [done|]. intros ent.
    rewrite elem_of_nil. split; [done|]. by intros (id & ?%not_elem_of_nil & _). }
  intros (exp & cl1 & H1 & H2)%bind_inv. apply on_error_inv in H1; [|apply fail_merge_err].
  pose proof (update_export_views id (Some (reason +:+ "/export/" +:+ id)) cl) as Hv1. rewrite H1 in Hv1. cbn [snd] in Hv1.
  apply update_inv in H1 as (ep & s & n & Hr & Hs & Hu); [|done]. cbn [Update] in Hu.
  apply bind_inv in H2 as (u & cl2 & Hg & H3). destruct (_ || _) eqn:Eok in Hg.
  { destruct (@fail_merge_err C unit parent id (statusf FailedPrecondition "child export failed: %s (%s)" [AStr id; ATxt (ur_Message exp)]) cl1) as [e' He'].
    rewrite Hg in He'. done. }
  injection Hg as _ <-. apply orb_false_iff in Eok as [Eok _]. apply negb_false_iff in Eok.
  destruct (Sim s) as [r|] eqn:Er; [|by destruct Hu as [-> _]].
  fold (export_state (order env n) s r) in Hu.
  destruct (marshal env (export_state (order env n) s r)) as [raw|] eqn:Em; [|by destruct Hu as [-> _]].
  destruct Hu as (-> & Hst1 & Hcs). cbn [ur_NpcExportJson] in H3. destruct (Hj _ _ Em) as (Hun & _ & _). rewrite Hun in H3.
  apply bind_inv in H3 as (p & cl2 & [= <- <-] & H3). apply bind_inv in H3 as (u2 & cl3 & Hev & H3).
  pose proof (event_same_cells parent "child_exported" (lit "child export ok") id false cl1) as Hv2. rewrite Hev in Hv2. cbn [snd] in Hv2.
  apply same_cells_views in Hv2. apply bind_inv in H3 as (more & cl4 & H3 & [= <- <-]).
  assert (same_views cl cl3) as Hv by by transitivity cl1.
  destruct (IH cl3 more cl4) as (Hv4 & Hall & ents' & -> & Hents); [destruct Hv; congruence|done|].
  destruct (export_entities (order env n) s r) as (here & Hhere & _ & Hin).
  split; [by transitivity cl3|]. split.
  - intros x [->|Hx]%elem_of_cons; [by exists s, ep|]. destruct (Hall x Hx) as [s' Hs'].
    destruct (cell_at_view cl cl3 x s' Hv Hs') as (s'' & ? & _). by exists s''.
  - exists (here ++ ents'). split; [by rewrite fmap_app, <- Hhere|]. intros ent. rewrite elem_of_app, Hin, Hents. split.
    + intros [(e & He)|(x & Hx & Hp)].
      * exists id. split; [left|]. exists s, r. split; [by exists ep|]. split; [done|]. by exists e.
      * exists x. split; [by right|]. by apply (persists_views cl cl3).
    + intros (x & [->|Hx]%elem_of_cons & Hp).
      * left. destruct Hp as (s' & r' & Hs' & Hr' & He). assert (s' = s) as -> by (eapply cell_at_fun; [done|by exists ep]).
        assert (r' = r) as -> by congruence. exact He.
      * right. exists x. split; [done|]. by apply (persists_views cl3 cl); [apply same_views_sym|].
Qed.

(** A successful check of a merge group. *)
Lemma merge_checks_inv parent ids cl ordered total cl' :
  Store cl = Some c -> merge_checks env parent ids cl = (Ok (ordered, total), cl') ->
  length ids = 4 /\ exists pspec children, (forall o, FindCellByID o c parent = Ok (Some pspec)) /\
    ordered = (fun ch => trim_space (Id ch)) <$> children /\ (forall id, id ∈ ids -> id ∈ ordered) /\
    ValidateMergeChildren (CBounds pspec) (Level pspec) (Some <$> children) = Ok tt.
Proof.
  intros Hst. unfold merge_checks. destruct (Nat.eqb_spec (length ids) 4) as [Hlen|]; cbn [negb].
  2:{ intros E. destruct (@fail_merge_err C (list string * Z) parent "" (statusf InvalidArgument "need exactly 4 unique child_cell_ids, got %d"
        [AInt (Z.of_nat (length ids))]) cl) as [e He]. by rewrite E in He. }
  rewrite Hst. intros (found & cl1 & Hf & E)%bind_inv. split; [done|].
  assert (cl1 = cl) as -> by (pose proof (find_cell_pure env parent cl) as Hp; by rewrite Hf in Hp).
  unfold find_cell in Hf. rewrite Hst in Hf. destruct (FindCellByID (order env (calls cl)) c parent) as [f|e] eqn:Ef; [|done].
  injection Hf as ->. destruct found as [[i lvl [b|] ep]|]; [|done..]. set (pspec := mkCellSpec i lvl (Some b) ep) in *.
  apply bind_inv in E as (all & cl2 & _ & E). apply bind_inv in E as (children & cl3 & Hch & E).
  apply bind_inv in E as (u & cl4 & Hm & E). apply bind_inv in E as (u' & cl5 & Hv & E).
  exists pspec, children. split; [intros o; by eapply find_order|].
  apply bind_inv in E as (pp & cl6 & _ & E2). apply bind_inv in E2 as (g & cl7 & _ & E2).
  apply bind_inv in E2 as (tot & cl8 & _ & E2). apply bind_inv in E2 as (g' & cl9 & _ & [= <- _ _]).
  split; [done|]. split.
  - destruct (list_find _ ids) as [[k id]|] eqn:El; [done|]. intros id Hid.
    apply list_find_None in El. rewrite Forall_forall in El. specialize (El id Hid). by destruct (decide (id ∈ (fun ch => trim_space (Id ch)) <$> children)).
  - destruct (ValidateMergeChildren _ _ _) as [[]|e]; done.
Qed.
End Npcs.

(** ** Restoring entities whose ids may collide *)

Definition persisted_position (ent : CellPersistEntity) : Position :=
  mkPosition (of_f32 (GetX (pe_Position ent))) (of_f32 (GetY (pe_Position ent))) (of_f32 (GetZ (pe_Position ent))).

Lemma restore_any ents w :
  let w' := fold_left restore_entity (Some <$> ents) w in
  (forall e, e ∈ alive w' <-> e ∈ alive w \/ (e <> 0%N /\ e ∈ pe_EntityId <$> ents)) /\
  (forall e, e <> 0%N -> e ∈ pe_EntityId <$> ents ->
     exists ent, ent ∈ ents /\ pe_EntityId ent = e /\ PositionOf w' e = Some (persisted_position ent)).
Proof.
  revert w. induction ents as [|x ents IH]; intros w; cbn [fmap list_fmap fold_left].
  { split; [|by intros e _ ?%not_elem_of_nil]. intros e. rewrite elem_of_nil. tauto. }
  destruct (IH (restore_entity w (Some x))) as [Ha Hp]. split.
  - intros e. rewrite Ha, elem_of_cons. destruct (decide (pe_EntityId x = 0%N)) as [H0|H0].
    + rewrite restore_zero by done. intuition congruence.
    + rewrite (proj2 (restore_lookup w x H0)), elem_of_union, elem_of_singleton. intuition congruence.
  - intros e He [Hx|Hin]%elem_of_cons.
    + destruct (decide (e ∈ pe_EntityId <$> ents)) as [Hin|Hin].
      { destruct (Hp e He Hin) as (ent & ? & ? & ?). exists ent. split; [by right|done]. }
      exists x. split; [left|]. split; [done|]. subst e.
      assert (forall l w, pe_EntityId x ∉ pe_EntityId <$> l ->
        PositionOf (fold_left restore_entity (Some <$> l) w) (pe_EntityId x) = PositionOf w (pe_EntityId x)) as Hother.
      { clear. intros l. induction l as [|y l IH]; intros w Hni; [done|]. cbn [fmap list_fmap fold_left] in *.
        apply not_elem_of_cons in Hni as [? ?]. rewrite IH by done. by apply restore_position_other. }
      rewrite Hother by done. by apply restore_lookup.
    + destruct (Hp e He Hin) as (ent & ? & ? & ?). exists ent. split; [by right|done].
Qed.

(** The import of a list of entities into a cell without players. *)
Lemma import_inv m u o raw reason s s' resp p ents :
  u raw = Ok p -> p_SchemaVersion p = SchemaVersion -> p_Entities p = Some <$> ents -> trim_space raw = raw -> raw <> "" ->
  Update m u o (Some (UImportNpcPersist (Some (raw, reason)))) s = (s', resp) -> ur_Ok resp = true ->
  playerByID s = ∅ /\ playerByID s' = ∅ /\ exists r', Sim s' = Some r' /\
    (forall e, e ∈ alive (rt_World r') <-> e <> 0%N /\ e ∈ pe_EntityId <$> ents) /\
    (forall e, e ∈ alive (rt_World r') -> exists ent, ent ∈ ents /\ pe_EntityId ent = e /\
       PositionOf (rt_World r') e = Some (persisted_position ent)).
Proof.
  intros Hu Hsch Hp Ht Hr. cbn [Update]. destruct (Sim s) as [r|]; [|by intros [= _ <-]].
  destruct (0 <? PlayerCount s)%Z eqn:Ec; [by intros [= _ <-]|]. apply PlayerCount_0 in Ec.
  rewrite Ht, (proj2 (String.eqb_neq _ _) Hr), Hu. unfold Decode. rewrite Hsch, Hp. cbn [Z.eqb negb SchemaVersion Pos.eqb].
  intros [= <- _] _. split; [done|]. split; [done|]. eexists. split; [reflexivity|].
  cbn [rt_World Loop LWorld sim_World]. fold (rt_World r). set (w0 := fold_left _ (live o _) _).
  destruct (restore_any ents w0) as [Ha Hpos].
  assert (forall e, e ∉ alive w0) as Hw0.
  { intros e. unfold w0. rewrite destroy_all, elem_of_live. tauto. }
  split; intros e; rewrite Ha.
  - specialize (Hw0 e). tauto.
  - intros [?|[? ?]]; [by destruct (Hw0 e)|by apply Hpos].
Qed.

Lemma unique_ids_spec seen l :
  NoDup (unique_ids seen l) /\ forall id, id ∈ unique_ids seen l <-> id <> "" /\ id ∉ seen /\ id ∈ trim_space <$> l.
Proof.
  revert seen. induction l as [|raw l IH]; intros seen; cbn [unique_ids fmap list_fmap].
  { split; [apply NoDup_nil_2|]. intros id. rewrite elem_of_nil. tauto. }
  destruct (String.eqb_spec (trim_space raw) "") as [He|He].
  { destruct (IH seen) as [? Hin]. split; [done|]. intros id. rewrite Hin, elem_of_cons. rewrite He. intuition congruence. }
  destruct (bool_decide_reflect (trim_space raw ∈ seen)) as [Hs|Hs].
  { destruct (IH seen) as [? Hin]. split; [done|]. intros id. rewrite Hin, elem_of_cons. split; [tauto|].
    intros (? & ? & [->|?]); [done|tauto]. }
  destruct (IH ({[trim_space raw]} ∪ seen)) as [Hnd Hin]. split.
  - constructor; [|done]. rewrite Hin. set_solver.
  - intros id. rewrite elem_of_cons, Hin, elem_of_union, elem_of_singleton, elem_of_cons. split.
    + intros [->|(? & ? & ?)]; [tauto|]. tauto.
    + intros (? & ? & [->|?]); [by left|]. destruct (decide (id = trim_space raw)); [by left|]. right. tauto.
Qed.

(** Four distinct ids among four are all of them. *)
Lemma ids_are_group (ids ordered : list string) :
  NoDup ids -> length ids = length ordered -> (forall id, id ∈ ids -> id ∈ ordered) -> forall id, id ∈ ids <-> id ∈ ordered.
Proof.
  intros Hnd Hlen Hsub. assert (ids ≡ₚ ordered) as Hp; [|intros id; by rewrite Hp].
  apply submseteq_length_Permutation; [by apply NoDup_submseteq|lia].
Qed.

Section Collect.
Context {C : Type} `{CatalogLaws C} (env : Env) (c : C) (Hc : catalog_inv c) (Hj : json_codec env).
Context (Hoff : mergePlayerHandoffEnabled env = false).
#[local] Set Default Proof Using "Type*".

(** The outcome of a merge without player handoffs, from [cl] to [cl']. *)
Record collected (parent : string) (ids : list string) (cl cl' : Cluster C) : Prop := {
  col_before : exists s, cell_at env c cl parent s /\ playerByID s = ∅;
  col_reach : forall id, id ∈ ids -> exists s, cell_at env c cl id s;
  col_parent : exists s' r' (ents : list CellPersistEntity), cell_at env c cl' parent s' /\ playerByID s' = ∅ /\ Sim s' = Some r' /\
    (forall ent, ent ∈ ents <-> exists id, id ∈ ids /\ persists env c cl id ent) /\
    (forall e, e ∈ alive (rt_World r') <-> e <> 0%N /\ e ∈ pe_EntityId <$> ents) /\
    (forall e, e ∈ alive (rt_World r') -> exists ent, ent ∈ ents /\ pe_EntityId ent = e /\
       PositionOf (rt_World r') e = Some (persisted_position ent));
  col_others : forall id s, cell_at env c cl id s -> (forall ep, reaches env c parent ep -> ~ reaches env c id ep) ->
    exists s', cell_at env c cl' id s' /\ view s' = view s }.

Lemma collected_views parent ids cl1 cl2 cl3 cl4 :
  same_views cl1 cl2 -> same_views cl3 cl4 -> collected parent ids cl2 cl3 -> collected parent ids cl1 cl4.
Proof.
  intros H12 H34 [(s & Hs & Hp) Hr (s' & r' & ents & Hs' & Hp' & Hsim & Hents & Hal & Hpos) Hoth]. split.
  - destruct (cell_at_view env c Hc cl1 cl2 parent s H12 Hs) as (s1 & ? & Hv). exists s1. split; [done|].
    unfold view in Hv. injection Hv as _ _ ->. done.
  - intros id Hid. destruct (Hr id Hid) as [x Hx]. destruct (cell_at_view env c Hc cl1 cl2 id x H12 Hx) as (y & ? & _). by exists y.
  - destruct (cell_at_view env c Hc cl4 cl3 parent s' (same_views_sym cl3 cl4 H34) Hs') as (s4 & ? & Hv).
    unfold view in Hv. injection Hv as Hv1 _ Hv3. exists s4, r', ents. split; [done|]. split; [congruence|]. split; [congruence|].
    split; [|done]. intros ent. rewrite Hents. split; intros (id & Hid & Hpe); exists id; (split; [done|]).
    + by apply (persists_views env c Hc cl1 cl2).
    + by apply (persists_views env c Hc cl2 cl1); [apply same_views_sym|].
  - intros id s1 Hs1 Hne. destruct (cell_at_view env c Hc cl2 cl1 id s1 (same_views_sym cl1 cl2 H12) Hs1) as (s2 & Hs2 & Hv2).
    destruct (Hoth id s2 Hs2 Hne) as (s3 & Hs3 & Hv3).
    destruct (cell_at_view env c Hc cl4 cl3 id s3 (same_views_sym cl3 cl4 H34) Hs3) as (s4 & Hs4 & Hv4). exists s4. split; [done|congruence].
Qed.

Lemma merge_move_inv parent reason ordered total cl resp cl' :
  Store cl = Some c -> merge_move env parent reason ordered total cl = (Ok resp, cl') -> collected parent ordered cl cl'.
Proof.
  intros Hst. unfold merge_move. rewrite Hoff. cbn [andb]. intros (ents & cl1 & Hex & E)%bind_inv.
  apply (export_children_inv env c Hc) in Hex as (Hv1 & Hreach & ents' & -> & Hents); [|done..].
  apply bind_inv in E as (raw & cl2 & Hm & E). destruct (marshal env _) as [raw'|] eqn:Em; [|done]. injection Hm as -> <-.
  destruct (Hj _ _ Em) as (Hun & Htrim & Hne).
  apply bind_inv in E as (imp & cl3 & Hi & E). apply on_error_inv in Hi; [|apply fail_merge_err].
  assert (Store cl1 = Some c) as Hst1 by (destruct Hv1; congruence).
  apply (update_inv env c Hc) in Hi as (ep & s & n & Hr & Hs & Hu); [|done].
  destruct (Update _ _ _ _ s) as [s' a] eqn:Eu. destruct Hu as (-> & Hst3 & Hcs).
  apply bind_inv in E as (u & cl4 & Hg & E). destruct (ur_Ok a) eqn:Eok; cbn [negb] in Hg.
  2:{ destruct (@fail_merge_err C unit parent "" (statusf FailedPrecondition "parent import failed: %s" [ATxt (ur_Message a)]) cl3) as [e He].
      by rewrite Hg in He. }
  injection Hg as _ <-. apply bind_inv in E as (moved & cl5 & [= _ <-] & E).
  apply bind_inv in E as (u5 & cl6 & Hsave & E). apply on_error_inv in Hsave; [|apply fail_merge_err].
  pose proof (save_views env c Hc parent ordered moved false cl3) as Hv6. rewrite Hsave in Hv6. cbn [snd] in Hv6.
  apply bind_inv in E as (u6 & cl7 & Hev & [= _ <-]).
  pose proof (event_same_cells parent "done" (lit "merge handoff completed") "" true cl6) as Hv7. rewrite Hev in Hv7. cbn [snd] in Hv7.
  apply same_cells_views in Hv7.
  destruct (import_inv _ _ _ _ _ _ _ _ _ ents' Hun eq_refl eq_refl Htrim Hne Eu Eok) as (Hp & Hp' & r' & Hsim & Hal & Hpos).
  apply (collected_views parent ordered cl cl1 cl3 cl7); [done|by transitivity cl6|]. split.
  - exists s. split; [by exists ep|done].
  - intros id Hid. destruct (Hreach id Hid) as [x Hx].
    destruct (cell_at_view env c Hc cl1 cl id x (same_views_sym cl cl1 Hv1) Hx) as (y & ? & _). by exists y.
  - exists s', r', ents'. split; [exists ep; split; [done|]; rewrite Hcs; apply lookup_insert_eq|].
    split; [done|]. split; [done|]. split; [|done]. intros ent. rewrite Hents.
    split; intros (id & Hid & Hpe); exists id; (split; [done|]).
    + by apply (persists_views env c Hc cl1 cl); [apply same_views_sym|].
    + by apply (persists_views env c Hc cl cl1).
  - intros id x (ep' & Hr' & Hx) Hdis. exists x. split; [|done]. exists ep'. split; [done|]. rewrite Hcs, lookup_insert_ne; [done|].
    intros <-. by apply (Hdis ep).
Qed.

Lemma merge_drained_inv parent reason ordered total cl resp cl' :
  Store cl = Some c -> merge_drained env parent reason ordered total cl = (Ok resp, cl') -> collected parent ordered cl cl'.
Proof.
  intros Hst. unfold merge_drained. intros (u & cl1 & Hd & E)%bind_inv.
  pose proof (drain_views env c Hc parent true cl) as Hv1. rewrite Hd in Hv1. cbn [snd] in Hv1.
  unfold defer at 1 in E.
  match type of E with context [for_each ?g ordered ≫= ?h] => set (f := g) in E; set (k := h) in E end.
  destruct ((for_each f ordered ≫= k) cl1) as [r cl4] eqn:E4. injection E as -> <-.
  apply bind_inv in E4 as (u2 & cl2 & Hon & E4).
  assert (steps_in same_views (for_each f ordered)) as Hf.
  { apply steps_for_each; [apply _|]. intros x. apply steps_bind; [apply _|apply (drain_views env c Hc)|]. intros _ cl0.
    apply same_cells_views, event_same_cells. }
  specialize (Hf cl1). rewrite Hon in Hf. cbn [snd] in Hf.
  unfold k, defer in E4. destruct (merge_move env parent reason ordered total cl2) as [r cl3] eqn:E3. injection E4 as -> <-.
  apply merge_move_inv in E3; [|destruct Hv1, Hf; congruence].
  eapply (collected_views parent ordered cl cl2 cl3); [by transitivity cl1| |exact E3].
  transitivity (snd (for_each (fun cid => drain env cid false) ordered cl3)).
  - apply steps_for_each; [apply _|]. intros x. apply (drain_views env c Hc).
  - apply (drain_views env c Hc).
Qed.

Lemma collected_ids parent ids ids' cl cl' :
  (forall id, id ∈ ids <-> id ∈ ids') -> collected parent ids cl cl' -> collected parent ids' cl cl'.
Proof.
  intros Hids [Hb Hr (s' & r' & ents & Hs' & Hp' & Hsim & Hents & Hrest) Ho]. split; [done| | |done].
  - intros id Hid. by apply Hr, Hids.
  - exists s', r', ents. repeat (split; [done|]). split; [|done]. intros ent. rewrite Hents.
    split; intros (id & Hid & Hpe); exists id; (split; [by apply Hids|done]).
Qed.

(** A merge answered with success was of a valid group, and collected it. *)
Lemma merge_success q cl resp cl' :
  Store cl = Some c -> ForwardMergeHandoff env (Some q) cl = (Ok resp, cl') ->
  let parent := trim_space (mq_ParentCellId q) in
  let ids := uniqueCellIDs (mq_ChildCellIds q) in
  (exists pspec children, located c parent pspec /\ ValidateMergeChildren (CBounds pspec) (Level pspec) (Some <$> children) = Ok tt /\
     forall id, id ∈ ids <-> id ∈ (fun ch => trim_space (Id ch)) <$> children) /\
  collected parent ids cl cl'.
Proof.
  intros Hst E parent ids. pose proof (merge_cases env (Some q) cl) as Hcases. rewrite E in Hcases.
  destruct Hcases as [[? _]|(q' & cl1 & ordered & total & cl2 & cl3 & [= <-] & Hs1 & Hchk & (reason & Hmv) & Hs3)]; [done|].
  fold parent ids in Hchk, Hmv. assert (Store cl1 = Some c) as Hst1 by (destruct Hs1; congruence).
  pose proof (checks_same_cells env parent ids cl1) as Hs2. rewrite Hchk in Hs2. cbn [snd] in Hs2.
  apply (merge_checks_inv env c Hc) in Hchk as (Hlen & pspec & children & Hfind & -> & Hsub & Hval); [|done].
  apply merge_drained_inv in Hmv; [|destruct Hs2; congruence].
  set (ordered := (fun ch => trim_space (Id ch)) <$> children) in *.
  assert (length children = 4) as Hlen4.
  { unfold ValidateMergeChildren in Hval. destruct (CBounds pspec); [|done]. rewrite length_fmap in Hval.
    by destruct (Nat.eqb_spec (length children) 4). }
  assert (forall id, id ∈ ids <-> id ∈ ordered) as Hids.
  { apply ids_are_group; [apply (unique_ids_spec ∅)| |done]. unfold ordered. by rewrite length_fmap, Hlen4. }
  assert (same_views cl cl2) as Hv12 by (apply same_cells_views; by transitivity cl1).
  apply same_cells_views in Hs3. apply (collected_views parent ordered cl cl2 cl3 cl' Hv12 Hs3) in Hmv.
  split; [|apply (collected_ids parent ordered); [intros id; symmetry; apply Hids|done]].
  exists pspec, children. split; [|by split]. split; [done|]. destruct Hmv as [(s & (ep & (sp & Hsp & <- & Hne & _) & _) & _) _ _ _].
  specialize (Hsp order_id). rewrite Hfind in Hsp. by injection Hsp as ->.
Qed.
End Collect.

(** The entity that a child's NPC [e] is persisted as has its id and its rounded position. *)
Lemma persists_npc {C} `{CatalogLaws C} env c (cl : Cluster C) id e :
  (exists ent, persists env c cl id ent /\ pe_EntityId ent = e /\ e <> 0%N) <->
  exists s r, cell_at env c cl id s /\ Sim s = Some r /\ npc s r e.
Proof.
  split.
  - intros (ent & (s & r & Hs & Hr & x & Ha & Hp & He) & <- & Hne). exists s, r. split; [done|]. split; [done|].
    apply encode_entity_id in He as [Hid Hpos]. rewrite Hid in Hne |- *. by split_and!.
  - intros (s & r & Hs & Hr & Hne & Ha & Hp & [ent He]%encode_entity_is_Some). exists ent.
    split; [exists s, r; split; [done|]; split; [done|]; by exists e|]. by apply encode_entity_id in He as [-> _].
Qed.

(** After a merge the parent has exactly the ids of the NPCs of the children, each at the rounded position of
    such an NPC. *)
Lemma collected_npcs {C} `{CatalogLaws C} env c parent ids (cl cl' : Cluster C) :
  collected env c parent ids cl cl' ->
  exists s' r', cell_at env c cl' parent s' /\ playerByID s' = ∅ /\ Sim s' = Some r' /\
    (forall e, e ∈ alive (rt_World r') <-> exists id s r, id ∈ ids /\ cell_at env c cl id s /\ Sim s = Some r /\ npc s r e) /\
    (forall e, e ∈ alive (rt_World r') -> exists id s r pos, id ∈ ids /\ cell_at env c cl id s /\ Sim s = Some r /\ npc s r e /\
       PositionOf (rt_World r) e = Some pos /\ PositionOf (rt_World r') e = Some (round_position pos)).
Proof.
  intros [_ _ (s' & r' & ents & Hs' & Hp' & Hsim & Hents & Hal & Hpos) _]. exists s', r'. split; [done|]. split; [done|]. split; [done|]. split.
  - intros e. rewrite Hal, list_elem_of_fmap. split.
    + intros (Hne & ent & He & (id & Hid & Hpe)%Hents).
      destruct (proj1 (persists_npc env c cl id e)) as (x & r & ? & ? & ?); [by exists ent|].
      by exists id, x, r.
    + intros (id & x & r & Hid & Hx & Hxr & Hn).
      destruct (proj2 (persists_npc env c cl id e)) as (ent & Hpe & He & Hne); [by exists x, r|].
      split; [done|]. exists ent. split; [done|]. apply Hents. by exists id.
  - intros e He. destruct (Hpos e He) as (ent & Hent & Heid & Hpe). apply Hal in He as [Hne _].
    apply Hents in Hent as (id & Hid & x & r & Hx & Hxr & y & Ha & Hpl & Hy).
    pose proof (encode_entity_id _ _ _ Hy) as [Hyid [pos Hyp]].
    assert (y = e) as -> by congruence. exists id, x, r, pos. split; [done|]. split; [done|]. split; [done|].
    split; [split; [done|split; [done|split; [done|by eexists]]]|]. split; [done|]. rewrite Hpe. f_equal. by eapply encode_entity_position.
Qed.

(** C19: with player handoffs in merges off, a merge answered with success, on any network, was of a group of
    four cells that tile the parent, and it collects their NPCs, as they are when the request is handled (the
    cells do not tick meanwhile): the parent had no players, and
    afterwards lives in it exactly one entity for every id that a live NPC of a child has, at the
    rounded position of such an NPC; what the parent held before is gone, and the children themselves
    keep everything. Two NPCs of different children with one id become one. *)
Theorem merge_collects_npcs {C} `{CatalogLaws C} env c q (cl : Cluster C) resp cl' :
  catalog_inv c -> Store cl = Some c -> json_codec env -> mergePlayerHandoffEnabled env = false ->
  ForwardMergeHandoff env (Some q) cl = (Ok resp, cl') ->
  let parent := trim_space (mq_ParentCellId q) in
  let ids := uniqueCellIDs (mq_ChildCellIds q) in
  (exists pspec children, located c parent pspec /\ ValidateMergeChildren (CBounds pspec) (Level pspec) (Some <$> children) = Ok tt /\
     forall id, id ∈ ids <-> id ∈ (fun ch => trim_space (Id ch)) <$> children) /\
  (exists s, cell_at env c cl parent s /\ playerByID s = ∅) /\
  (exists s' r', cell_at env c cl' parent s' /\ playerByID s' = ∅ /\ Sim s' = Some r' /\
     (forall e, e ∈ alive (rt_World r') <-> exists id s r, id ∈ ids /\ cell_at env c cl id s /\ Sim s = Some r /\ npc s r e) /\
     (forall e, e ∈ alive (rt_World r') -> exists id s r pos, id ∈ ids /\ cell_at env c cl id s /\ Sim s = Some r /\ npc s r e /\
        PositionOf (rt_World r) e = Some pos /\ PositionOf (rt_World r') e = Some (round_position pos))) /\
  (forall id s, id ∈ ids -> cell_at env c cl id s -> (forall ep, reaches env c parent ep -> ~ reaches env c id ep) ->
     exists s', cell_at env c cl' id s' /\ view s' = view s).
Proof.
  intros Hc Hst Hj Hoff E parent ids. apply (merge_success env c Hc Hj Hoff) in E as [Hgroup Hmv]; [|done]. fold parent ids in Hgroup, Hmv.
  split; [done|]. pose proof (collected_npcs env c parent ids cl cl' Hmv) as Hnpcs. destruct Hmv as [(s & Hs & Hp) _ _ Hoth].
  split; [by exists s|]. split; [exact Hnpcs|]. intros id x Hid. by apply Hoth.
Qed.

(** ** A concrete merge *)

#[export] Instance f32_eq_dec : EqDecision f32 := f64_eq_dec.
#[export] Instance Vec3F_eq_dec : EqDecision Vec3F.
Proof. solve_decision. Defined.
#[export] Instance CellPersistEntity_eq_dec : EqDecision CellPersistEntity.
Proof. solve_decision. Defined.
#[export] Instance CellPersist_eq_dec : EqDecision CellPersist.
Proof. solve_decision. Defined.

(** Four children, each with one NPC; every one of them has the id 1. *)
Definition npc_runtime : Runtime :=
  set_world (SetPosition 1%N (mkPosition f0 f0 f1) (snd (CreateEntity NewWorld))) NewRuntime.
Definition npc_server (id : string) : Server := set_Sim (Some npc_runtime) (fresh_server id).

Definition child_message : CellPersist := export_state order_id (npc_server "") npc_runtime.
Definition merged_message : CellPersist :=
  mkPersist SchemaVersion 0 f0 (p_Entities child_message ++ p_Entities child_message ++ p_Entities child_message ++ p_Entities child_message).

(** A codec that knows these two messages. *)
Definition two_marshal (p : CellPersist) : result string :=
  if decide (p = child_message) then Ok "child" else if decide (p = merged_message) then Ok "merged" else Err (errorf "unknown" []).
Definition two_unmarshal (raw : string) : result CellPersist :=
  if String.eqb raw "child" then Ok child_message else if String.eqb raw "merged" then Ok merged_message else Err (errorf "unknown" []).

Definition merge_env (net : nat -> Outcome) : Env :=
  mkEnv net (fun n => Z.of_nat n) (fun _ => order_id) two_marshal two_unmarshal
    (fun _ => Ok tt) (statusf Unavailable "unreachable" []) "" "" "".

Definition merge_specs : list CellSpec :=
  root_spec :: match ChildSpecsForSplit "cell_root" (Some world_bounds) 0 with
               | Ok chs => (fun ch => mkCellSpec (ch_Id ch) (ch_Level ch) (Some (ch_Bounds ch)) (ch_Id ch +:+ ":50051")) <$> chs
               | Err _ => []
               end.
Definition merge_catalog : Memory :=
  match register_all NewMemory merge_specs with Ok m => m | Err _ => NewMemory end.
Definition merge_cluster : Cluster Memory :=
  mkCluster (Some merge_catalog) true ∅
    (list_to_map ((fun s => (GrpcEndpoint s, if String.eqb (Id s) "cell_root" then fresh_server "cell_root" else npc_server (Id s))) <$> merge_specs))
    ∅ [] 0.
Definition merge_request : MergeHandoffRequest := mkMergeReq "cell_root" (Id <$> tail merge_specs) "".

Lemma two_codec net : json_codec (merge_env net).
Proof.
  intros p raw. cbn [marshal unmarshal merge_env]. unfold two_marshal, two_unmarshal.
  destruct (decide (p = child_message)) as [->|]; [by intros [= <-]|].
  destruct (decide (p = merged_message)) as [->|]; [by intros [= <-]|done].
Qed.

Lemma merge_catalog_wf : registry_wf merge_catalog.
Proof. apply (bool_decide_eq_true_1 (registry_wf merge_catalog)). vm_compute. reflexivity. Qed.

Lemma merge_restores_drains_witness :
  let env := merge_env (fun n => if Nat.eqb n 10 then LostReply (errorf "timeout" []) else Delivered) in
  is_ok (fst (ForwardMergeHandoff env (Some merge_request) merge_cluster)) = false /\
  ~ draining (snd (ForwardMergeHandoff env (Some merge_request) merge_cluster)) "root:50051".
Proof.
  intros env. split; [by vm_compute|]. intros Hd.
  apply (merge_restores_drains env merge_catalog) in Hd; [|exact merge_catalog_wf|done|].
  - destruct Hd as (s & Hs & Hd). assert (splitDrain <$> cellServers merge_cluster !! "root:50051" = Some false) as E by by vm_compute.
    rewrite Hs in E. cbn [fmap option_fmap option_map] in E. congruence.
  - intros n e. cbn. by destruct (Nat.eqb n 10).
Defined.

(** The answer counts four NPCs, the parent holds one. *)
Example merge_loses_colliding_npcs :
  let '(r, cl) := ForwardMergeHandoff (merge_env (fun _ => Delivered)) (Some merge_request) merge_cluster in
  (match r with Ok resp => Some (mr_NpcEntityCount resp) | Err _ => None end,
   match cellServers cl !! "root:50051" with
   | Some s => match Sim s with Some r => Some (EntityCount (rt_World r)) | None => None end
   | None => None
   end) = (Some 4%Z, Some 1%Z).
Proof. vm_compute. reflexivity. Qed.

Lemma merge_collects_npcs_witness :
  let env := merge_env (fun _ => Delivered) in
  exists resp cl' s' r', ForwardMergeHandoff env (Some merge_request) merge_cluster = (Ok resp, cl') /\
    cell_at env merge_catalog cl' "cell_root" s' /\ Sim s' = Some r' /\ playerByID s' = ∅.
Proof.
  intros env. assert (is_ok (fst (ForwardMergeHandoff env (Some merge_request) merge_cluster)) = true) as Hok by by vm_compute.
  destruct (ForwardMergeHandoff env (Some merge_request) merge_cluster) as [[resp|e] cl'] eqn:E; [|done].
  destruct (@merge_collects_npcs Memory MemoryCatalog MemoryCatalog_laws env merge_catalog merge_request merge_cluster resp cl' merge_catalog_wf eq_refl (two_codec _) eq_refl E)
    as (_ & _ & (s' & r' & Hs' & Hp' & Hsim & _) & _).
  change (trim_space (mq_ParentCellId merge_request)) with "cell_root" in Hs'.
  exists resp, cl', s', r'. split; [reflexivity|]. split; [exact Hs'|]. split; [exact Hsim|exact Hp'].
Defined.
