(* ===== verification/LoadPolicy.v ===== *)
(** [cmd/grid-manager] ([cell_thresholds.go], [cell_load_policy.go] and the start guards of the two
    workflows): the load thresholds of the grid manager, and the policies that start splits and merges. *)
From Stdlib Require Import Ascii ZArith Lia.
From S2P Require Import Prelude Effects GoFloat GoString Partition Registry Ecs Aoi Replic CellSim CellSvc RegistrySvc RegistryLogic.
Local Open Scope string_scope.
Local Open Scope list_scope.

(** * Thresholds *)

Record loadThresholds := mkThresholds { maxPlayers : Z; maxEntities : Z; maxTickSec : f64 }.

Definition cellThresholdViolationKinds : list string := ["players"; "entities"; "tick"; "unreachable"].

Definition flag (b : bool) : f64 := if b then f1 else f0.

Definition evalLoadThresholds (o : iter_order) (reachable : bool) (players entities tickSec : f64) (th : loadThresholds)
    : f64 * gmap string f64 :=
  let violation : gmap string f64 := <["players" := f0]> (<["entities" := f0]> (<["tick" := f0]> (<["unreachable" := f0]> ∅))) in
  if negb reachable then (f0, <["unreachable" := f1]> violation)
  else
    let violation := if (0 <? maxPlayers th)%Z && flt (f64_of_Z (maxPlayers th)) players then <["players" := f1]> violation else violation in
    let violation := if (0 <? maxEntities th)%Z && flt (f64_of_Z (maxEntities th)) entities then <["entities" := f1]> violation else violation in
    let violation := if flt f0 (maxTickSec th) && flt (maxTickSec th) tickSec then <["tick" := f1]> violation else violation in
    if existsb (fun '(k, val) => negb (String.eqb k "unreachable") && flt f0 val) (o _ (map_to_list violation))
    then (f0, violation) else (f1, violation).

Definition violationKinds (v : gmap string f64) : string :=
  if Nat.eqb (size v) 0 then ""
  else join "," (base.filter (fun k => flt f0 (default f0 (v !! k)) = true) cellThresholdViolationKinds).

(** * The workflows, as far as the policy starts them *)

Record splitWorkflowRuntime := mkSplit {
  sp_enabled : bool; sp_maxLevel : Z; sp_maxConcurrent : Z; sp_blockedCells : gset string;
  sp_active : gset string }.

Definition set_sp_active (a : gset string) (r : splitWorkflowRuntime) : splitWorkflowRuntime :=
  mkSplit (sp_enabled r) (sp_maxLevel r) (sp_maxConcurrent r) (sp_blockedCells r) a.

(** The workflow started, if one is, runs under the id answered. *)
Definition split_maybeStart (cellID : string) (r : splitWorkflowRuntime) : splitWorkflowRuntime * option string :=
  let cellID := trim_space cellID in
  if negb (sp_enabled r) || String.eqb cellID "" then (r, None)
  else if bool_decide (cellID ∈ sp_blockedCells r) then (r, None)
  else if match CellPathLevel cellID with
          | Some level => (0 <? sp_maxLevel r)%Z && (sp_maxLevel r <=? level)%Z
          | None => false
          end then (r, None)
  else if (0 <? sp_maxConcurrent r)%Z && (sp_maxConcurrent r <=? Z.of_nat (size (sp_active r)))%Z then (r, None)
  else if bool_decide (cellID ∈ sp_active r) then (r, None)
  else (set_sp_active ({[cellID]} ∪ sp_active r) r, Some cellID).

(** The deferred part of [run]. *)
Definition split_finish (cellID : string) (r : splitWorkflowRuntime) : splitWorkflowRuntime :=
  set_sp_active (sp_active r ∖ {[cellID]}) r.

Record mergeWorkflowRuntime := mkMerge { mw_enabled : bool; mw_blockedParents : gset string; mw_active : gset string }.

Definition set_mw_active (a : gset string) (r : mergeWorkflowRuntime) : mergeWorkflowRuntime :=
  mkMerge (mw_enabled r) (mw_blockedParents r) a.

Definition merge_maybeStart (parentCellID : string) (r : mergeWorkflowRuntime) : mergeWorkflowRuntime * option string :=
  let parentCellID := trim_space parentCellID in
  if negb (mw_enabled r) || String.eqb parentCellID "" then (r, None)
  else if bool_decide (parentCellID ∈ mw_blockedParents r) then (r, None)
  else if bool_decide (parentCellID ∈ mw_active r) then (r, None)
  else (set_mw_active ({[parentCellID]} ∪ mw_active r) r, Some parentCellID).

Definition merge_finish (parentCellID : string) (r : mergeWorkflowRuntime) : mergeWorkflowRuntime :=
  set_mw_active (mw_active r ∖ {[parentCellID]}) r.

(** * The policy *)

Record loadPolicyConfig := mkPolicyConfig {
  minBreachDuration : Z; cooldown : Z; autoSplitDrain : bool; autoMergeWorkflow : bool; mergePlayerHandoff : bool;
  mergeLowLoadFor : Z; mergeCooldown : Z; mergeMaxPlayers : f64; mergeHandoffMaxPlayers : f64;
  mergeMaxEntities : f64; mergeMaxTickSec : f64 }.

(** [None] is the zero time; times are in nanoseconds. *)
Record cellPolicyState := mkPolicyState { breachSince : option Z; lastAction : option Z }.
Definition zero_policy_state : cellPolicyState := mkPolicyState None None.

Record policySample := mkSample {
  ps_cellID : string; ps_endpoint : string; ps_level : Z; ps_reachable : bool;
  ps_players : f64; ps_entities : f64; ps_tickSec : f64; ps_violations : gmap string f64 }.

Record loadPolicyEvent := mkPolicyEvent {
  le_CellID : string; le_Action : string; le_Reachable : bool; le_Players : f64; le_Entities : f64; le_TickSeconds : f64;
  le_Violations : gmap string f64; le_MinBreachDuration : Z; le_Cooldown : Z; le_At : Z }.

(** [split] and [merge] may be nil; [pnats] tells whether there is a NATS client, [events] is what was
    published and [started] the workflows whose goroutines were started, the latest last. *)
Record loadPolicyRuntime := mkPolicy {
  cfg : loadPolicyConfig;
  state : gmap string cellPolicyState;
  mgState : gmap string cellPolicyState;
  split : option splitWorkflowRuntime;
  merge : option mergeWorkflowRuntime;
  pnats : bool;
  events : list loadPolicyEvent;
  started : list string }.

Definition set_state (m : gmap string cellPolicyState) (r : loadPolicyRuntime) : loadPolicyRuntime :=
  mkPolicy (cfg r) m (mgState r) (split r) (merge r) (pnats r) (events r) (started r).
Definition set_mgState (m : gmap string cellPolicyState) (r : loadPolicyRuntime) : loadPolicyRuntime :=
  mkPolicy (cfg r) (state r) m (split r) (merge r) (pnats r) (events r) (started r).
Definition put_state (id : string) (st : cellPolicyState) (r : loadPolicyRuntime) := set_state (<[id := st]> (state r)) r.
Definition put_mgState (id : string) (st : cellPolicyState) (r : loadPolicyRuntime) := set_mgState (<[id := st]> (mgState r)) r.
Definition policy_publish (ev : loadPolicyEvent) (r : loadPolicyRuntime) : loadPolicyRuntime :=
  if pnats r then mkPolicy (cfg r) (state r) (mgState r) (split r) (merge r) (pnats r) (events r ++ [ev]) (started r) else r.

Definition start_split (cellID : string) (r : loadPolicyRuntime) : loadPolicyRuntime :=
  match split r with
  | None => r
  | Some w =>
      let '(w, run) := split_maybeStart cellID w in
      mkPolicy (cfg r) (state r) (mgState r) (Some w) (merge r) (pnats r) (events r) (started r ++ option_list run)
  end.
Definition start_merge (parentID : string) (r : loadPolicyRuntime) : loadPolicyRuntime :=
  match merge r with
  | None => r
  | Some w =>
      let '(w, run) := merge_maybeStart parentID w in
      mkPolicy (cfg r) (state r) (mgState r) (split r) (Some w) (pnats r) (events r) (started r ++ option_list run)
  end.

Definition forget (cellID : string) (r : loadPolicyRuntime) : loadPolicyRuntime := set_state (delete cellID (state r)) r.

Section Policy.
Context {C : Type} `{!Catalog C} (env : Env).

Definition setCellSplitDrain (endpoint : string) (enabled : bool) : M C unit :=
  _ ← lift (NewClient env endpoint);
  _ ← call_cell env endpoint (fun n s => Update (marshal env) (unmarshal env) (order env n) (Some (USetSplitDrain (Some enabled))) s);
  mret tt.

(** Whether the call succeeded. *)
Definition try {A} (m : M C A) : M C bool := fun cl => let '(r, cl) := m cl in (Ok (is_ok r), cl).

(** The action of a breach that lasted long enough. *)
Definition act (sample : policySample) (r : loadPolicyRuntime) (now : Z) : M C loadPolicyRuntime :=
  let drain_action := autoSplitDrain (cfg r) && ps_reachable sample in
  let autoSplitWorkflowEnabled := match split r with Some w => sp_enabled w | None => false end in
  ok ← (if drain_action && negb autoSplitWorkflowEnabled then try (setCellSplitDrain (ps_endpoint sample) true) else mret true);
  let r := if drain_action && ok then start_split (ps_cellID sample) r else r in
  let action := if drain_action then "split_drain_enable" else "log_only" in
  mret (policy_publish
    (mkPolicyEvent (ps_cellID sample) action (ps_reachable sample) (ps_players sample) (ps_entities sample) (ps_tickSec sample)
       (ps_violations sample) (minBreachDuration (cfg r)) (cooldown (cfg r)) now) r).

(** [now.Sub(t) < d] for a time that is not zero. *)
Definition within_window (now : Z) (t : option Z) (d : Z) : bool :=
  match t with Some t => (now - t <? d)%Z | None => false end.

Definition observe (sample : policySample) (within : f64) (r : loadPolicyRuntime) : M C loadPolicyRuntime := fun cl =>
  let now := clock env (calls cl) in
  let id := ps_cellID sample in
  let st := default zero_policy_state (state r !! id) in
  if fle f1 within then (Ok (put_state id (mkPolicyState None (lastAction st)) r), cl)
  else match breachSince st with
  | None => (Ok (put_state id (mkPolicyState (Some now) (lastAction st)) r), cl)
  | Some since =>
      if (now - since <? minBreachDuration (cfg r))%Z then (Ok (put_state id st r), cl)
      else if within_window now (lastAction st) (cooldown (cfg r)) then (Ok (put_state id st r), cl)
      else
        (r ← act sample r now; mret (put_state id (mkPolicyState (breachSince st) (Some now)) r)) cl
  end.

(** ** Merges *)

Inductive group_load := Low (csv : string) (players entities : f64) | NotLow (reason : string).

(** The checks on one child, in the order of the code: its sample or the reason. *)
Definition child_check (cf : loadPolicyConfig) (specByID : gmap string CellSpec) (samples : gmap string policySample)
    (childLevel : Z) (id : string) : policySample + string :=
  if String.eqb id "" then inr "child_id_empty"
  else match specByID !! id with
  | None | Some (mkCellSpec _ _ None _) => inr "child_missing"
  | Some spec =>
      if negb (Level spec =? childLevel)%Z then inr "child_level_mismatch"
      else match samples !! id with
      | None => inr "child_unreachable"
      | Some smp =>
          if negb (ps_reachable smp) then inr "child_unreachable"
          else if negb (mergePlayerHandoff cf) && (fle f0 (mergeMaxPlayers cf) && flt (mergeMaxPlayers cf) (ps_players smp))
          then inr "players_high"
          else if mergePlayerHandoff cf && (fle f0 (mergeHandoffMaxPlayers cf) && flt (mergeHandoffMaxPlayers cf) (ps_players smp))
          then inr "players_high_for_handoff"
          else if fle f0 (mergeMaxEntities cf) && flt (mergeMaxEntities cf) (ps_entities smp) then inr "entities_high"
          else if fle f0 (mergeMaxTickSec cf) && flt (mergeMaxTickSec cf) (ps_tickSec smp) then inr "tick_high"
          else inl smp
      end
  end.

(** The loop over the children, with the ids and the totals so far. *)
Fixpoint group_children (cf : loadPolicyConfig) (specByID : gmap string CellSpec) (samples : gmap string policySample)
    (childLevel : Z) (children : list CellSpec) (ids : list string) (players entities : f64)
    : (list string * f64 * f64) + string :=
  match children with
  | [] => inl (ids, players, entities)
  | ch :: rest =>
      let id := trim_space (Id ch) in
      match child_check cf specByID samples childLevel id with
      | inr reason => inr reason
      | inl smp =>
          group_children cf specByID samples childLevel rest (ids ++ [id])
            (players + ps_players smp)%f64 (entities + ps_entities smp)%f64
      end
  end.

(** Some deeper cell of the catalog descends from one of the children. *)
Definition has_descendants (childLevel : Z) (ids : list string) (cells : list (option CellSpec)) : bool :=
  existsb (fun c =>
    match c with
    | None => false
    | Some c =>
        let id := trim_space (Id c) in
        match CellPathLevel id with
        | None => false
        | Some lv =>
            if (lv <=? childLevel)%Z then false
            else existsb (fun childID =>
              match CellPathLevel childID with
              | Some cl => (cl =? childLevel)%Z && IsDescendantPath childID id
              | None => false
              end) ids
        end
    end) cells.

Definition mergeGroupLowLoad (cf : loadPolicyConfig) (cells : list (option CellSpec)) (specByID : gmap string CellSpec)
    (samples : gmap string policySample) (parentLevel : Z) (children : list CellSpec) : group_load :=
  let childLevel := int32 (parentLevel + 1) in
  match group_children cf specByID samples childLevel children [] f0 f0 with
  | inr reason => NotLow reason
  | inl (ids, players, entities) =>
      if mergePlayerHandoff cf && fle f0 (mergeHandoffMaxPlayers cf) && flt (mergeHandoffMaxPlayers cf) players
      then NotLow "players_total_high_for_handoff"
      else if has_descendants childLevel ids cells then NotLow "child_has_descendants"
      else Low (join "," ids) players entities
  end.

Definition spec_index (cells : list (option CellSpec)) : gmap string CellSpec :=
  fold_left (fun m c => match c with Some c => <[trim_space (Id c) := c]> m | None => m end) cells ∅.

(** One parent of the loop, at the time [now]. *)
Definition observe_parent (now : Z) (cells : list (option CellSpec)) (samples : gmap string policySample)
    (acc : gset string * loadPolicyRuntime) (parent : option CellSpec) : gset string * loadPolicyRuntime :=
  let '(seenParent, r) := acc in
  match parent with
  | None | Some (mkCellSpec _ _ None _) => acc
  | Some spec =>
      let parentID := trim_space (Id spec) in
      if String.eqb parentID "" then acc
      else
        let seenParent := {[parentID]} ∪ seenParent in
        let st := default zero_policy_state (mgState r !! parentID) in
        (seenParent,
         match CatalogMergeChildren (Some spec) cells with
         | Err _ => put_mgState parentID (mkPolicyState None (lastAction st)) r
         | Ok children =>
             match mergeGroupLowLoad (cfg r) cells (spec_index cells) samples (Level spec) children with
             | NotLow _ => put_mgState parentID (mkPolicyState None (lastAction st)) r
             | Low _ aggPlayers aggEntities =>
                 match breachSince st with
                 | None => put_mgState parentID (mkPolicyState (Some now) (lastAction st)) r
                 | Some since =>
                     if (now - since <? mergeLowLoadFor (cfg r))%Z then put_mgState parentID st r
                     else if within_window now (lastAction st) (mergeCooldown (cfg r)) then put_mgState parentID st r
                     else
                       let r := start_merge parentID r in
                       let r := policy_publish (mkPolicyEvent parentID "merge_start" true aggPlayers aggEntities f0
                                  {["unreachable" := f0]} (mergeLowLoadFor (cfg r)) (mergeCooldown (cfg r)) now) r in
                       put_mgState parentID (mkPolicyState None (Some now)) r
                 end
             end
         end)
  end.

Definition observeMergeCandidates (cells : list (option CellSpec)) (samples : gmap string policySample)
    (r : loadPolicyRuntime) : M C loadPolicyRuntime := fun cl =>
  if negb (autoMergeWorkflow (cfg r)) || bool_decide (merge r = None) then (Ok r, cl)
  else
    let now := clock env (calls cl) in
    let '(seenParent, r) := fold_left (observe_parent now cells samples) cells (∅, r) in
    (Ok (set_mgState (base.filter (fun '(parentID, _) => parentID ∈ seenParent) (mgState r)) r), cl).
End Policy.

(** * Thresholds: what they decide *)

(** An enabled threshold is exceeded. *)
Definition over (limit : Z) (v : f64) : bool := (0 <? limit)%Z && flt (f64_of_Z limit) v.
Definition over_tick (limit v : f64) : bool := flt f0 limit && flt limit v.

(** A cell is within its limits (the metric is 1, otherwise 0) exactly when it answered and no
    enabled threshold is exceeded; for an answering cell each violation flag is 1 exactly when its
    threshold is exceeded, for a silent one only the flag [unreachable] is; the map order does not
    matter. *)
Theorem evalLoadThresholds_spec o reachable players entities tickSec th :
  let '(within, v) := evalLoadThresholds o reachable players entities tickSec th in
  within = flag (reachable && negb (over (maxPlayers th) players || over (maxEntities th) entities || over_tick (maxTickSec th) tickSec)) /\
  v !! "unreachable" = Some (flag (negb reachable)) /\
  v !! "players" = Some (flag (reachable && over (maxPlayers th) players)) /\
  v !! "entities" = Some (flag (reachable && over (maxEntities th) entities)) /\
  v !! "tick" = Some (flag (reachable && over_tick (maxTickSec th) tickSec)).
Proof.
  unfold evalLoadThresholds. destruct reachable; cbn [negb andb].
  2:{ repeat split; by vm_compute. }
  fold (over (maxPlayers th) players) (over (maxEntities th) entities) (over_tick (maxTickSec th) tickSec).
  set (v0 := <["players" := f0]> _). set (bp := over (maxPlayers th) players). set (be := over (maxEntities th) entities).
  set (bt := over_tick (maxTickSec th) tickSec). cbn zeta.
  set (v := if bt then _ else _).
  assert (v !! "unreachable" = Some (flag false) /\ v !! "players" = Some (flag bp) /\ v !! "entities" = Some (flag be) /\
    v !! "tick" = Some (flag bt)) as (H1 & H2 & H3 & H4).
  { unfold v, v0. destruct bp, be, bt; repeat split; by vm_compute. }
  assert (existsb (fun '(k, val) => negb (String.eqb k "unreachable") && flt f0 val) (o _ (map_to_list v)) = bp || be || bt) as ->.
  { apply eq_true_iff_eq. rewrite existsb_exists. split.
    - intros ([k val] & Hin & [Hk Hv]%andb_true_iff). apply list_elem_of_In, elem_of_visit, elem_of_map_to_list in Hin.
      assert (k ∈ dom v) as Hd by (apply elem_of_dom; by exists val).
      assert (dom v = {["players"; "entities"; "tick"; "unreachable"]}) as Hdom.
      { unfold v, v0. destruct bp, be, bt; apply (bool_decide_eq_true_1 (_ = _)); by vm_compute. }
      rewrite Hdom in Hd. apply negb_true_iff, String.eqb_neq in Hk.
      assert (k = "players" \/ k = "entities" \/ k = "tick") as [->|[->| ->]] by set_solver.
      + rewrite H2 in Hin. injection Hin as <-. destruct bp; [done|by vm_compute in Hv].
      + rewrite H3 in Hin. injection Hin as <-. destruct be; [by rewrite orb_true_r|by vm_compute in Hv].
      + rewrite H4 in Hin. injection Hin as <-. destruct bt; [by rewrite orb_true_r|by vm_compute in Hv].
    - intros H.
      assert (exists k, negb (String.eqb k "unreachable") = true /\ v !! k = Some f1) as (k & Hk & Hl).
      { apply orb_true_iff in H as [[H|H]%orb_true_iff|H]; [exists "players"|exists "entities"|exists "tick"];
          (split; [done|]); by rewrite ?H2, ?H3, ?H4, H. }
      exists (k, f1). split; [by apply list_elem_of_In, elem_of_visit, elem_of_map_to_list|]. rewrite Hk. by vm_compute. }
  destruct (bp || be || bt); cbn [negb flag]; by split_and!.
Qed.

(** * Split workflows: which may run *)

(** The configured rules for a cell. *)
Definition may_split (w : splitWorkflowRuntime) (id : string) : Prop :=
  sp_enabled w = true /\ id <> "" /\ id ∉ sp_blockedCells w /\
  (forall level, CellPathLevel id = Some level -> (0 < sp_maxLevel w)%Z -> (level < sp_maxLevel w)%Z).

(** Workflows start and end in any order. *)
Inductive split_step : splitWorkflowRuntime -> splitWorkflowRuntime -> Prop :=
  | ss_start id w : split_step w (fst (split_maybeStart id w))
  | ss_finish id w : split_step w (split_finish id w).

Lemma split_maybeStart_cases id w :
  let id := trim_space id in
  (split_maybeStart id w = (set_sp_active ({[id]} ∪ sp_active w) w, Some id) /\ may_split w id /\ id ∉ sp_active w /\
     ((0 < sp_maxConcurrent w)%Z -> (Z.of_nat (size (sp_active w)) < sp_maxConcurrent w)%Z)) \/
  (split_maybeStart id w = (w, None) /\
     ~ (may_split w id /\ id ∉ sp_active w /\ ((0 < sp_maxConcurrent w)%Z -> (Z.of_nat (size (sp_active w)) < sp_maxConcurrent w)%Z))).
Proof.
  intros i. unfold split_maybeStart, i. rewrite trim_space_idem. fold i. unfold may_split.
  destruct (sp_enabled w) eqn:Een; cbn [negb orb]; [|right; split; [done|]; by intros ((? & _) & _)].
  destruct (String.eqb_spec i "") as [He|He]; [right; split; [done|]; by intros ((_ & ? & _) & _)|].
  destruct (bool_decide_reflect (i ∈ sp_blockedCells w)) as [Hb|Hb]; [right; split; [done|]; by intros ((_ & _ & ? & _) & _)|].
  destruct (match CellPathLevel i with Some _ => _ | None => _ end) eqn:El.
  { right. split; [done|]. intros ((_ & _ & _ & Hl) & _). destruct (CellPathLevel i) as [lv|]; [|done].
    apply andb_true_iff in El as [E1 E2]. specialize (Hl lv eq_refl). lia. }
  destruct (_ && _) eqn:Ec in |- *.
  { right. split; [done|]. intros (_ & _ & Hc). apply andb_true_iff in Ec as [E1 E2]. lia. }
  destruct (bool_decide_reflect (i ∈ sp_active w)) as [Ha|Ha]; [right; split; [done|]; by intros (_ & ? & _)|].
  left. split; [done|]. split_and!; try done.
  - intros lv Hlv Hp. rewrite Hlv in El. apply andb_false_iff in El. lia.
  - intros Hp. apply andb_false_iff in Ec. lia.
Qed.

(** C39: whatever starts and ends, in any order: only cells that the configuration allows to split
    have a running workflow (enabled, not blocked, at a level below the maximum), there are never more than
    the configured number of them, and a start is let through exactly when the cell may split, has no
    workflow yet and there is room. *)
Theorem split_workflow_slots w0 w id :
  sp_active w0 = ∅ -> rtc split_step w0 w ->
  (forall i, i ∈ sp_active w -> may_split w i) /\
  ((0 < sp_maxConcurrent w)%Z -> (Z.of_nat (size (sp_active w)) <= sp_maxConcurrent w)%Z) /\
  (snd (split_maybeStart id w) = Some (trim_space id) <->
     may_split w (trim_space id) /\ trim_space id ∉ sp_active w /\
     ((0 < sp_maxConcurrent w)%Z -> (Z.of_nat (size (sp_active w)) < sp_maxConcurrent w)%Z)).
Proof.
  intros H0 Hr.
  assert (forall id w, split_maybeStart (trim_space id) w = split_maybeStart id w) as Htrim.
  { intros i x. unfold split_maybeStart. by rewrite trim_space_idem. }
  set (inv := fun w => (forall i, i ∈ sp_active w -> may_split w i) /\
    ((0 < sp_maxConcurrent w)%Z -> (Z.of_nat (size (sp_active w)) <= sp_maxConcurrent w)%Z)).
  assert (inv w) as [H1 H2].
  { assert (inv w0) as Hi by (split; [by rewrite H0; intros i ?%elem_of_empty|rewrite H0, size_empty; lia]).
    clear H0 id. induction Hr as [w|w w1 w2 Hs Hr IH]; [done|]. apply IH. clear IH Hr w2. destruct Hi as [Hi1 Hi2].
    destruct Hs as [i w|i w].
    - rewrite <- Htrim. destruct (split_maybeStart_cases i w) as [(-> & Hm & Hn & Hc)|[-> _]]; [|done]. cbn [fst]. split.
      + intros x [->%elem_of_singleton|Hx]%elem_of_union; [done|by apply Hi1].
      + cbn. intros Hp. specialize (Hc Hp). rewrite size_union by set_solver. rewrite size_singleton. lia.
    - split; cbn.
      + intros x [Hx _]%elem_of_difference. by apply Hi1.
      + intros Hp. specialize (Hi2 Hp). pose proof (subseteq_size (sp_active w ∖ {[i]}) (sp_active w)). set_solver by lia. }
  split; [done|]. split; [done|]. rewrite <- (Htrim id w).
  destruct (split_maybeStart_cases id w) as [(-> & ? & ? & ?)|[-> Hn]]; [done|]. by split; [|intros ?; destruct Hn].
Qed.

Lemma split_workflow_slots_witness :
  let w0 := mkSplit true 3 1 {["cell_1_1_0"]} ∅ in
  let w := fst (split_maybeStart " cell_root" w0) in
  rtc split_step w0 w /\ snd (split_maybeStart "cell_root" w) = None /\
  (Z.of_nat (size (sp_active w)) <= 1)%Z.
Proof.
  intros w0 w. assert (rtc split_step w0 w) as Hr by apply rtc_once, ss_start.
  split; [done|]. split; [by vm_compute|]. by apply (split_workflow_slots w0 w "" eq_refl Hr).
Defined.

(** * The breach policy over a history of observations *)

(** An observation of one cell: its time and whether the cell was out of its limits. Histories are
    kept latest first. *)
Abbreviation observation := (Z * bool)%type.

(** The time the current uninterrupted breach began. *)
Fixpoint run_start (h : list observation) : option Z :=
  match h with
  | (t, true) :: h' => match run_start h' with Some s => Some s | None => Some t end
  | _ => None
  end.

(** The times at which the policy has to act: in a breach that began at least the minimal duration
    ago, and not within the cooldown after the previous action. *)
Fixpoint action_times (cf : loadPolicyConfig) (h : list observation) : list Z :=
  match h with
  | [] => []
  | (t, b) :: h' =>
      let before := action_times cf h' in
      match run_start h' with
      | Some s => if b && (minBreachDuration cf <=? t - s)%Z && negb (within_window t (head before) (cooldown cf))
                  then t :: before else before
      | None => before
      end
  end.

(** Observations of several cells in turn, with the log of their times. *)
Section History.
Context {C : Type} `{!Catalog C} (env : Env).

Fixpoint observe_all (l : list (policySample * f64)) (r : loadPolicyRuntime) (log : list (string * observation))
    : M C (loadPolicyRuntime * list (string * observation)) :=
  match l with
  | [] => mret (r, log)
  | (sample, within) :: l' =>
      cl ← get;
      r ← observe env sample within r;
      observe_all l' r ((ps_cellID sample, (clock env (calls cl), negb (fle f1 within))) :: log)
  end.
End History.

(** The observations of one cell. *)
Definition history_of (id : string) (log : list (string * observation)) : list observation :=
  (base.filter (fun e => e.1 = id) log).*2.

Lemma history_of_cons id id' ob log :
  history_of id ((id', ob) :: log) = if decide (id' = id) then ob :: history_of id log else history_of id log.
Proof. unfold history_of. rewrite filter_cons. cbn [fst]. by destruct (decide (id' = id)). Qed.

(** The times of the events published for one cell, latest first. *)
Definition events_of (id : string) (r : loadPolicyRuntime) : list Z :=
  reverse (le_At <$> base.filter (fun ev => le_CellID ev = id) (events r)).

(** The policy follows the histories. *)
Definition follows (cf : loadPolicyConfig) (r : loadPolicyRuntime) (log : list (string * observation)) : Prop :=
  cfg r = cf /\ pnats r = true /\ forall id,
    default zero_policy_state (state r !! id) =
      mkPolicyState (run_start (history_of id log)) (head (action_times cf (history_of id log))) /\
    events_of id r = action_times cf (history_of id log).

Lemma act_effect {C} `{!Catalog C} env sample r now (cl : Cluster C) :
  exists r' cl', act env sample r now cl = (Ok r', cl') /\ cfg r' = cfg r /\ state r' = state r /\ pnats r' = pnats r /\
    (pnats r = true -> exists ev, events r' = events r ++ [ev] /\ le_CellID ev = ps_cellID sample /\ le_At ev = now).
Proof.
  unfold act. set (da := autoSplitDrain (cfg r) && ps_reachable sample).
  match goal with |- context [(?x ≫= _) cl] => set (m := x) end.
  assert (exists ok cl1, m cl = (Ok ok, cl1)) as (ok & cl1 & Hm).
  { unfold m. destruct (da && _); [|by exists true, cl]. unfold try. destruct (setCellSplitDrain env (ps_endpoint sample) true cl) as [x cl1].
    by exists (is_ok x), cl1. }
  rewrite (run_bind _ _ _ _ _ Hm). cbn zeta. set (r1 := if da && ok then start_split (ps_cellID sample) r else r).
  assert (cfg r1 = cfg r /\ state r1 = state r /\ pnats r1 = pnats r /\ events r1 = events r) as (E1 & E2 & E3 & E4).
  { unfold r1, start_split. destruct (da && ok); [|done]. destruct (split r) as [w|]; [|done]. by destruct (split_maybeStart _ w). }
  eexists _, _. split; [reflexivity|]. unfold policy_publish. rewrite E3. destruct (pnats r) eqn:En; cbn [cfg state pnats events].
  - split; [done|]. split; [done|]. split; [done|]. intros _. eexists. rewrite E4. split; [reflexivity|]. done.
  - split_and!; [done|done|congruence|done].
Qed.

Lemma events_of_snoc id r r' ev :
  events r' = events r ++ [ev] ->
  events_of id r' = if decide (le_CellID ev = id) then le_At ev :: events_of id r else events_of id r.
Proof.
  intros E. unfold events_of. rewrite E, filter_app, fmap_app, reverse_app. cbn [base.filter].
  rewrite filter_cons. destruct (decide _); [done|]. by rewrite filter_nil.
Qed.

(** The state and the events a history gives. *)
Lemma follows_put cf r log id ob st r' :
  follows cf r log -> cfg r' = cfg r -> pnats r' = pnats r -> state r' = <[id := st]> (state r) ->
  st = mkPolicyState (run_start (ob :: history_of id log)) (head (action_times cf (ob :: history_of id log))) ->
  (action_times cf (ob :: history_of id log) = action_times cf (history_of id log) /\ events r' = events r) \/
    (exists ev, events r' = events r ++ [ev] /\ le_CellID ev = id /\
       action_times cf (ob :: history_of id log) = le_At ev :: action_times cf (history_of id log)) ->
  follows cf r' ((id, ob) :: log).
Proof.
  intros (Hcf & Hn & Hf) E1 E2 E3 Hst Hev. split; [congruence|]. split; [congruence|].
  intros x. destruct (Hf x) as [Hx Hxe]. rewrite E3, history_of_cons.
  destruct (decide (id = x)) as [<-|Hne].
  - rewrite lookup_insert_eq. split; [done|]. destruct Hev as [[-> He]|(ev & He & Hid & ->)].
    + unfold events_of in *. by rewrite He.
    + rewrite (events_of_snoc id r r' ev He), decide_True, Hxe; done.
  - rewrite lookup_insert_ne by done. split; [done|]. destruct Hev as [[_ He]|(ev & He & Hid & _)].
    + unfold events_of in *. by rewrite He.
    + rewrite (events_of_snoc x r r' ev He), decide_False, Hxe; congruence.
Qed.

Lemma observe_follows {C} `{!Catalog C} env cf sample within r log (cl : Cluster C) :
  follows cf r log ->
  exists r' cl', observe env sample within r cl = (Ok r', cl') /\
    follows cf r' ((ps_cellID sample, (clock env (calls cl), negb (fle f1 within))) :: log).
Proof.
  intros Hfo. pose proof Hfo as (Hcf & Hn & Hf). set (id := ps_cellID sample). set (now := clock env (calls cl)).
  destruct (Hf id) as [Hst Hev]. unfold observe. fold id now. rewrite Hst. cbn [breachSince lastAction]. clear Hst.
  set (h := history_of id log) in *. rewrite Hcf.
  destruct (fle f1 within) eqn:Eb; cbn [negb].
  { eexists _, _. split; [reflexivity|]. eapply follows_put; [exact Hfo|done|done|reflexivity| |left; split; [|done]];
      fold h; cbn; by destruct (run_start h). }
  destruct (run_start h) as [s|] eqn:Ers.
  2:{ eexists _, _. split; [reflexivity|]. eapply follows_put; [exact Hfo|done|done|reflexivity| |left; split; [|done]];
      fold h; cbn; by rewrite Ers. }
  destruct (Z.ltb_spec (now - s) (minBreachDuration cf)) as [Hlt|Hge].
  { eexists _, _. split; [reflexivity|]. eapply follows_put; [exact Hfo|done|done|reflexivity| |left; split; [|done]];
      fold h; cbn; rewrite Ers; by rewrite (proj2 (Z.leb_gt _ _) Hlt). }
  destruct (within_window now (head (action_times cf h)) (cooldown cf)) eqn:Ew.
  { eexists _, _. split; [reflexivity|]. eapply follows_put; [exact Hfo|done|done|reflexivity| |left; split; [|done]];
      fold h; cbn; rewrite Ers; by rewrite Ew, andb_false_r. }
  assert (action_times cf ((now, true) :: h) = now :: action_times cf h) as Hact.
  { cbn. by rewrite Ers, (proj2 (Z.leb_le _ _) Hge), Ew. }
  destruct (act_effect env sample r now cl) as (r1 & cl1 & Ea & E1 & E2 & E3 & E4).
  rewrite (run_bind _ _ _ _ _ Ea). eexists _, _. split; [reflexivity|].
  eapply follows_put; [exact Hfo|exact E1|exact E3|cbn; rewrite E2; reflexivity| |].
  - change (history_of id log) with h. rewrite Hact. cbn. by rewrite Ers.
  - right. destruct (E4 Hn) as (ev & He & Hid & Hat). exists ev. split; [exact He|]. split; [done|].
    change (history_of id log) with h. by rewrite Hact, Hat.
Qed.

Lemma observe_all_follows {C} `{!Catalog C} env cf l r log (cl : Cluster C) :
  follows cf r log -> exists r' log' cl', observe_all env l r log cl = (Ok (r', log'), cl') /\ follows cf r' log'.
Proof.
  revert r log cl. induction l as [|[sample within] l IH]; intros r log cl Hf; [by exists r, log, cl|].
  cbn [observe_all]. destruct (observe_follows env cf sample within r log cl Hf) as (r1 & cl1 & E & Hf1).
  destruct (IH r1 _ cl1 Hf1) as (r2 & log2 & cl2 & E2 & Hf2). exists r2, log2, cl2. split; [|done].
  rewrite (run_bind get _ cl cl cl eq_refl). by rewrite (run_bind _ _ _ _ _ E).
Qed.

(** ** What the action times are *)

Lemma run_start_spec h s :
  run_start h = Some s -> exists run older, h = run ++ older /\ Forall (fun ob => ob.2 = true) run /\ fst <$> last run = Some s.
Proof.
  revert s. induction h as [|[t [|]] h IH]; intros s; cbn [run_start]; [done| |done].
  destruct (run_start h) as [s'|] eqn:E; intros [= <-].
  - destruct (IH s' eq_refl) as (run & older & -> & Hrun & Hl). exists ((t, true) :: run), older. split; [done|]. split; [by constructor|].
    destruct run; [done|]. exact Hl.
  - exists [(t, true)], h. split; [done|]. split; [by repeat constructor|done].
Qed.

(** Consecutive actions are at least the cooldown apart. *)
Inductive spaced (d : Z) : list Z -> Prop :=
  | sp_nil : spaced d []
  | sp_one t : spaced d [t]
  | sp_cons t s l : (d <= t - s)%Z -> spaced d (s :: l) -> spaced d (t :: s :: l).

Lemma action_times_spaced cf h : spaced (cooldown cf) (action_times cf h).
Proof.
  induction h as [|[t b] h IH]; cbn [action_times]; [constructor|].
  destruct (run_start h) as [s|]; [|done]. destruct (_ && _) eqn:E; [|done].
  apply andb_true_iff in E as [_ E]. apply negb_true_iff in E. destruct (action_times cf h) as [|a l]; [constructor|].
  constructor; [|done]. cbn in E. lia.
Qed.

Lemma action_times_breach cf h t :
  t ∈ action_times cf h ->
  exists newer run older s, h = newer ++ (t, true) :: run ++ older /\ Forall (fun ob => ob.2 = true) run /\
    fst <$> last run = Some s /\ (minBreachDuration cf <= t - s)%Z.
Proof.
  induction h as [|[u b] h IH]; cbn [action_times]; [by intros ?%not_elem_of_nil|].
  assert (t ∈ action_times cf h -> exists newer run older s, (u, b) :: h = newer ++ (t, true) :: run ++ older /\
    Forall (fun ob => ob.2 = true) run /\ fst <$> last run = Some s /\ (minBreachDuration cf <= t - s)%Z) as Hold.
  { intros Hin. destruct (IH Hin) as (newer & run & older & s & -> & ?). by exists ((u, b) :: newer), run, older, s. }
  destruct (run_start h) as [s|] eqn:Ers; [|exact Hold]. destruct (_ && _) eqn:E; [|exact Hold].
  apply andb_true_iff in E as [[Eb Em]%andb_true_iff _]. destruct b; [|done].
  intros [->|Hin]%elem_of_cons; [|by apply Hold].
  destruct (run_start_spec h s Ers) as (run & older & -> & Hrun & Hl). exists [], run, older, s. split; [done|]. split; [done|].
  split; [done|]. lia.
Qed.

(** C40: from a fresh policy, after any series of observations of any cells, the state kept for a cell
    is the one its own history of observations determines (the start of the uninterrupted breach and
    the time of the last action), and the actions published for it are exactly those the history calls
    for. So an action comes only in a breach observed without a break for at least the minimal
    duration, and two actions of a cell are at least the cooldown apart. *)
Theorem observe_policy_history {C} `{!Catalog C} env l r (cl : Cluster C) id :
  state r = ∅ -> events r = [] -> pnats r = true ->
  exists r' log cl', observe_all env l r [] cl = (Ok (r', log), cl') /\
    let h := history_of id log in
    default zero_policy_state (state r' !! id) = mkPolicyState (run_start h) (head (action_times (cfg r) h)) /\
    events_of id r' = action_times (cfg r) h /\
    spaced (cooldown (cfg r)) (events_of id r') /\
    (forall t, t ∈ events_of id r' -> exists newer run older s, h = newer ++ (t, true) :: run ++ older /\
       Forall (fun ob => ob.2 = true) run /\ fst <$> last run = Some s /\ (minBreachDuration (cfg r) <= t - s)%Z).
Proof.
  intros Hs He Hn.
  assert (follows (cfg r) r []) as H0.
  { split; [done|]. split; [done|]. intros x. rewrite Hs, lookup_empty. split; [done|]. unfold events_of. by rewrite He. }
  destruct (observe_all_follows env (cfg r) l r [] cl H0) as (r' & log & cl' & E & (_ & _ & Hf)).
  exists r', log, cl'. split; [done|]. cbn zeta. destruct (Hf id) as [Hst Hev]. rewrite Hev.
  split; [done|]. split; [done|]. split; [apply action_times_spaced|apply action_times_breach].
Qed.

Definition no_cells : Cluster Memory := mkCluster (Some NewMemory) false ∅ ∅ ∅ [] 0.

Definition demo_policy : loadPolicyRuntime :=
  mkPolicy (mkPolicyConfig 20 100 false false false 0 0 f0 f0 f0 f0) ∅ ∅ None None true [] [].

Lemma observe_policy_history_witness :
  let sample := mkSample "cell_root" "h:1" 0 true f0 f0 f0 ∅ in
  let env := mkEnv (fun _ => Delivered) (fun n => Z.of_nat n) (fun _ => order_id) (fun _ => Err (errorf "no codec" []))
    (fun _ => Err (errorf "no codec" [])) (fun _ => Ok tt) (statusf Unavailable "unreachable" []) "" "" "" in
  exists r' log cl', observe_all env [(sample, f0); (sample, f0); (sample, f1)] demo_policy [] no_cells = (Ok (r', log), cl') /\
    spaced 100 (events_of "cell_root" r').
Proof.
  intros sample env.
  destruct (observe_policy_history env [(sample, f0); (sample, f0); (sample, f1)] demo_policy no_cells "cell_root" eq_refl eq_refl eq_refl)
    as (r' & log & cl' & E & _ & _ & Hs & _).
  by exists r', log, cl'.
Defined.

(** * The load of a merge group *)

(** A limit that is not negative is exceeded. *)
Definition exceeds (limit v : f64) : bool := fle f0 limit && flt limit v.

(** The players one child may have. *)
Definition child_player_limit (cf : loadPolicyConfig) : f64 :=
  if mergePlayerHandoff cf then mergeHandoffMaxPlayers cf else mergeMaxPlayers cf.

(** The child [id] is known on its level, answered, and is under every limit. *)
Definition child_low (cf : loadPolicyConfig) (specByID : gmap string CellSpec) (samples : gmap string policySample)
    (childLevel : Z) (id : string) (smp : policySample) : Prop :=
  id <> "" /\ (exists spec, specByID !! id = Some spec /\ CBounds spec <> None /\ Level spec = childLevel) /\
  samples !! id = Some smp /\ ps_reachable smp = true /\
  exceeds (child_player_limit cf) (ps_players smp) = false /\
  exceeds (mergeMaxEntities cf) (ps_entities smp) = false /\ exceeds (mergeMaxTickSec cf) (ps_tickSec smp) = false.

Lemma child_check_iff cf specByID samples childLevel id smp :
  child_check cf specByID samples childLevel id = inl smp <-> child_low cf specByID samples childLevel id smp.
Proof.
  unfold child_check, child_low, child_player_limit, exceeds.
  destruct (String.eqb_spec id "") as [Hi|Hi]; [by split; [|intros (? & _)]|].
  destruct (specByID !! id) as [[si sl [sb|] se]|] eqn:Es.
  2:{ split; [done|]. by intros (_ & (spec & [= <-] & Hb & _) & _). }
  2:{ split; [done|]. by intros (_ & (spec & ? & _) & _). }
  cbn [Level]. destruct (Z.eqb_spec sl childLevel) as [Hl|Hl]; cbn [negb].
  2:{ split; [done|]. by intros (_ & (spec & [= <-] & _ & ?) & _). }
  destruct (samples !! id) as [smp'|] eqn:Esm; [|by split; [|intros (_ & _ & ? & _)]].
  split.
  - destruct (ps_reachable smp') eqn:Er; cbn [negb]; [|done].
    destruct (mergePlayerHandoff cf); cbn [negb andb];
      (destruct (_ && flt _ (ps_players smp')) eqn:Ep; [done|]);
      (destruct (_ && flt _ (ps_entities smp')) eqn:Ee; [done|]);
      (destruct (_ && flt _ (ps_tickSec smp')) eqn:Et; [done|]); intros [= ->];
      (split; [done|]); (split; [by eexists|]); by split_and!.
  - intros (_ & _ & [= ->] & -> & Hp & He & Ht). cbn [negb].
    destruct (mergePlayerHandoff cf); cbn [negb andb]; by rewrite Hp, He, Ht.
Qed.

Lemma group_children_iff cf specByID samples childLevel children ids0 p0 e0 ids p e :
  group_children cf specByID samples childLevel children ids0 p0 e0 = inl (ids, p, e) <->
  exists smps, Forall2 (child_low cf specByID samples childLevel) ((fun ch => trim_space (Id ch)) <$> children) smps /\
    ids = ids0 ++ ((fun ch => trim_space (Id ch)) <$> children) /\
    p = fold_left fadd (ps_players <$> smps) p0 /\ e = fold_left fadd (ps_entities <$> smps) e0.
Proof.
  revert ids0 p0 e0. induction children as [|ch children IH]; intros ids0 p0 e0; cbn [group_children fmap list_fmap].
  { rewrite app_nil_r. split; [intros [= <- <- <-]; by exists []|]. by intros (smps & ->%Forall2_nil_inv_l & -> & -> & ->). }
  destruct (child_check _ _ _ _ _) as [smp|reason] eqn:E.
  - apply child_check_iff in E. rewrite IH. split.
    + intros (smps & Hf & -> & -> & ->). exists (smp :: smps). split; [by constructor|]. by rewrite <- app_assoc.
    + intros (smps & Hf & -> & -> & ->). inversion Hf as [|? smp' ? smps' Hs Hf']; subst.
      assert (smp' = smp) as -> by (destruct Hs as (_ & _ & Hs & _), E as (_ & _ & Hs' & _); congruence).
      exists smps'. split; [done|]. by rewrite <- app_assoc.
  - split; [done|]. intros (smps & Hf & _). inversion Hf as [|? smp' ? ? Hs _]; subst. apply child_check_iff in Hs. congruence.
Qed.

Lemma has_descendants_false childLevel ids cells :
  has_descendants childLevel ids cells = false <->
  forall c childID level, Some c ∈ cells -> childID ∈ ids -> CellPathLevel (trim_space (Id c)) = Some level -> (childLevel < level)%Z ->
    CellPathLevel childID = Some childLevel -> IsDescendantPath childID (trim_space (Id c)) = false.
Proof.
  unfold has_descendants. rewrite <- not_true_iff_false, existsb_exists. split.
  - intros Hn c childID level Hc Hid Hlv Hlt Hcl. apply not_true_iff_false. intros Hd. apply Hn. exists (Some c).
    split; [by apply list_elem_of_In|]. rewrite Hlv, (proj2 (Z.leb_gt _ _) Hlt). apply existsb_exists. exists childID.
    split; [by apply list_elem_of_In|]. by rewrite Hcl, Z.eqb_refl, Hd.
  - intros H ([c|] & Hc & Hx); [|done]. apply list_elem_of_In in Hc. destruct (CellPathLevel (trim_space (Id c))) as [lv|] eqn:Elv; [|done].
    destruct (Z.leb_spec lv childLevel) as [|Hlt]; [done|]. apply existsb_exists in Hx as (childID & Hid & Hx).
    apply list_elem_of_In in Hid. destruct (CellPathLevel childID) as [cl|] eqn:Ecl; [|done].
    apply andb_true_iff in Hx as [->%Z.eqb_eq Hd]. by rewrite (H c childID lv Hc Hid Elv Hlt Ecl) in Hd.
Qed.

(** A group is of low load exactly when every child is known on the child level, answered the
    probe and exceeds no enabled limit, the players to move in all do not exceed theirs, and no cell
    of the catalog below the child level descends from one of the children; the totals reported are the
    sums over the children in order. *)
Theorem mergeGroupLowLoad_spec cf cells specByID samples parentLevel children csv players entities :
  let childLevel := int32 (parentLevel + 1) in
  let ids := (fun ch => trim_space (Id ch)) <$> children in
  mergeGroupLowLoad cf cells specByID samples parentLevel children = Low csv players entities <->
  exists smps, Forall2 (child_low cf specByID samples childLevel) ids smps /\
    csv = join "," ids /\ players = fold_left fadd (ps_players <$> smps) f0 /\ entities = fold_left fadd (ps_entities <$> smps) f0 /\
    (mergePlayerHandoff cf = true -> exceeds (mergeHandoffMaxPlayers cf) players = false) /\
    (forall c childID level, Some c ∈ cells -> childID ∈ ids -> CellPathLevel (trim_space (Id c)) = Some level -> (childLevel < level)%Z ->
       CellPathLevel childID = Some childLevel -> IsDescendantPath childID (trim_space (Id c)) = false).
Proof.
  intros childLevel ids. unfold mergeGroupLowLoad. fold childLevel.
  destruct (group_children cf specByID samples childLevel children [] f0 f0) as [[[ids' p] e]|reason] eqn:E.
  - apply group_children_iff in E as (smps & Hf & -> & -> & ->). rewrite app_nil_l. fold ids in Hf |- *.
    set (p := fold_left fadd (ps_players <$> smps) f0). split.
    + destruct (mergePlayerHandoff cf && fle f0 (mergeHandoffMaxPlayers cf) && flt (mergeHandoffMaxPlayers cf) p) eqn:Ep; [done|].
      destruct (has_descendants childLevel ids cells) eqn:Ed; [done|]. intros [= <- <- <-]. exists smps. repeat (split; [done|]).
      split; [|by apply has_descendants_false]. intros Hm. rewrite Hm in Ep. exact Ep.
    + intros (smps' & Hf' & -> & -> & -> & Hm & Hd). assert (smps' = smps) as ->.
      { apply (Forall2_unique (child_low cf specByID samples childLevel) ids); [done|done|].
        intros x y y' (_ & _ & Hy & _) (_ & _ & Hy' & _). congruence. }
      apply has_descendants_false in Hd. rewrite Hd. fold p in Hm |- *. destruct (mergePlayerHandoff cf); cbn [andb]; [|done].
      specialize (Hm eq_refl). unfold exceeds in Hm. by rewrite Hm.
  - split; [done|]. intros (smps & Hf & _). exfalso.
    pose proof (proj2 (group_children_iff cf specByID samples childLevel children [] f0 f0 ids _ _) (ex_intro _ smps (conj Hf (conj eq_refl (conj eq_refl eq_refl))))) as Hg.
    congruence.
Qed.
