(* ===== verification/MergePolicy.v ===== *)
(** The merge policy over the rounds of the probe: when [observeMergeCandidates] of
    [cmd/grid-manager/cell_load_policy.go] starts the merge of a parent. *)
From Stdlib Require Import ZArith Lia.
From S2P Require Import Prelude Effects GoFloat GoString Partition Registry Ecs Aoi Replic CellSim CellSvc RegistrySvc LoadPolicy.
Local Open Scope string_scope.
Local Open Scope list_scope.

(** * What a round shows of a parent *)

(** A cell that may be a parent, and its id. *)
Definition parent_id (c : option CellSpec) : option string :=
  match c with
  | Some (mkCellSpec id _ (Some _) _) => let id := trim_space id in if String.eqb id "" then None else Some id
  | _ => None
  end.

(** The children of the parent form a group of low load. *)
Definition low_group (cf : loadPolicyConfig) (cells : list (option CellSpec)) (samples : gmap string policySample) (parent : CellSpec) : bool :=
  match CatalogMergeChildren (Some parent) cells with
  | Err _ => false
  | Ok children => match mergeGroupLowLoad cf cells (spec_index cells) samples (Level parent) children with Low _ _ _ => true | NotLow _ => false end
  end.

(** A parent is not in the catalog, or its group is loaded, or it is not. *)
Inductive sight := Missing | Loaded | Light.

Fixpoint parent_of (p : string) (cells : list (option CellSpec)) : option CellSpec :=
  match cells with
  | [] => None
  | c :: cells => if bool_decide (parent_id c = Some p) then c else parent_of p cells
  end.

Definition sight_of (cf : loadPolicyConfig) (cells : list (option CellSpec)) (samples : gmap string policySample) (p : string) : sight :=
  match parent_of p cells with
  | None => Missing
  | Some spec => if low_group cf cells samples spec then Light else Loaded
  end.

(** * The state of one parent *)


(** The runs of the merge workflow that were started for the parent, and whether the guard of the workflow
    lets another one through: it is enabled, the parent is not blocked and has no run. *)
Definition runs_of (p : string) (r : loadPolicyRuntime) : list string := base.filter (fun id => id = p) (started r).
Definition guard_open (p : string) (w : mergeWorkflowRuntime) : bool :=
  mw_enabled w && negb (bool_decide (p ∈ mw_blockedParents w)) && negb (bool_decide (p ∈ mw_active w)).
Definition permits (p : string) (r : loadPolicyRuntime) : bool := match merge r with Some w => guard_open p w | None => false end.

(** What does not change. *)
Definition same_policy (r r' : loadPolicyRuntime) : Prop := cfg r' = cfg r /\ pnats r' = pnats r /\ (merge r' = None <-> merge r = None).
#[local] Instance same_policy_preorder : PreOrder same_policy.
Proof. split; [by intros r|]. intros r1 r2 r3 (H1 & H2 & H3) (H4 & H5 & H6). unfold same_policy. split_and!; [congruence..|tauto]. Qed.











(** * One round *)

Section Round.
Context (now : Z) (cells : list (option CellSpec)) (samples : gmap string policySample).




End Round.


Section Rounds.
Context {C : Type} `{!Catalog C} (env : Env).


(** * The history of a parent

    A round, with the runs of the merge workflow that ended before it; between the rounds the cluster may
    change in any way. *)
Record Round := mkRound { rd_ended : list string; rd_cluster : Cluster C; rd_cells : list (option CellSpec); rd_samples : gmap string policySample }.

Definition end_runs (ended : list string) (r : loadPolicyRuntime) : loadPolicyRuntime :=
  mkPolicy (cfg r) (state r) (mgState r) (split r) ((fun w => foldr merge_finish w ended) <$> merge r) (pnats r) (events r) (started r).
End Rounds.
Arguments mkRound {C} _ _ _ _.
Arguments rd_ended {C} _.
Arguments rd_cluster {C} _.
Arguments rd_cells {C} _.
Arguments rd_samples {C} _.

(** What a round showed of a parent: whether a merge was announced, whether the guard of the workflow was
    open for it, and whether a run began. *)
Record Entry := mkEntry { e_at : Z; e_sight : sight; e_announced : bool; e_open : bool; e_began : bool }.

Definition entry_of {C} (env : Env) (p : string) (rd : Round) (r r' : loadPolicyRuntime) : Entry :=
  mkEntry (clock env (calls (rd_cluster (C:=C) rd))) (sight_of (cfg r) (rd_cells rd) (rd_samples rd) p)
    (negb (bool_decide (events_of p r' = events_of p r))) (permits p r) (negb (bool_decide (runs_of p r' = runs_of p r))).

(** The history, latest first. *)
Fixpoint watch {C} `{!Catalog C} (env : Env) (p : string) (l : list (Round (C:=C))) (r : loadPolicyRuntime) (h : list Entry) : loadPolicyRuntime * list Entry :=
  match l with
  | [] => (r, h)
  | rd :: l =>
      let r := end_runs (rd_ended rd) r in
      match observeMergeCandidates env (rd_cells rd) (rd_samples rd) r (rd_cluster rd) with
      | (Ok r', _) => watch env p l r' (entry_of env p rd r r' :: h)
      | (Err _, _) => (r, h)
      end
  end.



Definition announcements (h : list Entry) : list Z := e_at <$> base.filter (fun e => e_announced e = true) h.
Definition began (h : list Entry) : nat := length (base.filter (fun e => e_began e = true) h).







(** * What the dates of a history mean *)





(** * A witness

    The root and its children, all empty; round [n] takes place at the time [n]. *)
Definition merge_cells : list (option CellSpec) :=
  match ChildSpecsForSplit "cell_root" (Some world_bounds) 0 with Ok chs => Some <$> (root_spec :: (to_spec "h:1" <$> chs)) | Err _ => [] end.
Definition merge_samples : gmap string policySample :=
  list_to_map ((fun c => match c with Some c => (Id c, mkSample (Id c) "h:1" 1 true f0 f0 f0 ∅) | None => ("", mkSample "" "" 0 false f0 f0 f0 ∅) end) <$> merge_cells).
Definition merge_demo : loadPolicyRuntime :=
  mkPolicy (mkPolicyConfig 0 0 false true false 2 100 f1 f1 f1 f1) ∅ ∅ None (Some (mkMerge true ∅ ∅)) true [] [].
Definition merge_env : Env :=
  mkEnv (fun _ => Delivered) (fun n => Z.of_nat n) (fun _ => order_id) (fun _ => Err (errorf "no codec" [])) (fun _ => Err (errorf "no codec" []))
    (fun _ => Ok tt) (statusf Unavailable "unreachable" []) "" "" "".
Definition merge_round (ended : list string) (n : nat) (cells : list (option CellSpec)) : Round (C:=Memory) :=
  mkRound ended (mkCluster None false ∅ ∅ ∅ [] n) cells merge_samples.
Definition merge_rounds (l : list (Round (C:=Memory))) : list Entry := snd (watch merge_env "cell_root" l merge_demo []).


(** A listing without the parent ends the cooldown: the policy forgets when it last merged it. The second
    announcement starts nothing as long as the first run goes on. *)
Example absence_ends_cooldown :
  let rounds ended := [merge_round [] 0 merge_cells; merge_round [] 2 merge_cells; merge_round [] 3 []; merge_round ended 4 merge_cells; merge_round [] 6 merge_cells] in
  announcements (merge_rounds (rounds ["cell_root"])) = [6%Z; 2%Z] /\ began (merge_rounds (rounds ["cell_root"])) = 2 /\
  announcements (merge_rounds (rounds [])) = [6%Z; 2%Z] /\ began (merge_rounds (rounds [])) = 1 /\
  announcements (merge_rounds [merge_round [] 0 merge_cells; merge_round [] 2 merge_cells; merge_round [] 4 merge_cells; merge_round [] 6 merge_cells]) = [2%Z].
Proof. by vm_compute. Qed.
