(* ===== verification/Probe.v ===== *)
(** [cmd/grid-manager/cell_probe.go]: the loop that pings every cell, sets its gauges, and feeds the load
    policies. *)
From Stdlib Require Import Ascii ZArith Lia.
From S2P Require Import Prelude Effects GoFloat GoString Partition Registry Ecs Aoi Replic CellSim CellSvc RegistrySvc RegistryLogic MergeProps LoadPolicy.
Local Open Scope string_scope.
Local Open Scope list_scope.

(** * A ping *)

Record probe := mkProbe { pr_ok : bool; pr_players : f64; pr_entities : f64; pr_tickSec : f64; pr_tps : f64 }.
Definition no_probe : probe := mkProbe false f0 f0 f0 f0.

(** [time.Duration.Seconds]: whole seconds and the remainder, each converted and added. *)
Definition Seconds (d : Z) : f64 := (f64_of_Z (Z.quot d 1000000000) + f64_of_Z (Z.rem d 1000000000) / f64_of_Z 1000000000)%f64.

(** * The gauges

    One finite map per vector, by label; [DeleteLabelValues] takes a label out. *)
Record Gauges := mkGauges {
  cellProbePlayers : gmap string f64; cellProbeEntities : gmap string f64; cellProbeLastTickSeconds : gmap string f64;
  cellProbeTps : gmap string f64; cellProbeReachable : gmap string f64; cellWithinHardLimits : gmap string f64;
  cellThresholdViolation : gmap (string * string) f64 }.
Definition no_gauges : Gauges := mkGauges ∅ ∅ ∅ ∅ ∅ ∅ ∅.

Definition deleteCellProbeLabels (cellID : string) (g : Gauges) : Gauges :=
  mkGauges (delete cellID (cellProbePlayers g)) (delete cellID (cellProbeEntities g)) (delete cellID (cellProbeLastTickSeconds g))
    (delete cellID (cellProbeTps g)) (delete cellID (cellProbeReachable g)) (delete cellID (cellWithinHardLimits g))
    (foldr (fun k => delete (cellID, k)) (cellThresholdViolation g) cellThresholdViolationKinds).

(** The gauges of a cell after its ping; a kind that is not in the map reads as zero. *)
Definition set_gauges (id : string) (p : probe) (within : f64) (viol : gmap string f64) (g : Gauges) : Gauges :=
  mkGauges (<[id := pr_players p]> (cellProbePlayers g)) (<[id := pr_entities p]> (cellProbeEntities g))
    (<[id := pr_tickSec p]> (cellProbeLastTickSeconds g)) (<[id := pr_tps p]> (cellProbeTps g))
    (<[id := flag (pr_ok p)]> (cellProbeReachable g)) (<[id := within]> (cellWithinHardLimits g))
    (foldr (fun k => <[(id, k) := default f0 (viol !! k)]>) (cellThresholdViolation g) cellThresholdViolationKinds).

(** * A round *)

Section Round.
Context {C : Type} `{!Catalog C} (env : Env).

Definition pingCell (endpoint : string) : M C probe := fun cl =>
  match NewClient env endpoint with
  | Err _ => (Ok no_probe, cl)
  | Ok _ =>
      match call_cell env endpoint (fun n s => (s, Ping (clock env n) s)) cl with
      | (Err _, cl) => (Ok no_probe, cl)
      | (Ok res, cl) =>
          (Ok (mkProbe true (f64_of_Z (pi_PlayerCount res)) (f64_of_Z (pi_EntityCount res))
                 (Seconds (pi_LastTickDur res)) (pi_ConfiguredTps res)), cl)
      end
  end.

(** What lasts between the rounds: the ids with metrics, the policies, the gauges. *)
Record Probing := mkProbing { tracked : gset string; policy : loadPolicyRuntime; gauges : Gauges }.

(** And within one: the ids of the catalog and the samples. *)
Record round_state := mkRound { inCatalog : gset string; roundSamples : gmap string policySample; probing : Probing }.

Definition probe_cell (th : loadThresholds) (st : round_state) (spec : option CellSpec) : M C round_state :=
  match spec with
  | None => mret st
  | Some spec =>
      let id := trim_space (Id spec) in
      if String.eqb id "" then mret st
      else
        let inCatalog := {[id]} ∪ inCatalog st in
        let pr := probing st in
        let ep := trim_space (GrpcEndpoint spec) in
        if String.eqb ep ""
        then mret (mkRound inCatalog (roundSamples st) (mkProbing (tracked pr ∖ {[id]}) (policy pr) (deleteCellProbeLabels id (gauges pr))))
        else
          p ← pingCell ep;
          cl ← get;
          let '(within, viol) := evalLoadThresholds (order env (calls cl)) (pr_ok p) (pr_players p) (pr_entities p) (pr_tickSec p) th in
          let sample := mkSample id ep (Level spec) (pr_ok p) (pr_players p) (pr_entities p) (pr_tickSec p) viol in
          policy ← observe env sample within (policy pr);
          mret (mkRound inCatalog (<[id := sample]> (roundSamples st))
                  (mkProbing ({[id]} ∪ tracked pr) policy (set_gauges id p within viol (gauges pr))))
  end.

Fixpoint probe_cells (th : loadThresholds) (cells : list (option CellSpec)) (st : round_state) : M C round_state :=
  match cells with
  | [] => mret st
  | c :: rest => st ← probe_cell th st c; probe_cells th rest st
  end.

(** A cell that has left the catalog is forgotten. *)
Definition drop_cell (pr : Probing) (id : string) : Probing :=
  mkProbing (tracked pr ∖ {[id]}) (forget id (policy pr)) (deleteCellProbeLabels id (gauges pr)).

(** A failing [List] ends the round. *)
Definition runRound (th : loadThresholds) (pr : Probing) : M C Probing := fun cl =>
  match SvcListCells env cl with
  | (Err _, cl) => (Ok pr, cl)
  | (Ok cells, cl) =>
      (st ← probe_cells th cells (mkRound ∅ ∅ pr);
       let pr := probing st in
       r ← observeMergeCandidates env cells (roundSamples st) (policy pr);
       cl ← get;
       let gone := base.filter (fun id => id ∉ inCatalog st) (order env (calls cl) _ (elements (tracked pr))) in
       mret (fold_left drop_cell gone (mkProbing (tracked pr) r (gauges pr)))) cl
  end.

(** One round at the start and one at each tick; [between] is what others do before it. *)
Fixpoint startCellLoadProbe (th : loadThresholds) (between : nat -> Cluster C -> Cluster C) (ticks : nat) (pr : Probing) : M C Probing := fun cl =>
  match ticks with
  | O => (Ok pr, cl)
  | S n => (pr ← runRound th pr; startCellLoadProbe th between n pr) (between n cl)
  end.
End Round.

(** * Computations that never fail

    They keep what holds of the state, [P], and their result has [Q]. *)
Section Ending.
Context {S : Type} (P : S -> Prop).

Definition ends_in {A} (m : St S A) (Q : A -> Prop) : Prop := forall s, P s -> exists a s', m s = (Ok a, s') /\ P s' /\ Q a.

Lemma ends_ret {A} (a : A) (Q : A -> Prop) : Q a -> ends_in (mret a) Q.
Proof. intros H s. by exists a, s. Qed.

Lemma ends_bind {A B} (m : St S A) (k : A -> St S B) Q R : ends_in m Q -> (forall a, Q a -> ends_in (k a) R) -> ends_in (m ≫= k) R.
Proof. intros Hm Hk s Hs. destruct (Hm s Hs) as (a & s' & E & Hs' & Ha). rewrite (run_bind _ _ _ _ _ E). by apply Hk. Qed.

Lemma ends_get (Q : S -> Prop) : (forall s, Q s) -> ends_in get Q.
Proof. intros H s. by exists s, s. Qed.
End Ending.

(** * What a ping of a cell finds *)

(** The answer to the call [n] of a ping of an endpoint, of the cell that is there. *)
Definition ping_at {C} (env : Env) (n : nat) (cl : Cluster C) (ep : string) : probe :=
  match NewClient env ep, net env n, cellServers cl !! ep with
  | Ok _, Delivered, Some s =>
      match Sim s with
      | Some r => mkProbe true (f64_of_Z (int32 (PlayerCount s))) (f64_of_Z (int32 (EntityCount (rt_World r)))) (Seconds (LastTickDur (Stats (Loop r)))) (TPS (Loop r))
      | None => mkProbe true (f64_of_Z (int32 (PlayerCount s))) (f64_of_Z 0) (Seconds 0) f0
      end
  | _, _, _ => no_probe
  end.

(** A drain is not seen by a ping. *)
Lemma ping_at_views {C} env n (cl cl' : Cluster C) ep : same_views cl cl' -> ping_at env n cl' ep = ping_at env n cl ep.
Proof.
  intros [_ Hv]. pose proof (f_equal (fun m : gmap string _ => m !! ep) Hv) as E. cbn in E. rewrite !lookup_fmap in E. unfold ping_at, PlayerCount.
  destruct (NewClient env ep); [|done]. destruct (net env n); [|done..]. destruct (cellServers cl' !! ep), (cellServers cl !! ep); try done.
  unfold view in E. cbn in E. injection E as -> _ ->. done.
Qed.

(** * What the gauges show *)

Lemma delete_kinds (id : string) (kinds : list string) (m : gmap (string * string) f64) (x k : string) :
  foldr (fun k => delete (id, k)) m kinds !! (x, k) = if decide (x = id /\ k ∈ kinds) then None else m !! (x, k).
Proof.
  induction kinds as [|k' kinds IH]; cbn [foldr].
  { rewrite decide_False; [done|]. by intros [_ ?%elem_of_nil]. }
  destruct (decide ((id, k') = (x, k))) as [[= -> ->]|Hne].
  - rewrite lookup_delete_eq, decide_True; [done|]. split; [done|by left].
  - rewrite lookup_delete_ne, IH by done. repeat case_decide; rewrite ?elem_of_cons in *; naive_solver.
Qed.

Lemma insert_kinds (id : string) (kinds : list string) (v : string -> f64) (m : gmap (string * string) f64) (x k : string) :
  foldr (fun k => <[(id, k) := v k]>) m kinds !! (x, k) = if decide (x = id /\ k ∈ kinds) then Some (v k) else m !! (x, k).
Proof.
  induction kinds as [|k' kinds IH]; cbn [foldr].
  { rewrite decide_False; [done|]. by intros [_ ?%elem_of_nil]. }
  destruct (decide ((id, k') = (x, k))) as [[= -> ->]|Hne].
  - rewrite lookup_insert_eq, decide_True; [done|]. split; [done|by left].
  - rewrite lookup_insert_ne, IH by done. repeat case_decide; rewrite ?elem_of_cons in *; naive_solver.
Qed.

Ltac gauge_fields := cbn [cellProbePlayers cellProbeEntities cellProbeLastTickSeconds cellProbeTps cellProbeReachable cellWithinHardLimits cellThresholdViolation].

Section Gauges.
Context {C : Type} `{!Catalog C} (env : Env) (th : loadThresholds).

(** The gauges of a cell show a ping and what the thresholds make of it. *)
Definition shows (g : Gauges) (id : string) (p : probe) : Prop :=
  exists o, cellProbePlayers g !! id = Some (pr_players p) /\ cellProbeEntities g !! id = Some (pr_entities p) /\
    cellProbeLastTickSeconds g !! id = Some (pr_tickSec p) /\ cellProbeTps g !! id = Some (pr_tps p) /\
    cellProbeReachable g !! id = Some (flag (pr_ok p)) /\
    let '(within, viol) := evalLoadThresholds o (pr_ok p) (pr_players p) (pr_entities p) (pr_tickSec p) th in
    cellWithinHardLimits g !! id = Some within /\
    forall k, cellThresholdViolation g !! (id, k) = if decide (k ∈ cellThresholdViolationKinds) then Some (default f0 (viol !! k)) else None.

(** Or there are none. *)
Definition hides (g : Gauges) (id : string) : Prop :=
  cellProbePlayers g !! id = None /\ cellProbeEntities g !! id = None /\ cellProbeLastTickSeconds g !! id = None /\
  cellProbeTps g !! id = None /\ cellProbeReachable g !! id = None /\ cellWithinHardLimits g !! id = None /\
  forall k, cellThresholdViolation g !! (id, k) = None.

(** Each tracked cell shows some ping, and no other cell has gauges. *)
Definition gauges_ok (pr : Probing) : Prop := forall id,
  if decide (id ∈ tracked pr) then exists n (cl : Cluster C) ep, shows (gauges pr) id (ping_at env n cl ep) else hides (gauges pr) id.

(** The gauges of the other cells stay. *)
Lemma other_gauges g g' id :
  cellProbePlayers g' !! id = cellProbePlayers g !! id -> cellProbeEntities g' !! id = cellProbeEntities g !! id ->
  cellProbeLastTickSeconds g' !! id = cellProbeLastTickSeconds g !! id -> cellProbeTps g' !! id = cellProbeTps g !! id ->
  cellProbeReachable g' !! id = cellProbeReachable g !! id -> cellWithinHardLimits g' !! id = cellWithinHardLimits g !! id ->
  (forall k, cellThresholdViolation g' !! (id, k) = cellThresholdViolation g !! (id, k)) ->
  (forall p, shows g id p -> shows g' id p) /\ (hides g id -> hides g' id).
Proof.
  intros E1 E2 E3 E4 E5 E6 E7. split; unfold shows, hides; rewrite E1, E2, E3, E4, E5, E6.
  - intros p (o & H). exists o. destruct (evalLoadThresholds _ _ _ _ _ _) as [w v]. destruct H as (H2 & H3 & H4 & H5 & H6 & H7 & H8).
    split_and!; try done. intros k. by rewrite E7.
  - intros (H1 & H2 & H3 & H4 & H5 & H6 & H7). split_and!; try done. intros k. by rewrite E7.
Qed.

Lemma shows_set o p id g :
  (forall k, k ∉ cellThresholdViolationKinds -> cellThresholdViolation g !! (id, k) = None) ->
  let '(within, viol) := evalLoadThresholds o (pr_ok p) (pr_players p) (pr_entities p) (pr_tickSec p) th in
  shows (set_gauges id p within viol g) id p.
Proof.
  intros Hk. destruct (evalLoadThresholds _ _ _ _ _ _) as [w v] eqn:E. exists o. rewrite E. unfold set_gauges.
  gauge_fields.
  rewrite !lookup_insert_eq. split_and!; try done. intros k. rewrite (insert_kinds id _ (fun k => default f0 (v !! k))).
  destruct (decide (k ∈ _)) as [Hin|Hin].
  - by rewrite decide_True.
  - rewrite decide_False by tauto. by apply Hk.
Qed.

Lemma set_other id p w v g x : x <> id -> (forall q, shows g x q -> shows (set_gauges id p w v g) x q) /\ (hides g x -> hides (set_gauges id p w v g) x).
Proof.
  intros Hne. apply other_gauges; unfold set_gauges; gauge_fields; try (by rewrite lookup_insert_ne). intros k.
  rewrite (insert_kinds id cellThresholdViolationKinds (fun k => default f0 (v !! k))), decide_False; [done|tauto].
Qed.

Lemma delete_other id g x : x <> id -> (forall q, shows g x q -> shows (deleteCellProbeLabels id g) x q) /\ (hides g x -> hides (deleteCellProbeLabels id g) x).
Proof.
  intros Hne. apply other_gauges; unfold deleteCellProbeLabels; gauge_fields; try (by rewrite lookup_delete_ne). intros k.
  rewrite (delete_kinds id cellThresholdViolationKinds), decide_False; [done|tauto].
Qed.

(** No kind but the four has a gauge. *)
Lemma ok_kinds pr id k : gauges_ok pr -> k ∉ cellThresholdViolationKinds -> cellThresholdViolation (gauges pr) !! (id, k) = None.
Proof.
  intros Hok Hk. specialize (Hok id). destruct (decide (id ∈ tracked pr)).
  - destruct Hok as (n & cl & ep & o & H). destruct (evalLoadThresholds _ _ _ _ _ _) as [w v]. destruct H as (_ & _ & _ & _ & _ & _ & H).
    by rewrite H, decide_False.
  - by destruct Hok as (_ & _ & _ & _ & _ & _ & ?).
Qed.

Lemma hides_delete pr id : gauges_ok pr -> hides (deleteCellProbeLabels id (gauges pr)) id.
Proof.
  intros Hok. unfold hides, deleteCellProbeLabels.
  gauge_fields.
  rewrite !lookup_delete_eq. split_and!; try done. intros k. rewrite delete_kinds. case_decide as Hd; [done|]. apply (ok_kinds pr); [done|tauto].
Qed.

Lemma drop_ok pr id r : gauges_ok pr -> gauges_ok (mkProbing (tracked pr ∖ {[id]}) r (deleteCellProbeLabels id (gauges pr))).
Proof.
  intros Hok x. cbn [tracked gauges]. destruct (decide (x = id)) as [->|Hne].
  - rewrite decide_False by set_solver. by apply hides_delete.
  - specialize (Hok x). destruct (decide (x ∈ tracked pr)); [rewrite decide_True by set_solver|rewrite decide_False by set_solver; by apply delete_other].
    destruct Hok as (n & cl & ep & Hs). exists n, cl, ep. by apply delete_other.
Qed.

Lemma set_ok o pr id n (cl : Cluster C) ep r :
  gauges_ok pr -> let p := ping_at env n cl ep in
  let '(within, viol) := evalLoadThresholds o (pr_ok p) (pr_players p) (pr_entities p) (pr_tickSec p) th in
  gauges_ok (mkProbing ({[id]} ∪ tracked pr) r (set_gauges id p within viol (gauges pr))) /\
  shows (set_gauges id p within viol (gauges pr)) id p.
Proof.
  intros Hok p. pose proof (shows_set o p id (gauges pr) (fun k => ok_kinds pr id k Hok)) as Hs.
  destruct (evalLoadThresholds _ _ _ _ _ _) as [w v]. split; [|done]. intros x. cbn [tracked gauges]. destruct (decide (x = id)) as [->|Hne].
  - rewrite decide_True by set_solver. by exists n, cl, ep.
  - specialize (Hok x). destruct (decide (x ∈ tracked pr)); [rewrite decide_True by set_solver|rewrite decide_False by set_solver; by apply set_other].
    destruct Hok as (n' & cl' & ep' & Hx). exists n', cl', ep'. by apply set_other.
Qed.
End Gauges.

(** * What a round leaves *)

Definition has_id (id : string) (spec : option CellSpec) : bool := match spec with Some s => String.eqb (trim_space (Id s)) id | None => false end.
Definition has_endpoint (spec : option CellSpec) : bool :=
  match spec with Some s => negb (String.eqb (trim_space (GrpcEndpoint s)) "") | None => false end.

(** The endpoint of the last cell listed under an id. *)
Fixpoint last_endpoint (id : string) (cells : list (option CellSpec)) : option string :=
  match cells with
  | [] => None
  | c :: cells =>
      match last_endpoint id cells with
      | Some ep => Some ep
      | None => if has_id id c then (fun s => trim_space (GrpcEndpoint s)) <$> c else None
      end
  end.

(** Whether the last cell listed under the id has an endpoint; [b] when none is listed. *)
Fixpoint served_from (b : bool) (id : string) (cells : list (option CellSpec)) : bool :=
  match cells with
  | [] => b
  | c :: cells => served_from (if has_id id c then has_endpoint c else b) id cells
  end.
Definition served : string -> list (option CellSpec) -> bool := served_from false.
Definition listed (id : string) (cells : list (option CellSpec)) : bool := existsb (has_id id) cells.

Lemma served_listed b b' id cells : listed id cells = true -> served_from b id cells = served_from b' id cells.
Proof.
  revert b b'. induction cells as [|c cells IH]; intros b b'; [done|]. unfold listed. cbn [existsb served_from].
  destruct (has_id id c); [done|]. apply IH.
Qed.

Lemma served_unlisted b id cells : listed id cells = false -> served_from b id cells = b.
Proof.
  revert b. induction cells as [|c cells IH]; intros b; [done|]. unfold listed. cbn [existsb served_from].
  destruct (has_id id c); [done|]. apply IH.
Qed.

Section Rounds.
Context {C : Type} `{!Catalog C} (env : Env) (th : loadThresholds).

(** The cells as they are at the start of a round, up to drains. *)
Context (cl0 : Cluster C).
Abbreviation ends_in := (ends_in (same_views cl0)).

Lemma ping_ends ep : ends_in (pingCell (C:=C) env ep) (fun p => exists n, p = ping_at env n cl0 ep).
Proof.
  intros cl Hv. exists (ping_at env (calls cl) cl0 ep). assert (same_views cl0 (snd (pingCell env ep cl)) /\ fst (pingCell env ep cl) = Ok (ping_at env (calls cl) cl ep)) as [H1 H2].
  { unfold pingCell, ping_at. destruct (NewClient env ep); [|done]. unfold call_cell. destruct (net env (calls cl)); [|done|].
    - destruct (cellServers (count_call cl) !! ep) as [s|] eqn:Es; cbn [count_call cellServers] in *; rewrite Es; [|done]. cbn [fst snd]. split.
      + transitivity cl; [done|]. split; [done|]. cbn. by rewrite insert_id.
      + unfold Ping. by destruct (Sim s).
    - destruct (cellServers (count_call cl) !! ep) as [s|] eqn:Es; cbn [count_call cellServers] in *; [|done]. cbn [fst snd]. split; [|done].
      transitivity cl; [done|]. split; [done|]. cbn. by rewrite insert_id. }
  destruct (pingCell env ep cl) as [res cl']. cbn [fst snd] in *. subst res. exists cl'. split; [by rewrite (ping_at_views env _ cl0 cl)|]. eauto.
Qed.

Lemma drain_one_views ep b : steps_in same_views (setCellSplitDrain (C:=C) env ep b).
Proof using Catalog0. unfold setCellSplitDrain. steps. eapply (frame_call env same_views view_kept); try done; apply views_server. Qed.

Lemma act_views sample r now : steps_in same_views (act (C:=C) env sample r now).
Proof using Catalog0. unfold act. steps. intros cl. unfold try. pose proof (drain_one_views (ps_endpoint sample) true cl) as H. by destruct (setCellSplitDrain _ _ _ cl). Qed.

Lemma observe_views sample within r : steps_in same_views (observe (C:=C) env sample within r).
Proof using Catalog0.
  intros cl. unfold observe. set (st := default _ _). destruct (fle f1 within); [done|]. destruct (breachSince st) as [since|]; [|done].
  destruct (_ <? _)%Z; [done|]. destruct (within_window _ _ _); [done|]. unfold mbind, St_bind.
  pose proof (act_views sample r (clock env (calls cl)) cl) as H. by destruct (act env _ _ _ cl) as [[ok|e] cl1].
Qed.

Lemma observe_ends sample within r : ends_in (observe (C:=C) env sample within r) (fun _ => True).
Proof using Catalog0.
  intros cl Hcl. pose proof (observe_views sample within r cl) as Hv.
  assert (exists r' cl', observe env sample within r cl = (Ok r', cl')) as (r' & cl' & E); [|exists r', cl'; rewrite E in Hv; split; [done|]; split; [by transitivity cl|done]].
  clear Hv Hcl. unfold observe. set (st := default _ _). destruct (fle f1 within); [by eexists _, _|]. destruct (breachSince st) as [since|]; [|by eexists _, _].
  destruct (_ <? _)%Z; [by eexists _, _|]. destruct (within_window _ _ _); [by eexists _, _|]. unfold act.
  set (m := if _ && _ then try _ else mret true). assert (exists ok cl', m cl = (Ok ok, cl')) as (ok & cl' & E).
  { unfold m, try. destruct (_ && _); [|by eexists _, _]. destruct (setCellSplitDrain _ _ _ cl) as [rr s']. by eexists _, _. }
  rewrite (run_bind _ _ _ _ _ (run_bind _ _ _ _ _ E)). by eexists _, _.
Qed.

(** The gauges of the cells [cells] are of pings at this round, those of other cells stay. *)
Definition fresh (cells : list (option CellSpec)) (g g' : Gauges) : Prop := forall id, id <> "" ->
  match last_endpoint id cells with
  | None => forall p, shows th g id p -> shows th g' id p
  | Some ep => ep = "" \/ exists n, shows th g' id (ping_at env n cl0 ep)
  end.

(** The tracked cells and those of the catalog, after these cells. *)
Record follows_cells (cells : list (option CellSpec)) (st st' : round_state) : Prop := {
  fc_gauges : gauges_ok (C:=C) env th (probing st) -> gauges_ok (C:=C) env th (probing st') /\ fresh cells (gauges (probing st)) (gauges (probing st'));
  fc_tracked : forall id, id ∈ tracked (probing st') <-> (if String.eqb id "" then id ∈ tracked (probing st) else
    served_from (bool_decide (id ∈ tracked (probing st))) id cells = true);
  fc_catalog : forall id, id ∈ inCatalog st' <-> id ∈ inCatalog st \/ (id <> "" /\ listed id cells = true) }.

Lemma follows_refl st : follows_cells [] st st.
Proof.
  split; [by intros H; split; [done|by intros id _ p]| |].
  - intros id. destruct (String.eqb id ""); [done|]. cbn [served_from]. by rewrite bool_decide_eq_true.
  - intros id. unfold listed. cbn. naive_solver.
Qed.

Lemma follows_cons c cells st st1 st2 : follows_cells [c] st st1 -> follows_cells cells st1 st2 -> follows_cells (c :: cells) st st2.
Proof.
  intros [G1 T1 I1] [G2 T2 I2]. split.
  - intros [H1 F1]%G1. apply G2 in H1 as [H2 F2]. split; [done|]. intros id Hid. specialize (F1 id Hid). specialize (F2 id Hid). cbn [last_endpoint] in *.
    destruct (last_endpoint id cells); [done|]. destruct (if has_id id c then _ else _) as [ep|]; [|by intros p ?%F1%F2].
    destruct F1 as [->|[n F1]]; [by left|]. right. exists n. by apply F2.
  - intros id. rewrite T2. specialize (T1 id). destruct (String.eqb id ""); [done|]. cbn [served_from] in *.
    replace (bool_decide (id ∈ tracked (probing st1))) with (if has_id id c then has_endpoint c else bool_decide (id ∈ tracked (probing st))); [done|].
    apply eq_true_iff_eq. by rewrite bool_decide_eq_true.
  - intros id. rewrite I2, I1. unfold listed. cbn [existsb]. rewrite !orb_true_iff. intuition congruence.
Qed.

(** A cell that is not looked at. *)
Lemma follows_skip spec st : (forall id, id <> "" -> has_id id spec = false) -> follows_cells [spec] st st.
Proof.
  intros Hn. split.
  - intros H. split; [done|]. intros id Hid. cbn [last_endpoint]. by rewrite Hn.
  - intros x. destruct (String.eqb_spec x ""); [done|]. cbn [served_from]. rewrite Hn by done. by rewrite bool_decide_eq_true.
  - intros x. unfold listed. cbn [existsb]. split; [by left|]. intros [?|[Hx E]]; [done|]. rewrite Hn in E by done. done.
Qed.

Lemma probe_cell_ends st spec : ends_in (probe_cell (C:=C) env th st spec) (follows_cells [spec] st).
Proof using Catalog0.
  destruct spec as [spec|]; cbn [probe_cell]; [|by apply ends_ret, follows_skip].
  set (id := trim_space (Id spec)). destruct (String.eqb_spec id "") as [He|He].
  { apply ends_ret, follows_skip. intros x Hx. cbn [has_id]. fold id. apply String.eqb_neq. congruence. }
  assert (forall x, id <> x -> last_endpoint x [Some spec] = None) as Hlast.
  { intros x Hx. cbn [last_endpoint has_id]. fold id. by rewrite (proj2 (String.eqb_neq _ _) Hx). }
  assert (last_endpoint id [Some spec] = Some (trim_space (GrpcEndpoint spec))) as Hep.
  { cbn [last_endpoint has_id]. fold id. by rewrite String.eqb_refl. }
  destruct (String.eqb_spec (trim_space (GrpcEndpoint spec)) "") as [Eep|Eep].
  - apply ends_ret. split; cbn [probing inCatalog tracked gauges].
    + intros H. split; [by apply drop_ok|]. intros x Hx. destruct (decide (id = x)) as [<-|Hne]; [rewrite Hep; by left|].
      rewrite Hlast by done. intros p. apply delete_other. congruence.
    + intros x. destruct (String.eqb_spec x ""); [set_solver|]. cbn [served_from has_id has_endpoint]. fold id. rewrite Eep. cbn [negb String.eqb].
      destruct (String.eqb_spec id x); [set_solver|]. rewrite bool_decide_eq_true. set_solver.
    + intros x. unfold listed. cbn [existsb has_id]. fold id. rewrite orb_false_r, String.eqb_eq. set_solver.
  - eapply ends_bind; [apply ping_ends|]. intros p [n ->]. apply (ends_bind _ _ _ (fun _ => True)); [by apply ends_get|]. intros cl _.
    pose proof (fun r => set_ok env th (order env (calls cl)) (probing st) id n cl0 (trim_space (GrpcEndpoint spec)) r) as Hset. cbn zeta in Hset.
    destruct (evalLoadThresholds _ _ _ _ _ _) as [w v]. eapply ends_bind; [apply observe_ends|]. intros r _. apply ends_ret.
    split; cbn [probing inCatalog tracked gauges].
    + intros H. destruct (Hset r H) as [H1 H2]. split; [done|]. intros x Hx. destruct (decide (id = x)) as [<-|Hne]; [rewrite Hep; right; by exists n|].
      rewrite Hlast by done. intros p. apply set_other. congruence.
    + intros x. apply String.eqb_neq in Eep. destruct (String.eqb_spec x ""); [set_solver|]. cbn [served_from has_id has_endpoint]. fold id. rewrite Eep. cbn [negb].
      destruct (String.eqb_spec id x); [set_solver|]. rewrite bool_decide_eq_true. set_solver.
    + intros x. unfold listed. cbn [existsb has_id]. fold id. rewrite orb_false_r, String.eqb_eq. set_solver.
Qed.

Lemma probe_cells_ends cells st : ends_in (probe_cells (C:=C) env th cells st) (follows_cells cells st).
Proof using Catalog0.
  revert st. induction cells as [|c cells IH]; intros st; cbn [probe_cells]; [apply ends_ret, follows_refl|].
  eapply ends_bind; [apply probe_cell_ends|]. intros st1 H1 cl Hcl. destruct (IH st1 cl Hcl) as (st2 & cl' & E & Hcl' & H2). exists st2, cl'. split; [done|].
  split; [done|]. by eapply follows_cons.
Qed.

Lemma drop_all l pr :
  tracked (fold_left drop_cell l pr) = tracked pr ∖ list_to_set l /\
  (gauges_ok (C:=C) env th pr -> gauges_ok (C:=C) env th (fold_left drop_cell l pr)) /\
  forall id p, id ∉ l -> shows th (gauges pr) id p -> shows th (gauges (fold_left drop_cell l pr)) id p.
Proof.
  revert pr. induction l as [|x l IH]; intros pr; cbn [fold_left].
  - split; [|done]. apply set_eq. set_solver.
  - destruct (IH (drop_cell pr x)) as (-> & Hok & Hs). split; [unfold drop_cell; cbn [tracked]; apply set_eq; set_solver|]. split.
    + intros H. by apply Hok, drop_ok.
    + intros id p [Hne Hl]%not_elem_of_cons Hp. apply Hs; [done|]. by apply delete_other.
Qed.

Lemma merge_ends cells samples r (cl : Cluster C) : exists r', observeMergeCandidates env cells samples r cl = (Ok r', cl).
Proof. unfold observeMergeCandidates. destruct (_ || _); [by eexists|]. destruct (fold_left _ _ _) as [seen r']. by eexists. Qed.

Lemma served_endpoint id cells : served id cells = true <-> exists ep, last_endpoint id cells = Some ep /\ ep <> "".
Proof.
  assert (forall b, served_from b id cells = match last_endpoint id cells with Some ep => negb (String.eqb ep "") | None => b end) as H.
  { induction cells as [|c cells IH]; intros b; cbn [served_from last_endpoint]; [done|]. rewrite IH. destruct (last_endpoint id cells); [done|].
    destruct c as [s|]; cbn [has_id has_endpoint]; [|done]. by destruct (String.eqb _ id). }
  unfold served. rewrite H. destruct (last_endpoint id cells) as [ep|].
  - rewrite negb_true_iff, String.eqb_neq. split; [eauto|]. by intros (? & [= <-] & ?).
  - split; [done|]. by intros (? & ? & _).
Qed.

Lemma list_no_effect : exists res, SvcListCells env cl0 = (res, cl0).
Proof. unfold SvcListCells. destruct (Store cl0); [|by eexists]. destruct (Registry.ListCells _ _); by eexists. Qed.

(** A round keeps the gauges and the tracked cells together, and after one that got the catalog the tracked
    cells are the cells of the catalog with an endpoint, and each shows the ping of this round. *)
Lemma round_ends pr :
  exists pr' cl', runRound env th pr cl0 = (Ok pr', cl') /\ (gauges_ok (C:=C) env th pr -> gauges_ok (C:=C) env th pr') /\ ("" ∉ tracked pr -> "" ∉ tracked pr') /\
    forall cells, fst (SvcListCells env cl0) = Ok cells -> forall id, id <> "" ->
      (id ∈ tracked pr' <-> served id cells = true) /\
      (gauges_ok (C:=C) env th pr -> id ∈ tracked pr' -> exists ep n, last_endpoint id cells = Some ep /\ shows th (gauges pr') id (ping_at env n cl0 ep)).
Proof.
  unfold runRound. destruct list_no_effect as [res ->]. destruct res as [cells|e]; cbn [fst]; [|exists pr, cl0; split; [done|]; done].
  destruct (probe_cells_ends cells (mkRound ∅ ∅ pr) cl0 ltac:(done)) as (st & cl2 & E & _ & [Hg Ht Hi]). rewrite (run_bind _ _ _ _ _ E).
  destruct (merge_ends cells (roundSamples st) (policy (probing st)) cl2) as (r & E2). rewrite (run_bind _ _ _ _ _ E2).
  cbn [mbind St_bind get]. set (gone := base.filter (fun id => id ∉ inCatalog st) (order env (calls cl2) string (elements (tracked (probing st))))). set (pr1 := mkProbing _ _ _).
  destruct (drop_all gone pr1) as (Htr & Hok & Hsh).
  exists (fold_left drop_cell gone pr1), cl2. split; [done|]. change (tracked pr1) with (tracked (probing st)) in Htr. cbn [probing inCatalog] in Hg, Ht, Hi.
  assert (forall id, id ∈ gone <-> id ∉ inCatalog st /\ id ∈ tracked (probing st)) as Hgone.
  { intros id. unfold gone. by rewrite list_elem_of_filter, elem_of_visit, elem_of_elements. }
  split; [intros H; apply Hok; exact (proj1 (Hg H))|]. split; [intros H; rewrite Htr; specialize (Ht ""); cbn in Ht; set_solver|].
  intros cells' [= <-] id Hid.
  assert (id ∈ tracked (fold_left drop_cell gone pr1) <-> served id cells = true) as Hin.
  { rewrite Htr, elem_of_difference, elem_of_list_to_set, Hgone, Hi, Ht. apply String.eqb_neq in Hid as Hid'. rewrite Hid'.
    unfold served. destruct (listed id cells) eqn:El.
    - rewrite (served_listed _ false id cells El). intuition congruence.
    - rewrite !served_unlisted by done. rewrite bool_decide_eq_true. assert (id ∉ (∅ : gset string)) by set_solver. intuition congruence. }
  split; [done|]. intros H Htrk. pose proof (proj1 Hin Htrk) as Hse. apply served_endpoint in Hse as (ep & Hep & Hne).
  destruct (Hg H) as [_ Hf]. specialize (Hf id Hid). rewrite Hep in Hf. destruct Hf as [->|[n Hn]]; [done|]. exists ep, n. split; [done|].
  apply Hsh; [|exact Hn]. rewrite Htr in Htrk. set_solver.
Qed.
End Rounds.

Lemma loop_ends {C} `{!Catalog C} env th between n pr (cl : Cluster C) :
  gauges_ok (C:=C) env th pr -> "" ∉ tracked pr ->
  exists pr' cl', startCellLoadProbe env th between n pr cl = (Ok pr', cl') /\ gauges_ok (C:=C) env th pr' /\ "" ∉ tracked pr'.
Proof.
  revert pr cl. induction n as [|n IH]; intros pr cl Hg He; cbn [startCellLoadProbe]; [by exists pr, cl|].
  destruct (round_ends env th (between n cl) pr) as (pr1 & cl1 & E & H1 & H2 & _). rewrite (run_bind _ _ _ _ _ E). apply IH; tauto.
Qed.

(** C22: however often the grid manager has probed the cells, whatever others have done to them in between and
    whatever calls were lost, each tracked cell has the gauges of one ping - the players, entities, tick
    duration and rate of a cell that answered, all zero when none did - with the thresholds' verdict on
    that ping, and no other cell has any. One more round that gets the catalog leaves exactly the cells of
    the catalog that have an endpoint, and each has then the gauges of a ping in this round of the
    endpoint it is listed with. *)
Theorem probe_gauges_consistent {C} `{!Catalog C} env th between n r (cl : Cluster C) :
  exists pr cl', startCellLoadProbe env th between n (mkProbing ∅ r no_gauges) cl = (Ok pr, cl') /\
    gauges_ok (C:=C) env th pr /\
    exists pr' cl'', runRound env th pr cl' = (Ok pr', cl'') /\ gauges_ok (C:=C) env th pr' /\
      forall cells, fst (SvcListCells env cl') = Ok cells -> forall id,
        (id ∈ tracked pr' <-> id <> "" /\ served id cells = true) /\
        (id ∈ tracked pr' -> exists ep k, last_endpoint id cells = Some ep /\ shows th (gauges pr') id (ping_at env k cl' ep)).
Proof.
  destruct (loop_ends env th between n (mkProbing ∅ r no_gauges) cl) as (pr & cl' & E & Hg & He).
  { intros id. cbn [tracked gauges no_gauges]. rewrite decide_False by set_solver. by split_and!. }
  { cbn [tracked]. set_solver. }
  exists pr, cl'. split; [done|]. split; [done|]. destruct (round_ends env th cl' pr) as (pr' & cl'' & E' & H1 & H2 & H3).
  exists pr', cl''. split; [done|]. split; [tauto|]. intros cells Hc id. specialize (H3 cells Hc id). specialize (H2 He).
  destruct (decide (id = "")) as [->|Hid]; [tauto|]. destruct (H3 Hid) as [H4 H5]. split; [tauto|]. by apply H5.
Qed.
(** A cell whose endpoint disappears before the cell does is never forgotten: its breach goes on when
    a cell of that id comes back. *)
Definition forgotten_never : option (option Z) :=
  let env := mkEnv (fun _ => Delivered) (fun n => Z.of_nat n) (fun _ => order_id) (fun _ => Err (errorf "no codec" []))
    (fun _ => Err (errorf "no codec" [])) (fun _ => Ok tt) (statusf Unavailable "unreachable" []) "" "" "" in
  let cluster l := mkCluster (Some (mkMemory (list_to_map l))) false ∅ ∅ ∅ [] 0 in
  let th := mkThresholds 200 8000 f1 in
  let spec ep := mkCellSpec "cell_root" 0 (Some (mkBounds f0 f1 f0 f1)) ep in
  let '(r1, _) := runRound env th (mkProbing ∅ demo_policy no_gauges) (cluster [("cell_root", spec "h:1")]) in
  match r1 with
  | Err _ => None
  | Ok p1 =>
      match fst (runRound env th p1 (cluster [("cell_root", spec "")])) with
      | Err _ => None
      | Ok p2 =>
          match fst (runRound env th p2 (cluster [])) with
          | Err _ => None
          | Ok p3 => breachSince <$> state (policy p3) !! "cell_root"
          end
      end
  end.

Example state_outlives_the_cell : forgotten_never = Some (Some 1%Z).
Proof. vm_compute. reflexivity. Qed.
(** A cell that answers, one that is gone, and one that leaves the catalog. *)
Definition probed_gauges : option (list (string * f64) * list (string * f64) * gset string) :=
  let env := mkEnv (fun _ => Delivered) (fun n => Z.of_nat n) (fun _ => order_id) (fun _ => Err (errorf "no codec" []))
    (fun _ => Err (errorf "no codec" [])) (fun _ => Ok tt) (statusf Unavailable "unreachable" []) "" "" "" in
  let spec ep := mkCellSpec "cell_root" 0 (Some (mkBounds f0 f1 f0 f1)) ep in
  let server := mkServer "a" (Some NewRuntime) (Some (mkBounds f0 f1 f0 f1)) 0 ∅ ∅ ∅ ∅ ∅ ∅ false [] false in
  let catalog l := Some (mkMemory (list_to_map l)) in
  let before := mkCluster (catalog [("a", mkCellSpec "a" 0 None "h:1"); ("b", mkCellSpec "b" 0 None "h:2")]) false ∅ {["h:1" := server]} ∅ [] 0 in
  let leave (n : nat) cl := if Nat.eqb n 0 then mkCluster (catalog [("b", mkCellSpec "b" 0 None "h:2")]) false ∅ (cellServers cl) ∅ [] (calls cl) else cl in
  match fst (startCellLoadProbe env (mkThresholds 200 8000 f1) leave 1 (mkProbing ∅ demo_policy no_gauges) before) with
  | Ok pr1 => match fst (startCellLoadProbe env (mkThresholds 200 8000 f1) (fun _ cl => cl) 1 (mkProbing ∅ demo_policy no_gauges) before) with
              | Ok pr2 => Some (map_to_list (cellProbeReachable (gauges pr1)), map_to_list (cellProbeReachable (gauges pr2)), tracked pr2)
              | Err _ => None
              end
  | Err _ => None
  end.

Example gauges_of_a_round : probed_gauges = Some ([("b", f0)], [("a", f1); ("b", f0)], {["a"; "b"]}).
Proof. vm_compute. done. Qed.
