(* ===== verification/Workflow.v ===== *)
(** What the two workflows of the grid manager share ([cmd/grid-manager/merge_workflow.go] and
    [split_workflow.go]): their state, their calls of the catalog, of cells and of the registry
    service, and the messages to the cell controller ([internal/splitcontrol]). *)
From Stdlib Require Import Ascii ZArith Lia.
From S2P Require Import Prelude Effects GoFloat GoString Partition Registry Ecs Aoi Replic CellSim CellSvc RegistrySvc RegistryLogic.
Local Open Scope string_scope.
Local Open Scope list_scope.

(** * Messages to the cell controller *)

Record ChildCellSpec := mkChild {
  cs_ID : string; cs_Level : Z; cs_XMin : f64; cs_XMax : f64; cs_ZMin : f64; cs_ZMax : f64 }.

(** [ChildCellCreateRequest] and [RuntimeCellDeleteRequest]. *)
Inductive ControlMessage :=
  | ChildCreate (parentCellID requestID : string) (child : ChildCellSpec)
  | ChildDelete (cellID reason : string).

(** A value of a JSON object that the workflows keep in Redis. *)
Inductive json := JStr (s : text) | JList (l : list text) | JBool (b : bool) | JInt (z : Z).

(** * The state of a workflow

    The cluster it works on, whether it has a NATS client and a Redis store, the events it published,
    the control messages that reached NATS, the times it waited, and what it keeps in Redis by key: its
    last event and a JSON object. [E] is its type of events. *)
Record Flow (C E : Type) := mkFlow {
  cluster : Cluster C;
  nats : bool;
  store : bool;
  emitted : list E;
  control : list ControlMessage;
  waited : list Z;
  saved : gmap string E;
  retired : gmap string (gmap string json) }.
Arguments mkFlow {C E} _ _ _ _ _ _ _ _.
Arguments cluster {C E} _.
Arguments nats {C E} _.
Arguments store {C E} _.
Arguments emitted {C E} _.
Arguments control {C E} _.
Arguments waited {C E} _.
Arguments saved {C E} _.
Arguments retired {C E} _.

Abbreviation W C E := (St (Flow C E)).

Definition set_cluster {C E} (cl : Cluster C) (fl : Flow C E) : Flow C E :=
  mkFlow cl (nats fl) (store fl) (emitted fl) (control fl) (waited fl) (saved fl) (retired fl).
Definition add_emitted {C E} (ev : E) (fl : Flow C E) : Flow C E :=
  mkFlow (cluster fl) (nats fl) (store fl) (emitted fl ++ [ev]) (control fl) (waited fl) (saved fl) (retired fl).
Definition add_control {C E} (m : ControlMessage) (fl : Flow C E) : Flow C E :=
  mkFlow (cluster fl) (nats fl) (store fl) (emitted fl) (control fl ++ [m]) (waited fl) (saved fl) (retired fl).
Definition add_waited {C E} (d : Z) (fl : Flow C E) : Flow C E :=
  mkFlow (cluster fl) (nats fl) (store fl) (emitted fl) (control fl) (waited fl ++ [d]) (saved fl) (retired fl).
Definition put_saved {C E} (key : string) (ev : E) (fl : Flow C E) : Flow C E :=
  mkFlow (cluster fl) (nats fl) (store fl) (emitted fl) (control fl) (waited fl) (<[key := ev]> (saved fl)) (retired fl).
Definition put_retired {C E} (key : string) (m : gmap string json) (fl : Flow C E) : Flow C E :=
  mkFlow (cluster fl) (nats fl) (store fl) (emitted fl) (control fl) (waited fl) (saved fl) (<[key := m]> (retired fl)).

(** A computation on the cluster alone. *)
Definition on_cluster {C E A} (m : M C A) : W C E A := fun fl =>
  let '(r, cl) := m (cluster fl) in (r, set_cluster cl fl).

(** Published when there is a client; [AtUnixMs] is left out. *)
Definition publish {C E} (ev : E) : W C E unit := fun fl => (Ok tt, if nats fl then add_emitted ev fl else fl).

(** [time.After(d)]. *)
Definition wait {C E} (d : Z) : W C E unit := fun fl => (Ok tt, add_waited d fl).

(** How a run ended; the label of [runs_total]. *)
Inductive RunResult := RunOk | RunCancelled | RunFailed.

Section Calls.
Context {C : Type} `{!Catalog C} (env : Env).

(** ** The catalog: every access sees its own map order *)

Definition cat_find (id : string) : M C (option CellSpec) := fun cl =>
  (if String.eqb id "" then Ok None
   else match Store cl with None => Err nil_dereference | Some c => FindCellByID (order env (calls cl)) c id end,
   count_call cl).

Definition cat_list : M C (list (option CellSpec)) := fun cl =>
  (match Store cl with None => Err nil_dereference | Some c => Registry.ListCells (order env (calls cl)) c end, count_call cl).

Definition cat_resolve (x z : f64) : M C (option CellSpec) := fun cl =>
  (match Store cl with None => Err nil_dereference | Some c => Resolve (order env (calls cl)) c x z end, count_call cl).

Definition cat_deregister (id : string) : M C unit := fun cl =>
  match DeregisterLogicalCell (Store cl) id with
  | Ok c => (Ok tt, set_store c (count_call cl))
  | Err e => (Err e, count_call cl)
  end.

(** ** Cells and the registry service *)

Record pingStats := mkStats { ping_players : Z; ping_entities : Z }.

Definition pingCellStats (endpoint : string) : M C pingStats :=
  _ ← lift (NewClient env endpoint);
  resp ← call_cell env endpoint (fun n s => (s, Ping (clock env n) s));
  mret (mkStats (pi_PlayerCount resp) (pi_EntityCount resp)).

Definition setSplitDrain (registryAddr cellID : string) (enabled : bool) : M C unit :=
  _ ← call_registry env registryAddr (ForwardCellUpdate env (Some (cellID, Some (USetSplitDrain (Some enabled)))));
  mret tt.

(** A control message: NATS may refuse it, or take it and fail to flush. *)
Definition send_control {E} (m : ControlMessage) : W C E unit := fun fl =>
  let n := calls (cluster fl) in
  let fl := set_cluster (count_call (cluster fl)) fl in
  match net env n with
  | Delivered => (Ok tt, add_control m fl)
  | LostRequest e => (Err e, fl)
  | LostReply e => (Err e, add_control m fl)
  end.

(** A write to Redis: it may be lost, or done without an answer. *)
Definition redis_write {E} (f : Flow C E -> Flow C E) : W C E unit := fun fl =>
  let n := calls (cluster fl) in
  let fl := set_cluster (count_call (cluster fl)) fl in
  match net env n with
  | Delivered => (Ok tt, f fl)
  | LostRequest e => (Err e, fl)
  | LostReply e => (Err e, f fl)
  end.

(** The time: the clock at the next call, and all the pauses. *)
Definition now {E} : W C E Z := fun fl => (Ok (clock env (calls (cluster fl)) + foldr Z.add 0 (waited fl))%Z, fl).
End Calls.

(** * The loop of attempts

    [once] is an attempt, [completed] and [failing] what follows a successful or failed one, [exhausted]
    what follows the last; [cancelled] tells whether the context is done when the [n]-th call would be
    next. *)
Section Retry.
Context {C E : Type} (maxBackoff : Z) (cancelled : nat -> bool).
Context (once completed : Z -> W C E unit) (failing : Z -> error -> W C E unit) (exhausted : text -> W C E unit).

(** [backoff *= 2], capped. *)
Definition next_backoff (backoff : Z) : Z :=
  let b := int64 (backoff * 2) in if (maxBackoff <? b)%Z then maxBackoff else b.

(** [tries] attempts are left; [attempt] counts from 1. *)
Fixpoint retry (tries : nat) (attempt backoff : Z) (lastErr : text) : W C E RunResult :=
  match tries with
  | O => _ ← exhausted lastErr; mret RunFailed
  | S tries => fun fl =>
      match once attempt fl with
      | (Ok _, fl) => (_ ← completed attempt; mret RunOk) fl
      | (Err e, fl) =>
          (_ ← failing attempt e;
           fl ← get;
           if cancelled (calls (cluster fl)) then mret RunCancelled
           else _ ← wait backoff; retry tries (attempt + 1) (next_backoff backoff) (error_string e)) fl
      end
  end.
End Retry.

(** * What the calls change *)

(** The cluster changes as [R] allows, and no control message is sent. *)
Definition on_flow {C E} (R : relation (Cluster C)) (fl fl' : Flow C E) : Prop :=
  R (cluster fl) (cluster fl') /\ control fl' = control fl.

#[export] Instance on_flow_preorder {C E} (R : relation (Cluster C)) `{!PreOrder R} : PreOrder (on_flow (E:=E) R).
Proof.
  split; [by split|]. intros f1 f2 f3 [? ?] [? ?]. split; [by transitivity (cluster f2)|congruence].
Qed.

Section FlowFrame.
Context {C : Type} `{!Catalog C} (env : Env) (R : relation (Cluster C)) `{HR : !PreOrder R}.
Context (R_count : forall cl, R cl (count_call cl)).
#[local] Set Default Proof Using "All".

Lemma frame_cat_find id : steps_in R (cat_find env id).
Proof. intros cl. apply R_count. Qed.

Lemma frame_cat_list : steps_in R (cat_list env).
Proof. intros cl. apply R_count. Qed.

Lemma frame_cat_resolve x z : steps_in R (cat_resolve env x z).
Proof. intros cl. apply R_count. Qed.

Lemma frame_remote {A} (m : M C A) : steps_in R m -> steps_in R (remote env m).
Proof.
  intros Hm cl. unfold remote. specialize (Hm (count_call cl)).
  destruct (net env (calls cl)); cbn [snd]; [|apply R_count|]; (etrans; [apply R_count|exact Hm]).
Qed.

Lemma frame_registry {A} addr (m : M C A) : steps_in R m -> steps_in R (call_registry env addr m).
Proof. intros Hm. unfold call_registry. steps. by apply frame_remote. Qed.

(** A call that leaves the server as it is. *)
Lemma frame_read {A} ep (h : nat -> Server -> Server * A) :
  (forall n s, fst (h n s) = s) -> steps_in R (call_cell (C:=C) env ep h).
Proof.
  intros Hh cl. unfold call_cell. assert (forall s, cellServers (count_call cl) !! ep = Some s ->
    set_servers (<[ep := s]> (cellServers (count_call cl))) (count_call cl) = count_call cl) as Hid.
  { intros s Hs. unfold set_servers. rewrite insert_id by done. done. }
  destruct (net env (calls cl)); [|apply R_count|]; (destruct (cellServers (count_call cl) !! ep) as [s|] eqn:Es; [|apply R_count]);
    specialize (Hh (calls cl) s); (destruct (h (calls cl) s) as [s' a]); cbn [fst] in Hh; subst s'; cbn [snd];
    rewrite Hid by done; apply R_count.
Qed.

Lemma frame_ping_stats ep : steps_in R (pingCellStats env ep).
Proof. unfold pingCellStats. steps. by apply frame_read. Qed.
End FlowFrame.

(** The calls that leave the cells alone. *)
Ltac frame_calls :=
  first [apply frame_cat_find | apply frame_cat_list | apply frame_cat_resolve | apply frame_ping_stats]; [apply _|done..].

Lemma steps_on_cluster {C E A} (R : relation (Cluster C)) (m : M C A) :
  steps_in R m -> steps_in (on_flow (E:=E) R) (on_cluster m).
Proof.
  intros Hm fl. unfold on_cluster. specialize (Hm (cluster fl)). destruct (m (cluster fl)) as [r cl]. by split.
Qed.

Lemma steps_publish {C E} (R : relation (Cluster C)) `{!PreOrder R} (ev : E) : steps_in (on_flow R) (publish (C:=C) ev).
Proof. intros fl. unfold publish. by destruct (nats fl). Qed.

(** A computation on the cluster within a workflow. *)
Lemma on_cluster_eq {C E A} (m : M C A) (fl : Flow C E) r cl : m (cluster fl) = (r, cl) -> on_cluster m fl = (r, set_cluster cl fl).
Proof. unfold on_cluster. by intros ->. Qed.

Lemma on_cluster_inv {C E A} (m : M C A) (fl : Flow C E) r fl' :
  on_cluster m fl = (r, fl') -> m (cluster fl) = (r, cluster fl') /\ fl' = set_cluster (cluster fl') fl.
Proof. unfold on_cluster. destruct (m (cluster fl)) as [r' cl]. by intros [= <- <-]. Qed.

(** * The loop of attempts *)

Section RetryFacts.
Context {C E : Type} (maxBackoff : Z) (cancelled : nat -> bool).
Context (once completed : Z -> W C E unit) (failing : Z -> error -> W C E unit) (exhausted : text -> W C E unit).
#[local] Set Default Proof Using "Type*".
Abbreviation loop := (retry maxBackoff cancelled once completed failing exhausted).

(** What every part of the loop keeps, the loop keeps. *)
Lemma retry_invariant (I : Flow C E -> Prop) :
  (forall a fl, I fl -> I (snd (once a fl))) -> (forall a fl, I fl -> I (snd (completed a fl))) ->
  (forall a e fl, I fl -> I (snd (failing a e fl))) -> (forall t fl, I fl -> I (snd (exhausted t fl))) ->
  (forall d fl, I fl -> I (add_waited d fl)) ->
  forall tries a b t fl, I fl -> I (snd (loop tries a b t fl)).
Proof.
  intros Ho Hc Hf Hx Hw tries. induction tries as [|tries IH]; intros a b t fl HI; cbn [retry].
  { specialize (Hx t fl HI). unfold mbind, St_bind. by destruct (exhausted t fl) as [[] fl1]. }
  specialize (Ho a fl HI). destruct (once a fl) as [[u|e] fl1]; cbn [snd] in Ho.
  - specialize (Hc a fl1 Ho). unfold mbind, St_bind. by destruct (completed a fl1) as [[] fl2].
  - specialize (Hf a e fl1 Ho). unfold mbind, St_bind, get, wait. destruct (failing a e fl1) as [[] fl2]; cbn [snd] in *; [|done].
    destruct (cancelled _); [done|]. by apply IH, Hw.
Qed.

(** The pauses of [n] failed attempts, from the first pause [b]. *)
Fixpoint pauses (n : nat) (b : Z) : list Z :=
  match n with O => [] | S n => b :: pauses n (next_backoff maxBackoff b) end.

(** [n] attempts in a row, counted from [a], have failed; each was reported and followed by its pause,
    and the context was not done. *)
Inductive fails : nat -> Z -> Z -> relation (Flow C E) :=
  | fails_none a b fl : fails 0 a b fl fl
  | fails_more n a b fl e fl1 fl2 fl' :
      once a fl = (Err e, fl1) -> failing a e fl1 = (Ok tt, fl2) -> cancelled (calls (cluster fl2)) = false ->
      fails n (a + 1) (next_backoff maxBackoff b) (add_waited b fl2) fl' -> fails (S n) a b fl fl'.

(** How the loop ends after the failures that led to [fl1]: none is left, or the next attempt succeeds, or
    it fails and the context is done. *)
Definition loop_result (tries n : nat) (a : Z) (fl1 fl' : Flow C E) (r : RunResult) : Prop :=
  let next := (a + Z.of_nat n)%Z in
  match r with
  | RunFailed => n = tries
  | RunOk => n < tries /\ exists fl2, once next fl1 = (Ok tt, fl2) /\ completed next fl2 = (Ok tt, fl')
  | RunCancelled => n < tries /\ exists e fl2, once next fl1 = (Err e, fl2) /\ failing next e fl2 = (Ok tt, fl') /\ cancelled (calls (cluster fl')) = true
  end.

(** The loop ends after at most [tries] attempts and pauses in between; it ends early only with
    success or by cancellation. *)
Lemma retry_ends :
  (forall a fl, waited (snd (once a fl)) = waited fl) ->
  (forall a fl, exists fl', completed a fl = (Ok tt, fl') /\ waited fl' = waited fl) ->
  (forall a e fl, exists fl', failing a e fl = (Ok tt, fl') /\ waited fl' = waited fl) ->
  (forall t fl, exists fl', exhausted t fl = (Ok tt, fl') /\ waited fl' = waited fl) ->
  forall tries a b t fl, exists r fl' n fl1,
    loop tries a b t fl = (Ok r, fl') /\ fails n a b fl fl1 /\ loop_result tries n a fl1 fl' r /\
    waited fl' = waited fl ++ pauses n b /\ n <= tries.
Proof.
  intros Ho Hc Hf Hx tries. induction tries as [|tries IH]; intros a b t fl; cbn [retry].
  { destruct (Hx t fl) as (fl' & E1 & E2). exists RunFailed, fl', 0, fl. rewrite (run_bind _ _ _ _ _ E1), app_nil_r. split_and!; try done. constructor. }
  specialize (Ho a fl). destruct (once a fl) as [[[]|e] fl1] eqn:Eo; cbn [snd] in Ho.
  - destruct (Hc a fl1) as (fl' & E1 & E2). exists RunOk, fl', 0, fl. rewrite (run_bind _ _ _ _ _ E1), app_nil_r.
    split; [done|]. split; [constructor|]. split; [|split; [congruence|lia]]. split; [lia|]. exists fl1. by rewrite Z.add_0_r.
  - destruct (Hf a e fl1) as (fl2 & E1 & E2). rewrite (run_bind _ _ _ _ _ E1). unfold mbind at 1, St_bind at 1. cbn [get].
    destruct (cancelled _) eqn:Ec.
    { exists RunCancelled, fl2, 0, fl. rewrite app_nil_r. split; [done|]. split; [constructor|]. split; [|split; [congruence|lia]].
      split; [lia|]. exists e, fl1. by rewrite Z.add_0_r. }
    unfold mbind, St_bind, wait. destruct (IH (a + 1)%Z (next_backoff maxBackoff b) (error_string e) (add_waited b fl2)) as (r & fl' & n & fl3 & -> & Hn & Hr & Hw & Hle).
    exists r, fl', (S n), fl3. split; [done|]. split; [by eapply fails_more|]. split; [|split; [|lia]].
    + unfold loop_result in *. replace (a + Z.of_nat (S n))%Z with (a + 1 + Z.of_nat n)%Z by lia. destruct r; try (destruct Hr as [? ?]; split; [lia|done]); lia.
    + rewrite Hw. cbn [waited add_waited pauses]. by rewrite E2, Ho, <- app_assoc.
Qed.

(** The pauses double up to the maximum; the first one is not capped. *)
Lemma pauses_lookup n b i :
  (0 < b < 2 ^ 62)%Z -> (0 < maxBackoff < 2 ^ 62)%Z -> i < n ->
  pauses n b !! i = Some (if Nat.eqb i 0 then b else Z.min (b * 2 ^ Z.of_nat i) maxBackoff).
Proof.
  intros Hb Hm. revert b i Hb. induction n as [|n IH]; intros b i Hb Hi; [lia|]. cbn [pauses].
  destruct i as [|i]; [done|]. cbn [lookup list_lookup Nat.eqb].
  assert (next_backoff maxBackoff b = Z.min (b * 2) maxBackoff) as Hnext.
  { unfold next_backoff. rewrite int64_id by lia. destruct (Z.ltb_spec maxBackoff (b * 2)); lia. }
  rewrite Hnext, IH by lia. f_equal. rewrite Nat2Z.inj_succ, Z.pow_succ_r by lia.
  destruct (Nat.eqb_spec i 0) as [->|Hi0]; [cbn; lia|]. assert (1 <= 2 ^ Z.of_nat i)%Z by lia. nia.
Qed.
End RetryFacts.

(** * Waiting happens in the loop alone *)

Definition same_waits {C E} (fl fl' : Flow C E) : Prop := waited fl' = waited fl.

#[export] Instance same_waits_preorder {C E} : PreOrder (same_waits (C:=C) (E:=E)).
Proof. split; [done|]. intros f1 f2 f3 H1 H2. unfold same_waits in *. congruence. Qed.

Lemma waits_on_cluster {C E A} (m : M C A) : steps_in same_waits (on_cluster (E:=E) m).
Proof. intros fl. unfold on_cluster. by destruct (m (cluster fl)). Qed.

Lemma waits_publish {C E} (ev : E) : steps_in same_waits (publish (C:=C) ev).
Proof. intros fl. unfold publish. by destruct (nats fl). Qed.

Lemma waits_control {C E} env m : steps_in same_waits (send_control (C:=C) (E:=E) env m).
Proof. intros fl. unfold send_control. by destruct (net env (calls (cluster fl))). Qed.
