(* ===== verification/MergeWorkflow.v ===== *)
(** [cmd/grid-manager/merge_workflow.go]: the workflow that merges four cells into their parent. It
    plans the group from the catalog, lets the registry service move the NPCs, takes the children out
    of the catalog, checks that the parent answers for their area, and asks the cell controller to
    tear them down; a failed attempt is repeated after a growing pause. *)
From Stdlib Require Import Ascii ZArith Lia.
From S2P Require Import Prelude Effects GoFloat GoString Partition Registry Ecs Aoi Replic CellSim.
From S2P Require Import CellSvc CellInv Handoff CellOps RegistrySvc RegistryLogic MergeProps Workflow.
Local Open Scope string_scope.
Local Open Scope list_scope.

(** * The workflow *)

(** [enabled] and [blockedParents] are part of the start guard in [LoadPolicy]. *)
Record mergeWorkflowConfig := mkMergeConfig {
  registryAddr : string; maxRetries : nat; initialBackoff : Z; maxBackoff : Z; playerHandoff : bool; maxPlayersMove : Z }.

Record mergeWorkflowEvent := mkMWEvent {
  me_ParentCellID : string; me_Stage : string; me_Attempt : Z; me_Message : text; me_Children : string;
  me_Attrs : list (string * text); me_Successful : bool }.

Section Workflow.
Context {C : Type} `{!Catalog C} (env : Env) (cfg : mergeWorkflowConfig).
Context (cancelled : nat -> bool).

(** The parent and the ids of its children; the joined ids are computed by the caller. *)
Definition planMergeGroup (parentCellID : string) : M C (CellSpec * list string) :=
  found ← cat_find env parentCellID;
  match found with
  | None | Some (mkCellSpec _ _ None _) => throw (errorf "parent not found or invalid: %s" [AStr parentCellID])
  | Some parent =>
      cells ← cat_list env;
      resolved ← lift (CatalogMergeChildren (Some parent) cells);
      mret (parent, (fun spec => trim_space (Id spec)) <$> resolved)
  end.

Fixpoint ping_children (childIDs : list string) (childPlayers : Z) : M C Z :=
  match childIDs with
  | [] => mret childPlayers
  | childID :: rest =>
      found ← cat_find env childID;
      match found with
      | None => throw (errorf "child missing: %s" [AStr childID])
      | Some spec =>
          ping ← on_error (fun e => throw (errorf "child ping failed %s: %w" [AStr childID; ATxt (error_string e)]))
                   (pingCellStats env (GrpcEndpoint spec));
          _ ← guard_fail (negb (playerHandoff cfg) && (0 <? ping_players ping)%Z)
                (errorf "child %s has active players: %d" [AStr childID; AInt (ping_players ping)]);
          ping_children rest (childPlayers + ping_players ping)
      end
  end.

Definition preflightGroup (parent : CellSpec) (childIDs : list string) : M C Z :=
  parentPing ← on_error (fun e => throw (errorf "parent ping failed: %w" [ATxt (error_string e)]))
                 (pingCellStats env (GrpcEndpoint parent));
  _ ← guard_fail (0 <? ping_players parentPing)%Z (errorf "parent has active players: %d" [AInt (ping_players parentPing)]);
  childPlayers ← ping_children childIDs 0;
  _ ← guard_fail (playerHandoff cfg && (0 <? maxPlayersMove cfg)%Z && (maxPlayersMove cfg <? childPlayers)%Z)
        (errorf "merge player handoff guard: child players %d > max %d" [AInt childPlayers; AInt (maxPlayersMove cfg)]);
  mret childPlayers.

(** The service answers with [Ok: true] whenever it answers without an error. *)
Definition forwardMerge (parentCellID : string) (childIDs : list string) (reason : string) : M C MergeHandoffResponse :=
  call_registry env (registryAddr cfg) (ForwardMergeHandoff env (Some (mkMergeReq parentCellID childIDs reason))).

Definition center (b : Bounds) : f64 * f64 := (((XMin b + XMax b) / f2)%f64, ((ZMin b + ZMax b) / f2)%f64).

(** Each planned child's center resolves to the parent. *)
Fixpoint check_centers (parentCellID : string) (children : list PlanSplitResponseChild) : M C unit :=
  match children with
  | [] => mret tt
  | ch :: rest =>
      let '(cx, cz) := center (ch_Bounds ch) in
      got ← cat_resolve env cx cz;
      match got with
      | None => throw (errorf "resolve miss at child center for %s" [AStr (ch_Id ch)])
      | Some got =>
          _ ← guard_fail (negb (String.eqb (Id got) parentCellID))
                (errorf "resolve mismatch at %s: got=%s want=%s" [AStr (ch_Id ch); AStr (Id got); AStr parentCellID]);
          check_centers parentCellID rest
      end
  end.

Definition verifyResolveToParent (parentCellID : string) : M C unit :=
  found ← cat_find env parentCellID;
  match found with
  | None | Some (mkCellSpec _ _ None _) => throw (errorf "parent missing after topology switch" [])
  | Some parent =>
      children ← lift (ChildSpecsForSplit parentCellID (CBounds parent) (Level parent));
      check_centers parentCellID children
  end.

Definition deregister_child (childID : string) : M C unit :=
  on_error (fun e => throw (errorf "deregister child %s: %w" [AStr childID; ATxt (error_string e)])) (cat_deregister childID).

Abbreviation W := (W C mergeWorkflowEvent).

Definition request_teardown (childID : string) : W unit :=
  ignore (send_control env (ChildDelete childID "auto-merge topology switched")).

Definition switchTopologyAndTeardown (parentCellID : string) (childIDs : list string) : W unit :=
  _ ← on_cluster (for_each deregister_child childIDs);
  _ ← on_cluster (verifyResolveToParent parentCellID);
  fl ← get;
  _ ← (if nats fl then for_each request_teardown childIDs else mret tt);
  publish (mkMWEvent parentCellID "topology_switched" 0 (lit "children deregistered and teardown requested")
    (join "," childIDs) [] true).

(** The same Redis key as the registry service writes. *)
Definition saveAutomationState (parentCellID : string) (childIDs : list string) (movedPlayers : Z) : W unit := fun fl =>
  if negb (store fl) then (Ok tt, fl)
  else redis_write env (fun fl => set_cluster (set_redis
    (<[("mmo:grid:merge:state:" +:+ trim_space parentCellID)%string :=
        mkMergeState parentCellID childIDs (playerHandoff cfg) movedPlayers]> (redis (cluster fl))) (cluster fl)) fl) fl.

(** The part of an attempt that runs while the parent is drained. *)
Definition runDrained (parentCellID : string) (childIDs : list string) (attempt childPlayers : Z) : W unit :=
  let childrenCSV := join "," childIDs in
  resp ← on_cluster (forwardMerge parentCellID childIDs ("auto-merge-attempt-" +:+ itoa attempt));
  _ ← (if playerHandoff cfg && (0 <? childPlayers)%Z
       then publish (mkMWEvent parentCellID "player_handoffs_done" attempt (lit "player handoffs completed") childrenCSV
              [("expected_player_count", Fmt "%d" [AInt childPlayers]); ("registry_message", mr_Message resp)] true)
       else mret tt);
  _ ← publish (mkMWEvent parentCellID "handoff_done" attempt (lit "children exported and imported into parent") childrenCSV [] true);
  _ ← switchTopologyAndTeardown parentCellID childIDs;
  saveAutomationState parentCellID childIDs childPlayers.

Definition runOnce (parentCellID : string) (attempt : Z) : W unit :=
  plan ← on_cluster (planMergeGroup parentCellID);
  let '(parent, childIDs) := plan in
  let childrenCSV := join "," childIDs in
  _ ← publish (mkMWEvent parentCellID "preflight" attempt (lit "validate child readiness and player guards") childrenCSV [] false);
  childPlayers ← on_cluster (preflightGroup parent childIDs);
  _ ← (if playerHandoff cfg && (0 <? childPlayers)%Z
       then publish (mkMWEvent parentCellID "player_handoffs_running" attempt
              (Fmt "player handoff enabled; expected players=%d" [AInt childPlayers]) childrenCSV
              [("expected_player_count", Fmt "%d" [AInt childPlayers])] false)
       else mret tt);
  _ ← on_error (fun e => throw (errorf "set parent split_drain true: %w" [ATxt (error_string e)]))
        (on_cluster (setSplitDrain env (registryAddr cfg) parentCellID true));
  defer (ignore (on_cluster (setSplitDrain env (registryAddr cfg) parentCellID false)))
    (runDrained parentCellID childIDs attempt childPlayers).

(** The deferred removal from [active] is [LoadPolicy.merge_finish]. *)
Definition run (parentCellID : string) : W RunResult :=
  _ ← publish (mkMWEvent parentCellID "detected" 0 (lit "auto merge workflow started") "" [] false);
  retry (maxBackoff cfg) cancelled (runOnce parentCellID)
    (fun attempt => publish (mkMWEvent parentCellID "automation_complete" attempt (lit "merge workflow automation_complete") "" [] true))
    (fun attempt e => publish (mkMWEvent parentCellID "retrying" attempt (error_string e) "" [] false))
    (fun lastErr => publish (mkMWEvent parentCellID "failed" 0 (Fmt "workflow failed after retries: %v" [ATxt lastErr]) "" [] false))
    (maxRetries cfg) 1 (initialBackoff cfg) (lit "<nil>").
End Workflow.

(** * The run ends *)

Section Ends.
Context {C : Type} `{!Catalog C} (env : Env) (cfg : mergeWorkflowConfig).

Lemma waits_switch parent ids : steps_in same_waits (switchTopologyAndTeardown (C:=C) env parent ids).
Proof.
  unfold switchTopologyAndTeardown, request_teardown.
  steps; try apply waits_on_cluster; try apply waits_publish; try apply waits_control; done.
Qed.

Lemma waits_save parent ids n : steps_in same_waits (saveAutomationState (C:=C) env cfg parent ids n).
Proof. intros fl. unfold saveAutomationState, redis_write. destruct (negb _); [done|]. by destruct (net env _). Qed.

Lemma waits_once parent attempt : steps_in same_waits (runOnce (C:=C) env cfg parent attempt).
Proof.
  unfold runOnce, runDrained. steps; try apply waits_on_cluster; try apply waits_publish; [apply waits_switch|apply waits_save].
Qed.
End Ends.

(** C32: a run of the workflow always ends, with one of the three results and never with an error of its
    own: [n <= maxRetries] attempts have failed, each reported and followed by a pause; then the run fails
    because no attempt is left, or the next attempt succeeds and is reported as the completion, or it fails
    with the context done, and the run is cancelled. So it fails exactly when every attempt failed and the
    context was never done after one. The first pause is the initial backoff, and the later ones double
    it up to the maximum. *)
Theorem merge_run_ends {C} `{!Catalog C} env cfg cancelled parent (fl : Flow C mergeWorkflowEvent) :
  let retrying attempt e := publish (mkMWEvent parent "retrying" attempt (error_string e) "" [] false) in
  let complete attempt := publish (mkMWEvent parent "automation_complete" attempt (lit "merge workflow automation_complete") "" [] true) in
  let fl1 := snd (publish (mkMWEvent parent "detected" 0 (lit "auto merge workflow started") "" [] false) fl) in
  exists r fl' n fl2, run env cfg cancelled parent fl = (Ok r, fl') /\ n <= maxRetries cfg /\
    fails (maxBackoff cfg) cancelled (runOnce env cfg parent) retrying n 1 (initialBackoff cfg) fl1 fl2 /\
    match r with
    | RunFailed => n = maxRetries cfg
    | RunOk => n < maxRetries cfg /\ exists fl3,
        runOnce env cfg parent (1 + Z.of_nat n) fl2 = (Ok tt, fl3) /\ complete (1 + Z.of_nat n)%Z fl3 = (Ok tt, fl')
    | RunCancelled => n < maxRetries cfg /\ exists e fl3,
        runOnce env cfg parent (1 + Z.of_nat n) fl2 = (Err e, fl3) /\ retrying (1 + Z.of_nat n)%Z e fl3 = (Ok tt, fl') /\
        cancelled (calls (cluster fl')) = true
    end /\
    waited fl' = waited fl ++ pauses (maxBackoff cfg) n (initialBackoff cfg) /\
    ((0 < initialBackoff cfg < 2 ^ 62)%Z -> (0 < maxBackoff cfg < 2 ^ 62)%Z -> forall i, i < n ->
       pauses (maxBackoff cfg) n (initialBackoff cfg) !! i =
         Some (if Nat.eqb i 0 then initialBackoff cfg else Z.min (initialBackoff cfg * 2 ^ Z.of_nat i) (maxBackoff cfg))).
Proof.
  assert (forall ev (fl : Flow C mergeWorkflowEvent), exists fl', publish ev fl = (Ok tt, fl') /\ waited fl' = waited fl) as Hpub.
  { intros ev f. eexists. split; [done|]. apply waits_publish. }
  intros retrying complete fl1. destruct (Hpub (mkMWEvent parent "detected" 0 (lit "auto merge workflow started") "" [] false) fl) as (fl1' & E & Hw).
  assert (fl1' = fl1) as -> by (unfold fl1; by rewrite E). unfold run. rewrite (run_bind _ _ _ _ _ E).
  match goal with |- context [retry ?mb ?cc ?o ?cp ?f ?x _ _ _ _] =>
    destruct (retry_ends mb cc o cp f x) with (tries := maxRetries cfg) (a := 1%Z) (b := initialBackoff cfg) (t := lit "<nil>") (fl := fl1)
      as (r & fl' & n & fl2 & E' & Hn & Hr & Hw' & Hle) end; try (intros; apply Hpub).
  { intros a f. apply waits_once. }
  exists r, fl', n, fl2. split; [exact E'|]. split; [done|]. split; [exact Hn|]. split; [by destruct r|]. split; [by rewrite Hw', Hw|].
  intros Hb Hm i. by apply pauses_lookup.
Qed.
