(* ===== verification/MergeSafety.v ===== *)
(** Safety of the merge workflow: whatever the network loses and however often it retries, it takes cells out
    of the catalog and asks for their teardown only after the parent holds an entity for every id of their
    NPCs. *)
From Stdlib Require Import Ascii ZArith Lia.
From S2P Require Import Prelude Effects GoFloat GoString Partition Registry Ecs Aoi Replic CellSim.
From S2P Require Import CellSvc CellInv Handoff CellOps RegistrySvc RegistryLogic MergeProps Workflow MergeWorkflow.
Local Open Scope string_scope.
Local Open Scope list_scope.

Section Safety.
Context {C : Type} `{CatalogLaws C} (env : Env) (cfg : mergeWorkflowConfig) (c : C) (Hc : catalog_inv c).
Context (Hj : json_codec env) (Hoff : mergePlayerHandoffEnabled env = false).
Context (parent : string) (Htrim : trim_space parent = parent).
#[local] Set Default Proof Using "All".

(** * Merges leave the cells other than the parent alone *)

Definition others_kept (cl cl' : Cluster C) : Prop :=
  Store cl' = Store cl /\ (Store cl = Some c -> forall ep, ~ reaches env c parent ep ->
    view <$> cellServers cl' !! ep = view <$> cellServers cl !! ep).

#[export] Instance others_kept_preorder : PreOrder others_kept.
Proof.
  split; [by split|]. intros c1 c2 c3 [S1 V1] [S2 V2]. split; [congruence|]. intros Hst ep Hep.
  rewrite V2 by (done || congruence). by apply V1.
Qed.

Lemma views_others cl cl' : same_views cl cl' -> others_kept cl cl'.
Proof. intros [Hs Hv]. split; [done|]. intros _ ep _. by rewrite <- !lookup_fmap, Hv. Qed.

Lemma others_server ep s s' (cl : Cluster C) :
  cellServers cl !! ep = Some s -> view_kept s s' -> others_kept cl (set_servers (<[ep := s']> (cellServers cl)) cl).
Proof. intros Hs Hv. by eapply views_others, views_server. Qed.

(** An update of the parent. *)
Lemma update_parent_others u : steps_in others_kept (doForwardCellUpdate (C:=C) env parent (Some u)).
Proof.
  intros cl. unfold doForwardCellUpdate. destruct (String.eqb parent ""); [done|].
  destruct (dialCellClient env parent cl) as [[[ep spec]|e] cl1] eqn:Ed; pose proof (dial_pure env parent cl) as Hp; rewrite Ed in Hp; cbn in Hp; subst cl1.
  2:{ by rewrite (run_bind_err _ _ _ _ _ Ed). }
  rewrite (run_bind _ _ _ _ _ Ed). cbn [fst]. set (h := fun n s => _).
  assert (forall cl', Store cl' = Store cl -> (forall ep', ep' <> ep -> cellServers cl' !! ep' = cellServers cl !! ep') -> others_kept cl cl') as Hk.
  { intros cl' Hs Hv. split; [done|]. intros Hst ep' Hep'. rewrite Hv; [done|]. intros ->. apply Hep'.
    by apply (dial_inv env c) in Ed as [_ ?]. }
  unfold call_cell. destruct (net env (calls cl)); [|by apply Hk|]; (destruct (cellServers (count_call cl) !! ep) as [s|]; [|by apply Hk]);
    (destruct (h (calls cl) s) as [s' a]); cbn [snd]; (apply Hk; [done|]); intros ep' Hne; cbn; by rewrite lookup_insert_ne.
Qed.

(** The side conditions of the frame lemmas. *)
Ltac frame_others := first [done | apply others_server | apply export_view | intros; by apply views_others, same_cells_views].

Lemma publish_others ev : steps_in others_kept (publishMergeWorkflowEvent (C:=C) ev).
Proof. apply (frame_publish env others_kept view_kept); frame_others. Qed.

Lemma fail_others {A} child e : steps_in others_kept (fail_merge (C:=C) (A:=A) parent child e).
Proof. apply (frame_fail env others_kept view_kept); frame_others. Qed.

Lemma exports_others reason ids : steps_in others_kept (export_children (C:=C) env parent reason ids).
Proof. apply (frame_exports env others_kept view_kept); frame_others. Qed.

Lemma move_others reason ordered total : steps_in others_kept (merge_move (C:=C) env parent reason ordered total).
Proof.
  unfold merge_move, event. rewrite Hoff. cbn [andb]. steps; try apply publish_others; try apply fail_others.
  - apply exports_others.
  - apply update_parent_others.
  - intros cl. by apply views_others, (save_views env c Hc).
Qed.

Lemma drain_others id b : steps_in others_kept (drain (C:=C) env id b).
Proof. intros cl. by apply views_others, (drain_views env c Hc). Qed.

Lemma merge_others ids reason : steps_in others_kept (ForwardMergeHandoff (C:=C) env (Some (mkMergeReq parent ids reason))).
Proof.
  intros cl. pose proof (merge_cases env (Some (mkMergeReq parent ids reason)) cl) as Hcases.
  destruct (ForwardMergeHandoff env _ cl) as [r cl'].
  destruct Hcases as [[_ Hs]|(q & cl1 & ordered & total & cl2 & cl3 & [= <-] & Hs1 & Hchk & (reason' & Hmv) & Hs3)].
  { by apply views_others, same_cells_views. }
  cbn [mq_ParentCellId] in Hchk, Hmv. rewrite Htrim in Hchk, Hmv.
  pose proof (checks_same_cells env parent (uniqueCellIDs ids) cl1) as Hs2. cbn [mq_ChildCellIds] in Hchk. rewrite Hchk in Hs2. cbn [snd] in Hs2.
  assert (steps_in others_kept (merge_drained (C:=C) env parent reason' ordered total)) as Hd.
  { unfold merge_drained, event. steps; try apply drain_others; [apply publish_others|apply move_others]. }
  specialize (Hd cl2). rewrite Hmv in Hd. cbn [snd] in *. transitivity cl2; [|transitivity cl3; [done|by apply views_others, same_cells_views]].
  apply views_others, same_cells_views. by transitivity cl1.
Qed.

(** * The calls of the workflow *)

Lemma count_views (cl : Cluster C) : same_views cl (count_call cl).
Proof. by split. Qed.
#[local] Hint Resolve count_views : core.

Lemma registry_drain_views id b : steps_in same_views (setSplitDrain (C:=C) env (registryAddr cfg) id b).
Proof.
  unfold setSplitDrain. steps. apply frame_registry; [apply _|done|]. unfold ForwardCellUpdate.
  destruct (String.eqb id ""); [by steps|]. eapply (frame_update env same_views view_kept); try done; apply views_server.
Qed.

Lemma registry_merge_others ids reason : steps_in others_kept (forwardMerge (C:=C) env cfg parent ids reason).
Proof.
  unfold forwardMerge. apply frame_registry; [apply _|intros cl; by apply views_others|apply merge_others].
Qed.

Lemma plan_views id : steps_in same_views (planMergeGroup (C:=C) env id).
Proof.
  unfold planMergeGroup. steps; frame_calls.
Qed.

Lemma ping_children_views ids n : steps_in same_views (ping_children (C:=C) env cfg ids n).
Proof.
  revert n. induction ids as [|id ids IH]; intros n; cbn [ping_children]; steps; try frame_calls. apply IH.
Qed.

Lemma preflight_views spec ids : steps_in same_views (preflightGroup (C:=C) env cfg spec ids).
Proof. unfold preflightGroup. steps; [frame_calls|apply ping_children_views]. Qed.

Lemma centers_views id chs : steps_in same_views (check_centers (C:=C) env id chs).
Proof. induction chs as [|ch chs IH]; cbn [check_centers]; steps; [frame_calls|done]. Qed.

Lemma verify_views id : steps_in same_views (verifyResolveToParent (C:=C) env id).
Proof.
  unfold verifyResolveToParent. steps; [frame_calls|apply centers_views].
Qed.


(** * The group of a plan *)

(** The children [ids] planned for the parent in the catalog [c]. *)
Definition group (ids : list string) : Prop :=
  exists o pspec cells children, (forall o, FindCellByID o c parent = Ok (Some pspec)) /\
    ListCells o c = Ok cells /\ CatalogMergeChildren (Some pspec) cells = Ok children /\ ids = trimmed_id <$> children.

Lemma plan_group (cl : Cluster C) c' : catalog_inv c' -> Store cl = Some c' ->
  after (planMergeGroup env parent) cl (fun r _ => forall pspec ids, r = Ok (pspec, ids) ->
    exists o o' cells children, FindCellByID o' c' parent = Ok (Some pspec) /\
      ListCells o c' = Ok cells /\ CatalogMergeChildren (Some pspec) cells = Ok children /\ ids = trimmed_id <$> children).
Proof.
  intros Hc' Hst. unfold after. destruct (planMergeGroup env parent cl) as [r cl'] eqn:E. cbn [fst]. intros pspec ids ->.
  unfold planMergeGroup in E. apply bind_inv in E as (found & cl1 & Hf & E). unfold cat_find in Hf. rewrite Hst in Hf.
  destruct (String.eqb_spec parent "") as [|Hp]; [by injection Hf as <- <-|].
  injection Hf as Hf <-. destruct found as [[i l [b|] ep]|]; [|done..].
  apply bind_inv in E as (cells & cl2 & Hl & E). unfold cat_list in Hl. cbn [Store count_call] in Hl. rewrite Hst in Hl. injection Hl as Hl <-.
  apply bind_inv in E as (children & cl3 & Hch & E). unfold lift in Hch. injection Hch as Hch <-. injection E as <- <- _.
  by eexists _, _, cells, children.
Qed.

Lemma group_valid ids : group ids ->
  exists pspec children, (forall o, FindCellByID o c parent = Ok (Some pspec)) /\ ids = trimmed_id <$> children /\
    Forall (registered c) children /\ ValidateMergeChildren (CBounds pspec) (Level pspec) (Some <$> children) = Ok tt.
Proof.
  intros (o & pspec & cells & children & Hf & Hl & Hch & ->). exists pspec, children. split; [done|]. split; [done|].
  apply CatalogMergeChildren_group in Hch as [Hin Hv]. split; [|done]. eapply Forall_impl; [exact Hin|]. intros t Ht.
  by apply (list_spec o c cells Hl).
Qed.

Lemma group_nonempty ids : group ids -> ids <> [].
Proof.
  intros (pspec & children & _ & -> & _ & Hv)%group_valid. unfold ValidateMergeChildren in Hv.
  destruct (CBounds pspec); [|done]. rewrite length_fmap in Hv. by destruct children.
Qed.

(** * Taking the children out of the catalog *)

(** [c'] is the catalog without the cells [gone]. *)
Definition without (gone : list string) (c' : C) : Prop :=
  catalog_inv c' /\ forall t, registered c' t <-> registered c t /\ Id t ∉ gone.

(** The catalog's ids carry no blanks. *)
Definition clean_ids : Prop := forall t, registered c t -> trim_space (Id t) = Id t.

(** Once a child is gone, the group cannot be planned again. *)
Lemma no_second_plan ids gone c' (cl : Cluster C) :
  clean_ids -> group ids -> gone <> [] -> gone ⊆ ids -> without gone c' -> Store cl = Some c' ->
  is_ok (fst (planMergeGroup env parent cl)) = false.
Proof.
  intros Hclean (o & pspec & cells & children & Hf & Hl & Hch & ->) Hne Hsub [Hinv Hw] Hst.
  pose proof (plan_group cl c' Hinv Hst) as Hp. unfold after in Hp.
  destruct (fst (planMergeGroup env parent cl)) as [[pspec' ids']|e]; [|done].
  destruct (Hp pspec' ids' eq_refl) as (o2 & o2' & cells' & children' & Hf' & Hl' & Hch' & _). exfalso.
  apply find_registered in Hf' as [Hr' He']. apply Hw in Hr' as [Hr' _].
  pose proof (find_registered o c parent _ (Hf o)) as [Hr He].
  assert (pspec' = pspec) as -> by (apply (registered_unique c); [done..|congruence]).
  assert (trimmed_id <$> children' = trimmed_id <$> children) as Heq.
  { eapply CatalogMergeChildren_smaller; [|done..]. intros t Ht. apply (list_spec o c cells Hl).
    by apply (list_spec o2 c' cells' Hl'), Hw in Ht as [? _]. }
  destruct gone as [|g gone]; [done|]. assert (g ∈ trimmed_id <$> children) as Hg by (apply Hsub; left).
  rewrite <- Heq in Hg. apply list_elem_of_fmap in Hg as (t & -> & Ht).
  apply CatalogMergeChildren_group in Hch' as [Hin _]. rewrite Forall_forall in Hin. specialize (Hin t Ht).
  apply (list_spec o2 c' cells' Hl'), Hw in Hin as [Hreg Hnot]. apply Hnot. unfold trimmed_id. rewrite (Hclean t Hreg). left.
Qed.

Lemma deregister_children ids gone (cl : Cluster C) c1 :
  Store cl = Some c1 -> without gone c1 ->
  after (for_each deregister_child ids) cl (fun r cl' =>
    cellServers cl' = cellServers cl /\
    exists more rest c', ids = more ++ rest /\ Store cl' = Some c' /\ without (gone ++ more) c' /\
      (more = [] -> c' = c1) /\ (is_ok r = true -> rest = [])).
Proof.
  revert gone cl c1. induction ids as [|id ids IH]; intros gone cl c1 Hst Hw; cbn [for_each].
  { split; [done|]. exists [], [], c1. rewrite (app_nil_r gone). by split_and!. }
  apply after_bind. unfold after at 1, deregister_child, on_error, cat_deregister. rewrite Hst.
  destruct (DeregisterLogicalCell (Some c1) id) as [oc|e] eqn:Ed; cbn [fst snd].
  2:{ split; [done|]. exists [], (id :: ids), c1. rewrite (app_nil_r gone). by split_and!. }
  destruct oc as [c2|]; [|by apply bind_Ok in Ed as (? & _ & [=])].
  assert (without (gone ++ [id]) c2) as Hw2.
  { destruct Hw as [Hi Hr]. split; [exact (inv_logical c1 id c2 Hi Ed)|]. intros t. rewrite (logical_spec c1 id c2 Hi Ed), Hr, not_elem_of_app, list_elem_of_singleton. tauto. }
  eapply after_conseq; [exact (IH (gone ++ [id]) (set_store (Some c2) (count_call cl)) c2 eq_refl Hw2)|].
  intros r cl' (Hs & more & rest & c' & -> & Hst' & Hw' & _ & Hr). split; [done|]. exists (id :: more), rest, c'.
  split; [done|]. split; [done|]. split; [by rewrite <- app_assoc in Hw'|]. by split.
Qed.

(** * The phases of a run *)

Abbreviation flow := (Flow C mergeWorkflowEvent).
Context (fl0 : flow) (Hst0 : Store (cluster fl0) = Some c) (Hctl0 : control fl0 = []) (Hclean : clean_ids).

(** For every NPC that a child had at the start an entity of its id lives in the parent; and if no child is served
    at the endpoint of the parent, nothing else lives there, and each entity is at the rounded position that
    an NPC of its id had in a child. *)
Definition npcs_in_parent (ids : list string) (cl : Cluster C) : Prop :=
  exists s' r', cell_at env c cl parent s' /\ Sim s' = Some r' /\
    (forall id s r e, id ∈ ids -> cell_at env c (cluster fl0) id s ->
      (forall ep, reaches env c parent ep -> ~ reaches env c id ep) ->
      Sim s = Some r -> npc s r e -> e ∈ alive (rt_World r')) /\
    ((forall id ep, id ∈ ids -> reaches env c parent ep -> ~ reaches env c id ep) ->
      forall e, e ∈ alive (rt_World r') -> exists id s r pos, id ∈ ids /\ cell_at env c (cluster fl0) id s /\ Sim s = Some r /\ npc s r e /\
        PositionOf (rt_World r) e = Some pos /\ PositionOf (rt_World r') e = Some (round_position pos)).

(** Before the first child is taken out. *)
Definition planning (fl : flow) : Prop := on_flow others_kept fl0 fl.

(** After it: the NPCs are in the parent, [gone] is out of the catalog, and the teardown of children
    was asked for only once all of them are out. *)
Definition switched_at (ids gone rest : list string) (c' : C) (asked : list string) (fl : flow) : Prop :=
  group ids /\ npcs_in_parent ids (cluster fl) /\ ids = gone ++ rest /\ gone <> [] /\
  Store (cluster fl) = Some c' /\ without gone c' /\
  control fl = (fun id => ChildDelete id "auto-merge topology switched") <$> asked /\
  asked ⊆ ids /\ (asked <> [] -> rest = []).

Definition switched (fl : flow) : Prop := exists ids gone rest c' asked, switched_at ids gone rest c' asked fl.

Abbreviation quiet := (on_flow (E:=mergeWorkflowEvent) same_views).

Lemma planning_store fl : planning fl -> Store (cluster fl) = Some c.
Proof. intros [[Hs _] _]. congruence. Qed.

Lemma planning_control fl : planning fl -> control fl = [].
Proof. intros [_ Hc0]. congruence. Qed.

Lemma planning_step fl fl' : planning fl -> on_flow others_kept fl fl' -> planning fl'.
Proof. intros H1 H2. unfold planning. by transitivity fl. Qed.

Lemma quiet_others (fl fl' : flow) : quiet fl fl' -> on_flow others_kept fl fl'.
Proof. intros [Hv ?]. split; [by apply views_others|done]. Qed.

Lemma npcs_quiet ids (cl cl' : Cluster C) : same_views cl cl' -> npcs_in_parent ids cl -> npcs_in_parent ids cl'.
Proof.
  intros Hv (s' & r' & Hs' & Hr' & Hall). destruct (cell_at_view env c Hc cl' cl parent s' (same_views_sym cl cl' Hv) Hs') as (s2 & Hs2 & E).
  unfold view in E. injection E as E _ _. exists s2, r'. split; [done|]. split; [congruence|done].
Qed.

Lemma switched_at_quiet ids gone rest c' asked fl fl' :
  quiet fl fl' -> switched_at ids gone rest c' asked fl -> switched_at ids gone rest c' asked fl'.
Proof.
  intros [Hv Hctl] (Hg & Hn & Hids & Hne & Hst & Hw & Ha & Hrest).
  split; [done|]. split; [by eapply npcs_quiet|]. split; [done|]. split; [done|].
  split; [destruct Hv; congruence|]. split; [done|]. by rewrite Hctl.
Qed.

Lemma switched_quiet fl fl' : quiet fl fl' -> switched fl -> switched fl'.
Proof. intros Hq (ids & gone & rest & c' & asked & Hs). exists ids, gone, rest, c', asked. by eapply switched_at_quiet. Qed.

Lemma npc_same_players s s' r e : players s' = players s -> npc s r e -> npc s' r e.
Proof. intros Hp (? & ? & Hpl & ?). split_and!; try done. unfold isPlayer in *. by rewrite Hp. Qed.

(** A merge answered with success brings the NPCs of the start into the parent. *)
Lemma merge_brings_npcs ids reason (cl : Cluster C) resp cl' :
  others_kept (cluster fl0) cl -> ForwardMergeHandoff env (Some (mkMergeReq parent ids reason)) cl = (Ok resp, cl') ->
  (forall id, id ∈ ids -> trim_space id = id /\ id <> "") -> npcs_in_parent ids cl'.
Proof.
  intros [Hst Hk] E Hids. specialize (Hk Hst0).
  apply (merge_success env c Hc Hj Hoff) in E as [_ Hcol]; [|congruence]. cbn [mq_ParentCellId mq_ChildCellIds] in Hcol.
  rewrite Htrim in Hcol. apply collected_npcs in Hcol as (s' & r' & Hs' & _ & Hsim & Hal & Hpos).
  assert (forall id s r e, Sim s = Some r -> npc s r e -> cell_at env c (cluster fl0) id s ->
    (forall ep, reaches env c parent ep -> ~ reaches env c id ep) -> exists s2, cell_at env c cl id s2 /\ Sim s2 = Some r /\ npc s2 r e) as Hthen.
  { intros id s r e Hr Hn (ep & Hrch & Hs) Hdis. assert (~ reaches env c parent ep) as Hnp by (intros Hp; by apply (Hdis ep)).
    specialize (Hk ep Hnp). rewrite Hs in Hk. destruct (cellServers cl !! ep) as [s2|] eqn:Es2; [|done]. cbn in Hk. injection Hk as K1 K2 K3.
    exists s2. split; [by exists ep|]. split; [congruence|]. by apply (npc_same_players s). }
  exists s', r'. split; [done|]. split; [done|]. split.
  - intros id s r e Hid Hat Hdis Hr Hn. destruct (Hids id Hid) as [Htr Hne]. destruct (Hthen id s r e Hr Hn Hat Hdis) as (s2 & Hat2 & Hr2 & Hn2).
    apply Hal. exists id, s2, r. split; [|done]. apply (unique_ids_spec ∅). split; [done|]. split; [by apply not_elem_of_empty|].
    apply list_elem_of_fmap. by exists id.
  - intros Hdis e He. destruct (Hpos e He) as (id & s2 & r & pos & Hid & (ep & Hrch & Hs2) & Hr & Hn & Hp & Hp').
    assert (id ∈ ids) as Hin.
    { apply (unique_ids_spec ∅) in Hid as (_ & _ & Hid). apply list_elem_of_fmap in Hid as (x & -> & Hx). by rewrite (proj1 (Hids x Hx)). }
    specialize (Hk ep (fun Hp => Hdis id ep Hin Hp Hrch)). rewrite Hs2 in Hk. destruct (cellServers (cluster fl0) !! ep) as [s|] eqn:Es; [|done]. cbn in Hk.
    injection Hk as K1 K2 K3. exists id, s, r, pos. split; [done|]. split; [by exists ep|]. split; [congruence|]. split; [by apply (npc_same_players s2)|done].
Qed.

Lemma group_ids ids : group ids -> forall id, id ∈ ids -> trim_space id = id /\ id <> "".
Proof.
  intros (o & [i l [b|] ep] & cells & children & _ & _ & Hch & ->) id Hid; [|done].
  apply CatalogMergeChildren_iff in Hch as (_ & Hne & _). apply list_elem_of_fmap in Hid as (t & -> & Ht).
  rewrite Forall_forall in Hne. split; [apply trim_space_idem|by apply Hne].
Qed.

(** ** The switch *)

Lemma quiet_publish ev : steps_in quiet (publish (C:=C) ev).
Proof. apply steps_publish, _. Qed.

Lemma quiet_save ids n : steps_in quiet (saveAutomationState (C:=C) env cfg parent ids n).
Proof.
  intros fl. unfold saveAutomationState, redis_write. destruct (negb (store fl)); [done|].
  destruct (net env (calls (cluster fl))); by split.
Qed.

(** Asking for teardowns adds requests for a part of the children. *)
Lemma ask_teardown ids (fl : flow) :
  after (for_each (request_teardown env) ids) fl (fun _ fl' =>
    same_views (cluster fl) (cluster fl') /\ exists asked, asked ⊆ ids /\
      control fl' = control fl ++ ((fun id => ChildDelete id "auto-merge topology switched") <$> asked)).
Proof.
  revert fl. induction ids as [|id ids IH]; intros fl; cbn [for_each].
  { split; [done|]. exists []. by rewrite app_nil_r. }
  apply after_bind. unfold after at 1, request_teardown, ignore. cbn [fst].
  set (m := ChildDelete id _). set (fl1 := snd (send_control env m fl)).
  assert (same_views (cluster fl) (cluster fl1) /\ (control fl1 = control fl \/ control fl1 = control fl ++ [m])) as [Hv Hctl].
  { unfold fl1, send_control. destruct (net env (calls (cluster fl))); split; try done; first [by left|by right]. }
  eapply after_conseq; [exact (IH fl1)|]. intros r fl' [Hv' (asked & Hsub & Hc')]. split; [by transitivity (cluster fl1)|].
  destruct Hctl as [E|E]; rewrite E in Hc'.
  - exists asked. split; [set_solver|done].
  - exists (id :: asked). split; [set_solver|]. by rewrite <- app_assoc in Hc'.
Qed.

Lemma switch_phase ids (fl : flow) :
  planning fl -> group ids -> npcs_in_parent ids (cluster fl) ->
  after (switchTopologyAndTeardown env parent ids) fl (fun _ fl' => planning fl' \/ switched fl').
Proof.
  intros Hp Hg Hn. unfold switchTopologyAndTeardown. apply after_bind.
  assert (without [] c) as Hw0 by (split; [done|]; intros t; rewrite elem_of_nil; tauto).
  pose proof (deregister_children ids [] (cluster fl) c (planning_store fl Hp) Hw0) as Hd.
  unfold after in Hd |- * at 1. destruct (for_each deregister_child ids (cluster fl)) as [r cl1] eqn:E.
  rewrite (on_cluster_eq (for_each deregister_child ids) fl r cl1 E). clear E. cbn [fst snd] in Hd |- *. destruct Hd as (Hcs & gone & rest & c' & Hids & Hst & Hw & Hc1 & Hr). cbn [app] in Hw.
  set (fl1 := set_cluster cl1 fl).
  destruct (decide (gone = [])) as [Hgone|Hgone].
  { destruct r as [u|e].
    { subst gone. rewrite (Hr eq_refl) in Hids. by destruct (group_nonempty ids Hg). }
    left. apply (planning_step fl); [done|]. split; [|done]. apply views_others. rewrite (Hc1 Hgone) in Hst.
    split; [by rewrite (planning_store fl Hp)|]. cbn. by rewrite Hcs. }
  assert (switched_at ids gone rest c' [] fl1) as Hsw.
  { split; [done|]. split.
    - destruct Hn as (s' & r' & (ep & Hrc & Hs') & Hn). exists s', r'. split; [|done]. exists ep. split; [done|]. cbn. by rewrite Hcs.
    - repeat (split; [done|]). split; [exact (planning_control fl Hp)|]. split; [set_solver|done]. }
  destruct r as [u|e]; [|right; by exists ids, gone, rest, c', []]. rewrite (Hr eq_refl) in Hsw.
  apply after_bind. eapply after_conseq; [apply after_steps, steps_on_cluster, verify_views|].
  intros r fl2 Hq2. apply (switched_at_quiet _ _ _ _ _ fl1 fl2 Hq2) in Hsw.
  destruct r as [u2|e]; [|right; by exists ids, gone, [], c', []].
  apply after_bind. unfold after at 1. cbn [get fst snd]. apply after_bind.
  assert (forall fl3 asked, switched_at ids gone [] c' asked fl3 -> after (publish (mkMWEvent parent "topology_switched" 0
    (lit "children deregistered and teardown requested") (join "," ids) [] true)) fl3 (fun _ fl' => planning fl' \/ switched fl')) as Hpub.
  { intros fl3 asked Hs3. eapply after_conseq; [apply after_steps, quiet_publish|]. intros r4 fl4 Hq. right.
    exists ids, gone, [], c', asked. exact (switched_at_quiet _ _ _ _ _ fl3 fl4 Hq Hs3). }
  destruct (nats fl2); [|exact (Hpub fl2 [] Hsw)].
  eapply after_conseq; [apply ask_teardown|]. intros r3 fl3 [Hv3 (asked & Hsub & Hctl)].
  assert (switched_at ids gone [] c' asked fl3) as Hs3.
  { destruct Hsw as (_ & Hn2 & ? & _ & Hst2 & _ & Hctl2 & _). split; [done|]. split; [by eapply npcs_quiet|].
    split; [done|]. split; [done|]. split; [destruct Hv3; congruence|]. split; [done|]. by rewrite Hctl, Hctl2. }
  destruct r3; [by apply (Hpub fl3 asked)|right; by exists ids, gone, [], c', asked].
Qed.

(** ** Attempts *)

Definition safe (fl : flow) : Prop := planning fl \/ switched fl.

Lemma safe_quiet (fl fl' : flow) : quiet fl fl' -> safe fl -> safe fl'.
Proof. intros Hq [Hp|Hs]; [left; by eapply planning_step, quiet_others|right; by eapply switched_quiet]. Qed.

Lemma forward_inv ids reason (cl : Cluster C) resp cl' :
  forwardMerge env cfg parent ids reason cl = (Ok resp, cl') ->
  ForwardMergeHandoff env (Some (mkMergeReq parent ids reason)) (count_call cl) = (Ok resp, cl').
Proof.
  unfold forwardMerge, call_registry. intros (u & cl1 & [= _ <-] & E)%bind_inv. unfold remote in E.
  destruct (net env (calls cl)); [exact E|done..].
Qed.

Lemma drained_phase ids attempt players (fl : flow) :
  planning fl -> group ids -> after (runDrained env cfg parent ids attempt players) fl (fun _ fl' => safe fl').
Proof.
  intros Hp Hg. unfold runDrained. set (reason := ("auto-merge-attempt-" +:+ itoa attempt)%string). apply after_bind.
  pose proof (registry_merge_others ids reason (cluster fl)) as Ho.
  unfold after at 1. destruct (forwardMerge env cfg parent ids reason (cluster fl)) as [r cl1] eqn:E.
  rewrite (on_cluster_eq _ fl r cl1 E). cbn [fst snd] in Ho |- *. set (fl1 := set_cluster cl1 fl).
  assert (planning fl1) as Hp1 by (apply (planning_step fl); [done|by split]).
  destruct r as [resp|e]; [|by left].
  assert (npcs_in_parent ids (cluster fl1)) as Hn1.
  { apply (merge_brings_npcs ids reason (count_call (cluster fl)) resp); [|by apply forward_inv|by apply group_ids].
    destruct Hp as [Hp _]. etrans; [exact Hp|by apply views_others]. }
  assert (forall (m : W C mergeWorkflowEvent unit) (k : unit -> W C mergeWorkflowEvent unit) fl2, steps_in quiet m -> planning fl2 ->
    npcs_in_parent ids (cluster fl2) ->
    (forall u fl3, planning fl3 -> npcs_in_parent ids (cluster fl3) -> after (k u) fl3 (fun _ fl' => safe fl')) ->
    after (m ≫= k) fl2 (fun _ fl' => safe fl')) as Hseq.
  { intros m k fl2 Hm Hp2 Hn2 Hk. apply (after_frame quiet); [done|intros e fl3 Hq; eapply safe_quiet; [exact Hq|by left]|].
    intros u fl3 Hq. apply Hk; [by eapply planning_step, quiet_others|]. by eapply npcs_quiet; [apply Hq|]. }
  apply Hseq; [destruct (_ && _); [apply quiet_publish|by steps]|done..|]. clear Hp1 Hn1. intros _ fl2 Hp2 Hn2.
  apply Hseq; [apply quiet_publish|done..|]. clear Hp2 Hn2. intros _ fl3 Hp3 Hn3.
  apply after_bind. eapply after_conseq; [by apply switch_phase|]. intros r fl4 Hs4. destruct r as [u|e]; [|exact Hs4].
  eapply after_conseq; [apply after_steps, quiet_save|]. intros r5 fl5 Hq5. exact (safe_quiet fl4 fl5 Hq5 Hs4).
Qed.

Lemma attempt_planning attempt (fl : flow) :
  planning fl -> after (runOnce env cfg parent attempt) fl (fun _ fl' => safe fl').
Proof.
  intros Hp. unfold runOnce. apply after_bind. unfold after at 1.
  pose proof (plan_group (cluster fl) c Hc (planning_store fl Hp)) as Hg. pose proof (plan_views parent (cluster fl)) as Hv.
  unfold after in Hg. destruct (planMergeGroup env parent (cluster fl)) as [r cl1] eqn:E.
  rewrite (on_cluster_eq _ fl r cl1 E). cbn [fst snd] in Hg, Hv |- *. set (fl1 := set_cluster cl1 fl).
  assert (planning fl1) as Hp1 by (apply (planning_step fl); [done|]; split; [by apply views_others|done]).
  destruct r as [[pspec ids]|e]; [|by left]. specialize (Hg pspec ids eq_refl).
  assert (group ids) as Hgroup.
  { destruct Hg as (o & o' & cells & children & Hf & ?). exists o, pspec, cells, children. split; [|done].
    intros o2. by eapply find_order. }
  clear Hg E Hv. clearbody fl1. clear Hp fl. cbn zeta beta.
  assert (forall A (m : W C mergeWorkflowEvent A) (k : A -> W C mergeWorkflowEvent unit) fl2, steps_in quiet m -> planning fl2 ->
    (forall a fl3, planning fl3 -> after (k a) fl3 (fun _ fl' => safe fl')) ->
    after (m ≫= k) fl2 (fun _ fl' => safe fl')) as Hseq.
  { intros A m k fl2 Hm Hp2 Hk. apply (after_frame quiet); [done|intros e fl3 Hq; eapply safe_quiet; [exact Hq|by left]|].
    intros a fl3 Hq. apply Hk. by eapply planning_step, quiet_others. }
  apply Hseq; [apply quiet_publish|done|]. intros _ fl2 Hp2. apply Hseq; [apply steps_on_cluster, preflight_views|done|]. intros players fl3 Hp3.
  apply Hseq; [destruct (_ && _); [apply quiet_publish|by steps]|done|]. intros _ fl4 Hp4.
  apply Hseq; [|done|].
  { apply steps_on_error; [apply _|intros e; by steps|]. apply steps_on_cluster, registry_drain_views. }
  intros _ fl5 Hp5. apply after_defer. eapply after_conseq; [by apply drained_phase|]. intros r fl6 Hs6.
  eapply safe_quiet; [|exact Hs6]. cbn [ignore snd]. apply steps_on_cluster, registry_drain_views.
Qed.

Lemma attempt_switched attempt (fl : flow) :
  switched fl -> after (runOnce env cfg parent attempt) fl (fun r fl' => is_ok r = false /\ switched fl').
Proof.
  intros Hs. pose proof Hs as (ids & gone & rest & c' & asked & Hg & _ & Hids & Hne & Hst & Hw & _).
  assert (gone ⊆ ids) as Hsub by (rewrite Hids; set_solver).
  pose proof (no_second_plan ids gone c' (cluster fl) Hclean Hg Hne Hsub Hw Hst) as Hno.
  pose proof (plan_views parent (cluster fl)) as Hv. unfold runOnce. apply after_bind. unfold after at 1.
  destruct (planMergeGroup env parent (cluster fl)) as [r cl1] eqn:E. rewrite (on_cluster_eq _ fl r cl1 E).
  cbn [fst snd] in *. destruct r as [x|e]; [done|]. split; [done|]. by apply (switched_quiet fl).
Qed.

Lemma run_safe cancelled : safe (snd (run env cfg cancelled parent fl0)).
Proof.
  assert (safe fl0) as H0 by (left; by split).
  assert (forall fl ev, safe fl -> safe (snd (publish ev fl))) as Hpub.
  { intros fl ev. apply safe_quiet, quiet_publish. }
  unfold run. set (ev0 := mkMWEvent _ "detected" _ _ _ _ _). unfold mbind, St_bind, publish at 1.
  set (fl1 := if nats fl0 then _ else _). apply retry_invariant; [|intros; by apply Hpub..| |exact (Hpub fl0 ev0 H0)].
  - intros a fl [Hp|Hs]; [by apply attempt_planning|]. right. by apply attempt_switched.
  - intros d fl. by apply safe_quiet.
Qed.

(** C7: with player handoffs in merges off, whatever requests and replies are lost, however often the
    workflow retries and wherever it is cancelled: either the catalog is untouched and no teardown was asked
    for, or a group of four cells that tile the parent was merged; then the catalog lost nothing but a first
    part of this group in order, teardowns were asked for only of these children, and only after all four
    had left the catalog; and for every id that an NPC of a child had when the run began an entity lives in
    the parent - if the children have endpoints of their own, at the rounded position that an NPC of this id
    had in a child, and no other entity does. (NPCs of different children with one id become one.) *)
Theorem merge_workflow_safe cancelled :
  let fl' := snd (run env cfg cancelled parent fl0) in
  (Store (cluster fl') = Some c /\ control fl' = []) \/
  exists pspec children gone rest c' asked,
    let ids := trimmed_id <$> children in
    (forall o, FindCellByID o c parent = Ok (Some pspec)) /\ Forall (registered c) children /\
    ValidateMergeChildren (CBounds pspec) (Level pspec) (Some <$> children) = Ok tt /\
    ids = gone ++ rest /\ gone <> [] /\ Store (cluster fl') = Some c' /\
    (forall t, registered c' t <-> registered c t /\ Id t ∉ gone) /\
    npcs_in_parent ids (cluster fl') /\
    control fl' = (fun id => ChildDelete id "auto-merge topology switched") <$> asked /\ asked ⊆ ids /\
    (asked <> [] -> rest = []).
Proof.
  intros fl'. assert (safe fl') as [Hp|(ids & gone & rest & c' & asked & Hg & Hn & Hids & Hne & Hst' & [_ Hw] & Hasked)].
  { apply run_safe. }
  - left. split; [by apply planning_store|by apply planning_control].
  - right. destruct (group_valid ids Hg) as (pspec & children & Hf & -> & Hreg & Hv).
    exists pspec, children, gone, rest, c', asked. destruct Hasked as (? & ? & ?). by split_and!.
Qed.
End Safety.

(** The third call of the registry service loses its reply: the first attempt has merged without
    knowing it, the second merges again and switches. *)
Lemma merge_workflow_safe_witness :
  let env := merge_env (fun n => if Nat.eqb n 15 then LostReply (errorf "timeout" []) else Delivered) in
  let cfg := mkMergeConfig "reg:9100" 3 1000 1500 false 32 in
  let fl := mkFlow merge_cluster true true [] [] [] ∅ ∅ in
  let fl' := snd (run env cfg (fun _ => false) "cell_root" fl) in
  length (control fl') = 4 /\ exists ids, npcs_in_parent env merge_catalog "cell_root" fl ids (cluster fl').
Proof.
  intros env cfg fl fl'. assert (length (control fl') = 4) as Hlen by by vm_compute. split; [exact Hlen|].
  assert (clean_ids merge_catalog) as Hclean.
  { intros t [id Ht]. assert (map_Forall (fun _ t => trim_space (Id t) = Id t) (cells merge_catalog)) as Hall.
    { apply (bool_decide_eq_true_1 (map_Forall (fun _ t => trim_space (Id t) = Id t) (cells merge_catalog))). by vm_compute. }
    by apply (Hall id t). }
  pose proof (@merge_workflow_safe Memory MemoryCatalog MemoryCatalog_laws env cfg merge_catalog merge_catalog_wf (two_codec _) eq_refl
    "cell_root" eq_refl fl eq_refl eq_refl Hclean (fun _ => false)) as Hsafe.
  cbv beta zeta in Hsafe. fold fl' in Hsafe. clearbody fl'.
  destruct Hsafe as [[_ Hno]|(pspec & children & gone & rest & c' & asked & _ & _ & _ & _ & _ & _ & _ & Hn & _)].
  - by rewrite Hno in Hlen.
  - eexists. exact Hn.
Defined.
