(* ===== verification/SplitWorkflow.v ===== *)
(** [cmd/grid-manager/split_workflow.go]: the workflow that splits a cell. It asks the cell for a plan,
    has the children created, waits until they answer, drains the parent, hands its players to the
    children they stand in and its NPCs to every child, and checks that the children answer for their
    area. A failed attempt is repeated after a growing pause. *)
From Stdlib Require Import Ascii ZArith Lia.
From S2P Require Import Prelude Effects GoFloat GoString Partition Registry Ecs Aoi Replic CellSim.
From S2P Require Import CellSvc RegistrySvc RegistryLogic Workflow.
Local Open Scope string_scope.
Local Open Scope list_scope.

(** [enabled], [blockedCells], [maxLevel] and [maxConcurrent] are part of the start guard in
    [LoadPolicy]. [postHandoff] and [teardown] are read from the environment by each run. *)
Record splitWorkflowConfig := mkSplitConfig {
  registryAddr : string; maxRetries : nat; initialBackoff : Z; maxBackoff : Z; waitChildren : Z;
  postHandoff : bool; teardown : bool }.

Record splitWorkflowEvent := mkSWEvent {
  se_CellID : string; se_Stage : string; se_Attempt : Z; se_Message : text; se_ChildCell : string;
  se_Attrs : list (string * text); se_Successful : bool }.

(** * The checks without effects *)

Definition uniquePlayerCandidatesCount (candidates : list MigrationCandidate) : Z :=
  Z.of_nat (size (list_to_set (base.filter (fun id => id <> "") ((fun cand => trim_space (mc_PlayerId cand)) <$> candidates)) : gset string)).

Definition validateParentPlayerHandoffReadiness (parentPlayerCount playerCandidateCount : Z) : result unit :=
  if (parentPlayerCount <=? 0)%Z then Ok tt
  else if (playerCandidateCount <=? 0)%Z
  then Err (errorf "parent has active players=%d but no player migration candidates" [AInt parentPlayerCount])
  else if (playerCandidateCount <? parentPlayerCount)%Z
  then Err (errorf "parent has active players=%d but only %d player migration candidates" [AInt parentPlayerCount; AInt playerCandidateCount])
  else Ok tt.

(** The point lies in a deeper cell of another branch. *)
Definition pointInForeignDeeperCell (cx cz : f64) (selfID : string) (selfLevel : Z) (cells : list (option CellSpec)) : bool :=
  existsb (fun c =>
    match c with
    | None | Some (mkCellSpec _ _ None _) => false
    | Some c =>
        if String.eqb (Id c) selfID then false
        else if (Level c <=? selfLevel)%Z then false
        else if IsDescendantPath selfID (Id c) then false
        else Contains (CBounds c) cx cz
    end) cells.

Definition bounds_of (sp : ChildCellSpec) : Bounds := mkBounds (cs_XMin sp) (cs_XMax sp) (cs_ZMin sp) (cs_ZMax sp).

(** [0.12, 0.28, 0.44, 0.58, 0.72, 0.88], as the compiler rounds them. *)
Definition hundredths (n : Z) : f64 := (f64_of_Z n / f64_of_Z 100)%f64.
Definition fractions : list f64 := hundredths <$> [12; 28; 44; 58; 72; 88]%Z.

(** The points tried, in order. *)
Definition probe_points (sp : ChildCellSpec) : list (f64 * f64) :=
  let xw := (cs_XMax sp - cs_XMin sp)%f64 in
  let zw := (cs_ZMax sp - cs_ZMin sp)%f64 in
  fx ← fractions; fz ← fractions; [((cs_XMin sp + xw * fx)%f64, (cs_ZMin sp + zw * fz)%f64)].

Definition pickResolveProbe (sp : ChildCellSpec) (cells : list (option CellSpec)) : option (f64 * f64) :=
  let id := trim_space (cs_ID sp) in
  let xw := (cs_XMax sp - cs_XMin sp)%f64 in
  let zw := (cs_ZMax sp - cs_ZMin sp)%f64 in
  if fle xw f0 || fle zw f0 || String.eqb id "" then None
  else find (fun '(cx, cz) => Contains (Some (bounds_of sp)) cx cz && negb (pointInForeignDeeperCell cx cz id (cs_Level sp) cells))
         (probe_points sp).

(** * The workflow *)

(** [strings.TrimSpace] of each, the empty ones and repetitions dropped. *)
Definition dedupeReasons (l : list string) : list string := unique_ids ∅ l.

Section Workflow.
Context {C : Type} `{!Catalog C} (env : Env) (cfg : splitWorkflowConfig).
Context (cancelled : nat -> bool).
(** What the rest of the system does to the cluster during the [n]-th pause: the cell controller starts
    the children, and they register. *)
Context (meanwhile : nat -> Cluster C -> Cluster C).

Abbreviation W := (W C splitWorkflowEvent).

Definition event (cell stage : string) (attempt : Z) (msg : text) (child : string) (attrs : list (string * text)) (ok : bool) : W unit :=
  publish (mkSWEvent cell stage attempt msg child attrs ok).

(** The event saved as the last one of a cell; without a store nothing happens. *)
Definition save (cellID : string) (ev : splitWorkflowEvent) : W unit := fun fl =>
  if negb (store fl) then (Ok tt, fl) else redis_write env (put_saved ("mmo:grid:split:" +:+ cellID)%string ev) fl.

Definition retireStateRedisKey (parentID : string) : string := ("mmo:grid:split:retire_state:" +:+ trim_space parentID)%string.

(** [None] is a key that is not set. *)
Definition getRetireStateMap (parentID : string) : W (option (gmap string json)) := fun fl =>
  if negb (store fl) then (Ok None, fl)
  else
    let n := calls (cluster fl) in
    let fl := set_cluster (count_call (cluster fl)) fl in
    match net env n with
    | Delivered => (Ok (retired fl !! retireStateRedisKey parentID), fl)
    | LostRequest e | LostReply e => (Err e, fl)
    end.

Definition setRetireStateMap (parentID : string) (m : gmap string json) : W unit := fun fl =>
  if negb (store fl) then (Ok tt, fl) else redis_write env (put_retired (retireStateRedisKey parentID) m) fl.

(** The fields that tell an operator what to do are left out. *)
Definition saveRetireReady (parentID : string) (children : list string) : W unit := fun fl =>
  if negb (store fl) then (Ok tt, fl)
  else (at_ms ← now env;
        setRetireStateMap parentID
          (<["phase" := JStr (lit "retire_ready")]> (<["parent_cell_id" := JStr (lit parentID)]>
           (<["handoff_children" := JList (lit <$> children)]> (<["at_unix_ms" := JInt at_ms]>
           (<["next_action" := JStr (lit "operator_final_retire")]> ∅)))))) fl.

(** ** Planning and creation *)

Definition planSplit (endpoint : string) : M C (list ChildCellSpec) :=
  _ ← lift (NewClient env endpoint);
  resp ← call_cell env endpoint (fun _ s => (s, PlanSplit s));
  children ← lift resp;
  mret (omap (fun ch =>
    let id := trim_space (ch_Id ch) in
    if String.eqb id "" then None
    else let b := ch_Bounds ch in Some (mkChild id (ch_Level ch) (XMin b) (XMax b) (ZMin b) (ZMax b))) children).

Definition planSplitChildren (parentCellID : string) : M C (list ChildCellSpec) :=
  found ← cat_find env parentCellID;
  match found with
  | None => throw (errorf "parent cell not found: %s" [AStr parentCellID])
  | Some parent =>
      children ← planSplit (GrpcEndpoint parent);
      if Nat.eqb (length children) 0 then throw (errorf "PlanSplit returned no children for %s" [AStr parentCellID]) else mret children
  end.

Definition requestChildCreate (parentCellID : string) (attempt : Z) (ch : ChildCellSpec) : W unit := fun fl =>
  if negb (nats fl) then (Err (errorf "nats client is required for child create request" []), fl)
  else (at_ms ← now env;
        send_control env (ChildCreate parentCellID (parentCellID +:+ "-a" +:+ itoa attempt +:+ "-" +:+ itoa at_ms)%string ch)) fl.

Definition requestChildDelete (cellID reason : string) : W unit := fun fl =>
  if negb (nats fl) then (Err (errorf "nats client is required for child delete" []), fl)
  else send_control env (ChildDelete cellID reason) fl.

(** ** Waiting for the children *)

Definition isCellReachable (endpoint : string) : M C bool :=
  r ← catch (pingCellStats env endpoint); mret (is_ok r).

(** The children among the cells that answer, in the order of the catalog. *)
Fixpoint ready_children (want : gset string) (cells : list (option CellSpec)) : M C (list string) :=
  match cells with
  | [] => mret []
  | None :: rest => ready_children want rest
  | Some c :: rest =>
      if bool_decide (Id c ∈ want) then
        let endpoint := trim_space (GrpcEndpoint c) in
        ok ← (if String.eqb endpoint "" then mret false else isCellReachable endpoint);
        more ← ready_children want rest;
        mret (if (ok : bool) then Id c :: more else more)
      else ready_children want rest
  end.

Definition poll_interval : Z := 2000000000.

Definition out_of_fuel : error := errorf "out of fuel" [].

Definition others_act : W unit := fun fl => (Ok tt, set_cluster (meanwhile (length (waited fl)) (cluster fl)) fl).

(** The loop, with [fuel] rounds; the clock decides when it gives up. *)
Fixpoint wait_ready (fuel : nat) (deadline : Z) (children : list ChildCellSpec) : W (list string) :=
  match fuel with
  | O => throw out_of_fuel
  | S fuel =>
      cells ← on_cluster (cat_list env);
      ready ← on_cluster (ready_children (list_to_set (cs_ID <$> children)) cells);
      if Nat.eqb (length ready) (length children) then mret ready
      else
        t ← now env;
        if (deadline <? t)%Z
        then throw (errorf "children not ready in time: have=%d want=%d" [AInt (Z.of_nat (length ready)); AInt (Z.of_nat (length children))])
        else
          fl ← get;
          if cancelled (calls (cluster fl)) then throw (errorf "context canceled" [])
          else
            _ ← wait poll_interval;
            _ ← others_act;
            wait_ready fuel deadline children
  end.

Definition poll_rounds : nat := Z.to_nat (waitChildren cfg / poll_interval) + 2.

Definition waitChildrenReady (children : list ChildCellSpec) : W (list string) :=
  t ← now env; wait_ready poll_rounds (t + waitChildren cfg) children.

(** ** Players and NPCs *)

Definition runMigrationDryRun (parentCellID : string) : M C unit :=
  _ ← call_registry env (registryAddr cfg) (ForwardCellUpdate env (Some (parentCellID, Some (UExportNpcPersist (Some "grid-auto-split-dry-run")))));
  mret tt.

Definition listPlayerCandidates (parentCellID : string) : M C (list MigrationCandidate) :=
  found ← cat_find env parentCellID;
  match found with
  | None => throw (errorf "parent cell not found: %s" [AStr parentCellID])
  | Some parent =>
      _ ← lift (NewClient env (GrpcEndpoint parent));
      cands ← call_cell env (GrpcEndpoint parent) (fun n s => (s, ListMigrationCandidates (order env n) (order env n) s));
      mret (base.filter (fun cand => mc_IsPlayer cand = true /\ trim_space (mc_PlayerId cand) <> "") cands)
  end.

Definition pingParentStats (parentCellID : string) : M C pingStats :=
  found ← cat_find env parentCellID;
  match found with
  | None => throw (errorf "parent cell not found: %s" [AStr parentCellID])
  | Some parent =>
      let endpoint := trim_space (GrpcEndpoint parent) in
      if String.eqb endpoint "" then throw (errorf "parent cell has empty grpc endpoint: %s" [AStr parentCellID])
      else pingCellStats env endpoint
  end.

(** The coordinates of the message are left out. *)
Definition resolveTargetChildForPlayer (x z : f32) (readyChildren : list string) : M C string :=
  cell ← cat_resolve env (of_f32 x) (of_f32 z);
  match cell with
  | None => throw (errorf "no resolved cell" [])
  | Some cell =>
      let cellID := trim_space (Id cell) in
      if bool_decide (cellID ∈ readyChildren) then mret cellID
      else throw (errorf "resolved cell %s is not one of ready split children" [AStr cellID])
  end.

(** The services answer with [Ok: true] whenever they answer without an error. *)
Definition forwardHandoff (parentCellID childCellID reason : string) : M C unit :=
  _ ← call_registry env (registryAddr cfg) (ForwardNpcHandoff env (Some (mkNpcReq parentCellID childCellID reason)));
  mret tt.

Definition forwardPlayerHandoff (parentCellID childCellID playerID : string) : W unit :=
  nanos ← now env;
  _ ← on_cluster (call_registry env (registryAddr cfg) (ForwardPlayerHandoff env
        (Some (mkPlayerReq parentCellID childCellID playerID (parentCellID +:+ ":" +:+ playerID +:+ ":" +:+ itoa nanos)%string))));
  mret tt.

Definition hand_over_player (parentCellID : string) (readyChildren : list string) (attempt : Z) (cand : MigrationCandidate) : W unit :=
  let playerID := trim_space (mc_PlayerId cand) in
  if String.eqb playerID "" then mret tt
  else
    targetID ← on_error (fun e => throw (errorf "resolve target child for player %s: %w" [AStr playerID; ATxt (error_string e)]))
      (on_cluster (resolveTargetChildForPlayer (GetX (Some (mc_Position cand))) (GetZ (Some (mc_Position cand))) readyChildren));
    _ ← event parentCellID "player_handoff_running" attempt (lit "forward player handoff") targetID [("player_id", lit playerID)] false;
    on_error (fun e =>
        _ ← event parentCellID "player_handoff_failed" attempt (error_string e) targetID [("player_id", lit playerID)] false;
        throw (errorf "player handoff failed for player %s -> child %s: %w" [AStr playerID; AStr targetID; ATxt (error_string e)]))
      (forwardPlayerHandoff parentCellID targetID playerID).

Definition hand_over_npcs (parentCellID : string) (attempt : Z) (child : string) : W unit :=
  _ ← event parentCellID "handoff_running" attempt (lit "forward npc handoff") child [] false;
  on_error (fun e =>
      _ ← event parentCellID "handoff_failed" attempt (error_string e) child [] false;
      throw (errorf "handoff failed for child %s: %w" [AStr child; ATxt (error_string e)]))
    (on_cluster (forwardHandoff parentCellID child ("auto-split-attempt-" +:+ itoa attempt))).

(** ** The checks after the handoffs *)

Fixpoint resolveChildProbeReasons (specs : list ChildCellSpec) (cells : list (option CellSpec)) : M C (list string) :=
  match specs with
  | [] => mret []
  | sp :: rest =>
      let id := trim_space (cs_ID sp) in
      if String.eqb id "" then resolveChildProbeReasons rest cells
      else match pickResolveProbe sp cells with
      | None => more ← resolveChildProbeReasons rest cells; mret (("resolve_" +:+ id +:+ ":no_probe_point")%string :: more)
      | Some (cx, cz) =>
          r ← catch (cat_resolve env cx cz);
          more ← resolveChildProbeReasons rest cells;
          mret (match r with
                | Err e => ("resolve_" +:+ id +:+ ":" +:+ sprint (error_string e))%string :: more
                | Ok None => ("resolve_" +:+ id +:+ ":no_match")%string :: more
                | Ok (Some got) =>
                    if String.eqb (Id got) id then more
                    else if match CellPathLevel (Id got) with
                            | Some gotLevel => (cs_Level sp <? gotLevel)%Z && IsDescendantPath id (Id got)
                            | None => false
                            end then more
                    else ("resolve_" +:+ id +:+ ":want_got_" +:+ Id got)%string :: more
                end)
      end
  end.

Definition unreachable_cell (spec : CellSpec) : M C bool :=
  let ep := trim_space (GrpcEndpoint spec) in
  if String.eqb ep "" then mret true else ok ← isCellReachable ep; mret (negb ok).

Fixpoint child_reasons (childIDs : list string) : M C (list string) :=
  match childIDs with
  | [] => mret []
  | id :: rest =>
      r ← catch (cat_find env id);
      here ← match r with
             | Err e => mret [("child_" +:+ id +:+ "_catalog:" +:+ sprint (error_string e))%string]
             | Ok None => mret [("child_" +:+ id +:+ "_missing_in_catalog")%string]
             | Ok (Some cs) => bad ← unreachable_cell cs; mret (if (bad : bool) then [("child_" +:+ id +:+ "_unreachable")%string] else [])
             end;
      more ← child_reasons rest;
      mret (here ++ more)
  end.

Definition postRetirePreflightReasons (parentID : string) (childIDs : list string) (specs : list ChildCellSpec) : M C (list string) :=
  if Nat.eqb (length childIDs) 0 then mret ["no_handoff_children"]
  else
    r ← catch (cat_find env parentID);
    match r with
    | Err e => mret [("catalog_parent:" +:+ sprint (error_string e))%string]
    | Ok found =>
        parent ← match found with
                 | None => mret ["parent_missing_in_catalog"]
                 | Some p => bad ← unreachable_cell p; mret (if (bad : bool) then ["parent_unreachable"] else [])
                 end;
        children ← child_reasons childIDs;
        l ← catch (cat_list env);
        match l with
        | Err e => mret (dedupeReasons (parent ++ children ++ [("catalog_list:" +:+ sprint (error_string e))%string]))
        | Ok cells => probes ← resolveChildProbeReasons specs cells; mret (dedupeReasons (parent ++ children ++ probes))
        end
    end.

(** ** The orchestration after the handoffs

    The hints for an operator in the retire state and in the events are left out, as in [saveRetireReady]. *)

Definition complete_state (st : gmap string json) (parentID opID : string) (readyChildren : list string) (at_ms : Z) : gmap string json :=
  <["phase" := JStr (lit "automation_complete")]> (<["parent_cell_id" := JStr (lit parentID)]>
  (<["handoff_children" := JList (lit <$> readyChildren)]> (<["operation_id" := JStr (lit opID)]>
  (<["preflight_ok" := JBool true]>
  (<["preflight_gates" := JList (lit <$> ["parent_catalog_ping"; "children_catalog_ping"; "resolve_child_centers"])]>
  (<["next_action" := JStr (lit "operator_final_retire")]> (<["at_unix_ms_automation_complete" := JInt at_ms]> st))))))).

Definition is_complete (st : option (gmap string json)) : bool :=
  match st ≫= lookup "phase" with Some (JStr s) => String.eqb (sprint s) "automation_complete" | _ => false end.

Definition runPostHandoffOrchestration (parentID : string) (attempt : Z) (readyChildren : list string) (childSpecs : list ChildCellSpec) : W unit := fun fl =>
  if negb (postHandoff cfg) || negb (store fl) then (Ok tt, fl)
  else
    (st ← on_error (fun e => throw (errorf "post-handoff: read retire state: %w" [ATxt (error_string e)])) (getRetireStateMap parentID);
     if is_complete st
     then event parentID "automation_complete" attempt (lit "idempotent skip: retire_state already automation_complete") "" [] true
     else
       blocked ← on_cluster (postRetirePreflightReasons parentID readyChildren childSpecs);
       at_ms ← now env;
       let st := default ∅ st in
       if negb (Nat.eqb (length blocked) 0) then
         _ ← on_error (fun e => throw (errorf "post-handoff: save preflight_blocked: %w" [ATxt (error_string e)]))
               (setRetireStateMap parentID (<["phase" := JStr (lit "preflight_blocked")]>
                  (<["preflight_blocked_reasons" := JList (lit <$> blocked)]> (<["preflight_at_unix_ms" := JInt at_ms]> st))));
         event parentID "post_handoff_preflight_failed" attempt (Fmt "preflight blocked: %s" [AStr (join "; " blocked)]) ""
           [("blocked_count", Fmt "%d" [AInt (Z.of_nat (length blocked))])] false
       else
         let opID := (parentID +:+ "-a" +:+ itoa attempt +:+ "-" +:+ itoa at_ms)%string in
         _ ← on_error (fun e => throw (errorf "post-handoff: save automation_complete: %w" [ATxt (error_string e)]))
               (setRetireStateMap parentID (complete_state st parentID opID readyChildren at_ms));
         _ ← event parentID "automation_complete" attempt (lit "post_handoff preflight ok; automation_complete; next: operator_final_retire (§5)") ""
               [("operation_id", lit opID); ("handoff_children", lit (join "," readyChildren))] true;
         ignore (save parentID (mkSWEvent parentID "automation_complete" attempt (lit "automation_complete") "" [("operation_id", lit opID)] true))) fl.

(** ** An attempt *)

Definition hand_over_players (parentCellID : string) (readyChildren : list string) (attempt : Z) (cands : list MigrationCandidate) : W unit :=
  if Nat.eqb (length cands) 0 then mret tt
  else
    _ ← event parentCellID "player_handoffs_running" attempt (Fmt "player candidates=%d" [AInt (Z.of_nat (length cands))]) "" [] false;
    for_each (hand_over_player parentCellID readyChildren attempt) cands.

(** The guards and the handoffs of the players, up to the check that none is left. *)
Definition move_players (parentCellID : string) (readyChildren : list string) (attempt : Z) : W unit :=
  playerCandidates ← on_error (fun e => throw (errorf "list player migration candidates: %w" [ATxt (error_string e)]))
    (on_cluster (listPlayerCandidates parentCellID));
  before ← on_error (fun e => throw (errorf "ping parent before player handoff: %w" [ATxt (error_string e)]))
    (on_cluster (pingParentStats parentCellID));
  let count := uniquePlayerCandidatesCount playerCandidates in
  _ ← on_error (fun e =>
        _ ← event parentCellID "player_handoff_preflight_failed" attempt (error_string e) ""
              [("parent_player_count", Fmt "%d" [AInt (ping_players before)]); ("player_candidate_count", Fmt "%d" [AInt count])] false;
        throw e)
      (lift (validateParentPlayerHandoffReadiness (ping_players before) count));
  _ ← hand_over_players parentCellID readyChildren attempt playerCandidates;
  remaining ← on_error (fun e => throw (errorf "ping parent after player handoff: %w" [ATxt (error_string e)]))
    (on_cluster (pingParentStats parentCellID));
  if (0 <? ping_players remaining)%Z then
    let e := errorf "parent still has active players after player handoff: %d" [AInt (ping_players remaining)] in
    _ ← event parentCellID "player_handoff_verify_failed" attempt (error_string e) ""
          [("parent_player_count", Fmt "%d" [AInt (ping_players remaining)])] false;
    throw e
  else mret tt.

(** The specs of the ready children, in their order: of the last planned child with that id. *)
Definition child_spec_order (children : list ChildCellSpec) (readyChildren : list string) : list ChildCellSpec :=
  omap (fun id => last (base.filter (fun ch => cs_ID ch = id) children)) readyChildren.

(** The part of an attempt after the children are ready. *)
Definition handover (parentCellID : string) (children : list ChildCellSpec) (readyChildren : list string) (attempt : Z) : W unit :=
  _ ← on_error (fun e => throw (errorf "set split_drain true after children ready: %w" [ATxt (error_string e)]))
        (on_cluster (setSplitDrain env (registryAddr cfg) parentCellID true));
  _ ← on_cluster (runMigrationDryRun parentCellID);
  _ ← move_players parentCellID readyChildren attempt;
  _ ← for_each (hand_over_npcs parentCellID attempt) readyChildren;
  _ ← on_error (fun e => throw (errorf "clear split_drain after handoffs: %w" [ATxt (error_string e)]))
        (on_cluster (setSplitDrain env (registryAddr cfg) parentCellID false));
  _ ← event parentCellID "retire_ready" attempt (lit "all handoffs ok; split_drain cleared; retire_ready; running post_handoff orchestration (preflight + automation_complete) unless MMO_GRID_AUTO_POST_HANDOFF_ORCHESTRATION=false")
        "" [("handoff_children", lit (join "," readyChildren))] true;
  _ ← ignore (saveRetireReady parentCellID readyChildren);
  _ ← runPostHandoffOrchestration parentCellID attempt readyChildren (child_spec_order children readyChildren);
  if teardown cfg
  then for_each (fun cid => ignore (requestChildDelete cid ("grid-auto-split-teardown parent=" +:+ parentCellID))) readyChildren
  else mret tt.

Definition runOnce (parentCellID : string) (attempt : Z) : W unit :=
  children ← on_cluster (planSplitChildren parentCellID);
  _ ← event parentCellID "children_creating" attempt (Fmt "request create children=%d" [AInt (Z.of_nat (length children))]) "" [] false;
  _ ← for_each (requestChildCreate parentCellID attempt) children;
  readyChildren ← waitChildrenReady children;
  _ ← event parentCellID "children_wait_ready" attempt (Fmt "children ready=%d" [AInt (Z.of_nat (length readyChildren))]) ""
        [("children", lit (join "," readyChildren))] false;
  _ ← event parentCellID "draining" attempt (lit "ensure split_drain=true after children_wait_ready") "" [] false;
  handover parentCellID children readyChildren attempt.

(** The deferred removal from [active] is [LoadPolicy.split_finish]. *)
Definition run (cellID : string) : W RunResult :=
  _ ← event cellID "detected" 0 (lit "workflow started") "" [] false;
  retry (maxBackoff cfg) cancelled (runOnce cellID)
    (fun attempt =>
       let ev := mkSWEvent cellID "done" attempt (lit "workflow completed") "" [] true in
       _ ← publish ev; ignore (save cellID ev))
    (fun attempt e =>
       let ev := mkSWEvent cellID "retrying" attempt (error_string e) "" [] false in
       _ ← publish ev; ignore (save cellID ev))
    (fun lastErr => event cellID "failed" 0 (Fmt "workflow failed after retries: %v" [ATxt lastErr]) "" [] false)
    (maxRetries cfg) 1 (initialBackoff cfg) (lit "<nil>").
End Workflow.
