(* ===== verification/SplitProps.v ===== *)
(** What a successful split leaves behind, and what a split of a cell with players does. *)
From Stdlib Require Import Ascii ZArith Lia.
From S2P Require Import Prelude Effects GoFloat GoString Partition Registry Ecs Aoi Replic CellSim.
From S2P Require Import CellSvc CellInv Handoff CellOps RegistrySvc RegistryLogic MergeProps Workflow SplitWorkflow.
Local Open Scope string_scope.
Local Open Scope list_scope.

(** * One NPC handoff *)

(** The server [s'] has no players, and its NPCs are those of [sp], at their rounded positions. *)
Definition copy (sp s' : Server) : Prop :=
  exists rp r', Sim sp = Some rp /\ Sim s' = Some r' /\ playerByID s' = ∅ /\
    (forall e, e ∈ alive (rt_World r') <-> npc sp rp e) /\
    (forall e pos, npc sp rp e -> PositionOf (rt_World rp) e = Some pos -> PositionOf (rt_World r') e = Some (round_position pos)).

Lemma copy_view sp sp' s s' : view sp' = view sp -> view s' = view s -> copy sp s -> copy sp' s'.
Proof.
  intros E E' (rp & r' & Hp & Hr & Hpl & Ha & Hpos). unfold view in *. injection E as E1 E2 _. injection E' as E1' _ E3'.
  assert (forall e, npc sp' rp e <-> npc sp rp e) as Hn by (intros e; unfold npc, isPlayer; by rewrite E2).
  exists rp, r'. split; [congruence|]. split; [congruence|]. split; [congruence|]. split.
  - intros e. by rewrite Ha, Hn.
  - intros e pos. rewrite Hn. apply Hpos.
Qed.

Section Split.
Context {C : Type} `{CatalogLaws C} (env : Env) (c : C) (Hc : catalog_inv c) (Hj : json_codec env).
#[local] Set Default Proof Using "All".

(** The cells that are not [id] look the same. *)
Definition only (id : string) (cl cl' : Cluster C) : Prop :=
  Store cl' = Store cl /\ forall ep, ~ reaches env c id ep -> view <$> cellServers cl' !! ep = view <$> cellServers cl !! ep.

Lemma only_cell_at id id' cl cl' s :
  only id cl cl' -> (forall ep, reaches env c id ep -> ~ reaches env c id' ep) -> cell_at env c cl id' s ->
  exists s', cell_at env c cl' id' s' /\ view s' = view s.
Proof.
  intros [_ Hv] Hdis (ep & Hr & Hs). specialize (Hv ep ltac:(intros Hr'; by apply (Hdis ep))). rewrite Hs in Hv.
  destruct (cellServers cl' !! ep) as [s'|] eqn:E; [|done]. exists s'. split; [by exists ep|]. cbn in Hv. injection Hv as V1 V2 V3. unfold view. congruence.
Qed.

Lemma npc_handoff_copies parent child reason (cl : Cluster C) resp cl' :
  Store cl = Some c -> (forall ep, reaches env c parent ep -> ~ reaches env c child ep) ->
  ForwardNpcHandoff env (Some (mkNpcReq parent child reason)) cl = (Ok resp, cl') ->
  only child cl cl' /\ exists sp s s', cell_at env c cl parent sp /\ cell_at env c cl child s /\ playerByID s = ∅ /\
    cell_at env c cl' child s' /\ copy sp s'.
Proof.
  intros Hst Hdis. unfold ForwardNpcHandoff. cbn [nr_ParentCellId nr_ChildCellId nr_Reason].
  set (rs := if String.eqb reason "" then _ else _). intros (u1 & cl1 & [_ ->]%guard_inv & E)%bind_inv.
  apply bind_inv in E as (u2 & cl1 & [_ ->]%guard_inv & E). apply bind_inv in E as (ex & cl1 & Hex & E).
  pose proof (update_export_views env c Hc parent (Some rs) cl) as Hv1. rewrite Hex in Hv1. cbn [snd] in Hv1.
  apply (update_inv env c Hc) in Hex as (ep & sp & n & Hrp & Hsp & Hu); [|done]. cbn [Update] in Hu.
  apply bind_inv in E as (u3 & cl2 & [Hok ->]%guard_inv & E). apply negb_false_iff in Hok.
  destruct (Sim sp) as [rp|] eqn:Er; [|by destruct Hu as [-> _]]. fold (export_state (order env n) sp rp) in Hu.
  destruct (marshal env (export_state (order env n) sp rp)) as [raw|] eqn:Em; [|by destruct Hu as [-> _]].
  destruct Hu as (-> & Hst1 & _). cbn [ur_NpcExportJson] in E. destruct (Hj _ _ Em) as (Hun & Htr & Hne).
  apply bind_inv in E as (u4 & cl2 & [_ ->]%guard_inv & E). rewrite Hun in E.
  apply bind_inv in E as (p & cl2 & [= <- <-] & E). apply bind_inv in E as (imp & cl2 & Him & E).
  apply (update_inv env c Hc) in Him as (ep' & s & n' & Hrc & Hs & Hu); [|done].
  destruct (Update _ _ _ _ s) as [s' a] eqn:Eu. destruct Hu as (-> & Hst2 & Hcs).
  apply bind_inv in E as (u5 & cl3 & [Hok' ->]%guard_inv & [= _ <-]). apply negb_false_iff in Hok'.
  destruct (export_entities (order env n) sp rp) as (ents & Hents & _ & Hin).
  destruct (import_inv _ _ _ _ _ _ _ _ _ ents Hun eq_refl Hents Htr Hne Eu Hok') as (Hp0 & Hp' & r' & Hsim & Ha & Hpos).
  assert (forall ep2, ep2 <> ep' -> cellServers cl2 !! ep2 = cellServers cl1 !! ep2) as Hne2 by (intros; by rewrite Hcs, lookup_insert_ne).
  split.
  - split; [congruence|]. intros ep2 Hep2. rewrite Hne2 by (intros ->; by apply Hep2).
    destruct Hv1 as [_ Hv1]. by rewrite <- !lookup_fmap, Hv1.
  - destruct Hv1 as [_ Hv1]. assert (view <$> cellServers cl !! ep' = Some (view s)) as Hvs by by rewrite <- lookup_fmap, <- Hv1, lookup_fmap, Hs.
    destruct (cellServers cl !! ep') as [s0|] eqn:Es0; [|done]. cbn in Hvs. injection Hvs as _ _ Hvp.
    exists sp, s0, s'. split; [by exists ep|]. split; [by exists ep'|]. split; [congruence|].
    split; [exists ep'; split; [done|]; by rewrite Hcs, lookup_insert_eq|].
    pose proof (exported_ids sp rp ents Hin) as Hids.
    exists rp, r'. split; [done|]. split; [done|]. split; [done|]. split.
    + intros e. rewrite Ha, Hids. unfold npc. tauto.
    + intros e pos Hn Hq. destruct (Hpos e) as (ent & Hent & He & Hpe).
      { apply Ha. split; [apply Hn|]. apply Hids. by destruct Hn as (_ & ? & ? & ?). }
      rewrite Hpe. f_equal. apply Hin in Hent as (x & _ & _ & Hx). pose proof (encode_entity_id _ _ _ Hx) as [Hxid _].
      assert (x = e) as -> by congruence. by eapply encode_entity_position.
Qed.

(** * All of them *)

Context (cfg : splitWorkflowConfig) (parent : string).

(** Every cell has an endpoint of its own. *)
Definition own_endpoints (ids : list string) : Prop :=
  forall id id' ep, id ∈ ids -> id' ∈ ids -> reaches env c id ep -> reaches env c id' ep -> id = id'.

Lemma npc_forward_inv child reason (cl : Cluster C) u cl' :
  forwardHandoff env cfg parent child reason cl = (Ok u, cl') ->
  exists resp, ForwardNpcHandoff env (Some (mkNpcReq parent child reason)) (count_call cl) = (Ok resp, cl').
Proof.
  unfold forwardHandoff, call_registry. intros (resp & cl1 & E & [= _ <-])%bind_inv. exists resp.
  apply bind_inv in E as (u' & cl2 & [= _ <-] & E). unfold remote in E. by destruct (net env (calls cl)).
Qed.

Lemma hand_over_inv attempt child (fl : Flow C splitWorkflowEvent) u fl' :
  hand_over_npcs env cfg parent attempt child fl = (Ok u, fl') ->
  exists resp, ForwardNpcHandoff env (Some (mkNpcReq parent child ("auto-split-attempt-" +:+ itoa attempt))) (count_call (cluster fl)) =
    (Ok resp, cluster fl').
Proof.
  unfold hand_over_npcs, event. intros (u1 & fl1 & E1 & E)%bind_inv.
  assert (cluster fl1 = cluster fl) as Hfl by (unfold publish in E1; injection E1 as _ <-; by destruct (nats fl)).
  apply on_error_inv in E.
  - apply on_cluster_inv in E as [E _]. rewrite Hfl in E. by apply npc_forward_inv in E.
  - intros e f. by eexists.
Qed.

Lemma copies_all attempt ready (fl : Flow C splitWorkflowEvent) u fl' :
  Store (cluster fl) = Some c -> NoDup (parent :: ready) -> own_endpoints (parent :: ready) ->
  for_each (hand_over_npcs env cfg parent attempt) ready fl = (Ok u, fl') ->
  Store (cluster fl') = Some c /\
  (forall ep, (forall id, id ∈ ready -> ~ reaches env c id ep) -> view <$> cellServers (cluster fl') !! ep = view <$> cellServers (cluster fl) !! ep) /\
  (forall id, id ∈ ready -> exists sp s s', cell_at env c (cluster fl) parent sp /\ cell_at env c (cluster fl) id s /\
    playerByID s = ∅ /\ cell_at env c (cluster fl') id s' /\ copy sp s').
Proof.
  revert fl. induction ready as [|id ready IH]; intros fl Hst Hnd Hown; cbn [for_each].
  { intros [= <- <-]. split; [done|]. split; [done|]. by intros id ?%not_elem_of_nil. }
  intros (u1 & fl1 & Eh & E)%bind_inv. apply hand_over_inv in Eh as [resp Eh].
  apply NoDup_cons in Hnd as [Hpn Hnd]. pose proof Hnd as [Hidn _]%NoDup_cons.
  assert (forall id1 id2 ep, id1 ∈ parent :: id :: ready -> id2 ∈ parent :: id :: ready -> id1 <> id2 ->
    reaches env c id1 ep -> ~ reaches env c id2 ep) as Hdis by (intros id1 id2 ep H1 H2 Hne R1 R2; by apply Hne, (Hown id1 id2 ep)).
  apply npc_handoff_copies in Eh as [Honly (sp & s0 & s' & Hsp & Hs0 & Hpl & Hs' & Hcopy)]; [|done|].
  2:{ intros ep. apply Hdis; set_solver. }
  assert (same_views (cluster fl) (count_call (cluster fl))) as Hcount by by split.
  assert (only id (cluster fl) (cluster fl1)) as Honly' by exact Honly.
  destruct (IH fl1) as (Hst' & Hrest & Hcop); [destruct Honly'; congruence| | |exact E|].
  { constructor; [set_solver|]. by apply NoDup_cons in Hnd as [_ ?]. }
  { intros id1 id2 ep H1 H2. apply Hown; set_solver. }
  split; [done|]. split.
  { intros ep Hep. rewrite Hrest by (intros x Hx; apply Hep; by right). destruct Honly' as [_ Hv]. apply Hv, Hep. left. }
  intros x [->|Hx]%elem_of_cons.
  - exists sp, s0. destruct Hs' as (ep & Hr & Hs').
    assert (view <$> cellServers (cluster fl') !! ep = view <$> cellServers (cluster fl1) !! ep) as Hv.
    { apply Hrest. intros y Hy Hry. apply (Hdis y id ep); [set_solver|set_solver|set_solver|done..]. }
    rewrite Hs' in Hv. destruct (cellServers (cluster fl') !! ep) as [s2|] eqn:E2; [|done]. cbn in Hv. injection Hv as V1 V2 V3.
    exists s2. split; [exact Hsp|]. split; [exact Hs0|]. split; [done|]. split; [by exists ep|]. apply (copy_view sp sp s' s2); [done|unfold view; congruence|done].
  - destruct (Hcop x Hx) as (sp1 & s2 & s1 & Hsp1 & Hs2 & Hpl2 & Hs1 & Hc1).
    assert (only id (cluster fl1) (cluster fl)) as Hback by (destruct Honly' as [? Hv]; split; [done|]; intros ep Hep; by rewrite Hv).
    destruct (only_cell_at id x (cluster fl1) (cluster fl) s2 Hback) as (s3 & Hs3 & V3); [|exact Hs2|].
    { intros ep. apply Hdis; [set_solver..|]. by intros ->. }
    destruct (only_cell_at id parent (cluster fl) (cluster fl1) sp Honly') as (sp2 & Hsp2 & V); [|exact Hsp|].
    { intros ep. apply Hdis; set_solver. }
    assert (sp2 = sp1) as -> by by eapply cell_at_fun. exists sp, s3, s1. split; [done|]. split; [exact Hs3|].
    split; [injection V3 as _ _ V3; congruence|]. split; [done|]. by apply (copy_view sp1 sp s1 s1).
Qed.

(** * The catalog and the cells over an attempt *)

Definition same_store (fl fl' : Flow C splitWorkflowEvent) : Prop := Store (cluster fl') = Store (cluster fl).
Definition kept_cells (fl fl' : Flow C splitWorkflowEvent) : Prop := same_cells (cluster fl) (cluster fl').

#[local] Instance same_store_preorder : PreOrder same_store.
Proof. split; [done|]. intros f1 f2 f3 H1 H2. unfold same_store in *. congruence. Qed.
#[local] Instance kept_cells_preorder : PreOrder kept_cells.
Proof. split; [by split|]. intros f1 f2 f3 H1 H2. unfold kept_cells. by transitivity (cluster f2). Qed.

Definition store_rel (cl cl' : Cluster C) : Prop := Store cl' = Store cl.
#[local] Instance store_rel_preorder : PreOrder store_rel.
Proof. split; [done|]. intros f1 f2 f3 H1 H2. unfold store_rel in *. congruence. Qed.

Lemma store_lift {A} (m : M C A) : steps_in store_rel m -> steps_in same_store (on_cluster m).
Proof. intros Hm fl. unfold on_cluster. specialize (Hm (cluster fl)). by destruct (m (cluster fl)). Qed.

Lemma cells_lift {A} (m : M C A) : steps_in same_cells m -> steps_in kept_cells (on_cluster m).
Proof. intros Hm fl. unfold on_cluster. specialize (Hm (cluster fl)). by destruct (m (cluster fl)). Qed.

Lemma cells_publish ev : steps_in kept_cells (publish ev).
Proof. intros fl. unfold publish. by destruct (nats fl). Qed.

Lemma store_publish ev : steps_in same_store (publish ev).
Proof. intros fl. unfold publish. by destruct (nats fl). Qed.

Lemma store_registry {A} (m : M C A) : steps_in store_rel m -> steps_in store_rel (call_registry env (registryAddr cfg) m).
Proof. by apply frame_registry; [apply _|]. Qed.

Lemma store_drain b : steps_in store_rel (setSplitDrain (C:=C) env (registryAddr cfg) parent b).
Proof.
  unfold setSplitDrain. steps. apply store_registry. unfold ForwardCellUpdate. destruct (String.eqb parent ""); [by steps|].
  by eapply (frame_update env store_rel (fun _ _ => True)).
Qed.

Lemma store_dry_run : steps_in store_rel (runMigrationDryRun (C:=C) env cfg parent).
Proof.
  unfold runMigrationDryRun. steps. apply store_registry. unfold ForwardCellUpdate. destruct (String.eqb parent ""); [by steps|].
  by eapply (frame_update env store_rel (fun _ _ => True)).
Qed.

Lemma store_candidates : steps_in store_rel (listPlayerCandidates (C:=C) env parent).
Proof. unfold listPlayerCandidates. steps; [frame_calls|]. by apply frame_read; [apply _|..]. Qed.

Lemma store_ping : steps_in store_rel (pingParentStats (C:=C) env parent).
Proof. unfold pingParentStats. steps; frame_calls. Qed.

Lemma store_target x z ready : steps_in store_rel (resolveTargetChildForPlayer (C:=C) env x z ready).
Proof. unfold resolveTargetChildForPlayer. steps. frame_calls. Qed.

Lemma store_move_players ready attempt : steps_in same_store (move_players env cfg parent ready attempt).
Proof.
  unfold move_players, hand_over_players, hand_over_player, event, forwardPlayerHandoff.
  steps; try apply store_publish; try apply store_lift; try (by apply steps_pure; [apply _|]).
  - apply store_candidates.
  - apply store_ping.
  - apply store_target.
  - apply store_registry, (frame_handoff env store_rel (fun _ _ => True)); done.
  - apply store_ping.
Qed.

(** The endpoint of the parent carries no blanks. *)
Definition clean_endpoint : Prop :=
  forall o spec, FindCellByID o c parent = Ok (Some spec) -> trim_space (GrpcEndpoint spec) = GrpcEndpoint spec.

(** A count of the parent's players is read from the cell behind its id. *)
Lemma ping_parent_inv (cl : Cluster C) st cl' :
  Store cl = Some c -> clean_endpoint -> pingParentStats env parent cl = (Ok st, cl') ->
  same_cells cl cl' /\ exists s, cell_at env c cl parent s /\ ping_players st = int32 (PlayerCount s).
Proof.
  intros Hst Hclean E. assert (same_cells cl cl') as Hsame.
  { assert (steps_in same_cells (pingParentStats (C:=C) env parent)) as Hs by (unfold pingParentStats; steps; frame_calls).
    specialize (Hs cl). by rewrite E in Hs. }
  split; [done|]. unfold pingParentStats in E. apply bind_inv in E as (found & cl1 & Hf & E). unfold cat_find in Hf. rewrite Hst in Hf.
  destruct (String.eqb_spec parent "") as [|Hp]; [by injection Hf as <- <-|]. injection Hf as Hf <-. destruct found as [spec|]; [|done].
  rewrite (Hclean _ _ Hf) in E. destruct (String.eqb_spec (GrpcEndpoint spec) "") as [|Hne]; [done|].
  unfold pingCellStats in E. apply bind_inv in E as (u & cl2 & Hn & E). unfold lift in Hn. injection Hn as Hn <-.
  apply bind_inv in E as (resp & cl3 & Hcall & E). injection E as <- _. cbn [ping_players].
  apply call_inv in Hcall as (s & Hs & -> & _). cbn [snd cellServers count_call] in *.
  exists s. split.
  - exists (GrpcEndpoint spec). split; [|done]. exists spec. split; [intros o; by eapply find_order|]. split; [done|]. split; [done|]. by rewrite Hn.
  - unfold Ping. by destruct (Sim s).
Qed.

(** * Players *)

(** Tokens of handoffs are known only to a cell with players. *)
Definition started (s : Server) : Prop := playerByID s = ∅ -> acceptedByTk s = ∅.

Lemma accept_started payload s :
  started s -> ar_Ok (snd (AcceptPlayerHandoff (Some payload) s)) = true -> playerByID (fst (AcceptPlayerHandoff (Some payload) s)) <> ∅.
Proof.
  intros Hs. unfold AcceptPlayerHandoff. destruct (_ || _); [done|]. destruct (Sim s); [|done]. unfold accept_begin.
  destruct (acceptedByTk s !! _) as [e|] eqn:Ea.
  - intros _ Hp. cbn in Hp. by rewrite (Hs Hp), lookup_empty in Ea.
  - destruct (accept_create _ s) as [e s1]. intros _. cbn. apply insert_non_empty.
Qed.

Context (Hparent : trim_space parent = parent).

Lemma player_handoff_inv child pid tok (cl : Cluster C) e cl' :
  Store cl = Some c -> trim_space child = child -> (forall ep, reaches env c parent ep -> ~ reaches env c child ep) ->
  ForwardPlayerHandoff env (Some (mkPlayerReq parent child pid tok)) cl = (Ok e, cl') ->
  Store cl' = Some c /\
  (forall ep, ~ reaches env c parent ep -> ~ reaches env c child ep -> cellServers cl' !! ep = cellServers cl !! ep) /\
  exists s s', cell_at env c cl child s /\ cell_at env c cl' child s' /\ (started s -> playerByID s' <> ∅).
Proof.
  intros Hst Hchild Hdis. unfold ForwardPlayerHandoff. cbn [pq_ParentCellId pq_ChildCellId pq_PlayerId pq_HandoffToken]. rewrite Hparent, Hchild.
  intros (u1 & cl1 & [_ ->]%guard_inv & E)%bind_inv. apply bind_inv in E as (u2 & cl1 & [_ ->]%guard_inv & E).
  apply bind_inv in E as ([epp pspec] & cl1 & Hd & E). apply (dial_inv env c) in Hd as [-> Hrp]; [|done..].
  apply bind_inv in E as ([epc cspec] & cl1 & Hd & E). apply (dial_inv env c) in Hd as [-> Hrc]; [|done..].
  assert (epp <> epc) as Hne by (intros ->; by apply (Hdis epc)). cbn [fst snd] in E.
  apply bind_inv in E as (prep & cl1 & Hcall & E). apply call_inv in Hcall as (sp & Hsp & _ & Hst1 & Hcs1).
  apply bind_inv in E as (payload & cl2 & Hpl & E).
  assert (cl2 = cl1) as -> by (destruct (pr_Payload prep); [destruct (pr_Ok prep)|]; by injection Hpl).
  apply bind_inv in E as (acc & cl2 & Hcall & E). apply call_inv in Hcall as (s & Hs & -> & Hst2 & Hcs2).
  apply bind_inv in E as (u3 & cl3 & [Hacc ->]%guard_inv & E).
  apply bind_inv in E as (fin & cl3 & Hcall & E). apply call_inv in Hcall as (sp' & _ & _ & Hst3 & Hcs3).
  apply bind_inv in E as (u4 & cl4 & [_ ->]%guard_inv & E). injection E as _ ->.
  apply orb_false_iff in Hacc as [Hacc _]. apply negb_false_iff in Hacc.
  split; [congruence|]. split.
  - intros ep Hep Hec. rewrite Hcs3, lookup_insert_ne, Hcs2, lookup_insert_ne, Hcs1, lookup_insert_ne; [done|..]; by intros ->.
  - rewrite Hcs1, lookup_insert_ne in Hs by done. exists s. eexists. split; [by exists epc|].
    split; [exists epc; split; [done|]; by rewrite Hcs3, lookup_insert_ne, Hcs2, lookup_insert_eq by done|].
    intros Hstarted. by apply accept_started.
Qed.

Definition all_started (ready : list string) (cl : Cluster C) : Prop :=
  Store cl = Some c /\ forall id s, id ∈ ready -> cell_at env c cl id s -> started s.

(** Some of the cells has a player. *)
Definition occupied (ready : list string) (cl : Cluster C) : Prop :=
  exists id s, id ∈ ready /\ cell_at env c cl id s /\ playerByID s <> ∅.

Lemma same_cells_at (cl cl' : Cluster C) id s : same_cells cl cl' -> cell_at env c cl' id s <-> cell_at env c cl id s.
Proof. intros [_ Hcs]. unfold cell_at. by rewrite Hcs. Qed.

Lemma all_started_same ready (cl cl' : Cluster C) : same_cells cl cl' -> all_started ready cl -> all_started ready cl'.
Proof.
  intros Hs [Hst Hall]. split; [destruct Hs; congruence|]. intros id s Hid Hat. by apply (Hall id), (same_cells_at cl cl').
Qed.

Lemma resolve_target_inv x z ready (cl : Cluster C) id cl' :
  resolveTargetChildForPlayer env x z ready cl = (Ok id, cl') -> same_cells cl cl' /\ id ∈ ready /\ trim_space id = id.
Proof.
  unfold resolveTargetChildForPlayer. intros (found & cl1 & Hr & E)%bind_inv. unfold cat_resolve in Hr. injection Hr as _ <-.
  destruct found as [cell|]; [|done]. destruct (bool_decide_reflect (trim_space (Id cell) ∈ ready)) as [Hin|]; [|done].
  injection E as <- <-. split; [done|]. split; [done|apply trim_space_idem].
Qed.

Lemma hand_over_player_inv ready attempt cand (fl : Flow C splitWorkflowEvent) u fl' :
  own_endpoints (parent :: ready) -> parent ∉ ready -> trim_space (mc_PlayerId cand) <> "" -> all_started ready (cluster fl) ->
  hand_over_player env cfg parent ready attempt cand fl = (Ok u, fl') ->
  all_started ready (cluster fl') /\ occupied ready (cluster fl').
Proof.
  intros Hown Hpr Hpid Hall. unfold hand_over_player. rewrite (proj2 (String.eqb_neq _ _) Hpid).
  intros (child & fl1 & Hr & E)%bind_inv. apply on_error_inv in Hr; [|intros; by eexists].
  apply on_cluster_inv in Hr as [Hr _]. apply resolve_target_inv in Hr as (Hsame & Hin & Htrim).
  apply (all_started_same _ _ _ Hsame) in Hall. apply bind_inv in E as (u1 & fl2 & Hev & E).
  assert (same_cells (cluster fl1) (cluster fl2)) as Hsame2 by (injection Hev as _ <-; by destruct (nats fl1)).
  apply (all_started_same _ _ _ Hsame2) in Hall. apply on_error_inv in E; [|intros; by eexists].
  apply bind_inv in E as (nanos & fl3 & [= _ <-] & E). apply bind_inv in E as (r & fl4 & E & [= _ <-]).
  apply on_cluster_inv in E as [E _]. unfold call_registry in E. apply bind_inv in E as (u2 & cl3 & [= _ <-] & E). unfold remote in E.
  destruct (net env (calls (cluster fl2))); [|done..].
  assert (forall id ep, id ∈ ready -> reaches env c parent ep -> ~ reaches env c id ep) as Hdis.
  { intros id ep Hid R1 R2. apply Hpr. rewrite (Hown parent id ep); [done|left|by right|done..]. }
  apply player_handoff_inv in E as (Hst & Hothers & s & s' & Hs & Hs' & Hacc); [|apply Hall|done|intros ep; by apply Hdis].
  assert (playerByID s' <> ∅) as Hne by (by apply Hacc, (proj2 Hall child)).
  split; [|by exists child, s']. split; [done|]. intros id s1 Hid Hat. destruct (decide (id = child)) as [->|Hne'].
  { assert (s1 = s') as -> by by eapply cell_at_fun. by intros ?. }
  apply (proj2 Hall id); [done|]. destruct Hat as (ep & Hr & Hs1). exists ep. split; [done|].
  rewrite <- Hs1. symmetry. apply Hothers; [intros R; by apply (Hdis id ep)|]. intros R. apply Hne', (Hown id child ep); [by right|by right|done..].
Qed.

Lemma hand_over_players_inv ready attempt cands (fl : Flow C splitWorkflowEvent) u fl' :
  own_endpoints (parent :: ready) -> parent ∉ ready -> Forall (fun cand => trim_space (mc_PlayerId cand) <> "") cands ->
  all_started ready (cluster fl) -> for_each (hand_over_player env cfg parent ready attempt) cands fl = (Ok u, fl') ->
  all_started ready (cluster fl') /\ (cands <> [] -> occupied ready (cluster fl')).
Proof.
  intros Hown Hpr Hc0. revert fl. induction Hc0 as [|cand cands Hp _ IH]; intros fl Hall; cbn [for_each]; [by intros [= _ <-]|].
  intros (u1 & fl1 & Eh & E)%bind_inv. apply hand_over_player_inv in Eh as [Hall1 Hocc]; [|done..].
  pose proof (IH fl1 Hall1 E) as [Hall2 Hocc2]. split; [done|]. intros _. destruct cands as [|x cands]; [by injection E as _ <-|by apply Hocc2].
Qed.

Lemma candidates_inv (cl : Cluster C) cands cl' :
  listPlayerCandidates env parent cl = (Ok cands, cl') ->
  same_views cl cl' /\ cellServers cl' = cellServers cl /\ Forall (fun cand => trim_space (mc_PlayerId cand) <> "") cands.
Proof.
  unfold listPlayerCandidates. intros (found & cl1 & Hf & E)%bind_inv. injection Hf as _ <-. destruct found as [spec|]; [|done].
  apply bind_inv in E as (u & cl2 & Hn & E). injection Hn as _ <-. apply bind_inv in E as (l & cl3 & Hcall & E). injection E as <- <-.
  apply call_inv in Hcall as (s & Hs & _ & Hst & Hcs). cbn [fst] in Hcs. rewrite insert_id in Hcs by done.
  split; [split; [done|by rewrite Hcs]|]. split; [done|]. apply Forall_forall. intros x Hx%list_elem_of_filter. tauto.
Qed.

(** After the players are handed over, none is left in the parent; and unless there was none to hand
    over, some child has one. *)
Lemma move_players_inv ready attempt (fl : Flow C splitWorkflowEvent) u fl' :
  own_endpoints (parent :: ready) -> parent ∉ ready -> clean_endpoint -> all_started ready (cluster fl) ->
  move_players env cfg parent ready attempt fl = (Ok u, fl') ->
  (occupied ready (cluster fl') \/ same_cells (cluster fl) (cluster fl')) /\ Store (cluster fl') = Some c /\
  exists s, cell_at env c (cluster fl') parent s /\ (int32 (PlayerCount s) <= 0)%Z.
Proof.
  intros Hown Hpr Hclean Hall E. unfold move_players in E.
  apply bind_inv in E as (cands & fl1 & Hc1 & E). apply on_error_inv in Hc1; [|intros; by eexists].
  apply on_cluster_inv in Hc1 as [Hc1 _]. apply candidates_inv in Hc1 as ([Hs1 _] & Hcs1 & Hcands).
  assert (same_cells (cluster fl) (cluster fl1)) as H1 by by split.
  apply bind_inv in E as (before & fl2 & Hp & E). apply on_error_inv in Hp; [|intros; by eexists].
  apply on_cluster_inv in Hp as [Hp _]. apply ping_parent_inv in Hp as [H2 _]; [|destruct H1, Hall; congruence|done].
  apply bind_inv in E as (u1 & fl3 & Hv & E).
  assert (fl3 = fl2) as -> by (unfold on_error, lift in Hv; destruct (validateParentPlayerHandoffReadiness _ _); by injection Hv).
  apply bind_inv in E as (u2 & fl4 & Hmv & E).
  assert (same_cells (cluster fl) (cluster fl2)) as H12 by by transitivity (cluster fl1).
  assert (all_started ready (cluster fl4) /\ (occupied ready (cluster fl4) \/ same_cells (cluster fl) (cluster fl4))) as [Hall4 Hor].
  { apply (all_started_same _ _ _ H12) in Hall. unfold hand_over_players in Hmv. destruct cands as [|x cands].
    { injection Hmv as _ <-. split; [done|by right]. }
    apply bind_inv in Hmv as (u3 & fl3 & Hev & Hmv).
    assert (same_cells (cluster fl2) (cluster fl3)) as H3 by (injection Hev as _ <-; by destruct (nats fl2)).
    apply (all_started_same _ _ _ H3) in Hall. apply hand_over_players_inv in Hmv as [Hall4 Hocc]; [|done..].
    split; [done|left; by apply Hocc]. }
  apply bind_inv in E as (st & fl5 & Hp & E). apply on_error_inv in Hp; [|intros; by eexists]. apply on_cluster_inv in Hp as [Hp _].
  destruct (Z.ltb_spec 0 (ping_players st)) as [|Hle]; [by apply bind_inv in E as (? & ? & _ & [=])|]. injection E as _ ->.
  apply ping_parent_inv in Hp as [H5 (s & Hs & Hpl)]; [|apply Hall4|done]. split; [|split].
  - destruct Hor as [(id & s1 & Hid & Hat & Hne)|Hsame]; [left|right; by transitivity (cluster fl4)].
    exists id, s1. split; [done|]. split; [|done]. by apply (same_cells_at (cluster fl4)).
  - destruct H5, Hall4. congruence.
  - exists s. rewrite <- Hpl. split; [|done]. by apply (same_cells_at (cluster fl4)).
Qed.

(** * After the handoffs *)

Lemma count_cells (cl : Cluster C) : same_cells cl (count_call cl).
Proof. by split. Qed.
#[local] Hint Resolve count_cells : core.

Lemma reachable_cells ep : steps_in same_cells (isCellReachable (C:=C) env ep).
Proof. unfold isCellReachable. steps. frame_calls. Qed.

Lemma unreachable_cells spec : steps_in same_cells (unreachable_cell (C:=C) env spec).
Proof. unfold unreachable_cell. steps. apply reachable_cells. Qed.

Lemma child_reasons_cells ids : steps_in same_cells (child_reasons (C:=C) env ids).
Proof. induction ids as [|id ids IH]; cbn [child_reasons]; steps; [frame_calls|apply unreachable_cells|done]. Qed.

Lemma probe_reasons_cells specs cells : steps_in same_cells (resolveChildProbeReasons (C:=C) env specs cells).
Proof. induction specs as [|sp specs IH]; cbn [resolveChildProbeReasons]; steps; try done; frame_calls. Qed.

Lemma preflight_cells ids specs : steps_in same_cells (postRetirePreflightReasons (C:=C) env parent ids specs).
Proof.
  unfold postRetirePreflightReasons. steps; try frame_calls; [apply unreachable_cells|apply child_reasons_cells|apply probe_reasons_cells].
Qed.

Lemma redis_cells f : (forall fl, cluster (f fl) = cluster fl) -> steps_in kept_cells (redis_write (C:=C) (E:=splitWorkflowEvent) env f).
Proof. intros Hf fl. unfold redis_write, kept_cells. destruct (net env (calls (cluster fl))); cbn [snd]; by rewrite ?Hf. Qed.

Lemma retire_map_cells m : steps_in kept_cells (setRetireStateMap (C:=C) env parent m).
Proof. intros fl. unfold setRetireStateMap. destruct (negb (store fl)); [done|]. by apply redis_cells. Qed.

Lemma read_map_cells : steps_in kept_cells (getRetireStateMap (C:=C) env parent).
Proof. intros fl. unfold getRetireStateMap. destruct (negb (store fl)); [done|]. by destruct (net env (calls (cluster fl))). Qed.

Lemma save_cells ev : steps_in kept_cells (save (C:=C) env parent ev).
Proof. intros fl. unfold save. destruct (negb (store fl)); [done|]. by apply redis_cells. Qed.

Lemma retire_ready_cells ids : steps_in kept_cells (saveRetireReady (C:=C) env parent ids).
Proof.
  intros fl. unfold saveRetireReady. destruct (negb (store fl)); [done|].
  match goal with |- kept_cells fl (snd (?m fl)) => enough (steps_in kept_cells m) by done end.
  steps; [by apply steps_pure; [apply _|]|apply retire_map_cells].
Qed.

Lemma orchestration_cells attempt ids specs : steps_in kept_cells (runPostHandoffOrchestration (C:=C) env cfg parent attempt ids specs).
Proof.
  intros fl. unfold runPostHandoffOrchestration, event. destruct (_ || _); [done|].
  match goal with |- kept_cells fl (snd (?m fl)) => enough (steps_in kept_cells m) by done end.
  steps; try apply cells_publish; try (by apply steps_pure; [apply _|]); try apply retire_map_cells.
  - apply read_map_cells.
  - apply cells_lift, preflight_cells.
  - apply save_cells.
Qed.

Lemma delete_cells id reason : steps_in kept_cells (requestChildDelete (C:=C) env id reason).
Proof.
  intros fl. unfold requestChildDelete. destruct (negb (nats fl)); [done|]. unfold send_control. by destruct (net env (calls (cluster fl))).
Qed.

(** A drain that is answered sets the flag, and keeps the rest. *)
Lemma registry_drain_inv b (cl : Cluster C) u cl' :
  Store cl = Some c -> setSplitDrain env (registryAddr cfg) parent b cl = (Ok u, cl') ->
  same_views cl cl' /\ exists s, cell_at env c cl' parent s /\ splitDrain s = b.
Proof.
  intros Hst. unfold setSplitDrain, call_registry. intros (r & cl1 & E & [= _ <-])%bind_inv.
  apply bind_inv in E as (u' & cl2 & [= _ <-] & E). unfold remote in E.
  destruct (net env (calls cl)); [|done..]. unfold ForwardCellUpdate in E. destruct (String.eqb parent ""); [done|].
  apply (update_inv env c Hc) in E as (ep & s & n & Hr & Hs & Hu); [|done]. cbn in Hu. destruct Hu as (_ & Hst' & Hcs).
  split; [split; [congruence|]|eexists; split; [exists ep; split; [done|]; by rewrite Hcs, lookup_insert_eq|done]].
  change (cellServers cl !! ep = Some s) in Hs. rewrite Hcs, fmap_insert. apply insert_id. by rewrite lookup_fmap, Hs.
Qed.
(** The steps that only tell others about the success. *)
Lemma report_cells children ready attempt :
  steps_in kept_cells
    (_ ← event (C:=C) parent "retire_ready" attempt (lit "all handoffs ok; split_drain cleared; retire_ready; running post_handoff orchestration (preflight + automation_complete) unless MMO_GRID_AUTO_POST_HANDOFF_ORCHESTRATION=false")
          "" [("handoff_children", lit (join "," ready))] true;
     _ ← ignore (saveRetireReady env parent ready);
     _ ← runPostHandoffOrchestration env cfg parent attempt ready (child_spec_order children ready);
     if teardown cfg
     then for_each (fun cid => ignore (requestChildDelete env cid ("grid-auto-split-teardown parent=" +:+ parent))) ready
     else mret tt).
Proof.
  unfold event. steps; [apply cells_publish|apply retire_ready_cells|apply orchestration_cells|apply delete_cells].
Qed.

(** What drains and exports leave alone. *)
Definition untouched (cl cl' : Cluster C) : Prop :=
  same_views cl cl' /\ acceptedByTk <$> cellServers cl' = acceptedByTk <$> cellServers cl.

#[local] Instance untouched_preorder : PreOrder untouched.
Proof. split; [by split|]. intros c1 c2 c3 [V1 A1] [V2 A2]. split; [by transitivity c2|congruence]. Qed.

Definition same_player_state (s s' : Server) : Prop := view s' = view s /\ acceptedByTk s' = acceptedByTk s.

Lemma untouched_update id u :
  allows_update env same_player_state u -> steps_in untouched (ForwardCellUpdate (C:=C) env (Some (id, Some u))).
Proof.
  intros Hu. unfold ForwardCellUpdate. destruct (String.eqb id ""); [by steps|]. eapply (frame_update env untouched same_player_state); try done.
  intros ep s s' cl Hs [Hv Ha]. split; [by eapply views_server|]. cbn. rewrite fmap_insert, Ha. apply insert_id. by rewrite lookup_fmap, Hs.
Qed.

Lemma untouched_drain b : steps_in untouched (setSplitDrain (C:=C) env (registryAddr cfg) parent b).
Proof. unfold setSplitDrain. steps. apply frame_registry; [apply _|done|]. by apply untouched_update. Qed.

Lemma untouched_dry_run : steps_in untouched (runMigrationDryRun (C:=C) env cfg parent).
Proof.
  unfold runMigrationDryRun. steps. apply frame_registry; [apply _|done|]. apply untouched_update. intros o s. cbn [Update].
  destruct (Sim s); [|done]. by destruct (marshal env _).
Qed.

Lemma untouched_started ready (cl cl' : Cluster C) : untouched cl cl' -> all_started ready cl -> all_started ready cl'.
Proof.
  intros [[Hst Hv] Ha] [Hst0 Hall]. split; [congruence|]. intros id s' Hid (ep & Hr & Hs').
  assert (view <$> cellServers cl !! ep = Some (view s') /\ acceptedByTk <$> cellServers cl !! ep = Some (acceptedByTk s')) as [E1 E2].
  { by rewrite <- !lookup_fmap, <- Hv, <- Ha, !lookup_fmap, Hs'. }
  destruct (cellServers cl !! ep) as [s|] eqn:Es; [|done]. cbn in E1, E2. injection E1 as _ _ E1. injection E2 as E2.
  unfold started. rewrite <- E1, <- E2. apply (Hall id); [done|]. by exists ep.
Qed.

(** The views of the cells that [cl] and [cl'] agree on. *)
Lemma view_at (cl cl' : Cluster C) id s :
  (forall ep, reaches env c id ep -> view <$> cellServers cl' !! ep = view <$> cellServers cl !! ep) -> cell_at env c cl id s ->
  exists s', cell_at env c cl' id s' /\ view s' = view s.
Proof.
  intros Hv (ep & Hr & Hs). specialize (Hv ep Hr). rewrite Hs in Hv. destruct (cellServers cl' !! ep) as [s'|] eqn:E; [|done].
  exists s'. split; [by exists ep|]. cbn in Hv. injection Hv as V1 V2 V3. unfold view. congruence.
Qed.

Lemma views_at (cl cl' : Cluster C) id s :
  same_views cl cl' -> cell_at env c cl id s -> exists s', cell_at env c cl' id s' /\ view s' = view s.
Proof. intros Hv Hs. apply (cell_at_view env c Hc cl' cl id s (same_views_sym _ _ Hv) Hs). Qed.

(** C14: an attempt to split that succeeds has moved nobody. The parent has no players, had none when it
    began, keeps every NPC and no longer drains; and every child, which had no players either, has a
    copy of all NPCs of the parent, at their positions rounded to single precision. So a parent with
    players is never split: its players would be handed to the children first, and a child with players
    refuses the NPCs. *)
Theorem split_attempt_success children ready attempt (fl : Flow C splitWorkflowEvent) u fl' :
  NoDup (parent :: ready) -> own_endpoints (parent :: ready) -> clean_endpoint -> all_started ready (cluster fl) ->
  handover env cfg parent children ready attempt fl = (Ok u, fl') ->
  Store (cluster fl') = Some c /\
  exists s0 sp, cell_at env c (cluster fl) parent s0 /\ cell_at env c (cluster fl') parent sp /\ view sp = view s0 /\
    splitDrain sp = false /\ (int32 (PlayerCount sp) <= 0)%Z /\
    forall id, id ∈ ready -> exists s s', cell_at env c (cluster fl) id s /\ playerByID s = ∅ /\
      cell_at env c (cluster fl') id s' /\ copy sp s'.
Proof.
  intros Hnd Hown Hclean Hall E. pose proof Hall as [Hst _]. pose proof Hnd as [Hpr _]%NoDup_cons. unfold handover in E.
  apply bind_inv in E as (u1 & fl1 & Ed & E). apply on_error_inv in Ed; [|intros; by eexists].
  apply on_cluster_inv in Ed as [Ed _]. pose proof (untouched_drain true (cluster fl)) as U1. rewrite Ed in U1. cbn [snd] in U1.
  apply bind_inv in E as (u2 & fl2 & [Ex _]%on_cluster_inv & E). pose proof (untouched_dry_run (cluster fl1)) as U2. rewrite Ex in U2. cbn [snd] in U2.
  assert (untouched (cluster fl) (cluster fl2)) as U by by transitivity (cluster fl1).
  apply bind_inv in E as (u3 & fl3 & Hmv & E). apply move_players_inv in Hmv as (Hor & Hst3 & sp3 & Hsp3 & Hpl); [|done..|by eapply untouched_started].
  apply bind_inv in E as (u4 & fl4 & Hcp & E). apply copies_all in Hcp as (Hst4 & Hrest & Hcopies); [|done..].
  assert (same_views (cluster fl) (cluster fl3)) as V3.
  { destruct Hor as [(id & s & Hid & Hat & Hocc)|Hsame]; [|transitivity (cluster fl2); [apply U|by apply same_cells_views]].
    destruct (Hcopies id Hid) as (_ & s1 & _ & _ & Hat1 & Hnone & _). assert (s = s1) as -> by by eapply cell_at_fun. done. }
  apply bind_inv in E as (u5 & fl5 & Ed5 & E). apply on_error_inv in Ed5; [|intros; by eexists].
  apply on_cluster_inv in Ed5 as [Ed5 _]. apply registry_drain_inv in Ed5 as [V5 (sp & Hsp & Hoff)]; [|done].
  pose proof (report_cells children ready attempt fl5) as K. rewrite E in K. cbn [snd] in K. unfold kept_cells in K.
  assert (forall id ep, id ∈ ready -> reaches env c parent ep -> ~ reaches env c id ep) as Hdis.
  { intros id ep Hid R1 R2. apply Hpr. rewrite (Hown parent id ep); [done|left|by right|done..]. }
  destruct (view_at (cluster fl3) (cluster fl4) parent sp3) as (sp4 & Hsp4 & W4); [|done|].
  { intros ep R. apply Hrest. intros id Hid. by apply Hdis. }
  destruct (views_at (cluster fl4) (cluster fl5) parent sp4 V5 Hsp4) as (sp5 & Hsp5 & W5).
  assert (sp5 = sp) as -> by by eapply cell_at_fun. assert (view sp = view sp3) as W by congruence.
  destruct (cell_at_view env c Hc (cluster fl) (cluster fl3) parent sp3 V3 Hsp3) as (s0 & Hs0 & W0).
  split; [destruct K, V5; congruence|]. exists s0, sp. split; [done|]. split; [by apply (same_cells_at (cluster fl5))|].
  split; [congruence|]. split; [done|]. split; [injection W as _ _ W; unfold PlayerCount in *; by rewrite W|].
  intros id Hid. destruct (Hcopies id Hid) as (sp3' & s3 & s4 & Hsp3' & Hs3 & Hnone & Hs4 & Hcopy).
  assert (sp3' = sp3) as -> by by eapply cell_at_fun.
  destruct (cell_at_view env c Hc (cluster fl) (cluster fl3) id s3 V3 Hs3) as (s & Hs & Ws).
  destruct (views_at (cluster fl4) (cluster fl5) id s4 V5 Hs4) as (s5 & Hs5 & W5').
  exists s, s5. split; [done|]. split; [injection Ws as _ _ Ws; congruence|]. split; [by apply (same_cells_at (cluster fl5))|].
  by eapply copy_view.
Qed.
End Split.

(** * A split that succeeds, and one that does not *)

(** A root cell and its four started children; the root is [root]. *)
Definition split_cluster (root : Server) : Cluster Memory :=
  mkCluster (Some merge_catalog) true ∅
    (list_to_map ((fun s => (GrpcEndpoint s, if String.eqb (Id s) "cell_root" then root else fresh_server (Id s))) <$> merge_specs))
    ∅ [] 0.

Definition split_flow (root : Server) : Flow Memory splitWorkflowEvent := mkFlow (split_cluster root) true true [] [] [] ∅ ∅.
Definition split_cfg : splitWorkflowConfig := mkSplitConfig "reg:9100" 2 1000 1500 90000000000 true false.
Definition split_env : Env := merge_env (fun _ => Delivered).
Definition split_children : list string := Id <$> tail merge_specs.

Definition split_run (root : Server) := run split_env split_cfg (fun _ => false) (fun _ cl => cl) "cell_root" (split_flow root).

(** The endpoint of a cell of [merge_catalog]. *)
Definition endpoint_of (id : string) : string :=
  match FindCellByID order_id merge_catalog id with Ok (Some s) => GrpcEndpoint s | _ => "" end.

Lemma reaches_endpoint id ep : reaches split_env merge_catalog id ep -> ep = endpoint_of id.
Proof. intros (spec & Hf & <- & _). unfold endpoint_of. by rewrite Hf. Qed.

Lemma split_endpoints : own_endpoints split_env merge_catalog ("cell_root" :: split_children).
Proof.
  assert (Forall (fun id => Forall (fun id' => endpoint_of id = endpoint_of id' -> id = id') ("cell_root" :: split_children)) ("cell_root" :: split_children)) as Hall.
  { apply (bool_decide_eq_true_1 (Forall _ _)). by vm_compute. }
  intros id id' ep Hid Hid' H1%reaches_endpoint H2%reaches_endpoint. rewrite Forall_forall in Hall. specialize (Hall id Hid).
  rewrite Forall_forall in Hall. apply (Hall id' Hid'). congruence.
Qed.

Lemma split_clean : clean_endpoint merge_catalog "cell_root".
Proof.
  intros o spec Hf. destruct (find_registered o merge_catalog "cell_root" _ Hf) as [[id Hr] _].
  assert (map_Forall (fun _ t => trim_space (GrpcEndpoint t) = GrpcEndpoint t) (cells merge_catalog)) as Hall.
  { apply (bool_decide_eq_true_1 (map_Forall _ _)). by vm_compute. }
  by apply (Hall id spec).
Qed.

Lemma split_started ready root : playerByID root = ∅ -> acceptedByTk root = ∅ -> all_started split_env merge_catalog ready (split_cluster root).
Proof.
  intros Hp Ha. split; [done|]. intros id s _ (ep & _ & Hs). unfold split_cluster in Hs. cbn [cellServers] in Hs.
  apply elem_of_list_to_map_2, list_elem_of_fmap in Hs as (t & [= _ ->] & _). destruct (String.eqb _ _); by intros ?.
Qed.

Lemma split_attempt_success_witness :
  let '(r, fl') := handover split_env split_cfg "cell_root" [] split_children 1 (split_flow (npc_server "cell_root")) in
  is_ok r = true /\ exists sp s', cell_at split_env merge_catalog (cluster fl') "cell_root" sp /\ splitDrain sp = false /\
    cell_at split_env merge_catalog (cluster fl') "cell_q2" s' /\ copy sp s'.
Proof.
  destruct (handover _ _ _ _ _ _ _) as [r fl'] eqn:E. assert (is_ok r = true) as Hok.
  { assert (is_ok (fst (handover split_env split_cfg "cell_root" [] split_children 1 (split_flow (npc_server "cell_root")))) = true) as Hv by by vm_compute.
    by rewrite E in Hv. }
  split; [exact Hok|]. destruct r as [u|e]; [|discriminate Hok].
  assert (NoDup ("cell_root" :: split_children)) as Hnd by (apply (bool_decide_eq_true_1 (NoDup _)); by vm_compute).
  assert ("cell_q2" ∈ split_children) as Hq2 by (apply (bool_decide_eq_true_1 (_ ∈ _)); by vm_compute).
  destruct (@split_attempt_success Memory MemoryCatalog MemoryCatalog_laws split_env merge_catalog merge_catalog_wf (two_codec _)
    split_cfg "cell_root" eq_refl [] split_children 1 (split_flow (npc_server "cell_root")) u fl' Hnd split_endpoints split_clean
    (split_started split_children (npc_server "cell_root") eq_refl eq_refl) E) as (_ & _ & sp & _ & Hsp & _ & Hoff & _ & Hall).
  destruct (Hall _ Hq2) as (_ & s' & _ & _ & Hs' & Hcopy). exists sp, s'. exact (conj Hsp (conj Hoff (conj Hs' Hcopy))).
Defined.

(** The whole workflow splits a root with NPCs only. *)
Example split_npcs : fst (split_run (npc_server "cell_root")) = Ok RunOk.
Proof. by vm_compute. Qed.

(** With a player in the root it fails, after two attempts and both pauses, having asked for the children
    twice; the root is left draining, and the player is in a child. *)
Example split_with_player_fails :
  let '(r, fl') := split_run (fst (Join "bob" (npc_server "cell_root"))) in
  r = Ok RunFailed /\ waited fl' = [1000; 1500]%Z /\ length (control fl') = 8 /\
  (fun s => (splitDrain s, PlayerCount s)) <$> (cellServers (cluster fl') !! endpoint_of "cell_root") = Some (true, 0%Z) /\
  PlayerCount <$> (cellServers (cluster fl') !! endpoint_of "cell_q3") = Some 1%Z.
Proof. by vm_compute. Qed.
