(* ===== verification/Db.v ===== *)
(** [internal/db/db.go]: the PostgreSQL store of the players. Every SQL statement of the file is a
    function on the tables, with the constraints of the schema in [internal/db/migrations]; every
    statement and every commit may be lost on the way, before or after the server has executed it. *)
From Stdlib Require Import Ascii ZArith Lia.
From S2P Require Import Prelude Effects GoFloat GoString.
Local Open Scope string_scope.
Local Open Scope list_scope.

(** * The tables

    One finite map per table, by primary key; the [updated_at], [issued_at] and [id] columns are left out. *)
Record PlayerLastCellRecord := mkLastCell { lc_CellID : string; lc_ResolveX : f64; lc_ResolveZ : f64 }.
Record inventorySlotJSON := mkSlot { sl_ItemID : string; sl_Qty : Z }.
Record PlayerItemRow := mkItemRow { ir_ItemID : string; ir_Quantity : Z; ir_DisplayName : string }.
Record ItemDef := mkItemDef { it_DisplayName : string; it_StackMax : Z }.

(** A row of [mmo_quest_def]; [qd_RewardItemID] is empty when the column is NULL. *)
Record QuestDef := mkQuestDef {
  qd_TargetProgress : Z; qd_RewardGold : Z; qd_RewardItemID : string; qd_RewardItemQty : Z; qd_Prerequisite : option string }.

Record ChainEventRow := mkChainEvent {
  ce_ChainID : Z; ce_BlockNumber : Z; ce_BlockHash : string; ce_TxHash : string; ce_LogIndex : Z;
  ce_ContractAddress : string; ce_EventName : string; ce_Payload : string }.

Record Tables := mkTables {
  session_issue : list string;
  last_cell : gmap string PlayerLastCellRecord;
  profile : gmap string string;
  player_stats : gmap string (Z * Z);
  wallet : gmap string Z;
  inventory : gmap string (list inventorySlotJSON);
  quest : gmap (string * string) (string * Z);
  item_def : gmap string ItemDef;
  player_item : gmap (string * string) Z;
  quest_def : gmap string QuestDef;
  chain_cursor : gmap Z (Z * string);
  chain_event : gmap (Z * string * Z) ChainEventRow;
  wallet_address : gmap string (string * Z) }.

Definition set_session_issue x t := mkTables x (last_cell t) (profile t) (player_stats t) (wallet t) (inventory t) (quest t) (item_def t) (player_item t) (quest_def t) (chain_cursor t) (chain_event t) (wallet_address t).
Definition set_last_cell x t := mkTables (session_issue t) x (profile t) (player_stats t) (wallet t) (inventory t) (quest t) (item_def t) (player_item t) (quest_def t) (chain_cursor t) (chain_event t) (wallet_address t).
Definition set_profile x t := mkTables (session_issue t) (last_cell t) x (player_stats t) (wallet t) (inventory t) (quest t) (item_def t) (player_item t) (quest_def t) (chain_cursor t) (chain_event t) (wallet_address t).
Definition set_player_stats x t := mkTables (session_issue t) (last_cell t) (profile t) x (wallet t) (inventory t) (quest t) (item_def t) (player_item t) (quest_def t) (chain_cursor t) (chain_event t) (wallet_address t).
Definition set_wallet x t := mkTables (session_issue t) (last_cell t) (profile t) (player_stats t) x (inventory t) (quest t) (item_def t) (player_item t) (quest_def t) (chain_cursor t) (chain_event t) (wallet_address t).
Definition set_inventory x t := mkTables (session_issue t) (last_cell t) (profile t) (player_stats t) (wallet t) x (quest t) (item_def t) (player_item t) (quest_def t) (chain_cursor t) (chain_event t) (wallet_address t).
Definition set_quest x t := mkTables (session_issue t) (last_cell t) (profile t) (player_stats t) (wallet t) (inventory t) x (item_def t) (player_item t) (quest_def t) (chain_cursor t) (chain_event t) (wallet_address t).
Definition set_player_item x t := mkTables (session_issue t) (last_cell t) (profile t) (player_stats t) (wallet t) (inventory t) (quest t) (item_def t) x (quest_def t) (chain_cursor t) (chain_event t) (wallet_address t).
Definition set_chain_cursor x t := mkTables (session_issue t) (last_cell t) (profile t) (player_stats t) (wallet t) (inventory t) (quest t) (item_def t) (player_item t) (quest_def t) x (chain_event t) (wallet_address t).
Definition set_chain_event x t := mkTables (session_issue t) (last_cell t) (profile t) (player_stats t) (wallet t) (inventory t) (quest t) (item_def t) (player_item t) (quest_def t) (chain_cursor t) x (wallet_address t).
Definition set_wallet_address x t := mkTables (session_issue t) (last_cell t) (profile t) (player_stats t) (wallet t) (inventory t) (quest t) (item_def t) (player_item t) (quest_def t) (chain_cursor t) (chain_event t) x.

(** * Statements

    A statement reads and changes the tables, or violates a constraint. The order is that in which it
    returns rows: that of the scan, or of the collation of the database for [ORDER BY]. *)
Definition Statement (A : Type) : Type := iter_order -> Tables -> result (A * Tables).

Definition violation (what : string) : error := errorf "ERROR: %s" [AStr what].

(** An [integer] and a [bigint] value. *)
Definition int4 (z : Z) : bool := ((-2 ^ 31 <=? z) && (z <? 2 ^ 31))%Z.
Definition int8 (z : Z) : bool := ((-2 ^ 63 <=? z) && (z <? 2 ^ 63))%Z.

Definition sql_get {A} (f : Tables -> A) : Statement A := fun _ t => Ok (f t, t).

(** [INSERT ... ON CONFLICT DO NOTHING] *)
Definition insert_new {K V} `{Countable K} (k : K) (v : V) (m : gmap K V) : gmap K V :=
  match m !! k with Some _ => m | None => <[k := v]> m end.

Definition insert_session (p : string) : Statement unit := fun _ t => Ok (tt, set_session_issue (session_issue t ++ [p]) t).
Definition upsert_last_cell p (r : PlayerLastCellRecord) : Statement unit := fun _ t => Ok (tt, set_last_cell (<[p := r]> (last_cell t)) t).
Definition upsert_profile p (name : string) : Statement unit := fun _ t => Ok (tt, set_profile (<[p := name]> (profile t)) t).
Definition insert_stats p : Statement unit := fun _ t => Ok (tt, set_player_stats (insert_new p (1, 0)%Z (player_stats t)) t).
Definition insert_wallet p : Statement unit := fun _ t => Ok (tt, set_wallet (insert_new p 0%Z (wallet t)) t).
Definition insert_inventory p : Statement unit := fun _ t => Ok (tt, set_inventory (insert_new p [] (inventory t)) t).
Definition insert_quest_seed p : Statement unit := fun _ t => Ok (tt, set_quest (insert_new (p, "tutorial_intro") ("active", 0%Z) (quest t)) t).

(** The starter item must be in the catalog. *)
Definition insert_starter_item p : Statement unit := fun _ t =>
  match player_item t !! (p, "tutorial_shard"), item_def t !! "tutorial_shard" with
  | Some _, _ => Ok (tt, t)
  | None, Some _ => Ok (tt, set_player_item (<[(p, "tutorial_shard") := 1%Z]> (player_item t)) t)
  | None, None => Err (violation "foreign key")
  end.

(** [UPDATE mmo_player_inventory SET items = $2]: the number of rows. *)
Definition update_inventory p (slots : list inventorySlotJSON) : Statement Z := fun _ t =>
  match inventory t !! p with
  | Some _ => Ok (1%Z, set_inventory (<[p := slots]> (inventory t)) t)
  | None => Ok (0%Z, t)
  end.

(** [UPDATE mmo_player_wallet SET gold = gold + $2] *)
Definition add_gold p (delta : Z) : Statement Z := fun _ t =>
  match wallet t !! p with
  | Some gold =>
      if negb (int8 (gold + delta)) then Err (violation "bigint out of range")
      else if (gold + delta <? 0)%Z then Err (violation "check gold")
      else Ok (1%Z, set_wallet (<[p := (gold + delta)%Z]> (wallet t)) t)
  | None => Ok (0%Z, t)
  end.

(** [INSERT INTO mmo_player_item ... ON CONFLICT DO UPDATE SET quantity = LEAST(stack_max, ...)] *)
Definition upsert_item p i (qty : Z) : Statement unit := fun _ t =>
  if negb (int4 qty) then Err (violation "integer out of range")
  else if (qty <=? 0)%Z then Err (violation "check quantity")
  else match item_def t !! i with
  | None => Err (violation "foreign key")
  | Some def =>
      match player_item t !! (p, i) with
      | None => Ok (tt, set_player_item (<[(p, i) := qty]> (player_item t)) t)
      | Some cur =>
          if negb (int4 (cur + qty)) then Err (violation "integer out of range")
          else let q := Z.min (it_StackMax def) (cur + qty) in
               if (q <=? 0)%Z then Err (violation "check quantity")
               else Ok (tt, set_player_item (<[(p, i) := q]> (player_item t)) t)
      end
  end.

Definition delete_item p i : Statement unit := fun _ t => Ok (tt, set_player_item (delete (p, i) (player_item t)) t).

(** [UPDATE mmo_player_item SET quantity = quantity - $3] *)
Definition subtract_item p i (qty : Z) : Statement unit := fun _ t =>
  match player_item t !! (p, i) with
  | Some cur =>
      if negb (int4 qty) || negb (int4 (cur - qty)) then Err (violation "integer out of range")
      else if (cur - qty <=? 0)%Z then Err (violation "check quantity")
      else Ok (tt, set_player_item (<[(p, i) := (cur - qty)%Z]> (player_item t)) t)
  | None => Ok (tt, t)
  end.

(** The rows of a player joined with the catalog. *)
Definition item_rows (p : string) (o : iter_order) (t : Tables) : list PlayerItemRow :=
  o _ (omap (fun '((p', i), q) =>
    if String.eqb p' p then (fun def => mkItemRow i q (it_DisplayName def)) <$> (item_def t !! i) else None) (map_to_list (player_item t))).

Definition select_items p : Statement (list PlayerItemRow) := fun o t => Ok (item_rows p o t, t).

(** [UPDATE mmo_player_quest SET progress = $3 (, state = ...)] *)
Definition update_quest p q (state : option string) (progress : Z) : Statement unit := fun _ t =>
  if negb (int4 progress) then Err (violation "integer out of range")
  else match quest t !! (p, q) with
  | Some (old, _) => Ok (tt, set_quest (<[(p, q) := (default old state, progress)]> (quest t)) t)
  | None => Ok (tt, t)
  end.

(** The quests whose prerequisite the player has completed and that it does not have yet. *)
Definition unlockable (p : string) (o : iter_order) (t : Tables) : list string :=
  o _ (omap (fun '(q, def) =>
    match qd_Prerequisite def with
    | Some pre =>
        match quest t !! (p, pre), quest t !! (p, q) with
        | Some (st, _), None => if String.eqb st "completed" then Some q else None
        | _, _ => None
        end
    | None => None
    end) (map_to_list (quest_def t))).

Definition insert_unlocked p : Statement (list string) := fun o t =>
  let new := unlockable p o t in
  Ok (new, set_quest (foldr (fun q => <[(p, q) := ("active", 0%Z)]>) (quest t) new) t).

(** [LEFT JOIN mmo_quest_def] *)
Record PlayerQuestAPIRow := mkQuestRow {
  qr_QuestID : string; qr_State : string; qr_Progress : Z; qr_TargetProgress : Z; qr_PrerequisiteQuestID : string }.

Definition select_quests p : Statement (list PlayerQuestAPIRow) := fun o t =>
  Ok (o _ (omap (fun '((p', q), (st, pr)) =>
        if String.eqb p' p then
          Some (match quest_def t !! q with
                | Some def => mkQuestRow q st pr (qd_TargetProgress def) (default "" (qd_Prerequisite def))
                | None => mkQuestRow q st pr 0 ""
                end)
        else None) (map_to_list (quest t))), t).

(** [last_block_number = GREATEST(...)], the hash that of the newer block. *)
Definition upsert_cursor (chain block : Z) (hash : string) : Statement unit := fun _ t =>
  let row := match chain_cursor t !! chain with
             | Some (b, h) => (Z.max b block, if (b <=? block)%Z then hash else h)
             | None => (block, hash)
             end in
  Ok (tt, set_chain_cursor (<[chain := row]> (chain_cursor t)) t).

Definition event_key (ev : ChainEventRow) : Z * string * Z := (ce_ChainID ev, ce_TxHash ev, ce_LogIndex ev).

Definition upsert_event (ev : ChainEventRow) : Statement unit := fun _ t =>
  Ok (tt, set_chain_event (<[event_key ev := ev]> (chain_event t)) t).

(** An address of a chain belongs to one player. *)
Definition upsert_address p (a : string) (chain : Z) : Statement unit := fun _ t =>
  if bool_decide (map_Forall (fun p' v => v = (a, chain) -> p' = p) (wallet_address t))
  then Ok (tt, set_wallet_address (<[p := (a, chain)]> (wallet_address t)) t)
  else Err (violation "unique wallet address").

(** * Running statements

    The state of the server and the number of round trips made. *)
Record Db := mkDb { tables : Tables; trips : nat }.

(** What happens to each round trip, and the order in which its rows come. *)
Record DbEnv := mkDbEnv { db_net : nat -> Outcome; db_order : nat -> iter_order }.

(** A transaction: the server with its own version of the tables, and whether a statement has failed,
    after which PostgreSQL refuses the others. *)
Record Tx := mkTx { work : Db; aborted : bool }.

Inductive finish (A : Type) := Rollback (a : A) | Commit (a : A).
Arguments Rollback {A} _.
Arguments Commit {A} _.

Section Store.
Context (env : DbEnv).

Definition trip (d : Db) : Db := mkDb (tables d) (trips d + 1).

(** A statement on its own ([pool.Exec], [pool.Query], [pool.QueryRow]). *)
Definition exec {A} (f : Statement A) : St Db A := fun d =>
  let r := f (db_order env (trips d)) (tables d) in
  let served := match r with Ok (_, t) => mkDb t (trips d + 1) | Err _ => trip d end in
  match db_net env (trips d) with
  | Delivered => (match r with Ok (a, _) => Ok a | Err e => Err e end, served)
  | LostRequest e => (Err e, trip d)
  | LostReply e => (Err e, served)
  end.

Definition tx_exec {A} (f : Statement A) : St Tx A := fun tx =>
  if aborted tx then (Err (violation "current transaction is aborted"), mkTx (trip (work tx)) true)
  else let '(r, d) := exec f (work tx) in (r, mkTx d (negb (is_ok r))).

(** [pool.Begin], [defer tx.Rollback], [tx.Commit]. *)
Definition transaction {A} (body : St Tx (finish A)) : St Db A := fun d =>
  match db_net env (trips d) with
  | LostRequest e | LostReply e => (Err e, trip d)
  | Delivered =>
      let '(r, tx) := body (mkTx (trip d) false) in
      let back := mkDb (tables d) (trips (work tx) + 1) in
      match r with
      | Err e => (Err e, back)
      | Ok (Rollback a) => (Ok a, back)
      | Ok (Commit a) =>
          if aborted tx then (Err (violation "commit unexpectedly resulted in rollback"), back)
          else match db_net env (trips (work tx)) with
               | Delivered => (Ok a, trip (work tx))
               | LostRequest e => (Err e, back)
               | LostReply e => (Err e, trip (work tx))
               end
      end
  end.

(** * The operations *)

Definition RecordSessionIssue (playerID : string) : St Db unit := exec (insert_session playerID).

Definition GetPlayerLastCellRecord (playerID : string) : St Db (option PlayerLastCellRecord) :=
  exec (sql_get (fun t => last_cell t !! playerID)).

(** The coordinates of the record. *)
Definition GetPlayerLastCellCoords (playerID : string) : St Db (option (f64 * f64)) :=
  rec ← exec (sql_get (fun t => last_cell t !! playerID));
  mret ((fun r => (lc_ResolveX r, lc_ResolveZ r)) <$> rec).

Definition UpsertPlayerLastCell (playerID cellID : string) (resolveX resolveZ : f64) : St Db unit :=
  exec (upsert_last_cell playerID (mkLastCell cellID resolveX resolveZ)).

Definition maxDisplayNameLen : nat := 128.

(** The name is cut after 128 bytes. *)
Definition UpsertPlayerProfile (playerID displayName : string) : St Db unit :=
  let displayName := trim_space displayName in
  if String.eqb displayName "" then mret tt
  else exec (upsert_profile playerID (String.substring 0 maxDisplayNameLen displayName)).

Definition EnsurePlayerStats (playerID : string) : St Db unit := exec (insert_stats playerID).
Definition GetPlayerStats (playerID : string) : St Db (option (Z * Z)) := exec (sql_get (fun t => player_stats t !! playerID)).
Definition EnsurePlayerWallet (playerID : string) : St Db unit := exec (insert_wallet playerID).
Definition GetPlayerWallet (playerID : string) : St Db (option Z) := exec (sql_get (fun t => wallet t !! playerID)).
Definition EnsurePlayerInventory (playerID : string) : St Db unit := exec (insert_inventory playerID).
Definition GetPlayerInventoryItems (playerID : string) : St Db (option (list inventorySlotJSON)) := exec (sql_get (fun t => inventory t !! playerID)).
Definition EnsurePlayerQuestSeed (playerID : string) : St Db unit := exec (insert_quest_seed playerID).
Definition EnsureStarterPlayerItems (playerID : string) : St Db unit := exec (insert_starter_item playerID).
Definition ListPlayerItemsNormalized (playerID : string) : St Db (list PlayerItemRow) := exec (select_items playerID).
Definition ListPlayerQuestsForAPI (playerID : string) : St Db (list PlayerQuestAPIRow) := exec (select_quests playerID).
Definition EnsureUnlockedQuestsForPlayer (playerID : string) : St Db (list string) := exec (insert_unlocked playerID).

(** Older accessor without the catalog. *)
Definition ListPlayerQuests (playerID : string) : St Db (list (string * string * Z)) :=
  rows ← exec (select_quests playerID); mret ((fun r => (qr_QuestID r, qr_State r, qr_Progress r)) <$> rows).

(** [json.Marshal] of the slots does not fail. *)
Definition slots_of (rows : list PlayerItemRow) : list inventorySlotJSON := (fun r => mkSlot (ir_ItemID r) (ir_Quantity r)) <$> rows.

Definition SyncPlayerInventoryJSONB (playerID : string) : St Db unit :=
  rows ← ListPlayerItemsNormalized playerID;
  _ ← EnsurePlayerInventory playerID;
  n ← exec (update_inventory playerID (slots_of rows));
  if (n =? 0)%Z then throw (errorf "inventory row missing after ensure" []) else mret tt.

Definition syncPlayerInventoryJSONBTx (playerID : string) : St Tx unit :=
  rows ← tx_exec (select_items playerID);
  _ ← tx_exec (insert_inventory playerID);
  n ← tx_exec (update_inventory playerID (slots_of rows));
  if (n =? 0)%Z then throw (errorf "inventory row missing after ensure" []) else mret tt.

Definition loadQuestDefTx (questID : string) : St Tx (option QuestDef) := tx_exec (sql_get (fun t => quest_def t !! questID)).

Definition grantWalletGoldTx (playerID : string) (delta : Z) : St Tx unit :=
  if (delta =? 0)%Z then mret tt
  else if (delta <? 0)%Z then throw (errorf "grant gold: negative delta" [])
  else
    n ← tx_exec (add_gold playerID delta);
    if (n =? 0)%Z then throw (errorf "wallet row missing" []) else mret tt.

Definition addPlayerItemQuantityTx (playerID itemID : string) (qty : Z) : St Tx unit :=
  if (qty <=? 0)%Z then mret tt else tx_exec (upsert_item playerID itemID qty).

Definition removePlayerItemQuantityTx (playerID itemID : string) (qty : Z) : St Tx unit :=
  if (qty <=? 0)%Z then throw (errorf "quantity must be > 0" [])
  else
    found ← tx_exec (sql_get (fun t => player_item t !! (playerID, itemID)));
    match found with
    | None => throw (errorf "item not found" [])
    | Some cur =>
        if (cur <? qty)%Z then throw (errorf "insufficient quantity" [])
        else if (cur =? qty)%Z then tx_exec (delete_item playerID itemID)
        else tx_exec (subtract_item playerID itemID qty)
    end.

(** [SELECT 1 FROM mmo_item_def WHERE id = $1] *)
Definition known_item (itemID : string) : St Tx unit :=
  found ← tx_exec (sql_get (fun t => item_def t !! itemID));
  match found with None => throw (errorf "unknown item_id" []) | Some _ => mret tt end.

Definition AddPlayerItemQuantity (playerID itemID : string) (qty : Z) : St Db unit :=
  let itemID := trim_space itemID in
  if (qty <=? 0)%Z then throw (errorf "quantity must be > 0" [])
  else if String.eqb itemID "" then throw (errorf "empty item_id" [])
  else transaction (
    _ ← known_item itemID;
    _ ← addPlayerItemQuantityTx playerID itemID qty;
    _ ← syncPlayerInventoryJSONBTx playerID;
    mret (Commit tt)).

Definition RemovePlayerItemQuantity (playerID itemID : string) (qty : Z) : St Db unit :=
  let itemID := trim_space itemID in
  if String.eqb itemID "" then throw (errorf "empty item_id" [])
  else transaction (
    _ ← removePlayerItemQuantityTx playerID itemID qty;
    _ ← syncPlayerInventoryJSONBTx playerID;
    mret (Commit tt)).

(** The two inserts whose errors are dropped still abort the transaction when they fail. *)
Definition TransferPlayerItems (fromPlayer toPlayer itemID : string) (qty : Z) : St Db unit :=
  let itemID := trim_space itemID in
  let fromPlayer := trim_space fromPlayer in
  let toPlayer := trim_space toPlayer in
  if (qty <=? 0)%Z then throw (errorf "quantity must be > 0" [])
  else if String.eqb itemID "" then throw (errorf "empty item_id" [])
  else if String.eqb fromPlayer "" || String.eqb toPlayer "" then throw (errorf "empty player_id" [])
  else if String.eqb fromPlayer toPlayer then throw (errorf "cannot transfer to self" [])
  else transaction (
    _ ← known_item itemID;
    _ ← removePlayerItemQuantityTx fromPlayer itemID qty;
    _ ← ignore (tx_exec (insert_wallet toPlayer));
    _ ← ignore (tx_exec (insert_inventory toPlayer));
    _ ← addPlayerItemQuantityTx toPlayer itemID qty;
    _ ← syncPlayerInventoryJSONBTx fromPlayer;
    _ ← syncPlayerInventoryJSONBTx toPlayer;
    mret (Commit tt)).

(** ** Quests *)

Record QuestProgressApplyResult := mkApply {
  Completed : bool; Progress : Z; TargetProgress : Z; GoldReward : Z; ItemsRewarded : list PlayerItemRow;
  AlreadyComplete : bool; NewlyUnlockedQuests : list string }.

Definition plain_progress (progress target : Z) : QuestProgressApplyResult := mkApply false progress target 0 [] false [].

(** The rewards and the completion of a quest. *)
Definition complete_quest (playerID questID : string) (def : QuestDef) : St Tx unit :=
  _ ← tx_exec (insert_wallet playerID);
  _ ← grantWalletGoldTx playerID (qd_RewardGold def);
  _ ← (if negb (String.eqb (qd_RewardItemID def) "") && (0 <? qd_RewardItemQty def)%Z
       then addPlayerItemQuantityTx playerID (qd_RewardItemID def) (qd_RewardItemQty def) else mret tt);
  _ ← tx_exec (update_quest playerID questID (Some "completed") (qd_TargetProgress def));
  syncPlayerInventoryJSONBTx playerID.

(** The transaction: the answer, or the definition of the quest that it has completed. *)
Definition progress_tx (playerID questID : string) (progress : Z) : St Tx (finish (QuestProgressApplyResult + QuestDef)) :=
  row ← tx_exec (sql_get (fun t => quest t !! (playerID, questID)));
  match row with
  | None => throw (errorf "quest row not found" [])
  | Some (state, cur) =>
      if String.eqb state "completed" then mret (Rollback (inl (mkApply false cur 0 0 [] true [])))
      else
        def ← loadQuestDefTx questID;
        match def with
        | None =>
            _ ← tx_exec (update_quest playerID questID None progress);
            mret (Commit (inl (plain_progress progress 0)))
        | Some def =>
            if (progress <? qd_TargetProgress def)%Z then
              _ ← tx_exec (update_quest playerID questID None progress);
              mret (Commit (inl (plain_progress progress (qd_TargetProgress def))))
            else
              _ ← complete_quest playerID questID def;
              mret (Commit (inr def))
        end
  end.

Definition find_item (itemID : string) (rows : list PlayerItemRow) : list PlayerItemRow :=
  match find (fun r => String.eqb (ir_ItemID r) itemID) rows with Some r => [r] | None => [] end.

(** After the commit: what was given, and the quests that follow. *)
Definition completed_answer (playerID : string) (def : QuestDef) : St Db QuestProgressApplyResult :=
  let res items new := mkApply true (qd_TargetProgress def) (qd_TargetProgress def) (qd_RewardGold def) items false new in
  let unlock items := unlocked ← EnsureUnlockedQuestsForPlayer playerID; mret (res items unlocked) in
  if negb (String.eqb (qd_RewardItemID def) "") && (0 <? qd_RewardItemQty def)%Z then
    rows ← catch (ListPlayerItemsNormalized playerID);
    match rows with
    | Err _ => mret (res [] [])
    | Ok rows =>
        unlock (match find_item (qd_RewardItemID def) rows with
                | [] => [mkItemRow (qd_RewardItemID def) (qd_RewardItemQty def) ""]
                | items => items
                end)
    end
  else unlock [].

Definition ApplyPlayerQuestProgress (playerID questID : string) (progress : Z) : St Db QuestProgressApplyResult :=
  let questID := trim_space questID in
  if (progress <? 0)%Z then throw (errorf "progress must be >= 0" [])
  else if String.eqb questID "" then throw (errorf "empty quest_id" [])
  else
    out ← transaction (progress_tx playerID questID progress);
    match out with
    | inl res => mret res
    | inr def => completed_answer playerID def
    end.

(** ** Events of the chain *)

Definition UpsertChainCursor (chainID blockNumber : Z) (blockHash : string) : St Db unit :=
  exec (upsert_cursor chainID blockNumber (trim_space blockHash)).

Definition clean_event (ev : ChainEventRow) : ChainEventRow :=
  mkChainEvent (ce_ChainID ev) (ce_BlockNumber ev) (trim_space (ce_BlockHash ev)) (trim_space (ce_TxHash ev)) (ce_LogIndex ev)
    (trim_space (ce_ContractAddress ev)) (trim_space (ce_EventName ev)) (if String.eqb (ce_Payload ev) "" then "{}" else ce_Payload ev).

Definition InsertChainEvents (events : list ChainEventRow) : St Db unit :=
  if Nat.eqb (length events) 0 then mret tt
  else transaction (
    _ ← for_each (fun ev => tx_exec (upsert_event (clean_event ev))) events;
    mret (Commit tt)).

Definition UpsertPlayerWalletAddress (playerID walletAddress : string) (chainID : Z) : St Db unit :=
  let playerID := trim_space playerID in
  let walletAddress := trim_space walletAddress in
  if String.eqb playerID "" || String.eqb walletAddress "" || (chainID <=? 0)%Z then mret tt
  else exec (upsert_address playerID walletAddress chainID).
End Store.
