(* ===== verification/DbProps.v ===== *)
(** What the operations of the store guarantee: the constraints of the schema, transfers of items,
    rewards of quests that are given once, and chain events that may be delivered again. *)
From Stdlib Require Import Ascii ZArith Lia.
From S2P Require Import Prelude Effects GoFloat GoString Db.
Local Open Scope string_scope.
Local Open Scope list_scope.

(** * Reasoning about statements *)

Definition on_tables (R : relation Tables) (d d' : Db) : Prop := R (tables d) (tables d').
Definition on_tx (R : relation Tables) (x x' : Tx) : Prop := R (tables (work x)) (tables (work x')).

#[export] Instance on_tables_preorder R `{!PreOrder R} : PreOrder (on_tables R).
Proof. split; [by intros d; unfold on_tables|]. intros x y z H1 H2. unfold on_tables in *. by transitivity (tables y). Qed.
#[export] Instance on_tx_preorder R `{!PreOrder R} : PreOrder (on_tx R).
Proof. split; [by intros d; unfold on_tx|]. intros x y z H1 H2. unfold on_tx in *. by transitivity (tables (work y)). Qed.

Section Run.
Context (env : DbEnv) (R : relation Tables) `{!PreOrder R}.

(** What a statement does when it violates no constraint. *)
Definition stmt_in {A} (f : Statement A) : Prop := forall o t a t', f o t = Ok (a, t') -> R t t'.

Lemma exec_in {A} (f : Statement A) : stmt_in f -> steps_in (on_tables R) (exec env f).
Proof using Type*.
  intros Hf d. unfold exec, on_tables. specialize (Hf (db_order env (trips d)) (tables d)).
  destruct (f _ _) as [[a t]|e]; (destruct (db_net env (trips d)); cbn; [|done|]); solve [done|by eapply Hf].
Qed.

Lemma tx_exec_in {A} (f : Statement A) : stmt_in f -> steps_in (on_tx R) (tx_exec env f).
Proof using Type*.
  intros Hf tx. unfold tx_exec, on_tx. destruct (aborted tx); [done|]. pose proof (exec_in f Hf (work tx)) as H. by destruct (exec env f (work tx)).
Qed.

Lemma transaction_in {A} (body : St Tx (finish A)) : steps_in (on_tx R) body -> steps_in (on_tables R) (transaction env body).
Proof using Type*.
  intros Hb d. unfold transaction, on_tables. specialize (Hb (mkTx (trip d) false)). unfold on_tx in Hb. cbn in Hb.
  destruct (db_net env (trips d)); [|done..]. destruct (body _) as [[[a|a]|e] tx]; [done| |done].
  destruct (aborted tx); [done|]. by destruct (db_net env (trips (work tx))).
Qed.

Lemma get_in {A} (f : Tables -> A) : stmt_in (sql_get f).
Proof using Type*. by intros o t a t' [= _ <-]. Qed.
End Run.

(** Walks through an operation of the store up to its statements. *)
Ltac db_steps := repeat first [progress steps | apply transaction_in; [apply _|] | apply exec_in; [apply _|] | apply tx_exec_in; [apply _|]].

Section Inv.
Context (env : DbEnv).

Lemma tx_exec_inv {A} (f : Statement A) tx a tx' :
  tx_exec env f tx = (Ok a, tx') ->
  aborted tx = false /\ aborted tx' = false /\ exists o, f o (tables (work tx)) = Ok (a, tables (work tx')).
Proof.
  unfold tx_exec, exec. destruct (aborted tx); [done|]. destruct (db_net env (trips (work tx))); [|done..].
  destruct (f _ _) as [[x t]|e] eqn:E; [|done]. intros [= <- <-]. split; [done|]. split; [done|]. by eexists.
Qed.

Lemma tx_get_inv {A} (f : Tables -> A) tx a tx' :
  tx_exec env (sql_get f) tx = (Ok a, tx') -> aborted tx = false /\ aborted tx' = false /\ tables (work tx') = tables (work tx) /\ a = f (tables (work tx)).
Proof. intros (H1 & H2 & o & [= <- E])%tx_exec_inv. by rewrite E. Qed.

(** A statement whose error is dropped. *)
Lemma tx_ignore_inv {A} (f : Statement A) tx u tx' :
  ignore (tx_exec env f) tx = (Ok u, tx') -> aborted tx' = false -> exists a, tx_exec env f tx = (Ok a, tx').
Proof.
  unfold ignore. intros [= _ E] Ha. unfold tx_exec in *. destruct (aborted tx); [by subst tx'|].
  destruct (exec env f (work tx)) as [[a|e] d]; cbn in E; subst tx'; [by exists a|done].
Qed.

(** All or nothing. *)
Lemma transaction_cases {A} (body : St Tx (finish A)) d r d' :
  transaction env body d = (r, d') ->
  (tables d' = tables d /\ (forall a, r = Ok a -> exists tx, body (mkTx (trip d) false) = (Ok (Rollback a), tx))) \/
  (exists a tx, body (mkTx (trip d) false) = (Ok (Commit a), tx) /\ aborted tx = false /\ tables d' = tables (work tx) /\ (forall x, r = Ok x -> x = a)).
Proof.
  unfold transaction. destruct (db_net env (trips d)); [|intros [= <- <-]; by left..].
  destruct (body _) as [[[a|a]|e] tx] eqn:Eb.
  - intros [= <- <-]. left. split; [done|]. intros x [= <-]. by exists tx.
  - destruct (aborted tx) eqn:Ea; [intros [= <- <-]; by left|].
    destruct (db_net env (trips (work tx))); intros [= <- <-]; [right|by left|right]; exists a, tx; (split; [done|]); (split; [done|]); (split; [done|]); [by intros x [= <-]|done].
  - intros [= <- <-]. by left.
Qed.
End Inv.

(** * Items *)

(** The items of a player as its inventory column should show them. *)
Definition mirrors (t : Tables) (p : string) : Prop :=
  exists slots, inventory t !! p = Some slots /\ slots ≡ₚ slots_of (item_rows p order_id t).

(** The tables but the inventories and the wallets. *)
Definition same_rows (t t' : Tables) : Prop :=
  player_item t' = player_item t /\ item_def t' = item_def t /\ quest t' = quest t /\ quest_def t' = quest_def t.

#[export] Instance same_rows_preorder : PreOrder same_rows.
Proof. split; [done|]. intros t1 t2 t3 (? & ? & ? & ?) (? & ? & ? & ?). unfold same_rows. split_and!; congruence. Qed.

Lemma item_rows_perm p o o' t : item_rows p o t ≡ₚ item_rows p o' t.
Proof. unfold item_rows. by rewrite (visit_perm o), (visit_perm o'). Qed.

Lemma item_rows_same p o t t' : same_rows t t' -> item_rows p o t' = item_rows p o t.
Proof. intros (E1 & E2 & _). unfold item_rows. by rewrite E1, E2. Qed.

Lemma insert_new_lookup {K V} `{Countable K} (k k' : K) (v : V) m :
  insert_new k v m !! k' = if decide (k' = k) then Some (default v (m !! k)) else m !! k'.
Proof.
  unfold insert_new. destruct (decide (k' = k)) as [->|Hne].
  - destruct (m !! k) eqn:E; [done|]. by rewrite lookup_insert_eq.
  - destruct (m !! k); [done|]. by rewrite lookup_insert_ne.
Qed.

Section Items.
Context (env : DbEnv).

Lemma sync_inv p tx u tx' :
  syncPlayerInventoryJSONBTx env p tx = (Ok u, tx') ->
  aborted tx = false /\ aborted tx' = false /\ same_rows (tables (work tx)) (tables (work tx')) /\ wallet (tables (work tx')) = wallet (tables (work tx)) /\
  mirrors (tables (work tx')) p /\ (forall p', p' <> p -> mirrors (tables (work tx)) p' -> mirrors (tables (work tx')) p').
Proof.
  unfold syncPlayerInventoryJSONBTx. intros (rows & tx1 & E1 & E)%bind_inv. apply tx_exec_inv in E1 as (Ha & _ & o & [= <- E1]).
  apply bind_inv in E as (u1 & tx2 & E2 & E). apply tx_exec_inv in E2 as (_ & _ & o2 & [= _ E2]).
  apply bind_inv in E as (n & tx3 & E3 & E). apply tx_exec_inv in E3 as (_ & Ha3 & o3 & E3). unfold update_inventory in E3.
  set (t := tables (work tx)) in *. rewrite <- E2, <- E1 in E3. cbn [inventory set_inventory] in E3.
  rewrite insert_new_lookup, decide_True in E3 by done. injection E3 as <- E3. injection E as _ <-. rewrite <- E3.
  split; [done|]. split; [done|]. split; [done|]. split; [done|]. split.
  - eexists. cbn [inventory set_inventory]. split; [by rewrite lookup_insert_eq|].
    exact (fmap_Permutation _ _ _ (item_rows_perm p o order_id t)).
  - intros p' Hne (slots & Hs & Hperm). exists slots. cbn [inventory set_inventory]. split; [|done].
    by rewrite lookup_insert_ne, insert_new_lookup, decide_False by done.
Qed.

Lemma remove_inv p i qty tx u tx' :
  removePlayerItemQuantityTx env p i qty tx = (Ok u, tx') ->
  aborted tx' = false /\ exists cur, player_item (tables (work tx)) !! (p, i) = Some cur /\ (0 < qty <= cur)%Z /\
    tables (work tx') = set_player_item (if (cur =? qty)%Z then delete (p, i) (player_item (tables (work tx)))
                                         else <[(p, i) := (cur - qty)%Z]> (player_item (tables (work tx)))) (tables (work tx)).
Proof.
  unfold removePlayerItemQuantityTx. destruct (Z.leb_spec qty 0) as [|Hq]; [done|].
  intros (found & tx1 & E1 & E)%bind_inv. apply tx_get_inv in E1 as (_ & _ & Ht & ->).
  destruct (player_item (tables (work tx)) !! (p, i)) as [cur|] eqn:Ec; [|done]. destruct (Z.ltb_spec cur qty) as [|Hle]; [done|].
  destruct (Z.eqb_spec cur qty) as [->|Hne]; apply tx_exec_inv in E as (_ & Ha & o & E).
  - injection E as _ E. split; [done|]. exists qty. rewrite <- E, Ht, Z.eqb_refl. by split_and!.
  - unfold subtract_item in E. rewrite Ht, Ec in E. destruct (_ || _); [done|]. destruct (_ <=? 0)%Z; [done|].
    injection E as _ E. split; [done|]. exists cur. rewrite <- E, (proj2 (Z.eqb_neq cur qty) Hne). by split_and!.
Qed.

(** The quantity after an addition. *)
Definition added (def : ItemDef) (before : option Z) (qty : Z) : Z :=
  match before with Some cur => Z.min (it_StackMax def) (cur + qty) | None => qty end.

Lemma add_inv p i qty tx u tx' :
  (0 < qty)%Z -> addPlayerItemQuantityTx env p i qty tx = (Ok u, tx') ->
  aborted tx = false /\ aborted tx' = false /\ exists def, item_def (tables (work tx)) !! i = Some def /\
    let q := added def (player_item (tables (work tx)) !! (p, i)) qty in
    (0 < q < 2 ^ 31)%Z /\ tables (work tx') = set_player_item (<[(p, i) := q]> (player_item (tables (work tx)))) (tables (work tx)).
Proof.
  intros Hq. unfold addPlayerItemQuantityTx. rewrite (proj2 (Z.leb_gt qty 0) Hq). intros (Ha & Ha' & o & E)%tx_exec_inv.
  split; [done|]. split; [done|]. unfold upsert_item in E. unfold int4 in E. destruct (_ && _) eqn:Er in E; [|done]. cbn [negb] in E.
  apply andb_true_iff in Er as [_ Er%Z.ltb_lt].
  rewrite (proj2 (Z.leb_gt qty 0) Hq) in E. destruct (item_def _ !! i) as [def|]; [|done]. exists def. split; [done|]. unfold added.
  destruct (player_item _ !! (p, i)) as [cur|].
  - destruct (_ && _) eqn:Es in E; [|done]. cbn [negb] in E. apply andb_true_iff in Es as [_ Es%Z.ltb_lt].
    destruct (Z.leb_spec (Z.min (it_StackMax def) (cur + qty)) 0) as [|Hp]; [done|]. injection E as _ E. split; [lia|done].
  - injection E as _ E. split; [lia|done].
Qed.

Definition quantity (t : Tables) (p i : string) : Z := default 0%Z (player_item t !! (p, i)).

(** What a transfer does to the tables when it is committed. *)
Definition transferred (p p' i : string) (qty : Z) (t t' : Tables) : Prop :=
  exists cur def, player_item t !! (p, i) = Some cur /\ (0 < qty <= cur)%Z /\ item_def t !! i = Some def /\ p <> p' /\
    player_item t' !! (p, i) = (if (cur =? qty)%Z then None else Some (cur - qty)%Z) /\
    player_item t' !! (p', i) = Some (added def (player_item t !! (p', i)) qty) /\
    (forall k, k <> (p, i) -> k <> (p', i) -> player_item t' !! k = player_item t !! k) /\
    mirrors t' p /\ mirrors t' p'.

Lemma transfer_inv from to item qty d r d' :
  TransferPlayerItems env from to item qty d = (r, d') ->
  let p := trim_space from in let p' := trim_space to in let i := trim_space item in
  let t := tables d in let t' := tables d' in
  (t' = t /\ is_ok r = false) \/
  (transferred p p' i qty t t' /\
   forall def, item_def t !! i = Some def ->
     (quantity t' p i + quantity t' p' i = quantity t p i + quantity t p' i -
      match player_item t !! (p', i) with Some b => Z.max 0 (b + qty - it_StackMax def) | None => 0 end)%Z).
Proof.
  intros E p p' i t t'. unfold TransferPlayerItems in E. fold p p' i in E.
  destruct (Z.leb_spec qty 0) as [|Hq]; [injection E as <- <-; by left|].
  destruct (String.eqb i ""); [injection E as <- <-; by left|]. destruct (_ || _); [injection E as <- <-; by left|].
  destruct (String.eqb_spec p p') as [|Hne]; [injection E as <- <-; by left|].
  apply transaction_cases in E as [(Ht & Hr)|(a & tx & Eb & Ha & Ht & _)].
  { left. split; [done|]. destruct r as [u|]; [|done]. destruct (Hr u eq_refl) as [tx Eb].
    repeat (apply bind_inv in Eb as (? & ? & _ & Eb)). discriminate Eb. }
  right. apply bind_inv in Eb as (u1 & x1 & E1 & Eb). unfold known_item in E1. apply bind_inv in E1 as (found & x0 & E0 & E1).
  apply tx_get_inv in E0 as (_ & _ & T0 & ->). destruct (item_def _ !! i) as [def|] eqn:Ed; [|done]. injection E1 as _ <-.
  apply bind_inv in Eb as (u2 & x2 & E2 & Eb). apply remove_inv in E2 as (_ & cur & Hc & Hle & T2).
  apply bind_inv in Eb as (u3 & x3 & E3 & Eb). apply bind_inv in Eb as (u4 & x4 & E4 & Eb).
  apply bind_inv in Eb as (u5 & x5 & E5 & Eb). apply add_inv in E5 as (A4 & A5 & def' & Hd' & Hrange & T5); [|done].
  apply tx_ignore_inv in E4 as [a4 E4]; [|done]. apply tx_exec_inv in E4 as (A3 & _ & o4 & [= _ T4]).
  apply tx_ignore_inv in E3 as [a3 E3]; [|done]. apply tx_exec_inv in E3 as (_ & _ & o3 & [= _ T3]).
  apply bind_inv in Eb as (u6 & x6 & E6 & Eb). apply sync_inv in E6 as (_ & _ & S6 & _ & M6 & _).
  apply bind_inv in Eb as (u7 & x7 & E7 & Eb). apply sync_inv in E7 as (_ & _ & S7 & _ & M7 & K7). injection Eb as _ <-.
  change (tables (work (mkTx (trip d) false))) with t in *. fold t' in Ht. rewrite T0 in *.
  rewrite <- T4, <- T3, T2 in Hd', T5, Hrange. cbn in Hd', T5, Hrange. assert (def' = def) as -> by congruence.
  assert (forall k, (if (cur =? qty)%Z then delete (p, i) (player_item t) else <[(p, i):=(cur - qty)%Z]> (player_item t)) !! k =
    if decide (k = (p, i)) then (if (cur =? qty)%Z then None else Some (cur - qty)%Z) else player_item t !! k) as Hk.
  { intros k. destruct (decide (k = (p, i))) as [->|Hk]; destruct (cur =? qty)%Z; [by rewrite lookup_delete_eq|by rewrite lookup_insert_eq|by rewrite lookup_delete_ne|by rewrite lookup_insert_ne]. }
  assert ((p', i) <> (p, i)) as Hne' by congruence. rewrite Hk, decide_False in T5 by done.
  assert (player_item t' = <[(p', i) := added def (player_item t !! (p', i)) qty]>
    (if (cur =? qty)%Z then delete (p, i) (player_item t) else <[(p, i):=(cur - qty)%Z]> (player_item t))) as Hitems.
  { destruct S6 as (S6 & _), S7 as (S7 & _). by rewrite Ht, S7, S6, T5. }
  assert (player_item t' !! (p, i) = if (cur =? qty)%Z then None else Some (cur - qty)%Z) as Hp.
  { by rewrite Hitems, lookup_insert_ne, Hk, decide_True by done. }
  assert (player_item t' !! (p', i) = Some (added def (player_item t !! (p', i)) qty)) as Hp' by by rewrite Hitems, lookup_insert_eq.
  split.
  - exists cur, def. split; [done|]. split; [done|]. split; [done|]. split; [done|]. split; [done|]. split; [done|]. split.
    + intros k Hk1 Hk2. by rewrite Hitems, lookup_insert_ne, Hk, decide_False by done.
    + rewrite Ht. split; [by apply K7|done].
  - intros def0 Hd0. assert (def0 = def) as -> by congruence. unfold quantity. rewrite Hp, Hp', Hc. cbn [default]. unfold added.
    destruct (Z.eqb_spec cur qty) as [->|], (player_item t !! (p', i)) as [b|]; cbn; lia.
Qed.

(** C15: a transfer of items, whatever statement or reply is lost, either leaves the tables as they were,
    and then its caller is told of an error, or is done in full: the sender had the items and has so
    many less (no row for none), the receiver has so many more, up to the stack limit of the item, no
    other player's item changes, and the inventory columns of both show their items. The items that do
    not fit on the receiver's stack, and only they, are lost. *)
Theorem transfer_all_or_nothing from to item qty d :
  let '(r, d') := TransferPlayerItems env from to item qty d in
  let p := trim_space from in let p' := trim_space to in let i := trim_space item in
  let t := tables d in let t' := tables d' in
  (t' = t /\ is_ok r = false) \/
  (transferred p p' i qty t t' /\
   forall def, item_def t !! i = Some def ->
     (quantity t' p i + quantity t' p' i = quantity t p i + quantity t p' i -
      match player_item t !! (p', i) with Some b => Z.max 0 (b + qty - it_StackMax def) | None => 0 end)%Z).
Proof. destruct (TransferPlayerItems env from to item qty d) as [r d'] eqn:E. exact (transfer_inv _ _ _ _ _ _ _ E). Qed.
End Items.

(** * Quests *)

Lemma map_sum_insert {K V} `{Countable K} (c : K -> V -> Z) (m : gmap K V) k v :
  (map_fold (fun k v acc => acc + c k v) 0 (<[k := v]> m) =
   map_fold (fun k v acc => acc + c k v) 0 m - match m !! k with Some v0 => c k v0 | None => 0 end + c k v)%Z.
Proof.
  assert (forall m' k' v', m' !! k' = None ->
    map_fold (fun k v acc => acc + c k v)%Z 0%Z (<[k' := v']> m') = (map_fold (fun k v acc => acc + c k v) 0 m' + c k' v')%Z) as Hnew.
  { intros m' k' v' Hm. rewrite map_fold_insert_L; [done|intros; lia|done]. }
  destruct (m !! k) as [v0|] eqn:E; [|rewrite Hnew by done; lia].
  rewrite <- (insert_delete_eq m k v), Hnew by apply lookup_delete_eq.
  rewrite <- (insert_delete_id m k v0 E) at 2. rewrite Hnew by apply lookup_delete_eq. lia.
Qed.

Definition gold (t : Tables) (p : string) : Z := default 0%Z (wallet t !! p).
Definition reward (t : Tables) (q : string) : Z := match quest_def t !! q with Some def => qd_RewardGold def | None => 0%Z end.
Definition completed (t : Tables) (p q : string) : Prop := exists pr, quest t !! (p, q) = Some ("completed", pr).

(** The gold of the completed quests of a player. *)
Definition earned_by (t : Tables) (p : string) (k : string * string) (row : string * Z) : Z :=
  if bool_decide (k.1 = p /\ row.1 = "completed") then reward t k.2 else 0%Z.
Definition earned (t : Tables) (p : string) : Z := map_fold (fun k row acc => acc + earned_by t p k row)%Z 0%Z (quest t).

(** The items that a player has once the reward of a quest is handed out: so many more of its item, up to
    the stack limit, or just so many when it had none. *)
Definition hand_out (t : Tables) (m : gmap (string * string) Z) (k : string * string) : gmap (string * string) Z :=
  match quest_def t !! k.2 with
  | Some def =>
      if negb (String.eqb (qd_RewardItemID def) "") && (0 <? qd_RewardItemQty def)%Z
      then match item_def t !! qd_RewardItemID def with
           | Some idef => <[(k.1, qd_RewardItemID def) := added idef (m !! (k.1, qd_RewardItemID def)) (qd_RewardItemQty def)]> m
           | None => m
           end
      else m
  | None => m
  end.

(** The items of the quests completed between [t] and [t'], each handed out once, are all that changes. *)
Definition handed_out (t t' : Tables) : Prop :=
  exists l, NoDup l /\ (forall p q, (p, q) ∈ l <-> completed t' p q /\ ~ completed t p q) /\
    player_item t' = foldl (hand_out t) (player_item t) l.

(** Gold and items come and quests get completed together. *)
Definition fair (t t' : Tables) : Prop :=
  quest_def t' = quest_def t /\ (forall p, gold t' p - earned t' p = gold t p - earned t p)%Z /\
  (forall p q, completed t p q -> completed t' p q) /\ item_def t' = item_def t /\ handed_out t t'.

#[export] Instance completed_dec t p q : Decision (completed t p q).
Proof.
  refine (match quest t !! (p, q) as o return quest t !! (p, q) = o -> Decision (completed t p q) with
    | Some (st, pr) => fun E => if decide (st = "completed") then left _ else right _
    | None => fun E => right _ end eq_refl).
  - exists pr. by subst.
  - intros [pr' E']. congruence.
  - intros [pr' E']. congruence.
Defined.

#[export] Instance fair_preorder : PreOrder fair.
Proof.
  split.
  - intros t. split_and!; try done. exists []. split; [constructor|]. split; [|done]. intros p q. rewrite elem_of_nil. tauto.
  - intros t1 t2 t3 (D1 & G1 & C1 & I1 & l1 & N1 & L1 & P1) (D2 & G2 & C2 & I2 & l2 & N2 & L2 & P2). split; [congruence|].
    split; [intros p; by rewrite G2|]. split; [auto|]. split; [congruence|]. exists (l1 ++ l2). split; [|split].
    + apply NoDup_app. split; [done|]. split; [|done]. intros [p q] H1%L1 H2%L2. tauto.
    + intros p q. rewrite elem_of_app, L1, L2. specialize (C1 p q). specialize (C2 p q). destruct (decide (completed t2 p q)); tauto.
    + rewrite foldl_app, <- P1, P2. f_equal. unfold hand_out. by rewrite D1, I1.
Qed.

Lemma handed_nothing t t' : player_item t' = player_item t -> (forall p q, completed t' p q -> completed t p q) -> handed_out t t'.
Proof. intros Hp Hc. exists []. split; [constructor|]. split; [|done]. intros p q. rewrite elem_of_nil. specialize (Hc p q). tauto. Qed.

(** Tables with the same rows of quests, wallets and items. *)
Lemma fair_same t t' :
  quest_def t' = quest_def t -> quest t' = quest t -> wallet t' = wallet t -> item_def t' = item_def t -> player_item t' = player_item t -> fair t t'.
Proof.
  intros Ed Eq Ew Ei Ep. split; [done|]. split; [|split; [intros p q; unfold completed; by rewrite Eq|]].
  - intros p. unfold gold, earned, earned_by, reward. by rewrite Ed, Eq, Ew.
  - split; [done|]. apply handed_nothing; [done|]. intros p q. unfold completed. by rewrite Eq.
Qed.

Lemma gold_new p p' t : gold (set_wallet (insert_new p' 0%Z (wallet t)) t) p = gold t p.
Proof. unfold gold. cbn. rewrite insert_new_lookup. destruct (decide (p = p')) as [->|]; [|done]. by destruct (wallet t !! p'). Qed.

(** A row of a quest changes. *)
Lemma earned_insert t k row p :
  earned (set_quest (<[k := row]> (quest t)) t) p =
  (earned t p - match quest t !! k with Some old => earned_by t p k old | None => 0 end + earned_by t p k row)%Z.
Proof. unfold earned. exact (map_sum_insert (earned_by t p) (quest t) k row). Qed.

Lemma fair_wallet p : stmt_in fair (insert_wallet p).
Proof.
  intros o t a t' [= _ <-]. split; [done|]. split; [intros p'; by rewrite gold_new|]. split; [done|]. split; [done|]. by apply handed_nothing.
Qed.

(** A row that is not completed before and after. *)
Lemma fair_open p q st pr t :
  st <> "completed" -> (forall pr', quest t !! (p, q) <> Some ("completed", pr')) -> fair t (set_quest (<[(p, q) := (st, pr)]> (quest t)) t).
Proof.
  intros Hst Hold. split; [done|]. split; [|split; [|split; [done|]]].
  - intros p'. rewrite earned_insert. change (gold (set_quest _ t) p') with (gold t p'). unfold earned_by at 2. cbn [fst snd].
    rewrite bool_decide_eq_false_2 by tauto. destruct (quest t !! (p, q)) as [[old opr]|] eqn:E; [|lia].
    unfold earned_by. cbn [fst snd]. rewrite bool_decide_eq_false_2; [lia|]. intros [_ ->]. by apply (Hold opr).
  - intros p' q' [pr' Hc]. exists pr'. cbn. rewrite lookup_insert_ne; [done|]. intros [= <- <-]. by apply (Hold pr').
  - apply handed_nothing; [done|]. intros p' q' [pr' Hc]. exists pr'. cbn in Hc. apply lookup_insert_Some in Hc as [[_ [=]]|[_ Hc]]; done.
Qed.

Lemma fair_unlocked p : stmt_in fair (insert_unlocked p).
Proof.
  intros o t a t' [= <- <-]. set (l := unlockable p o t).
  assert (forall q, q ∈ l -> quest t !! (p, q) = None) as Hl.
  { intros q. unfold l, unlockable. rewrite (elem_of_visit o), list_elem_of_omap. intros ([q' def] & _ & Hq).
    destruct (qd_Prerequisite def) as [pre|]; [|done]. destruct (quest t !! (p, pre)) as [[st ?]|]; [|done].
    destruct (quest t !! (p, q')) eqn:E; [done|]. destruct (String.eqb st _); [|done]. by injection Hq as <-. }
  clearbody l. induction l as [|q l IH]; cbn [foldr].
  { apply fair_same; by destruct t. }
  etrans; [apply IH; intros q' Hq'; apply Hl; by right|]. set (t1 := set_quest (foldr _ _ l) t).
  apply (fair_open p q "active" 0 t1); [done|]. intros pr'. unfold t1. cbn. specialize (Hl q ltac:(left)). revert Hl. clear. intros Hl.
  induction l as [|q' l IH]; cbn [foldr]; [by rewrite Hl|]. destruct (decide (q' = q)) as [->|Hne]; [by rewrite lookup_insert_eq|].
  rewrite lookup_insert_ne by congruence. exact IH.
Qed.

(** The tables of quests and wallets are untouched. *)
Definition same_quests (t t' : Tables) : Prop := quest_def t' = quest_def t /\ quest t' = quest t /\ wallet t' = wallet t /\ item_def t' = item_def t.

#[export] Instance same_quests_preorder : PreOrder same_quests.
Proof. split; [done|]. intros t1 t2 t3 (? & ? & ? & ?) (? & ? & ? & ?). unfold same_quests. split_and!; congruence. Qed.

Lemma quests_item p i qty : stmt_in same_quests (upsert_item p i qty).
Proof.
  intros o t a t'. unfold upsert_item. destruct (negb _); [done|]. destruct (qty <=? 0)%Z; [done|]. destruct (item_def t !! i); [|done].
  destruct (player_item t !! (p, i)); [|by intros [= _ <-]]. destruct (negb _); [done|]. destruct (_ <=? 0)%Z; [done|]. by intros [= _ <-].
Qed.

Section Quests.
Context (env : DbEnv).

Lemma quests_sync p : steps_in (on_tx same_quests) (syncPlayerInventoryJSONBTx env p).
Proof.
  unfold syncPlayerInventoryJSONBTx. db_steps.
  - by intros o t a t' [= _ <-].
  - by intros o t a' t' [= _ <-].
  - intros o t a' t'. unfold update_inventory. destruct (inventory t !! p); by intros [= _ <-].
Qed.

Lemma grant_inv p delta tx u tx' :
  grantWalletGoldTx env p delta tx = (Ok u, tx') -> is_Some (wallet (tables (work tx)) !! p) ->
  let t := tables (work tx) in
  tables (work tx') = set_wallet (<[p := (gold t p + delta)%Z]> (wallet t)) t.
Proof.
  unfold grantWalletGoldTx. intros E [g Hg]. cbv zeta. unfold gold. rewrite Hg. cbn [default].
  destruct (Z.eqb_spec delta 0) as [->|Hd].
  { injection E as _ <-. rewrite Z.add_0_r, insert_id by done. by destruct (tables (work tx)). }
  destruct (delta <? 0)%Z; [done|]. apply bind_inv in E as (n & tx1 & E1 & E).
  apply tx_exec_inv in E1 as (_ & _ & o & E1). unfold add_gold in E1. rewrite Hg in E1. destruct (negb _); [done|].
  destruct (_ <? 0)%Z; [done|]. injection E1 as <- E1. injection E as _ <-. by rewrite <- E1.
Qed.

Lemma complete_inv p q def st pr tx u tx' :
  complete_quest env p q def tx = (Ok u, tx') -> quest_def (tables (work tx)) !! q = Some def ->
  quest (tables (work tx)) !! (p, q) = Some (st, pr) -> st <> "completed" ->
  aborted tx' = false /\ fair (tables (work tx)) (tables (work tx')) /\ completed (tables (work tx')) p q.
Proof.
  set (t := tables (work tx)). unfold complete_quest. intros (u1 & x1 & E1 & E)%bind_inv Hdef Hrow Hst.
  apply tx_exec_inv in E1 as (_ & _ & o1 & [= _ E1]). apply bind_inv in E as (u2 & x2 & E2 & E).
  apply grant_inv in E2 as T2. 2:{ rewrite <- E1. cbn. rewrite insert_new_lookup, decide_True by done. by eexists. }
  apply bind_inv in E as (u3 & x3 & E3 & E).
  assert (item_def (tables (work x2)) = item_def t /\ player_item (tables (work x2)) = player_item t) as [TI2 TP2] by by rewrite T2, <- E1.
  assert (same_quests (tables (work x2)) (tables (work x3)) /\ player_item (tables (work x3)) = hand_out t (player_item t) (p, q)) as [T3 P3].
  { unfold hand_out. cbn [fst snd]. fold t in Hdef. rewrite Hdef. destruct (_ && _) eqn:Er; [|by injection E3 as _ <-].
    apply andb_true_iff in Er as [_ Er%Z.ltb_lt]. pose proof E3 as E3'. apply add_inv in E3' as (_ & _ & idef & Hi & _ & E3'); [|done].
    rewrite TI2 in Hi. rewrite Hi, E3', TP2. done. }
  apply bind_inv in E as (u4 & x4 & E4 & E). apply tx_exec_inv in E4 as (_ & _ & o4 & T4).
  pose proof (quests_sync p x4) as T5. rewrite E in T5. cbn [snd] in T5. unfold on_tx in T5. apply sync_inv in E as (_ & Ha & (P5 & _) & _).
  split; [exact Ha|]. destruct T3 as (D3 & Q3 & W3 & I3), T5 as (D5 & Q5 & W5 & I5).
  assert (quest (tables (work x3)) = quest t) as Q3' by by rewrite Q3, T2, <- E1.
  assert (quest_def (tables (work x3)) = quest_def t) as D3' by by rewrite D3, T2, <- E1.
  unfold update_quest in T4. destruct (int4 _); cbn [negb] in T4; [|done]. rewrite Q3', Hrow in T4. injection T4 as _ T4. cbn [default] in T4.
  assert (forall p', gold (tables (work x3)) p' = (gold t p' + if decide (p' = p) then qd_RewardGold def else 0)%Z) as Hgold.
  { intros p'. unfold gold at 1. rewrite W3, T2. cbn [wallet set_wallet]. destruct (decide (p' = p)) as [->|Hne].
    - rewrite lookup_insert_eq. cbn [default]. rewrite <- E1, gold_new. done.
    - rewrite lookup_insert_ne by done. change (default 0%Z (wallet (tables (work x1)) !! p')) with (gold (tables (work x1)) p').
      rewrite <- E1, gold_new. fold t. lia. }
  assert (forall p' q', completed (tables (work tx')) p' q' <-> (p', q') = (p, q) \/ completed t p' q') as Hcomp.
  { intros p' q'. unfold completed. rewrite Q5, <- T4. cbn [quest set_quest]. destruct (decide ((p', q') = (p, q))) as [[= -> ->]|Hne].
    - rewrite lookup_insert_eq. split; [by left|]. intros _. by eexists.
    - rewrite lookup_insert_ne by done. tauto. }
  split; [split; [|split; [|split; [|split]]]|].
  - by rewrite D5, <- T4.
  - intros p'. assert (gold (tables (work tx')) p' = gold (tables (work x3)) p') as -> by (unfold gold; by rewrite W5, <- T4).
    assert (earned (tables (work tx')) p' = earned (set_quest (<[(p, q) := ("completed", qd_TargetProgress def)]> (quest t)) t) p') as ->.
    { unfold earned, earned_by, reward. rewrite Q5, D5, <- T4. cbn [quest quest_def set_quest]. by rewrite D3'. }
    rewrite Hgold, earned_insert, Hrow. unfold earned_by at 1 2. cbn [fst snd]. rewrite (bool_decide_eq_false_2 (p = p' /\ st = _)) by tauto.
    unfold reward. rewrite Hdef. destruct (decide (p' = p)) as [->|Hne]; [rewrite bool_decide_eq_true_2 by done|rewrite bool_decide_eq_false_2 by (intros [? _]; congruence)]; lia.
  - intros p' q' Hc. apply Hcomp. by right.
  - by rewrite I5, <- T4, <- TI2, <- I3.
  - exists [(p, q)]. split; [by repeat constructor; intros ?%elem_of_nil|]. split.
    + intros p' q'. rewrite list_elem_of_singleton, Hcomp. split; [|tauto]. intros [= -> ->]. split; [by left|]. intros [pr' Hc]. fold t in Hrow. congruence.
    + cbn [foldl]. by rewrite P5, <- T4, <- P3.
  - apply Hcomp. by left.
Qed.

Lemma progress_tx_inv p q progress tx fin tx' :
  progress_tx env p q progress tx = (Ok fin, tx') ->
  fair (tables (work tx)) (tables (work tx')) /\
  match fin with
  | Rollback (inl res) => completed (tables (work tx)) p q /\ Completed res = false /\ AlreadyComplete res = true
  | Commit (inl res) => Completed res = false /\ AlreadyComplete res = false
  | Commit (inr def) => quest_def (tables (work tx)) !! q = Some def /\ ~ completed (tables (work tx)) p q /\ completed (tables (work tx')) p q
  | Rollback (inr _) => False
  end.
Proof.
  unfold progress_tx. intros (row & x1 & E1 & E)%bind_inv. apply tx_get_inv in E1 as (_ & _ & T1 & ->).
  destruct (quest (tables (work tx)) !! (p, q)) as [[st cur]|] eqn:Hrow; [|done].
  destruct (String.eqb_spec st "completed") as [->|Hst].
  { injection E as <- <-. rewrite T1. split; [done|]. split; [by exists cur|done]. }
  apply bind_inv in E as (def & x2 & E2 & E). apply tx_get_inv in E2 as (_ & _ & T2 & ->). rewrite T1 in *.
  assert (forall pr, quest (tables (work tx)) !! (p, q) <> Some ("completed", pr)) as Hopen by (intros pr Hc; rewrite Hc in Hrow; congruence).
  assert (forall u x3, tx_exec env (update_quest p q None progress) x2 = (Ok u, x3) -> fair (tables (work tx)) (tables (work x3))) as Hupd.
  { intros u x3 (_ & _ & o & E3)%tx_exec_inv. unfold update_quest in E3. destruct (int4 progress); cbn [negb] in E3; [|done].
    rewrite T2, Hrow in E3. injection E3 as _ <-. by apply fair_open. }
  destruct (quest_def (tables (work tx)) !! q) as [def|] eqn:Hdef.
  2:{ apply bind_inv in E as (u & x3 & E3 & E). injection E as <- <-. split; [by eapply Hupd|done]. }
  destruct (progress <? qd_TargetProgress def)%Z.
  { apply bind_inv in E as (u & x3 & E3 & E). injection E as <- <-. split; [by eapply Hupd|done]. }
  apply bind_inv in E as (u & x3 & E3 & E). injection E as <- <-.
  apply (complete_inv p q def st cur) in E3 as (_ & Hf & Hc); [|by rewrite T2..|done]. rewrite T2 in Hf.
  split; [done|]. split; [done|]. split; [|done]. intros [pr Hc']. by apply (Hopen pr).
Qed.

Lemma completed_answer_fair p def : steps_in (on_tables fair) (completed_answer env p def).
Proof.
  unfold completed_answer, ListPlayerItemsNormalized, EnsureUnlockedQuestsForPlayer. db_steps; try apply fair_unlocked.
  by intros o t a t' [= _ <-].
Qed.

Lemma completed_answer_Ok p def d r d' res :
  completed_answer env p def d = (r, d') -> r = Ok res -> Completed res = true /\ AlreadyComplete res = false /\ GoldReward res = qd_RewardGold def.
Proof.
  intros E ->. unfold completed_answer in E. destruct (_ && _).
  - apply bind_inv in E as (rows & d1 & _ & E). destruct rows as [rows|e]; [|by injection E as <- _].
    apply bind_inv in E as (new & d2 & _ & E). by injection E as <- _.
  - apply bind_inv in E as (new & d2 & _ & E). by injection E as <- _.
Qed.

Lemma apply_progress p q progress d r d' :
  ApplyPlayerQuestProgress env p q progress d = (r, d') ->
  fair (tables d) (tables d') /\
  forall res, r = Ok res ->
    (AlreadyComplete res = true -> tables d' = tables d /\ completed (tables d) p (trim_space q)) /\
    (Completed res = true -> ~ completed (tables d) p (trim_space q) /\ completed (tables d') p (trim_space q) /\
       GoldReward res = reward (tables d) (trim_space q)).
Proof.
  unfold ApplyPlayerQuestProgress. set (q' := trim_space q). destruct (progress <? 0)%Z; [by intros [= <- <-]|].
  destruct (String.eqb q' ""); [by intros [= <- <-]|]. unfold mbind, St_bind.
  destruct (transaction env (progress_tx env p q' progress) d) as [rt d1] eqn:Et. intros E.
  apply transaction_cases in Et as [(Ht & Hr)|(out & tx & Eb & _ & Ht & Hr)].
  - destruct rt as [out|e]; [|injection E as <- <-; by rewrite Ht]. destruct (Hr out eq_refl) as [tx Eb].
    apply progress_tx_inv in Eb as [_ Hout]. destruct out as [res|def]; [|done]. injection E as <- <-. rewrite Ht.
    split; [done|]. intros res' [= <-]. destruct Hout as (Hc & H1 & H2). rewrite H1. by split.
  - apply progress_tx_inv in Eb as [Hf Hout]. change (tables (work (mkTx (trip d) false))) with (tables d) in *. rewrite <- Ht in *.
    destruct rt as [out'|e]; [|injection E as <- <-; by split]. rewrite (Hr out' eq_refl) in E. destruct out as [res|def].
    + injection E as <- <-. split; [done|]. intros res' [= <-]. destruct Hout as [H1 H2]. by rewrite H1, H2.
    + destruct Hout as (Hdef & Hn & Hc). pose proof (completed_answer_fair p def d1) as Hf2. rewrite E in Hf2. cbn [snd] in Hf2.
      split; [by transitivity (tables d1)|]. intros res Hres. destruct (completed_answer_Ok p def d1 r d' res E Hres) as (H1 & H2 & H3).
      rewrite H2. split; [done|]. intros _. split; [done|]. split; [by apply Hf2|]. unfold reward. by rewrite Hdef.
Qed.
End Quests.

(** A series of reports of progress, each over its own network. *)
Definition reports (l : list (DbEnv * string * string * Z)) (d : Db) : Db :=
  foldl (fun d '(env, p, q, n) => snd (ApplyPlayerQuestProgress env p q n d)) d l.

Lemma reports_fair l d : fair (tables d) (tables (reports l d)).
Proof.
  revert d. induction l as [|[[[env p] q] n] l IH]; intros d; [done|]. etrans; [|apply IH]. cbn.
  destruct (ApplyPlayerQuestProgress env p q n d) as [r d'] eqn:E. by apply apply_progress in E as [? _].
Qed.

(** C16: the reward of a quest is given once. After any series of reports of progress, repeated at will
    and with any request or reply lost, every player has as much gold more as the quests that it has
    completed meanwhile are worth, each counted once; the items of the players are the former ones with the
    reward items of just these quests added, each once, in some order, a stack up to its limit
    (a new stack is not limited); and no quest gets uncompleted. A report that is answered with a completion is the one that completed the
    quest and names its gold; one that is answered with an earlier completion has changed nothing. *)
Theorem quest_rewards_once l d0 env p q progress :
  let d := reports l d0 in
  let '(r, d') := ApplyPlayerQuestProgress env p q progress d in
  (forall x, gold (tables d') x - earned (tables d') x = gold (tables d0) x - earned (tables d0) x)%Z /\
  (exists ks, NoDup ks /\ (forall x y, (x, y) ∈ ks <-> completed (tables d') x y /\ ~ completed (tables d0) x y) /\
     player_item (tables d') = foldl (hand_out (tables d0)) (player_item (tables d0)) ks) /\
  (forall x y, completed (tables d0) x y -> completed (tables d') x y) /\
  (forall res, r = Ok res ->
    (AlreadyComplete res = true -> tables d' = tables d /\ completed (tables d) p (trim_space q)) /\
    (Completed res = true -> ~ completed (tables d) p (trim_space q) /\ completed (tables d') p (trim_space q) /\
       GoldReward res = reward (tables d) (trim_space q))).
Proof.
  intros d. destruct (ApplyPlayerQuestProgress env p q progress d) as [r d'] eqn:E. apply apply_progress in E as [Hf Hres].
  assert (fair (tables d0) (tables d')) as (_ & Hg & Hc & _ & Hi) by (etrans; [apply reports_fair|exact Hf]). done.
Qed.

(** * The constraints of the schema *)

Record schema_ok (t : Tables) : Prop := {
  sc_gold : forall p g, wallet t !! p = Some g -> (0 <= g < 2 ^ 63)%Z;
  sc_items : forall p i q, player_item t !! (p, i) = Some q -> (0 < q < 2 ^ 31)%Z /\ is_Some (item_def t !! i);
  sc_quests : forall p q st pr, quest t !! (p, q) = Some (st, pr) -> (- 2 ^ 31 <= pr < 2 ^ 31)%Z;
  sc_address : forall p p' v, wallet_address t !! p = Some v -> wallet_address t !! p' = Some v -> p = p' }.

Definition schema_kept (t t' : Tables) : Prop := schema_ok t -> schema_ok t'.

#[export] Instance schema_kept_preorder : PreOrder schema_kept.
Proof. split; [by intros t H|]. intros t1 t2 t3 H1 H2 H. by apply H2, H1. Qed.

Lemma int4_range z : int4 z = true -> (- 2 ^ 31 <= z < 2 ^ 31)%Z.
Proof. unfold int4. intros [?%Z.leb_le ?%Z.ltb_lt]%andb_true_iff. lia. Qed.

Lemma int8_range z : int8 z = true -> (- 2 ^ 63 <= z < 2 ^ 63)%Z.
Proof. unfold int8. intros [?%Z.leb_le ?%Z.ltb_lt]%andb_true_iff. lia. Qed.

(** Tables whose constrained parts are the same. *)
Lemma schema_same t t' :
  wallet t' = wallet t -> player_item t' = player_item t -> item_def t' = item_def t -> quest t' = quest t ->
  wallet_address t' = wallet_address t -> schema_kept t t'.
Proof. intros E1 E2 E3 E4 E5 [H1 H2 H3 H4]. by split; rewrite ?E1, ?E2, ?E3, ?E4, ?E5. Qed.

Lemma schema_wallet t p g : (0 <= g < 2 ^ 63)%Z -> schema_kept t (set_wallet (<[p := g]> (wallet t)) t).
Proof.
  intros Hg [H1 H2 H3 H4]. split; [|done..]. intros p' g'. cbn. destruct (decide (p' = p)) as [->|Hne].
  - rewrite lookup_insert_eq. by intros [= <-].
  - rewrite lookup_insert_ne by done. by apply H1.
Qed.

Lemma schema_item t p i q : (0 < q < 2 ^ 31)%Z -> is_Some (item_def t !! i) -> schema_kept t (set_player_item (<[(p, i) := q]> (player_item t)) t).
Proof.
  intros Hq Hd [H1 H2 H3 H4]. split; [done| |done..]. intros p' i' q'. cbn. destruct (decide ((p', i') = (p, i))) as [[= -> ->]|Hne].
  - rewrite lookup_insert_eq. by intros [= <-].
  - rewrite lookup_insert_ne by done. by apply H2.
Qed.

Lemma schema_quest t p q st pr : (- 2 ^ 31 <= pr < 2 ^ 31)%Z -> schema_kept t (set_quest (<[(p, q) := (st, pr)]> (quest t)) t).
Proof.
  intros Hq [H1 H2 H3 H4]. split; [done..| |done]. intros p' q' st' pr'. cbn. destruct (decide ((p', q') = (p, q))) as [[= -> ->]|Hne].
  - rewrite lookup_insert_eq. by intros [= <- <-].
  - rewrite lookup_insert_ne by done. by apply H3.
Qed.

(** A statement that answers with the one change it may make. *)
Ltac schema_stmt := intros ? ? ? ?; unfold insert_session, upsert_last_cell, upsert_profile, insert_stats, insert_inventory, upsert_cursor, upsert_event, select_items, select_quests;
  intros [= <- <-]; by apply schema_same.

Lemma kept_insert_wallet p : stmt_in schema_kept (insert_wallet p).
Proof.
  intros o t a t' [= <- <-]. unfold insert_new. destruct (wallet t !! p); [by apply schema_same|]. by apply schema_wallet.
Qed.

Lemma kept_gold p delta : stmt_in schema_kept (add_gold p delta).
Proof.
  intros o t a t'. unfold add_gold. destruct (wallet t !! p) as [g|]; [|by intros [= _ <-]].
  destruct (int8 (g + delta)) eqn:E8; cbn [negb]; [|done]. destruct (Z.ltb_spec (g + delta) 0); [done|].
  intros [= _ <-]. apply schema_wallet. apply int8_range in E8. lia.
Qed.

Lemma kept_upsert_item p i qty : stmt_in schema_kept (upsert_item p i qty).
Proof.
  intros o t a t'. unfold upsert_item. destruct (int4 qty) eqn:E4; cbn [negb]; [|done]. apply int4_range in E4.
  destruct (Z.leb_spec qty 0); [done|]. destruct (item_def t !! i) as [def|] eqn:Ed; [|done].
  destruct (player_item t !! (p, i)) as [cur|].
  - destruct (int4 (cur + qty)) eqn:E; cbn [negb]; [|done]. apply int4_range in E. destruct (Z.leb_spec (Z.min (it_StackMax def) (cur + qty)) 0); [done|].
    intros [= _ <-]. apply schema_item; [lia|by eexists].
  - intros [= _ <-]. apply schema_item; [lia|by eexists].
Qed.

Lemma kept_delete_item p i : stmt_in schema_kept (delete_item p i).
Proof.
  intros o t a t' [= _ <-] [H1 H2 H3 H4]. split; [done| |done..]. intros p' i' q'. cbn. intros [_ Hq]%lookup_delete_Some. exact (H2 p' i' q' Hq).
Qed.

Lemma kept_subtract_item p i qty : stmt_in schema_kept (subtract_item p i qty).
Proof.
  intros o t a t'. unfold subtract_item. destruct (player_item t !! (p, i)) as [cur|] eqn:Ec; [|by intros [= _ <-]].
  destruct (negb (int4 qty)); cbn [orb]; [done|]. destruct (int4 (cur - qty)) eqn:E; cbn [negb]; [|done]. apply int4_range in E.
  destruct (Z.leb_spec (cur - qty) 0); [done|]. intros [= _ <-] Hok. apply schema_item; [lia| |done]. by apply (sc_items t Hok p i cur).
Qed.

Lemma kept_starter p : stmt_in schema_kept (insert_starter_item p).
Proof.
  intros o t a t'. unfold insert_starter_item. destruct (player_item t !! _); [by intros [= _ <-]|].
  destruct (item_def t !! "tutorial_shard") eqn:E; [|done]. intros [= _ <-]. apply schema_item; [lia|by eexists].
Qed.

Lemma kept_update_quest p q st pr : stmt_in schema_kept (update_quest p q st pr).
Proof.
  intros o t a t'. unfold update_quest. destruct (int4 pr) eqn:E; cbn [negb]; [|done]. apply int4_range in E.
  destruct (quest t !! (p, q)) as [[old ?]|]; intros [= _ <-]; [|done]. by apply schema_quest.
Qed.

Lemma kept_quest_seed p : stmt_in schema_kept (insert_quest_seed p).
Proof.
  intros o t a t' [= _ <-]. unfold insert_new. destruct (quest t !! _); [by apply schema_same|]. by apply schema_quest.
Qed.

Lemma kept_unlocked p : stmt_in schema_kept (insert_unlocked p).
Proof.
  intros o t a t' [= _ <-]. induction (unlockable p o t) as [|q l IH]; cbn [foldr]; [by apply schema_same|].
  etrans; [exact IH|]. set (t1 := set_quest _ t). by apply (schema_quest t1).
Qed.

Lemma kept_inventory p slots : stmt_in schema_kept (update_inventory p slots).
Proof. intros o t a t'. unfold update_inventory. destruct (inventory t !! p); intros [= _ <-]; by apply schema_same. Qed.

Lemma kept_address p a chain : stmt_in schema_kept (upsert_address p a chain).
Proof.
  intros o t u t'. unfold upsert_address. case_bool_decide as Hu; [|done]. intros [= _ <-] [H1 H2 H3 H4]. split; [done..|].
  intros p1 p2 v. cbn. destruct (decide (p1 = p)) as [->|N1], (decide (p2 = p)) as [->|N2]; rewrite ?lookup_insert_eq, ?lookup_insert_ne by done.
  - done.
  - intros [= <-] Hv. by rewrite (Hu p2 (a, chain) Hv).
  - intros Hv [= <-]. by rewrite (Hu p1 (a, chain) Hv).
  - apply H4.
Qed.

(** The operations that the services call. *)
Inductive store_op :=
  | OpSession (p : string) | OpLastCell (p c : string) (x z : f64) | OpProfile (p name : string) | OpStats (p : string)
  | OpWallet (p : string) | OpInventory (p : string) | OpSeed (p : string) | OpStarter (p : string) | OpSync (p : string)
  | OpUnlock (p : string) | OpAdd (p i : string) (qty : Z) | OpRemove (p i : string) (qty : Z) | OpTransfer (p p' i : string) (qty : Z)
  | OpProgress (p q : string) (n : Z) | OpCursor (chain block : Z) (hash : string) | OpEvents (evs : list ChainEventRow)
  | OpAddress (p a : string) (chain : Z).

Definition perform (env : DbEnv) (op : store_op) : St Db unit :=
  match op with
  | OpSession p => RecordSessionIssue env p
  | OpLastCell p c x z => UpsertPlayerLastCell env p c x z
  | OpProfile p name => UpsertPlayerProfile env p name
  | OpStats p => EnsurePlayerStats env p
  | OpWallet p => EnsurePlayerWallet env p
  | OpInventory p => EnsurePlayerInventory env p
  | OpSeed p => EnsurePlayerQuestSeed env p
  | OpStarter p => EnsureStarterPlayerItems env p
  | OpSync p => SyncPlayerInventoryJSONB env p
  | OpUnlock p => _ ← EnsureUnlockedQuestsForPlayer env p; mret tt
  | OpAdd p i qty => AddPlayerItemQuantity env p i qty
  | OpRemove p i qty => RemovePlayerItemQuantity env p i qty
  | OpTransfer p p' i qty => TransferPlayerItems env p p' i qty
  | OpProgress p q n => _ ← ApplyPlayerQuestProgress env p q n; mret tt
  | OpCursor c b h => UpsertChainCursor env c b h
  | OpEvents evs => InsertChainEvents env evs
  | OpAddress p a c => UpsertPlayerWalletAddress env p a c
  end.

#[export] Hint Resolve kept_insert_wallet kept_gold kept_upsert_item kept_delete_item kept_subtract_item kept_starter kept_update_quest
  kept_quest_seed kept_unlocked kept_inventory kept_address : mmo.

Section Schema.
Context (env : DbEnv).

Lemma kept_sync p : steps_in (on_tx schema_kept) (syncPlayerInventoryJSONBTx env p).
Proof. unfold syncPlayerInventoryJSONBTx. db_steps; first [schema_stmt | solve [auto with mmo]]. Qed.

Lemma kept_remove p i qty : steps_in (on_tx schema_kept) (removePlayerItemQuantityTx env p i qty).
Proof. unfold removePlayerItemQuantityTx. db_steps; first [by apply get_in, _ | solve [auto with mmo]]. Qed.

Lemma kept_add p i qty : steps_in (on_tx schema_kept) (addPlayerItemQuantityTx env p i qty).
Proof. unfold addPlayerItemQuantityTx. db_steps; auto with mmo. Qed.

Lemma kept_known i : steps_in (on_tx schema_kept) (known_item env i).
Proof. unfold known_item. db_steps. by apply get_in, _. Qed.

Lemma kept_complete p q def : steps_in (on_tx schema_kept) (complete_quest env p q def).
Proof. unfold complete_quest, grantWalletGoldTx. db_steps; auto with mmo; [apply kept_add|apply kept_sync]. Qed.

Lemma kept_progress p q n : steps_in (on_tables schema_kept) (ApplyPlayerQuestProgress env p q n).
Proof.
  unfold ApplyPlayerQuestProgress, progress_tx, loadQuestDefTx, completed_answer, ListPlayerItemsNormalized, EnsureUnlockedQuestsForPlayer.
  db_steps; first [by apply get_in, _ | schema_stmt | solve [auto with mmo] | apply kept_complete].
Qed.

Lemma kept_transfer p p' i qty : steps_in (on_tables schema_kept) (TransferPlayerItems env p p' i qty).
Proof.
  unfold TransferPlayerItems. db_steps; first [apply kept_known | apply kept_remove | apply kept_add | apply kept_sync | schema_stmt | solve [auto with mmo]].
Qed.

Lemma kept_perform op : steps_in (on_tables schema_kept) (perform env op).
Proof.
  destruct op; cbn [perform];
    unfold RecordSessionIssue, UpsertPlayerLastCell, UpsertPlayerProfile, EnsurePlayerStats, EnsurePlayerWallet, EnsurePlayerInventory,
      EnsurePlayerQuestSeed, EnsureStarterPlayerItems, SyncPlayerInventoryJSONB, EnsureUnlockedQuestsForPlayer, AddPlayerItemQuantity,
      RemovePlayerItemQuantity, UpsertChainCursor, InsertChainEvents, UpsertPlayerWalletAddress, ListPlayerItemsNormalized;
    db_steps; first [schema_stmt | apply kept_known | apply kept_remove | apply kept_add | apply kept_sync | apply kept_progress | apply kept_transfer | solve [auto with mmo]].
Qed.
End Schema.

(** Every operation on the store, whatever requests and replies are lost in it, keeps the constraints
    of the schema: gold never is negative or overflows, quantities are positive and of known items, the
    progress of quests fits its column, and no address of a chain belongs to two players. *)
Theorem store_keeps_schema (ops : list (DbEnv * store_op)) d :
  schema_ok (tables d) -> schema_ok (tables (foldl (fun d '(env, op) => snd (perform env op d)) d ops)).
Proof.
  revert d. induction ops as [|[env op] ops IH]; intros d Hok; [done|]. cbn. apply IH. by apply (kept_perform env op d).
Qed.

Lemma store_keeps_schema_witness :
  let env := mkDbEnv (fun n => if Nat.eqb n 4 then LostReply (errorf "timeout" []) else Delivered) (fun _ => order_id) in
  let def := mkItemDef "coin" 99 in
  let t := mkTables [] ∅ ∅ ∅ ∅ ∅ ∅ {["coin_copper" := def]} {[("ann", "coin_copper") := 5%Z]} ∅ ∅ ∅ ∅ in
  let d' := foldl (fun d '(env, op) => snd (perform env op d)) (mkDb t 0)
    [(env, OpTransfer "ann" "bob" "coin_copper" 2); (env, OpTransfer "ann" "bob" "coin_copper" 2)] in
  schema_ok t /\ schema_ok (tables d') /\ player_item (tables d') !! ("bob", "coin_copper") = Some 2%Z.
Proof.
  intros env def t d'.
  assert (schema_ok t) as Ht.
  { split; try done. intros p i q. unfold t. cbn [player_item]. rewrite lookup_singleton_Some. intros [[= <- <-] <-]. split; [done|]. by exists def. }
  split; [exact Ht|]. split; [apply (store_keeps_schema _ (mkDb t 0) Ht)|by vm_compute].
Defined.

(** * Events of the chain *)

Definition store_events (evs : list ChainEventRow) (m : gmap (Z * string * Z) ChainEventRow) : gmap (Z * string * Z) ChainEventRow :=
  foldl (fun m ev => <[event_key (clean_event ev) := clean_event ev]> m) m evs.

(** The last event of a batch with a key. *)
Lemma store_events_lookup evs m k :
  store_events evs m !! k =
  match last (base.filter (fun ev => event_key (clean_event ev) = k) evs) with Some ev => Some (clean_event ev) | None => m !! k end.
Proof.
  unfold store_events. induction evs as [|ev evs IH] using rev_ind; [done|].
  rewrite foldl_app, filter_app. cbn [foldl]. destruct (decide (event_key (clean_event ev) = k)) as [<-|Hne].
  - rewrite lookup_insert_eq, filter_cons_True by done. cbn [base.filter list_filter]. by rewrite last_snoc.
  - rewrite lookup_insert_ne, IH, filter_cons_False by done. cbn [base.filter list_filter]. by rewrite app_nil_r.
Qed.

Lemma store_events_idem evs m : store_events evs (store_events evs m) = store_events evs m.
Proof.
  apply map_eq. intros k. rewrite store_events_lookup. destruct (last _) eqn:E; [|done]. by rewrite store_events_lookup, E.
Qed.

Section Chain.
Context (env : DbEnv).

Lemma insert_events_tx evs tx u tx' :
  for_each (fun ev => tx_exec env (upsert_event (clean_event ev))) evs tx = (Ok u, tx') ->
  chain_event (tables (work tx')) = store_events evs (chain_event (tables (work tx))).
Proof.
  revert tx. induction evs as [|ev evs IH]; intros tx; cbn [for_each]; [by intros [= _ <-]|].
  intros (u1 & x1 & E1 & E)%bind_inv. apply tx_exec_inv in E1 as (_ & _ & o & [= _ E1]). apply IH in E. by rewrite E, <- E1.
Qed.

Lemma insert_events evs d r d' :
  InsertChainEvents env evs d = (r, d') ->
  (chain_event (tables d') = chain_event (tables d) /\ (is_ok r = true -> evs = [])) \/
  chain_event (tables d') = store_events evs (chain_event (tables d)).
Proof.
  unfold InsertChainEvents. destruct (Nat.eqb_spec (length evs) 0) as [Hl|_].
  { intros [= <- <-]. left. split; [done|]. intros _. by apply length_zero_iff_nil. }
  intros [(Ht & Hr)|(a & tx & Eb & _ & Ht & _)]%transaction_cases.
  - left. split; [by rewrite Ht|]. destruct r as [u|]; [|done]. destruct (Hr u eq_refl) as [tx Eb].
    apply bind_inv in Eb as (? & ? & _ & Eb). discriminate Eb.
  - right. apply bind_inv in Eb as (u & x & Eb & E). injection E as _ <-. apply insert_events_tx in Eb. by rewrite Ht, Eb.
Qed.
End Chain.
