(* ===== verification/Http.v ===== *)
(** What the HTTP handlers of the gateway and the web3 indexer share: requests as the HTTP server hands
    them over, answers, and handlers that answer early. *)
From Stdlib Require Import Ascii ZArith.
From S2P Require Import Prelude Effects GoFloat GoString.
Local Open Scope string_scope.
Local Open Scope list_scope.

(** A request: the headers by canonical name and the parameters of the URL by name, both empty when
    absent, the host of the peer, and the body or the error of reading it. *)
Record Request := mkRequest {
  Method : string; Header : string -> string; Query : string -> string; RemoteHost : string; RequestBody : result string }.

(** A value that [encoding/json] writes; the keys of an object in any order. *)
Inductive Json :=
  | JNull | JBool (b : bool) | JInt (z : Z) | JFloat (x : f64) | JStr (s : string) | JArr (l : list Json) | JObj (l : list (string * Json)).

Inductive Body := BText (t : text) | BJson (j : Json).

Record Response := mkResponse { resp_status : Z; resp_headers : list (string * string); resp_body : Body }.

(** [http.Error] *)
Definition http_error (status : Z) (t : text) : Response := mkResponse status [] (BText t).
Definition json_answer (status : Z) (j : Json) : Response := mkResponse status [] (BJson j).

(** [x, err := f(); if err != nil { http.Error(...); return }] *)
Definition attempt {S A} (m : St S A) (answer : error -> Response) (k : A -> St S Response) : St S Response := fun s =>
  match m s with
  | (Ok a, s) => k a s
  | (Err e, s) => (Ok (answer e), s)
  end.

(** [if c { http.Error(...); return }] *)
Definition refuse {S} (c : bool) (answer : Response) (k : St S Response) : St S Response := if c then mret answer else k.

Lemma steps_attempt {S A} (R : relation S) `{!PreOrder R} (m : St S A) answer k :
  steps_in R m -> (forall a, steps_in R (k a)) -> steps_in R (attempt m answer k).
Proof.
  intros Hm Hk s. specialize (Hm s). unfold attempt. destruct (m s) as [[a|e] s1]; cbn [snd] in *; [|done]. etrans; [exact Hm|apply Hk].
Qed.

Lemma steps_refuse {S} (R : relation S) `{!PreOrder R} c answer (k : St S Response) : steps_in R k -> steps_in R (refuse c answer k).
Proof. intros Hk s. unfold refuse. destruct c; [done|apply Hk]. Qed.

(** An answer that is not an error went through every step. *)
Lemma attempt_inv {S A} (m : St S A) answer k s r s' :
  attempt m answer k s = (Ok r, s') -> (exists e, r = answer e) \/ exists a s1, m s = (Ok a, s1) /\ k a s1 = (Ok r, s').
Proof. unfold attempt. destruct (m s) as [[a|e] s1]; [right; by exists a, s1|]. intros [= <- <-]. left. by exists e. Qed.

Lemma refuse_inv {S} c answer (k : St S Response) s r s' :
  refuse c answer k s = (Ok r, s') -> r = answer \/ (c = false /\ k s = (Ok r, s')).
Proof. unfold refuse. destruct c; [|by right]. intros [= <- _]. by left. Qed.
