(* ===== verification/Web3.v ===== *)
(** [cmd/web3-indexer/main.go] and [internal/web3ingest/auth.go]: the endpoint that takes in events of a
    chain, and the check of its callers. *)
From Stdlib Require Import Ascii ZArith Lia.
From S2P Require Import Prelude Effects GoFloat GoString Db DbProps Http.
Local Open Scope string_scope.
Local Open Scope list_scope.

(** * The check of the caller

    [hmac secret body] is HMAC-SHA256. *)
Section Auth.
Context (hmac : string -> string -> string).

Definition ComputeHMACSignatureHex (secret body : string) : string := hex_encode (hmac secret body).

Definition bearerToken (auth : string) : string :=
  let auth := trim_space auth in
  if Nat.leb (String.length auth) 7 || negb (EqualFold (String.substring 0 7 auth) "bearer ") then ""
  else trim_space (String.substring 7 (String.length auth - 7) auth).

Definition check_key (h : string -> string) (apiKey : string) : result unit :=
  if String.eqb apiKey "" then Ok tt
  else
    let key := trim_space (h "X-MMO-Ingest-Key") in
    let got := if String.eqb key "" then bearerToken (h "Authorization") else key in
    if String.eqb got apiKey then Ok tt else Err (errorf "invalid or missing ingest API key" []).

Definition check_signature (h : string -> string) (body hmacSecret : string) : result unit :=
  if String.eqb hmacSecret "" then Ok tt
  else
    let sigRaw := trim_space (h "X-MMO-Ingest-Signature") in
    if String.eqb sigRaw "" then Err (errorf "missing %s" [AStr "X-MMO-Ingest-Signature"])
    else
      let wantHex := ComputeHMACSignatureHex hmacSecret body in
      let gotHex := trim_prefix (to_lower sigRaw) "sha256=" in
      match hex_decode gotHex with
      | None => Err (errorf "invalid signature encoding" [])
      | Some gotBytes =>
          match hex_decode wantHex with
          | None => Err (errorf "internal signature error" [])
          | Some wantBytes => if String.eqb gotBytes wantBytes then Ok tt else Err (errorf "invalid HMAC signature" [])
          end
      end.

Definition CheckIngestAuth (h : string -> string) (body apiKey hmacSecret : string) : result unit :=
  _ ← check_key h (trim_space apiKey); check_signature h body (trim_space hmacSecret).

(** A caller that sends the signature it computes, with or without the prefix, passes that check. *)
Lemma signature_passes h body secret :
  ComputeHMACSignatureHex (trim_space secret) body <> "" ->
  (h "X-MMO-Ingest-Signature" = ComputeHMACSignatureHex (trim_space secret) body \/
   h "X-MMO-Ingest-Signature" = "sha256=" +:+ ComputeHMACSignatureHex (trim_space secret) body) ->
  check_signature h body (trim_space secret) = Ok tt.
Proof.
  intros Hne Hsig. unfold check_signature. destruct (String.eqb (trim_space secret) ""); [done|].
  set (sg := ComputeHMACSignatureHex (trim_space secret) body) in *.
  assert (string_forall graphic sg = true) as Hg by apply hex_graphic.
  assert (trim_space (h "X-MMO-Ingest-Signature") = h "X-MMO-Ingest-Signature") as ->.
  { destruct Hsig as [-> | ->]; apply trim_space_graphic; [done|]. by rewrite string_forall_app, Hg. }
  assert (h "X-MMO-Ingest-Signature" <> "") as Hnn by (destruct Hsig as [-> | ->]; done). rewrite (proj2 (String.eqb_neq _ _) Hnn).
  assert (trim_prefix (to_lower (h "X-MMO-Ingest-Signature")) "sha256=" = sg) as ->.
  { destruct Hsig as [-> | ->].
    - unfold sg, ComputeHMACSignatureHex. rewrite hex_lower. unfold trim_prefix. destruct (hmac (trim_space secret) body) as [|a s]; [done|].
      cbn [hex_encode strip_prefix]. destruct (byte_eqb "s" (hex_digit (nat_of_ascii a / 16))) eqn:E; [|done].
      apply Ascii.eqb_eq in E. destruct (hex_digits a) as (Hv & _). by rewrite <- E in Hv.
    - rewrite to_lower_app. change (to_lower "sha256=") with "sha256=". rewrite trim_prefix_app. apply hex_lower. }
  unfold sg at 1, ComputeHMACSignatureHex at 1. rewrite hex_roundtrip. unfold sg, ComputeHMACSignatureHex. by rewrite hex_roundtrip, String.eqb_refl.
Qed.

(** The check lets a request through exactly when it carries the API key, if one is configured, as
    [X-MMO-Ingest-Key] or else as a bearer token, and the HMAC of its body, if a secret is configured;
    and a caller that sends the signature it computes, with or without the prefix, passes that check. *)
Theorem CheckIngestAuth_spec h body apiKey secret :
  (CheckIngestAuth h body apiKey secret = Ok tt <->
    (trim_space apiKey = "" \/
       (if String.eqb (trim_space (h "X-MMO-Ingest-Key")) "" then bearerToken (h "Authorization") else trim_space (h "X-MMO-Ingest-Key")) = trim_space apiKey) /\
    (trim_space secret = "" \/
       (trim_space (h "X-MMO-Ingest-Signature") <> "" /\
        hex_decode (trim_prefix (to_lower (trim_space (h "X-MMO-Ingest-Signature"))) "sha256=") = Some (hmac (trim_space secret) body)))) /\
  (ComputeHMACSignatureHex (trim_space secret) body <> "" ->
   (h "X-MMO-Ingest-Signature" = ComputeHMACSignatureHex (trim_space secret) body \/
    h "X-MMO-Ingest-Signature" = "sha256=" +:+ ComputeHMACSignatureHex (trim_space secret) body) ->
   check_signature h body (trim_space secret) = Ok tt).
Proof.
  split.
  - unfold CheckIngestAuth. rewrite bind_Ok. unfold check_key, check_signature, ComputeHMACSignatureHex. rewrite hex_roundtrip.
    set (got := if String.eqb (trim_space (h "X-MMO-Ingest-Key")) "" then _ else _). split.
    + intros ([] & H1 & H2). split.
      * destruct (String.eqb_spec (trim_space apiKey) ""); [by left|]. right. by destruct (String.eqb_spec got (trim_space apiKey)).
      * destruct (String.eqb_spec (trim_space secret) ""); [by left|]. right. destruct (String.eqb_spec (trim_space (h "X-MMO-Ingest-Signature")) ""); [done|].
        split; [done|]. destruct (hex_decode _) as [bytes|]; [|done]. destruct (String.eqb_spec bytes (hmac (trim_space secret) body)) as [E|]; [by rewrite E|done].
    + intros [H1 H2]. exists tt. split.
      * destruct (String.eqb_spec (trim_space apiKey) ""); [done|]. destruct H1 as [|H1]; [done|]. by rewrite H1, String.eqb_refl.
      * destruct (String.eqb_spec (trim_space secret) ""); [done|]. destruct H2 as [|[H2 H3]]; [done|].
        by rewrite (proj2 (String.eqb_neq _ _) H2), H3, String.eqb_refl.
  - apply signature_passes.
Qed.
End Auth.

(** * The endpoint *)

Record ingestEvent := mkIngestEvent {
  ie_BlockNumber : Z; ie_BlockHash : string; ie_TxHash : string; ie_LogIndex : Z; ie_ContractAddress : string;
  ie_EventName : string; ie_PlayerID : string; ie_WalletAddress : string; ie_Payload : string }.
Record ingestRequest := mkIngestRequest { iq_ChainID : Z; iq_Events : list ingestEvent }.

Definition MaxIngestBodyBytes : nat := 1048576.

(** The configuration of the process; [WEB3_INDEXER_*] and [REDIS_ADDR]. *)
Record IndexerConfig := mkIndexerConfig { defaultChainID : Z; ingestAPIKey : string; ingestHMACSecret : string; has_redis : bool }.

(** The database, the cursors in Redis, and the number of writes to Redis. *)
Record Indexer := mkIndexer { ix_db : Db; ix_redis : gmap string string; ix_writes : nat }.

Section Ingest.
Context (hmac : string -> string -> string) (decode : string -> result ingestRequest) (cfg : IndexerConfig).

Definition on_db {A} (m : St Db A) : St Indexer A := fun ix => let '(r, d) := m (ix_db ix) in (r, mkIndexer d (ix_redis ix) (ix_writes ix)).

Definition redis_set (net : nat -> Outcome) (key value : string) : St Indexer unit := fun ix =>
  let lost := mkIndexer (ix_db ix) (ix_redis ix) (ix_writes ix + 1) in
  let done := mkIndexer (ix_db ix) (<[key := value]> (ix_redis ix)) (ix_writes ix + 1) in
  match net (ix_writes ix) with
  | Delivered => (Ok tt, done)
  | LostRequest e => (Err e, lost)
  | LostReply e => (Err e, done)
  end.

Definition event_row (chainID : Z) (ev : ingestEvent) : ChainEventRow :=
  mkChainEvent chainID (ie_BlockNumber ev) (ie_BlockHash ev) (ie_TxHash ev) (ie_LogIndex ev) (ie_ContractAddress ev) (ie_EventName ev) (ie_Payload ev).

(** The last event of the highest block. *)
Definition max_block (events : list ingestEvent) : Z * string :=
  foldl (fun '(b, h) ev => if (b <=? ie_BlockNumber ev)%Z then (ie_BlockNumber ev, ie_BlockHash ev) else (b, h)) (0%Z, "") events.

Definition write_cursor (env : DbEnv) (redis_net : nat -> Outcome) (chainID maxBlock : Z) (hash : string) (done : Response) : St Indexer Response :=
  attempt (on_db (UpsertChainCursor env chainID maxBlock hash))
    (fun e => http_error 500 (Fmt "cursor upsert failed: %s" [ATxt (error_string e)])) (fun _ =>
  if has_redis cfg then
    attempt (redis_set redis_net ("mmo:web3:cursor:" +:+ itoa chainID)%string (itoa maxBlock))
      (fun e => http_error 500 (Fmt "redis cursor write failed: %s" [ATxt (error_string e)])) (fun _ => mret done)
  else mret done).

(** A request whose chain is known. *)
Definition ingest_events (env : DbEnv) (redis_net : nat -> Outcome) (chainID : Z) (events : list ingestEvent) : St Indexer Response :=
  if Nat.eqb (length events) 0 then mret (json_answer 202 (JObj [("ingested", JInt 0); ("chain_id", JInt chainID)]))
  else
    let rows := event_row chainID <$> events in
    let '(maxBlock, maxBlockHash) := max_block events in
    let done := json_answer 200 (JObj [("ingested", JInt (Z.of_nat (length rows))); ("chain_id", JInt chainID); ("max_block", JInt maxBlock)]) in
    attempt (for_each (fun ev => on_db (UpsertPlayerWalletAddress env (ie_PlayerID ev) (ie_WalletAddress ev) chainID)) events)
      (fun e => http_error 500 (Fmt "wallet upsert failed: %s" [ATxt (error_string e)])) (fun _ =>
    attempt (on_db (InsertChainEvents env rows))
      (fun e => http_error 500 (Fmt "event insert failed: %s" [ATxt (error_string e)])) (fun _ =>
    if (0 <? maxBlock)%Z then write_cursor env redis_net chainID maxBlock maxBlockHash done else mret done)).

Definition chain_of (req : ingestRequest) : Z := if (iq_ChainID req <=? 0)%Z then defaultChainID cfg else iq_ChainID req.

(** The handler of [/v1/indexer/ingest]. *)
Definition ingest (env : DbEnv) (redis_net : nat -> Outcome) (r : Request) : St Indexer Response :=
  refuse (negb (String.eqb (Method r) "POST")) (http_error 405 (lit "method not allowed")) (
  attempt (lift (RequestBody r)) (fun e => http_error 400 (Fmt "read body: %s" [ATxt (error_string e)])) (fun body =>
  refuse (Nat.ltb MaxIngestBodyBytes (String.length body)) (http_error 413 (lit "body too large")) (
  attempt (lift (CheckIngestAuth hmac (Header r) body (ingestAPIKey cfg) (ingestHMACSecret cfg)))
    (fun e => http_error 401 (error_string e)) (fun _ =>
  attempt (lift (decode body)) (fun e => http_error 400 (Fmt "invalid json: %s" [ATxt (error_string e)])) (fun req =>
  refuse (chain_of req <=? 0)%Z (http_error 400 (lit "chain_id required")) (
  ingest_events env redis_net (chain_of req) (iq_Events req))))))).

(** * Deliveries of a batch *)

(** The batch is stored, or nothing of it. *)
Definition stored (rows : list ChainEventRow) (t t' : Tables) : Prop :=
  chain_event t' = chain_event t \/ chain_event t' = store_events rows (chain_event t).

(** No cursor goes back. *)
Definition cursor (t : Tables) (chain : Z) : Z := match chain_cursor t !! chain with Some (b, _) => b | None => 0%Z end.
Definition cursors_grow (t t' : Tables) : Prop :=
  forall chain, is_Some (chain_cursor t !! chain) -> is_Some (chain_cursor t' !! chain) /\ (cursor t chain <= cursor t' chain)%Z.

Definition delivery (rows : list ChainEventRow) (t t' : Tables) : Prop := stored rows t t' /\ cursors_grow t t'.

#[local] Instance delivery_preorder rows : PreOrder (delivery rows).
Proof.
  split.
  - intros t. split; [by left|]. intros chain Hs. split; [done|lia].
  - intros t1 t2 t3 [S1 C1] [S2 C2]. split.
    + destruct S1 as [E1|E1], S2 as [E2|E2]; unfold stored; rewrite E2, E1; rewrite ?store_events_idem; tauto.
    + intros chain Hs. destruct (C1 chain Hs) as [H1 H2], (C2 chain H1) as [H3 H4]. split; [done|lia].
Qed.

Definition on_ix (R : relation Tables) (ix ix' : Indexer) : Prop := R (tables (ix_db ix)) (tables (ix_db ix')).
#[local] Instance on_ix_preorder R `{!PreOrder R} : PreOrder (on_ix R).
Proof. split; [by intros d; unfold on_ix|]. intros x y z H1 H2. unfold on_ix in *. by transitivity (tables (ix_db y)). Qed.

Lemma on_db_in {A} R (m : St Db A) : steps_in (on_tables R) m -> steps_in (on_ix R) (on_db m).
Proof. intros Hm ix. specialize (Hm (ix_db ix)). unfold on_db. by destruct (m (ix_db ix)). Qed.

Lemma delivery_same rows t t' : chain_event t' = chain_event t -> chain_cursor t' = chain_cursor t -> delivery rows t t'.
Proof. intros E1 E2. split; [by left|]. intros chain Hs. unfold cursor. rewrite E2. split; [done|lia]. Qed.

Lemma delivery_cursor rows chain b h : stmt_in (delivery rows) (upsert_cursor chain b h).
Proof.
  intros o t a t' [= _ <-]. split; [by left|]. intros ch Hs. unfold cursor. cbn. destruct (decide (ch = chain)) as [->|Hne].
  - rewrite lookup_insert_eq. split; [by eexists|]. destruct Hs as [[b0 h0] ->]. lia.
  - rewrite lookup_insert_ne by done. split; [done|lia].
Qed.

Lemma delivery_address rows p a chain : stmt_in (delivery rows) (upsert_address p a chain).
Proof. intros o t u t'. unfold upsert_address. case_bool_decide; [|done]. intros [= _ <-]. by apply delivery_same. Qed.

Definition same_cursors (t t' : Tables) : Prop := chain_cursor t' = chain_cursor t.
#[local] Instance same_cursors_preorder : PreOrder same_cursors.
Proof. split; [done|]. intros t1 t2 t3 H1 H2. unfold same_cursors in *. congruence. Qed.

Lemma delivery_insert env rows : steps_in (on_tables (delivery rows)) (InsertChainEvents env rows).
Proof.
  intros d. destruct (InsertChainEvents env rows d) as [r d'] eqn:E. unfold on_tables. cbn [snd].
  assert (steps_in (on_tables same_cursors) (InsertChainEvents env rows)) as Hc by (unfold InsertChainEvents; db_steps; by intros ? ? ? ? [= _ <-]).
  specialize (Hc d). rewrite E in Hc. unfold on_tables, same_cursors in Hc. cbn [snd] in Hc. split.
  - apply insert_events in E as [[E _]|E]; [by left|by right].
  - intros chain Hs. unfold cursor. rewrite Hc. split; [done|lia].
Qed.

Lemma delivery_wallet env rows p a chain : steps_in (on_tables (delivery rows)) (UpsertPlayerWalletAddress env p a chain).
Proof. unfold UpsertPlayerWalletAddress. db_steps. apply delivery_address. Qed.

Lemma delivery_upsert_cursor env rows chain b h : steps_in (on_tables (delivery rows)) (UpsertChainCursor env chain b h).
Proof. unfold UpsertChainCursor. db_steps. apply delivery_cursor. Qed.

Lemma redis_keeps rows net key v : steps_in (on_ix (delivery rows)) (redis_set net key v).
Proof. intros ix. unfold redis_set, on_ix. by destruct (net (ix_writes ix)). Qed.

Lemma write_cursor_delivery env net rows chain b h done : steps_in (on_ix (delivery rows)) (write_cursor env net chain b h done).
Proof.
  unfold write_cursor. apply steps_attempt; [apply _|apply on_db_in, delivery_upsert_cursor|]. intros _.
  destruct (has_redis cfg); [|by steps]. apply steps_attempt; [apply _|apply redis_keeps|]. intros _. by steps.
Qed.

Lemma ingest_events_delivery env net chain events :
  steps_in (on_ix (delivery (event_row chain <$> events))) (ingest_events env net chain events).
Proof.
  unfold ingest_events. destruct (Nat.eqb (length events) 0); [by steps|]. destruct (max_block events) as [b h].
  apply steps_attempt; [apply _| |intros _].
  { apply steps_for_each; [apply _|]. intros ev. apply on_db_in, delivery_wallet. }
  apply steps_attempt; [apply _|apply on_db_in, delivery_insert|intros _].
  destruct (0 <? b)%Z; [apply write_cursor_delivery|by steps].
Qed.

(** A batch answered with success is stored, and its cursor is written. *)
Lemma ingest_events_ok env net chain events ix r ix' :
  ingest_events env net chain events ix = (Ok r, ix') -> resp_status r = 200%Z ->
  chain_event (tables (ix_db ix')) = store_events (event_row chain <$> events) (chain_event (tables (ix_db ix))) /\
  ((0 < (max_block events).1)%Z -> ((max_block events).1 <= cursor (tables (ix_db ix')) chain)%Z).
Proof.
  unfold ingest_events. destruct (Nat.eqb_spec (length events) 0) as [|Hne]; [by intros [= <- _]|]. set (rows := event_row chain <$> events).
  destruct (max_block events) as [b h]. cbn [fst].
  intros [[e ->]|(u1 & ix1 & E1 & E)]%attempt_inv; [done|]. intros Hst. apply attempt_inv in E as [[e ->]|(u2 & ix2 & E2 & E)]; [done|].
  unfold on_db in E2. destruct (InsertChainEvents env rows (ix_db ix1)) as [r2 d2] eqn:Ei. injection E2 as -> <-.
  assert (chain_event (tables (ix_db ix1)) = chain_event (tables (ix_db ix))) as H1.
  { assert (steps_in (on_ix (delivery [])) (for_each (fun ev => on_db (UpsertPlayerWalletAddress env (ie_PlayerID ev) (ie_WalletAddress ev) chain)) events)) as Hw.
    { apply steps_for_each; [apply _|]. intros ev. apply on_db_in, delivery_wallet. }
    specialize (Hw ix). rewrite E1 in Hw. destruct Hw as [[Hw|Hw] _]; exact Hw. }
  assert (chain_event (tables d2) = store_events rows (chain_event (tables (ix_db ix)))) as H2.
  { rewrite <- H1. apply insert_events in Ei as [[_ Hnil]|Ei]; [|done]. specialize (Hnil eq_refl). unfold rows in Hnil. by destruct events. }
  destruct (Z.ltb_spec 0 b) as [Hb|Hb]; [|injection E as <- <-; split; [done|lia]].
  unfold write_cursor in E. apply attempt_inv in E as [[e ->]|(u3 & ix3 & E3 & E)]; [done|].
  unfold on_db, UpsertChainCursor, exec in E3. cbn [ix_db] in E3.
  assert (chain_event (tables (ix_db ix3)) = chain_event (tables d2) /\ (b <= cursor (tables (ix_db ix3)) chain)%Z) as [H3 H4].
  { destruct (db_net env (trips d2)); [|done..]. injection E3 as _ <-. split; [done|]. unfold cursor. cbn. rewrite lookup_insert_eq.
    destruct (chain_cursor (tables d2) !! chain) as [[b0 h0]|]; lia. }
  assert (tables (ix_db ix') = tables (ix_db ix3)) as ->; [|split; [congruence|done]].
  destruct (has_redis cfg); [|by injection E as _ <-]. apply attempt_inv in E as [[e ->]|(u4 & ix4 & E4 & E)]; [done|].
  injection E as _ <-. unfold redis_set in E4. by destruct (net (ix_writes ix3)); [injection E4 as _ <-|..].
Qed.

(** ** The copy of the cursor in Redis *)

(** The highest block of the batch is written there, whatever was. *)
Definition redis_written (chain maxBlock : Z) (m : gmap string string) : gmap string string :=
  <[("mmo:web3:cursor:" +:+ itoa chain)%string := itoa maxBlock]> m.
Definition redis_step (chain maxBlock : Z) (ix ix' : Indexer) : Prop :=
  ix_redis ix' = ix_redis ix \/ ix_redis ix' = redis_written chain maxBlock (ix_redis ix).

#[local] Instance redis_step_preorder chain maxBlock : PreOrder (redis_step chain maxBlock).
Proof.
  split; [by left|]. intros i1 i2 i3 [E1|E1] [E2|E2]; unfold redis_step; rewrite E2, E1; [by left|by right|by right|].
  right. unfold redis_written. by rewrite insert_insert_eq.
Qed.

Lemma on_db_redis {A} chain b (m : St Db A) : steps_in (redis_step chain b) (on_db m).
Proof. intros ix. unfold on_db. destruct (m (ix_db ix)). by left. Qed.

Lemma write_cursor_redis env net chain b h done : steps_in (redis_step chain b) (write_cursor env net chain b h done).
Proof.
  unfold write_cursor. apply steps_attempt; [apply _|apply on_db_redis|]. intros _. destruct (has_redis cfg); [|by steps].
  apply steps_attempt; [apply _| |intros _; by steps]. intros ix. unfold redis_set. destruct (net (ix_writes ix)); [by right|by left|by right].
Qed.

Lemma ingest_events_redis env net chain events : steps_in (redis_step chain (max_block events).1) (ingest_events env net chain events).
Proof.
  unfold ingest_events. destruct (Nat.eqb (length events) 0); [by steps|]. destruct (max_block events) as [b h]. cbn [fst].
  apply steps_attempt; [apply _|apply steps_for_each; [apply _|]; intros ev; apply on_db_redis|intros _].
  apply steps_attempt; [apply _|apply on_db_redis|intros _]. destruct (0 <? b)%Z; [apply write_cursor_redis|by steps].
Qed.

Lemma ingest_events_redis_ok env net chain events ix r ix' :
  ingest_events env net chain events ix = (Ok r, ix') -> resp_status r = 200%Z -> has_redis cfg = true -> (0 < (max_block events).1)%Z ->
  ix_redis ix' = redis_written chain (max_block events).1 (ix_redis ix).
Proof.
  unfold ingest_events. destruct (Nat.eqb (length events) 0); [by intros [= <- _]|]. destruct (max_block events) as [b h]. cbn [fst].
  intros [[e ->]|(u1 & ix1 & E1 & E)]%attempt_inv; [done|]. intros Hst Hred Hb. apply attempt_inv in E as [[e ->]|(u2 & ix2 & E2 & E)]; [done|].
  rewrite (proj2 (Z.ltb_lt _ _) Hb) in E. unfold write_cursor in E. apply attempt_inv in E as [[e ->]|(u3 & ix3 & E3 & E)]; [done|].
  rewrite Hred in E. apply attempt_inv in E as [[e ->]|(u4 & ix4 & E4 & E)]; [done|]. injection E as _ <-.
  assert (redis_step chain b ix ix3) as H3.
  { transitivity ix1; [|transitivity ix2].
    - assert (steps_in (redis_step chain b) (for_each (fun ev => on_db (UpsertPlayerWalletAddress env (ie_PlayerID ev) (ie_WalletAddress ev) chain)) events)) as Hw
        by (apply steps_for_each; [apply _|]; intros ev; apply on_db_redis).
      specialize (Hw ix). by rewrite E1 in Hw.
    - pose proof (on_db_redis chain b (InsertChainEvents env (event_row chain <$> events)) ix1) as Hw. by rewrite E2 in Hw.
    - pose proof (on_db_redis chain b (UpsertChainCursor env chain b h) ix2) as Hw. by rewrite E3 in Hw. }
  unfold redis_set in E4. destruct (net (ix_writes ix3)); [|done..]. injection E4 as _ <-. cbn [ix_redis]. fold (redis_written chain b (ix_redis ix3)).
  destruct H3 as [-> | ->]; [done|]. unfold redis_written. by rewrite insert_insert_eq.
Qed.

(** A request delivered several times, with the network of each delivery: the statuses of the answers
    and the state after them. *)
Fixpoint deliveries (l : list (DbEnv * (nat -> Outcome))) (r : Request) (ix : Indexer) : list Z * Indexer :=
  match l with
  | [] => ([], ix)
  | (env, net) :: l =>
      let '(res, ix) := ingest env net r ix in
      let '(statuses, ix) := deliveries l r ix in
      ((match res with Ok a => resp_status a | Err _ => 0%Z end) :: statuses, ix)
  end.

Lemma ingest_reaches env net r body req ix res ix' :
  RequestBody r = Ok body -> decode body = Ok req -> ingest env net r ix = (res, ix') ->
  ix' = ix /\ (forall a, res = Ok a -> resp_status a <> 200%Z) \/ ingest_events env net (chain_of req) (iq_Events req) ix = (res, ix').
Proof.
  intros Hb Hd E. unfold ingest, refuse, attempt, lift in E. rewrite Hb in E.
  assert (forall st msg, st <> 200%Z -> (Ok (http_error st msg), ix) = (res, ix') -> ix' = ix /\ (forall a, res = Ok a -> resp_status a <> 200%Z)) as Hr.
  { intros st msg Hst [= <- <-]. split; [done|]. by intros a [= <-]. }
  destruct (negb _); [left; eapply Hr; [|exact E]; done|]. destruct (Nat.ltb _ _); [left; eapply Hr; [|exact E]; done|].
  destruct (CheckIngestAuth _ _ _ _ _); [|left; eapply Hr; [|exact E]; done]. rewrite Hd in E. destruct (chain_of req <=? 0)%Z; [left; eapply Hr; [|exact E]; done|by right].
Qed.

Lemma ingest_one env net r body req ix :
  RequestBody r = Ok body -> decode body = Ok req ->
  let rows := event_row (chain_of req) <$> iq_Events req in
  let maxBlock := (max_block (iq_Events req)).1 in
  let '(res, ix') := ingest env net r ix in
  on_ix (delivery rows) ix ix' /\ redis_step (chain_of req) maxBlock ix ix' /\
  forall a, res = Ok a -> resp_status a = 200%Z ->
    chain_event (tables (ix_db ix')) = store_events rows (chain_event (tables (ix_db ix))) /\
    ((0 < maxBlock)%Z -> (maxBlock <= cursor (tables (ix_db ix')) (chain_of req))%Z) /\
    (has_redis cfg = true -> (0 < maxBlock)%Z -> ix_redis ix' = redis_written (chain_of req) maxBlock (ix_redis ix)).
Proof.
  intros Hb Hd rows maxBlock. destruct (ingest env net r ix) as [res ix'] eqn:E.
  destruct (ingest_reaches env net r body req ix res ix' Hb Hd E) as [[-> Hno]|Hev].
  { split; [done|]. split; [by left|]. intros a Ha Hst. by apply Hno in Ha. }
  pose proof (ingest_events_delivery env net (chain_of req) (iq_Events req) ix) as Hs. rewrite Hev in Hs.
  pose proof (ingest_events_redis env net (chain_of req) (iq_Events req) ix) as Hr. rewrite Hev in Hr.
  split; [exact Hs|]. split; [exact Hr|]. intros a -> Hst. destruct (ingest_events_ok _ _ _ _ _ _ _ Hev Hst) as [H1 H2].
  split; [done|]. split; [done|]. by apply (ingest_events_redis_ok _ _ _ _ _ _ _ Hev).
Qed.

(** C17: a batch of chain events that is delivered again and again, each time losing whatever requests and
    replies to the database and Redis, is stored as one delivery stores it: after any deliveries either
    nothing or exactly the batch is stored, no cursor in the database has gone back, and once a delivery was
    answered with success the batch is stored and that cursor has reached its highest block. Redis holds
    what it held, with at most the cursor of the chain set to the highest block of this batch - also when it
    was further - and exactly so after a success. *)
Theorem ingest_exactly_once l r body req ix :
  RequestBody r = Ok body -> decode body = Ok req ->
  let rows := event_row (chain_of req) <$> iq_Events req in
  let maxBlock := (max_block (iq_Events req)).1 in
  let t := tables (ix_db ix) in
  let '(statuses, ix') := deliveries l r ix in
  let t' := tables (ix_db ix') in
  stored rows t t' /\ cursors_grow t t' /\ redis_step (chain_of req) maxBlock ix ix' /\
  (200%Z ∈ statuses -> chain_event t' = store_events rows (chain_event t) /\
     ((0 < maxBlock)%Z -> (maxBlock <= cursor t' (chain_of req))%Z) /\
     (has_redis cfg = true -> (0 < maxBlock)%Z -> ix_redis ix' = redis_written (chain_of req) maxBlock (ix_redis ix))).
Proof.
  intros Hb Hd rows maxBlock. revert ix. induction l as [|[env net] l IH]; intros ix; cbn [deliveries].
  { destruct (delivery_preorder rows) as [Hr _]. destruct (Hr (tables (ix_db ix))) as [H1 H2]. split; [done|]. split; [done|]. split; [by left|]. by intros ?%not_elem_of_nil. }
  pose proof (ingest_one env net r body req ix Hb Hd) as H1. fold rows maxBlock in H1.
  destruct (ingest env net r ix) as [res ix1]. destruct H1 as (D1 & R1 & Hok). specialize (IH ix1).
  destruct (deliveries l r ix1) as [statuses ix']. destruct IH as (S2 & C2 & R2 & Hlater).
  assert (delivery rows (tables (ix_db ix)) (tables (ix_db ix'))) as [S C] by (etrans; [exact D1|by split]).
  split; [exact S|]. split; [exact C|]. split; [by transitivity ix1|]. intros [Hst|Hst]%elem_of_cons.
  - destruct res as [a|]; [|done]. destruct (Hok a eq_refl (eq_sym Hst)) as (Hev & Hcur & Hred). split; [|split].
    + destruct S2 as [E|E]; rewrite E, Hev; [done|by rewrite store_events_idem].
    + intros Hpos. specialize (Hcur Hpos). assert (is_Some (chain_cursor (tables (ix_db ix1)) !! chain_of req)) as Hsome.
      { unfold cursor in Hcur. destruct (chain_cursor (tables (ix_db ix1)) !! chain_of req); [by eexists|lia]. }
      destruct (C2 _ Hsome) as [_ Hle]. lia.
    + intros Hr Hpos. rewrite <- (Hred Hr Hpos). destruct R2 as [E|E]; [exact E|]. rewrite E, (Hred Hr Hpos). unfold redis_written. by rewrite insert_insert_eq.
  - destruct (Hlater Hst) as (Hev & Hcur & Hred). split; [|split; [done|]].
    + rewrite Hev. destruct D1 as [[E|E] _]; rewrite E; [done|by rewrite store_events_idem].
    + intros Hr Hpos. rewrite (Hred Hr Hpos). destruct R1 as [E|E]; rewrite E; [done|]. unfold redis_written. by rewrite insert_insert_eq.
Qed.
End Ingest.

(** The first delivery loses the reply to its commit, the second succeeds. *)
Lemma ingest_exactly_once_witness :
  let ev := mkIngestEvent 7 "0xab" "0x1" 0 "0xc" "Transfer" "" "" "" in
  let cfg := mkIndexerConfig 1 "" "" false in
  let r := mkRequest "POST" (fun _ => "") (fun _ => "") "peer" (Ok "batch") in
  let net lost := mkDbEnv (fun n => if lost && Nat.eqb n 2 then LostReply (errorf "timeout" []) else Delivered) (fun _ => order_id) in
  let t := mkTables [] ∅ ∅ ∅ ∅ ∅ ∅ ∅ ∅ ∅ ∅ ∅ ∅ in
  let '(statuses, ix') := deliveries (fun _ b => b) (fun _ => Ok (mkIngestRequest 0 [ev])) cfg [(net true, fun _ => Delivered); (net false, fun _ => Delivered)] r (mkIndexer (mkDb t 0) ∅ 0) in
  statuses = [500; 200]%Z /\ chain_event (tables (ix_db ix')) = store_events [event_row 1 ev] ∅.
Proof.
  intros ev cfg r net t. set (l := [(net true, _); _]). set (ix := mkIndexer _ _ _).
  pose proof (ingest_exactly_once (fun _ b => b) (fun _ => Ok (mkIngestRequest 0 [ev])) cfg l r "batch" (mkIngestRequest 0 [ev]) ix eq_refl eq_refl) as H.
  assert (fst (deliveries (fun _ b => b) (fun _ => Ok (mkIngestRequest 0 [ev])) cfg l r ix) = [500; 200]%Z) as Hst by by vm_compute.
  destruct (deliveries _ _ _ l r ix) as [statuses ix']. cbn [fst] in Hst. subst statuses. split; [done|].
  destruct H as (_ & _ & _ & H). apply H. right. left.
Defined.

(** A batch delivered again after a later one takes the cursor in Redis back; the one in the database stays. *)
Example redis_cursor_goes_back :
  let ev n := mkIngestEvent n "0xab" "0x1" 0 "0xc" "Transfer" "" "" "" in
  let cfg := mkIndexerConfig 1 "" "" true in
  let r body := mkRequest "POST" (fun _ => "") (fun _ => "") "peer" (Ok body) in
  let decode body := Ok (mkIngestRequest 0 [ev (if String.eqb body "old" then 7 else 9)%Z]) in
  let net := mkDbEnv (fun _ => Delivered) (fun _ => order_id) in
  let post body ix := snd (ingest (fun _ b => b) decode cfg net (fun _ => Delivered) (r body) ix) in
  let ix := post "old" (post "new" (post "old" (mkIndexer (mkDb (mkTables [] ∅ ∅ ∅ ∅ ∅ ∅ ∅ ∅ ∅ ∅ ∅ ∅) 0) ∅ 0))) in
  ix_redis ix !! "mmo:web3:cursor:1" = Some "7" /\ cursor (tables (ix_db ix)) 1 = 9%Z.
Proof. by vm_compute. Qed.
