(* ===== verification/Gateway.v ===== *)
(** [cmd/gateway/main.go]: the HTTP and WebSocket front end. A WebSocket session is attached to one cell;
    it forwards the player's input there, streams the cell's updates back, and moves to another cell when
    the player's position or a refused input asks for it. *)
From Stdlib Require Import Ascii ZArith Lia.
From S2P Require Import Prelude Effects GoFloat GoString Partition Registry Ecs Aoi Replic CellSim CellSvc RegistrySvc Db Http.
Local Open Scope string_scope.
Local Open Scope list_scope.

(** * A session *)

(** The fields of [gateway]; [positionSwitch*] times are durations. *)
Record gateway := mkGateway {
  registryAddr : string; resolveX : f64; resolveZ : f64; has_db : bool; allowCellIDMismatch : bool;
  positionSwitchEnabled : bool; positionSwitchMinInterval : Z; positionSwitchMinMoveMeters : f64;
  positionSwitchRetryBase : Z; positionSwitchRetryMax : Z }.

(** The connection and the client are those of the endpoint. *)
Record gatewayDownstream := mkDownstream { ds_cellID : string; ds_endpoint : string; ds_entityID : N }.

Record switchRetryState := mkRetry { rs_attempts : Z; rs_nextAttemptAt : Z }.

(** Times are meaningful once [hasResolvedPos] is set. *)
Record gatewaySession := mkSession {
  gs_playerID : string; gs_ds : option gatewayDownstream;
  lastX : f64; lastZ : f64; hasPos : bool;
  lastPositionResolveAt : Z; lastResolveX : f64; lastResolveZ : f64; hasResolvedPos : bool;
  gs_retry : gmap string switchRetryState }.

Definition setDownstream (ds : option gatewayDownstream) (s : gatewaySession) : gatewaySession :=
  mkSession (gs_playerID s) ds (lastX s) (lastZ s) (hasPos s) (lastPositionResolveAt s) (lastResolveX s) (lastResolveZ s) (hasResolvedPos s) (gs_retry s).
Definition setPosition (x z : f64) (s : gatewaySession) : gatewaySession :=
  mkSession (gs_playerID s) (gs_ds s) x z true (lastPositionResolveAt s) (lastResolveX s) (lastResolveZ s) (hasResolvedPos s) (gs_retry s).
Definition set_resolve (now : Z) (x z : f64) (s : gatewaySession) : gatewaySession :=
  mkSession (gs_playerID s) (gs_ds s) (lastX s) (lastZ s) (hasPos s) now x z true (gs_retry s).
Definition set_retry (m : gmap string switchRetryState) (s : gatewaySession) : gatewaySession :=
  mkSession (gs_playerID s) (gs_ds s) (lastX s) (lastZ s) (hasPos s) (lastPositionResolveAt s) (lastResolveX s) (lastResolveZ s) (hasResolvedPos s) m.

Definition positionOr (fallbackX fallbackZ : f64) (s : gatewaySession) : f64 * f64 :=
  if hasPos s then (lastX s, lastZ s) else (fallbackX, fallbackZ).

(** [t.Sub(u)] saturates. *)
Definition time_sub (t u : Z) : Z := Z.max (- 2 ^ 63) (Z.min (2 ^ 63 - 1) (t - u)).

(** Whether the position is to be resolved now; it is remembered then. *)
Definition markPositionResolveAttempt (hypot : f64 -> f64 -> f64) (now : Z) (x z minMoveMeters : f64) (minInterval : Z) (s : gatewaySession)
    : bool * gatewaySession :=
  if negb (hasPos s) then (false, s)
  else if negb (hasResolvedPos s) then (true, set_resolve now x z s)
  else
    let distance := hypot (x - lastResolveX s)%f64 (z - lastResolveZ s)%f64 in
    let elapsed := time_sub now (lastPositionResolveAt s) in
    if (elapsed <? minInterval)%Z && flt distance minMoveMeters then (false, s)
    else (true, set_resolve now x z s).

Definition switchRetryKey (fromCellID toCellID : string) : string := (trim_space fromCellID +:+ "->" +:+ trim_space toCellID)%string.

Definition allowPositionSwitchRetry (now : Z) (fromCellID toCellID : string) (s : gatewaySession) : bool :=
  match gs_retry s !! switchRetryKey fromCellID toCellID with
  | None => true
  | Some st => negb (now <? rs_nextAttemptAt st)%Z
  end.

(** The loop that doubles the pause, for [n] more attempts. *)
Fixpoint double_backoff (n : nat) (maxBackoff backoff : Z) : Z :=
  match n with
  | O => backoff
  | S n =>
      let b := int64 (backoff * 2) in
      if (0 <? maxBackoff)%Z && (maxBackoff <=? b)%Z then maxBackoff else double_backoff n maxBackoff b
  end.

Definition markPositionSwitchRetryFailure (now : Z) (fromCellID toCellID : string) (baseBackoff maxBackoff : Z) (s : gatewaySession) : gatewaySession :=
  if (baseBackoff <=? 0)%Z then s
  else
    let key := switchRetryKey fromCellID toCellID in
    let attempts := match gs_retry s !! key with
                    | Some st => if (rs_nextAttemptAt st <? now)%Z || (rs_attempts st <=? 0)%Z then 1%Z else (rs_attempts st + 1)%Z
                    | None => 1%Z
                    end in
    let backoff := double_backoff (Z.to_nat (attempts - 1)) maxBackoff baseBackoff in
    let backoff := if (0 <? maxBackoff)%Z && (maxBackoff <? backoff)%Z then maxBackoff else backoff in
    set_retry (<[key := mkRetry attempts (now + backoff)]> (gs_retry s)) s.

Definition clearPositionSwitchRetryState (fromCellID toCellID : string) (s : gatewaySession) : gatewaySession :=
  set_retry (delete (switchRetryKey fromCellID toCellID) (gs_retry s)) s.

(** * Errors that ask for another cell *)

Definition error_contains (e : error) (sub : string) : bool := contains (to_lower (sprint (error_string e))) sub.

Definition isParentCellMissingErr (e : error) : bool :=
  (bool_decide (err_code e = Some NotFound) && contains (to_lower (sprint (err_text e))) "cell not found") || error_contains e "cell not found".

Definition isRetriablePositionSwitchErr (e : error) : bool :=
  match err_code e with Some Unavailable | Some FailedPrecondition => true | _ => false end.

Definition shouldSwitchOnApplyInputMessage (msg : string) : bool :=
  let m := trim_space msg in String.eqb m "unknown_player" || String.eqb m "player_handoff_frozen" || String.eqb m "entity_gone".

Definition shouldSwitchDownstreamOnTransport (e : error) : bool :=
  bool_decide (err_code e = Some Unavailable) || error_contains e "transport: error while dialing" || error_contains e "connection refused" ||
  error_contains e "connection error" || error_contains e "i/o timeout".

(** * The state of a connection

    The cells and the registry behind the gateway with the database, the session, and the cell whose
    stream runs. *)
Record Gate (C : Type) := mkGate { gt_cluster : Cluster C; gt_db : Db }.
Arguments mkGate {C} _ _.
Arguments gt_cluster {C} _.
Arguments gt_db {C} _.

Record Conn (C : Type) := mkConn { cn_gate : Gate C; cn_session : gatewaySession; cn_stream : option gatewayDownstream }.
Arguments mkConn {C} _ _ _.
Arguments cn_gate {C} _.
Arguments cn_session {C} _.
Arguments cn_stream {C} _.

Definition on_cells {C A} (m : M C A) : St (Gate C) A := fun g => let '(r, cl) := m (gt_cluster g) in (r, mkGate cl (gt_db g)).
Definition on_store {C A} (m : St Db A) : St (Gate C) A := fun g => let '(r, d) := m (gt_db g) in (r, mkGate (gt_cluster g) d).
Definition on_gate {C A} (m : St (Gate C) A) : St (Conn C) A := fun c => let '(r, g) := m (cn_gate c) in (r, mkConn g (cn_session c) (cn_stream c)).
Definition on_session {C} (f : gatewaySession -> gatewaySession) : St (Conn C) unit := fun c => (Ok tt, mkConn (cn_gate c) (f (cn_session c)) (cn_stream c)).
Definition set_stream {C} (ds : option gatewayDownstream) : St (Conn C) unit := fun c => (Ok tt, mkConn (cn_gate c) (cn_session c) ds).

(** * Attaching to cells *)

Section Attach.
Context {C : Type} `{!Catalog C} (env : Env).

(** [Join], with its message. *)
Definition attachToCell (playerID cellID endpoint : string) : M C (gatewayDownstream * string) :=
  _ ← on_error (fun e => throw (errorf "cell dial %s: %w" [AStr endpoint; ATxt (error_string e)])) (lift (NewClient env endpoint));
  jres ← catch (call_cell env endpoint (fun _ s => Join playerID s));
  match jres with
  | Err e => throw (errorf "join failed: err=%v" [ATxt (error_string e)])
  | Ok j => if jr_Ok j then mret (mkDownstream cellID endpoint (jr_EntityId j), trim_space (jr_Message j))
            else throw (errorf "join failed: res=%v" [AStr (jr_Message j)])
  end.

(** The answer is only counted. *)
Definition leaveDownstream (ds : gatewayDownstream) (playerID : string) : M C unit :=
  ignore (call_cell env (ds_endpoint ds) (fun _ s => Leave playerID s)).

(** A cell is of use only when the player is there already; a player that the probe created leaves again. *)
Definition probe_already_joined (playerID cellID endpoint : string) : M C (option gatewayDownstream) :=
  probe ← catch (attachToCell playerID cellID endpoint);
  match probe with
  | Err _ => mret None
  | Ok (ds, joinMsg) =>
      if String.eqb joinMsg "already_joined" then mret (Some ds)
      else _ ← leaveDownstream ds playerID; mret None
  end.

Definition try_candidate (playerID currentCellID : string) (spec : option CellSpec) : M C (option gatewayDownstream) :=
  match spec with
  | None => mret None
  | Some spec =>
      let id := trim_space (Id spec) in
      let ep := trim_space (GrpcEndpoint spec) in
      if String.eqb id "" || String.eqb ep "" || String.eqb id currentCellID then mret None
      else probe_already_joined playerID id ep
  end.

Fixpoint try_candidates (playerID currentCellID : string) (specs : list (option CellSpec)) : M C (option gatewayDownstream) :=
  match specs with
  | [] => mret None
  | spec :: specs =>
      found ← try_candidate playerID currentCellID spec;
      match found with
      | Some ds => mret (Some ds)
      | None => try_candidates playerID currentCellID specs
      end
  end.

(** First the cells below the current one, then all. *)
Definition tryAttachAlreadyJoinedFromCatalog (playerID currentCellID : string) : M C (option gatewayDownstream) :=
  cells ← remote env (SvcListCells env);
  let currentCellID := trim_space currentCellID in
  let below := base.filter (fun spec => is_true (match spec with
                 | Some s => has_prefix (trim_space (Id s)) (currentCellID +:+ "_")
                 | None => false
                 end)) cells in
  found ← (if String.eqb currentCellID "" then mret None else try_candidates playerID currentCellID below);
  match found with
  | Some ds => mret (Some ds)
  | None => try_candidates playerID currentCellID cells
  end.

(** The next reading of the clock. *)
Definition time_now : M C Z := fun cl => (Ok (clock env (calls cl)), cl).

Definition handoff_token (playerID : string) (nanos : Z) : string := ("gw-pos-" +:+ playerID +:+ "-" +:+ itoa nanos)%string.

Definition forwardPlayerHandoffSwitch (playerID fromCellID : string) (nextCell : CellSpec) : M C gatewayDownstream :=
  if String.eqb (trim_space (Id nextCell)) "" || String.eqb (trim_space (GrpcEndpoint nextCell)) ""
  then throw (errorf "forward handoff switch: invalid target cell" [])
  else
    nanos ← time_now;
    entityID ← remote env (ForwardPlayerHandoff env (Some (mkPlayerReq fromCellID (Id nextCell) playerID (handoff_token playerID nanos))));
    if (entityID =? 0)%N then throw (errorf "forward handoff switch failed: %v" [AInt 0])
    else
      _ ← on_error (fun e => throw (errorf "cell dial %s: %w" [AStr (GrpcEndpoint nextCell); ATxt (error_string e)])) (lift (NewClient env (GrpcEndpoint nextCell)));
      mret (mkDownstream (Id nextCell) (GrpcEndpoint nextCell) entityID).

Definition tryRecoverFromMissingParentSwitch (playerID : string) (nextCell : CellSpec) : M C (option gatewayDownstream) :=
  if String.eqb (trim_space (Id nextCell)) "" || String.eqb (trim_space (GrpcEndpoint nextCell)) "" then mret None
  else
    r ← attachToCell playerID (Id nextCell) (GrpcEndpoint nextCell);
    let '(recovered, joinMsg) := r in
    if negb (String.eqb joinMsg "already_joined") && negb (String.eqb joinMsg "spawned")
    then _ ← leaveDownstream recovered playerID; mret None
    else mret (Some recovered).

(** After a handoff that failed with [e]: a cell that no longer is in the catalog is given up. *)
Definition recover_cell (playerID : string) (nextCell : CellSpec) (e : error) : M C (option gatewayDownstream) :=
  if isParentCellMissingErr e
  then r ← catch (tryRecoverFromMissingParentSwitch playerID nextCell);
       mret (match r with Ok (Some ds) => Some ds | _ => None end)
  else mret None.

(** Or the cell that has the player, if one has. *)
Definition fallback_cell (playerID currentCellID : string) : M C (option gatewayDownstream) :=
  r ← catch (tryAttachAlreadyJoinedFromCatalog playerID currentCellID);
  mret (match r with Ok (Some ds) => Some ds | _ => None end).

(** [ResolvePosition], and the cell it found. *)
Definition resolve_target (x z : f64) (missing : string) : M C CellSpec :=
  cell ← remote env (ResolvePosition env (Some (x, z)));
  match cell with
  | Some cell => if String.eqb (trim_space (GrpcEndpoint cell)) "" then throw (errorf missing []) else mret cell
  | None => throw (errorf missing [])
  end.
End Attach.

(** * Moving to another cell *)

Section Switch.
Context {C : Type} `{!Catalog C} (env : Env) (db_env : DbEnv) (g : gateway) (hypot : f64 -> f64 -> f64).

Abbreviation G := (St (Conn C)).
Definition cells {A} (m : M C A) : G A := on_gate (on_cells m).

(** After a refused input: [Ok None] stays. *)
Definition trySwitchDownstream (fallbackX fallbackZ : f64) : G (option gatewayDownstream) := fun c =>
  match gs_ds (cn_session c) with
  | None => (Ok None, c)
  | Some cur =>
      let playerID := gs_playerID (cn_session c) in
      let '(px, pz) := positionOr fallbackX fallbackZ (cn_session c) in
      (nextCell ← cells (resolve_target env px pz "resolve switch target not found");
       if String.eqb (Id nextCell) (ds_cellID cur) then cells (tryAttachAlreadyJoinedFromCatalog env playerID (ds_cellID cur))
       else
         probe ← cells (probe_already_joined env playerID (Id nextCell) (GrpcEndpoint nextCell));
         match probe with
         | Some ds => mret (Some ds)
         | None =>
             next ← catch (cells (forwardPlayerHandoffSwitch env playerID (ds_cellID cur) nextCell));
             match next with
             | Ok ds => mret (Some ds)
             | Err e =>
                 recovered ← cells (recover_cell env playerID nextCell e);
                 match recovered with
                 | Some ds => mret (Some ds)
                 | None =>
                     found ← cells (fallback_cell env playerID (ds_cellID cur));
                     match found with Some ds => mret (Some ds) | None => throw e end
                 end
             end
         end) c
  end.

(** Before an input, when the player has moved or some time has passed. *)
Definition trySwitchDownstreamByPosition : G (option gatewayDownstream) := fun c =>
  match gs_ds (cn_session c) with
  | None => (Ok None, c)
  | Some cur =>
      if negb (hasPos (cn_session c)) then (Ok None, c)
      else
        let playerID := gs_playerID (cn_session c) in
        let from := ds_cellID cur in
        let px := lastX (cn_session c) in
        let pz := lastZ (cn_session c) in
        let now := clock env (calls (gt_cluster (cn_gate c))) in
        let '(go, session) := markPositionResolveAttempt hypot now px pz (positionSwitchMinMoveMeters g) (positionSwitchMinInterval g) (cn_session c) in
        if negb go then (Ok None, c)
        else
          (_ ← on_session (fun _ => session);
           nextCell ← cells (resolve_target env px pz "proactive resolve switch target not found");
           let to := Id nextCell in
           if String.eqb to from then cells (tryAttachAlreadyJoinedFromCatalog env playerID from)
           else if negb (allowPositionSwitchRetry now from to session) then mret None
           else
             probe ← cells (probe_already_joined env playerID to (GrpcEndpoint nextCell));
             match probe with
             | Some ds => mret (Some ds)
             | None =>
                 next ← catch (cells (forwardPlayerHandoffSwitch env playerID from nextCell));
                 match next with
                 | Ok ds => _ ← on_session (clearPositionSwitchRetryState from to); mret (Some ds)
                 | Err e =>
                     recovered ← cells (recover_cell env playerID nextCell e);
                     match recovered with
                     | Some ds => mret (Some ds)
                     | None =>
                         found ← cells (fallback_cell env playerID from);
                         match found with
                         | Some ds => _ ← on_session (clearPositionSwitchRetryState from to); mret (Some ds)
                         | None =>
                             _ ← (if isRetriablePositionSwitchErr e
                                  then on_session (markPositionSwitchRetryFailure now from to (positionSwitchRetryBase g) (positionSwitchRetryMax g))
                                  else mret tt);
                             throw e
                         end
                     end
                 end
             end) c
  end.

(** The cell of the player is stored with its position. *)
Definition save_last_cell (playerID cellID : string) (rx rz : f64) : G unit := fun c =>
  if has_db g then
    let '(px, pz) := positionOr rx rz (cn_session c) in
    ignore (on_gate (on_store (UpsertPlayerLastCell db_env playerID cellID px pz))) c
  else (Ok tt, c).

Definition applyDownstreamSwitch (old next : gatewayDownstream) (playerID : string) (rx rz : f64) : G unit :=
  _ ← set_stream None;
  _ ← cells (leaveDownstream env old playerID);
  _ ← on_session (setDownstream (Some next));
  _ ← set_stream (Some next);
  save_last_cell playerID (ds_cellID next) rx rz.

(** The input goes to the cell; when it is refused for a reason that another cell may cure, the session
    moves. [math.Sin] and [math.Cos] are parameters of the cell. *)
Definition forward_input (cos sin : f64 -> f64) (current : gatewayDownstream) (playerID : string) (rx rz : f64) (inp : ClientInput) : G unit :=
  ares ← catch (cells (call_cell env (ds_endpoint current) (fun _ s => ApplyInput cos sin playerID (Some inp) s)));
  let refused := match ares with Ok a => negb (ir_Ok a) | Err _ => true end in
  let shouldTrySwitch := match ares with
                         | Ok a => shouldSwitchOnApplyInputMessage (ir_Message a)
                         | Err e => shouldSwitchDownstreamOnTransport e
                         end in
  if refused && shouldTrySwitch then
    next ← catch (trySwitchDownstream rx rz);
    match next with
    | Ok (Some ds) => applyDownstreamSwitch current ds playerID rx rz
    | _ => mret tt
    end
  else mret tt.

(** A message of the client that the limiter lets through and that parses; [false] ends the session. *)
Definition ws_message (cos sin : f64 -> f64) (playerID : string) (rx rz : f64) (inp : ClientInput) : G bool := fun c =>
  match gs_ds (cn_session c) with
  | None => (Ok false, c)
  | Some current =>
      (next ← (if positionSwitchEnabled g
               then r ← catch trySwitchDownstreamByPosition; mret (match r with Ok (Some ds) => Some ds | _ => None end)
               else mret None);
       _ ← match next with
           | Some ds => applyDownstreamSwitch current ds playerID rx rz
           | None => forward_input cos sin current playerID rx rz inp
           end;
       mret true) c
  end.

(** The first entity of a chunk that is the player's tells the session its position. *)
Definition observeSelfPosition (entityID : N) (chunk : WorldChunk) (s : gatewaySession) : gatewaySession :=
  if (entityID =? 0)%N then s
  else
    let entities := match chunk with ChunkSnapshot snap => sn_Entities snap | ChunkDelta delta => d_Changed delta end in
    match find (fun ent => (es_EntityId ent =? entityID)%N) entities with
    | Some ent => setPosition (of_f32 (v3X (es_Position ent))) (of_f32 (v3Z (es_Position ent))) s
    | None => s
    end.
End Switch.
