(* ===== verification/GatewayHttp.v ===== *)
(** The HTTP handlers of [cmd/gateway/main.go]: the session token, the player's own data, the preview of
    the cell, and the start and end of a WebSocket session. *)
From Stdlib Require Import Ascii ZArith Lia.
From S2P Require Import Prelude Effects GoFloat GoString GoNumber Partition Registry Ecs Aoi Replic CellSim CellSvc RegistrySvc Db Http Gateway.
Local Open Scope string_scope.
Local Open Scope list_scope.

(** * Tokens and bodies *)

(** [sessionClaims]; the expiry is the library's business. *)
Record sessionClaims := mkClaims { Subject : string; MmoHasResolve : bool; MmoRX : f64; MmoRZ : f64 }.

Record SessionBody := mkSessionBody { sb_PlayerID : string; sb_DisplayName : string; sb_ResolveX : option f64; sb_ResolveZ : option f64 }.

(** The JWT library and [encoding/json] on the bodies of the requests. *)
Record Codecs := mkCodecs {
  jwt_sign : sessionClaims -> result string;
  jwt_parse : string -> option sessionClaims;
  parse_session : string -> option SessionBody;
  parse_quest : string -> option (string * Z);
  parse_item : string -> option (string * Z);
  parse_transfer : string -> option (string * string * Z) }.

Section Handlers.
Context {C : Type} `{!Catalog C} (env : Env) (db_env : DbEnv) (g : gateway) (codecs : Codecs).

Abbreviation H := (St (Gate C)).

(** The hints in the texts of bad requests are shortened: they show a sample of the JSON. *)
Definition unauthorized : Response := http_error 401 (lit "unauthorized").
Definition bad_request (t : text) : Response := http_error 400 t.

Definition bearerOrQueryToken (r : Request) : string :=
  let tokenStr := Header r "Authorization" in
  if has_prefix tokenStr "Bearer " then trim_space (trim_prefix tokenStr "Bearer ") else Query r "token".

(** The claims of a valid token with a subject. *)
Definition claims_of (tokenStr : string) : option sessionClaims :=
  match jwt_parse codecs tokenStr with
  | Some claims => if String.eqb (Subject claims) "" then None else Some claims
  | None => None
  end.

Definition with_claims (r : Request) (k : sessionClaims -> H Response) : H Response :=
  let tokenStr := bearerOrQueryToken r in
  if String.eqb tokenStr "" then mret unauthorized
  else match claims_of tokenStr with Some claims => k claims | None => mret unauthorized end.

(** The guards of the handlers on the player's data. *)
Definition player_handler (method : string) (r : Request) (k : sessionClaims -> H Response) : H Response :=
  refuse (negb (String.eqb (Method r) method)) (http_error 405 (Fmt "%s only" [AStr method])) (
  refuse (negb (has_db g)) (http_error 503 (lit "service unavailable")) (with_claims r k)).

Definition body_of {A} (parse : string -> option A) (r : Request) : option A :=
  match RequestBody r with Ok b => parse b | Err _ => None end.

Definition ok_json : Response := json_answer 200 (JObj [("ok", JBool true)]).

(** * The token *)

(** The coordinates that a session starts at when the request names none. *)
Definition stored_resolve (playerID : string) : H (f64 * f64) := fun s =>
  if has_db g then
    match on_store (GetPlayerLastCellCoords db_env playerID) s with
    | (Ok (Some (lx, lz)), s) => (Ok (lx, lz), s)
    | (_, s) => (Ok (resolveX g, resolveZ g), s)
    end
  else (Ok (resolveX g, resolveZ g), s).

Definition questAPIMap (q : PlayerQuestAPIRow) : Json :=
  JObj ([("quest_id", JStr (qr_QuestID q)); ("state", JStr (qr_State q)); ("progress", JInt (qr_Progress q)); ("target_progress", JInt (qr_TargetProgress q))]
    ++ (if String.eqb (qr_PrerequisiteQuestID q) "" then [] else [("prerequisite_quest_id", JStr (qr_PrerequisiteQuestID q))])).

Definition item_json (it : PlayerItemRow) : Json :=
  JObj [("item_id", JStr (ir_ItemID it)); ("quantity", JInt (ir_Quantity it)); ("display_name", JStr (ir_DisplayName it))].

Definition slot_json (s : inventorySlotJSON) : Json := JObj [("item_id", JStr (sl_ItemID s)); ("qty", JInt (sl_Qty s))].

(** The rows a player needs; errors are logged only. *)
Definition prepare_player (body : SessionBody) : St Db unit :=
  let p := sb_PlayerID body in
  _ ← ignore (RecordSessionIssue db_env p);
  _ ← ignore (UpsertPlayerProfile db_env p (sb_DisplayName body));
  _ ← ignore (EnsurePlayerStats db_env p);
  _ ← ignore (EnsurePlayerWallet db_env p);
  _ ← ignore (EnsurePlayerInventory db_env p);
  _ ← ignore (EnsurePlayerQuestSeed db_env p);
  _ ← ignore (EnsureUnlockedQuestsForPlayer db_env p);
  _ ← ignore (EnsureStarterPlayerItems db_env p);
  ignore (SyncPlayerInventoryJSONB db_env p).

(** What the answer tells of the player; a read that fails leaves its part out. *)
Definition player_state (p : string) : St Db (list (string * Json)) :=
  stats ← catch (GetPlayerStats db_env p);
  gold ← catch (GetPlayerWallet db_env p);
  inv ← catch (GetPlayerInventoryItems db_env p);
  quests ← catch (ListPlayerQuestsForAPI db_env p);
  items ← catch (ListPlayerItemsNormalized db_env p);
  mret ((match stats with Ok (Some (lvl, xp)) => [("stats", JObj [("level", JInt lvl); ("xp", JInt xp)])] | _ => [] end)
    ++ (match gold with Ok (Some gold) => [("wallet", JObj [("gold", JInt gold)])] | _ => [] end)
    ++ (match inv with Ok (Some slots) => [("inventory", JArr (slot_json <$> slots))] | _ => [] end)
    ++ (match quests with Ok (q :: qs) => [("quests", JArr (questAPIMap <$> q :: qs))] | _ => [] end)
    ++ (match items with Ok (it :: its) => [("items", JArr (item_json <$> it :: its))] | _ => [] end)).

Definition issue_token (body : SessionBody) (rx rz : f64) : H Response :=
  attempt (lift (jwt_sign codecs (mkClaims (sb_PlayerID body) true rx rz))) (fun _ => http_error 500 (lit "token")) (fun signed =>
  if has_db g then
    _ ← on_store (prepare_player body);
    state ← on_store (player_state (sb_PlayerID body));
    mret (json_answer 200 (JObj (("token", JStr signed) :: state)))
  else mret (json_answer 200 (JObj [("token", JStr signed)]))).

(** The handler of [/v1/session]; [allowed] is the answer of the rate limiter for the peer. *)
Definition session (allowed : bool) (r : Request) : H Response :=
  refuse (negb (String.eqb (Method r) "POST")) (http_error 405 (lit "POST only")) (
  refuse (negb allowed) (http_error 429 (lit "rate limit")) (
  match body_of (parse_session codecs) r with
  | None => mret (bad_request (lit "need {player_id}"))
  | Some body =>
      refuse (String.eqb (trim_space (sb_PlayerID body)) "") (bad_request (lit "need {player_id}"))
      match sb_ResolveX body, sb_ResolveZ body with
      | Some rx, Some rz =>
          refuse (is_nan rx || is_nan rz) (bad_request (lit "resolve_x and resolve_z must be valid numbers")) (issue_token body rx rz)
      | None, None => rxz ← stored_resolve (sb_PlayerID body); issue_token body (fst rxz) (snd rxz)
      | _, _ => mret (bad_request (lit "provide both resolve_x and resolve_z or omit both"))
      end
  end)).

(** * The player's data *)

Definition meQuests (r : Request) : H Response :=
  player_handler "GET" r (fun claims =>
  attempt (on_store (ListPlayerQuestsForAPI db_env (Subject claims))) (fun _ => http_error 500 (lit "internal error")) (fun rows =>
  mret (json_answer 200 (JObj [("quests", JArr (questAPIMap <$> rows))])))).

Definition progress_json (res : QuestProgressApplyResult) : Json :=
  JObj ([("ok", JBool true); ("completed", JBool (Completed res)); ("progress", JInt (Progress res)); ("target_progress", JInt (TargetProgress res));
         ("already_complete", JBool (AlreadyComplete res))]
    ++ (if Completed res
        then [("gold_reward", JInt (GoldReward res))]
             ++ (match ItemsRewarded res with [] => [] | its => [("items_rewarded", JArr (item_json <$> its))] end)
             ++ (match NewlyUnlockedQuests res with [] => [] | qs => [("newly_unlocked_quests", JArr (JStr <$> qs))] end)
        else [])).

Definition questProgress (r : Request) : H Response :=
  player_handler "POST" r (fun claims =>
  match body_of (parse_quest codecs) r with
  | None => mret (bad_request (lit "need {quest_id, progress}"))
  | Some (questID, progress) =>
      refuse (String.eqb (trim_space questID) "") (bad_request (lit "need {quest_id, progress}")) (
      attempt (on_store (ApplyPlayerQuestProgress db_env (Subject claims) questID progress)) (fun _ => bad_request (lit "bad request")) (fun res =>
      mret (json_answer 200 (progress_json res))))
  end).

(** [/v1/me/items/add] and [/v1/me/items/remove] differ in the operation. *)
Definition items_handler (op : string -> string -> Z -> St Db unit) (r : Request) : H Response :=
  player_handler "POST" r (fun claims =>
  match body_of (parse_item codecs) r with
  | None => mret (bad_request (lit "need {item_id, quantity}"))
  | Some (itemID, qty) =>
      refuse (String.eqb (trim_space itemID) "" || (qty <=? 0)%Z) (bad_request (lit "need {item_id, quantity}")) (
      attempt (on_store (op (Subject claims) itemID qty)) (fun _ => bad_request (lit "bad request")) (fun _ => mret ok_json))
  end).

Definition itemsAdd : Request -> H Response := items_handler (AddPlayerItemQuantity db_env).
Definition itemsRemove : Request -> H Response := items_handler (RemovePlayerItemQuantity db_env).

Definition itemsTransfer (r : Request) : H Response :=
  player_handler "POST" r (fun claims =>
  match body_of (parse_transfer codecs) r with
  | None => mret (bad_request (lit "need {to_player_id, item_id, quantity}"))
  | Some (toPlayerID, itemID, qty) =>
      refuse (String.eqb (trim_space toPlayerID) "" || String.eqb (trim_space itemID) "" || (qty <=? 0)%Z) (bad_request (lit "need {to_player_id, item_id, quantity}")) (
      attempt (on_store (TransferPlayerItems db_env (Subject claims) toPlayerID itemID qty)) (fun _ => bad_request (lit "bad request")) (fun _ => mret ok_json))
  end).

Definition last_cell_json (rec : PlayerLastCellRecord) : list (string * Json) :=
  [("cell_id", JStr (lc_CellID rec)); ("resolve_x", JFloat (lc_ResolveX rec)); ("resolve_z", JFloat (lc_ResolveZ rec))].

Definition lastCell (r : Request) : H Response :=
  player_handler "GET" r (fun claims =>
  attempt (on_store (GetPlayerLastCellRecord db_env (Subject claims))) (fun _ => http_error 500 (lit "internal error")) (fun rec =>
  mret (json_answer 200 (JObj match rec with
                              | Some rec => ("found", JBool true) :: last_cell_json rec
                              | None => [("found", JBool false)]
                              end)))).

(** * The cell at a position *)

Definition boundsToJSON (b : Bounds) : Json :=
  JObj [("x_min", JFloat (XMin b)); ("x_max", JFloat (XMax b)); ("z_min", JFloat (ZMin b)); ("z_max", JFloat (ZMax b))].

Definition resolvedCellJSON (cell : option CellSpec) : Json :=
  match cell with
  | None => JObj [("found", JBool false)]
  | Some cell =>
      if String.eqb (GrpcEndpoint cell) "" then JObj [("found", JBool false)]
      else JObj ([("found", JBool true); ("cell_id", JStr (Id cell)); ("grpc_endpoint", JStr (GrpcEndpoint cell))]
                 ++ match CBounds cell with Some b => [("bounds", boundsToJSON b)] | None => [] end)
  end.

(** The first listed cell of that id that has bounds lends them. *)
Fixpoint lend_bounds (id : string) (cell : CellSpec) (specs : list (option CellSpec)) : CellSpec :=
  match specs with
  | [] => cell
  | Some c :: specs =>
      match CBounds c with
      | Some b => if String.eqb (trim_space (Id c)) id then mkCellSpec (Id cell) (Level cell) (Some b) (GrpcEndpoint cell) else lend_bounds id cell specs
      | None => lend_bounds id cell specs
      end
  | None :: specs => lend_bounds id cell specs
  end.

Definition enrichCellSpecBoundsFromRegistryList (cell : CellSpec) : M C CellSpec :=
  let id := trim_space (Id cell) in
  match CBounds cell with
  | Some _ => mret cell
  | None =>
      if String.eqb id "" then mret cell
      else
        l ← catch (remote env (SvcListCells env));
        mret (match l with Ok specs => lend_bounds id cell specs | Err _ => cell end)
  end.

(** The coordinates of the query, or the player's. *)
Definition preview_position (r : Request) (playerID : string) : H (Response + f64 * f64) :=
  let qx := Query r "resolve_x" in
  let qz := Query r "resolve_z" in
  if negb (Bool.eqb (String.eqb qx "") (String.eqb qz "")) then mret (inl (bad_request (lit "provide both resolve_x and resolve_z")))
  else if String.eqb qx "" then xz ← stored_resolve playerID; mret (inr xz)
  else match ParseFloat64 qx with
  | Err _ => mret (inl (bad_request (lit "invalid resolve_x")))
  | Ok rx =>
      match ParseFloat64 qz with
      | Err _ => mret (inl (bad_request (lit "invalid resolve_z")))
      | Ok rz => mret (if is_nan rx || is_nan rz then inl (bad_request (lit "resolve_x and resolve_z must be valid numbers")) else inr (rx, rz))
      end
  end.

(** The record of the last cell and whether the resolved cell is another one. *)
Definition preview_last_cell (playerID : string) (resolved : option CellSpec) : H (list (string * Json)) := fun s =>
  if has_db g then
    match on_store (GetPlayerLastCellRecord db_env playerID) s with
    | (Ok (Some rec), s) =>
        let resolvedID := match resolved with Some cell => Id cell | None => "" end in
        let mismatch := negb (String.eqb resolvedID "") && negb (String.eqb (lc_CellID rec) "") && negb (String.eqb resolvedID (lc_CellID rec)) in
        (Ok [("last_cell", JObj (("found", JBool true) :: last_cell_json rec)); ("cell_id_mismatch", JBool mismatch)], s)
    | (Ok None, s) => (Ok [("last_cell", JObj [("found", JBool false)]); ("cell_id_mismatch", JBool false)], s)
    | (Err _, s) => (Ok [("cell_id_mismatch", JBool false)], s)
    end
  else (Ok [("cell_id_mismatch", JBool false)], s).

Definition resolvePreview (r : Request) : H Response :=
  refuse (negb (String.eqb (Method r) "GET")) (http_error 405 (lit "GET only")) (
  with_claims r (fun claims =>
  pos ← preview_position r (Subject claims);
  match pos with
  | inl answer => mret answer
  | inr (rx, rz) =>
      attempt (lift (NewClient env (registryAddr g))) (fun _ => http_error 502 (lit "registry unavailable")) (fun _ =>
      attempt (on_cells (remote env (ResolvePosition env (Some (rx, rz))))) (fun _ => http_error 502 (lit "registry resolve failed")) (fun cell =>
      resolved ← (match cell with
                  | Some cell => c ← on_cells (enrichCellSpecBoundsFromRegistryList cell); mret (Some c)
                  | None => mret None
                  end);
      last ← preview_last_cell (Subject claims) resolved;
      mret (json_answer 200 (JObj ([("resolve_x", JFloat rx); ("resolve_z", JFloat rz); ("resolved", resolvedCellJSON resolved)] ++ last)))))
  end)).

(** * WebSocket sessions *)

(** The header comes second here. *)
Definition ws_token (r : Request) : string :=
  let t := Query r "token" in
  if negb (String.eqb t "") then t
  else let h := Header r "Authorization" in
       if has_prefix h "Bearer " then trim_space (trim_prefix h "Bearer ") else "".

Definition conflict_json (rec : PlayerLastCellRecord) (resolved : CellSpec) (rx rz : f64) : Json :=
  JObj [("error", JStr "cell_handoff_required");
        ("message", JStr "last_cell in DB does not match registry resolve for this session; update resolve in POST /v1/session (or GET /v1/me/resolve-preview), then reconnect WebSocket");
        ("last_cell", JObj (last_cell_json rec)); ("resolved", resolvedCellJSON (Some resolved));
        ("session_resolve_x", JFloat rx); ("session_resolve_z", JFloat rz);
        ("hint", JStr "Prefer coordinates from last_cell or from resolved cell for the desired shard; JWT mmo_rx/mmo_rz must match before /v1/ws")].

(** Whether the session may start in the resolved cell, or the conflict. *)
Definition handoff_check (playerID : string) (cell : CellSpec) (rx rz : f64) : H (option Response) := fun s =>
  if has_db g then
    match on_store (GetPlayerLastCellRecord db_env playerID) s with
    | (Ok (Some rec), s) =>
        if negb (String.eqb (Id cell) "") && negb (String.eqb (lc_CellID rec) "") && negb (String.eqb (lc_CellID rec) (Id cell)) && negb (allowCellIDMismatch g)
        then (Ok (Some (mkResponse 409 [("X-MMO-Last-Cell-Id", lc_CellID rec); ("X-MMO-Resolved-Cell-Id", Id cell)] (BJson (conflict_json rec cell rx rz)))), s)
        else (Ok None, s)
    | (_, s) => (Ok None, s)
    end
  else (Ok None, s).

(** A session that started: its player, its fallback coordinates, and where it is attached. *)
Record Started := mkStarted { st_player : string; st_rx : f64; st_rz : f64; st_ds : gatewayDownstream }.

(** Up to the upgrade of the connection ([upgraded]); an initial attach that fails ends it. *)
Definition ws_start (upgraded : bool) (r : Request) : H (Response + option Started) :=
  match claims_of (ws_token r) with
  | None => mret (inl unauthorized)
  | Some claims =>
      let playerID := Subject claims in
      let '(rx, rz) := if MmoHasResolve claims then (MmoRX claims, MmoRZ claims) else (resolveX g, resolveZ g) in
      dial ← catch (lift (NewClient env (registryAddr g)));
      match dial with
      | Err _ => mret (inl (http_error 502 (lit "registry unavailable")))
      | Ok _ =>
          res ← catch (on_cells (remote env (ResolvePosition env (Some (rx, rz)))));
          match res with
          | Err _ => mret (inl (http_error 502 (lit "registry resolve failed")))
          | Ok None => mret (inl (http_error 503 (lit "no cell for resolve position")))
          | Ok (Some cell) =>
              if String.eqb (GrpcEndpoint cell) "" then mret (inl (http_error 503 (lit "no cell for resolve position")))
              else
                cell ← on_cells (enrichCellSpecBoundsFromRegistryList cell);
                conflict ← handoff_check playerID cell rx rz;
                match conflict with
                | Some answer => mret (inl answer)
                | None =>
                    if negb upgraded then mret (inr None)
                    else
                      ds ← catch (on_cells (attachToCell env playerID (Id cell) (GrpcEndpoint cell)));
                      mret (inr (match ds with Ok (ds, _) => Some (mkStarted playerID rx rz ds) | Err _ => None end))
                end
          end
      end
  end.

Definition new_session (st : Started) : gatewaySession :=
  mkSession (st_player st) (Some (st_ds st)) f0 f0 false 0 f0 f0 false ∅.

(** [defer]: the player leaves its cell, and the cell is remembered. *)
Definition ws_end (st : Started) : St (Conn C) unit := fun c =>
  match gs_ds (cn_session c) with
  | None => (Ok tt, c)
  | Some ds =>
      (_ ← set_stream None;
       _ ← cells (leaveDownstream env ds (st_player st));
       if negb (String.eqb (ds_cellID ds) "") then save_last_cell db_env g (st_player st) (ds_cellID ds) (st_rx st) (st_rz st) else mret tt) c
  end.
End Handlers.
