(* ===== verification/Presence.v ===== *)
(** Where a player is: the cells as a gateway acts on them ([cmd/gateway/main.go]: attaching, probing,
    leaving, handing over), on a network that loses nothing. *)
From Stdlib Require Import Ascii ZArith Lia.
From S2P Require Import Prelude Effects GoFloat GoString Partition Registry Ecs Aoi Replic CellSim CellSvc CellInv Handoff RegistrySvc RegistryLogic Db Http Gateway.
Local Open Scope string_scope.
Local Open Scope list_scope.

(** * One cell *)

(** What the first section of a prepare with an unused token leaves as it was, and why it refuses. *)
Lemma prepare_begin_frame o n1 n2 pid tok s s' d :
  server_wf s -> preparedByTk s !! tok = None -> prepare_begin o n1 n2 pid tok s = (s', d) ->
  Sim s' = Sim s /\ playerByID s' = playerByID s /\ acceptedByTk s' = acceptedByTk s /\
  (forall t, preparedByTk s !! t = None -> preparedByTk s' !! t = None) /\
  match d with
  | Return r => pr_Payload r = None /\ pr_Message r ∈ ["handoff already in progress for player"; "unknown_player"]
  | Continue e => playerByID s !! pid = Some e
  end.
Proof.
  intros Hs Htok. unfold prepare_begin. destruct (prune_spec o n1 s (swf_handoff s Hs)) as (_ & Hsame & _ & Htk).
  set (s1 := pruneStalePreparedLocked o n1 s) in *. destruct Hsame as (E1 & _ & E2 & E3 & _).
  assert (forall t, preparedByTk s !! t = None -> preparedByTk s1 !! t = None) as Hnone.
  { intros t Ht. destruct (preparedByTk s1 !! t) as [pp|] eqn:E; [|done]. apply Htk in E. congruence. }
  rewrite (Hnone _ Htok).
  assert (forall s2, Sim s2 = Sim s -> playerByID s2 = playerByID s -> acceptedByTk s2 = acceptedByTk s ->
    (forall t, preparedByTk s !! t = None -> preparedByTk s2 !! t = None) ->
    match playerByID s2 !! pid with
    | None => (s2, Return (mkPrepResp false "unknown_player" None))
    | Some entityID => (set_handoff ({[pid]} ∪ frozenByID s2) (<[pid := tok]> (preparedByID s2)) (preparedByTk s2) s2, Continue entityID)
    end = (s', d) ->
    Sim s' = Sim s /\ playerByID s' = playerByID s /\ acceptedByTk s' = acceptedByTk s /\
    (forall t, preparedByTk s !! t = None -> preparedByTk s' !! t = None) /\
    match d with
    | Return r => pr_Payload r = None /\ pr_Message r ∈ ["handoff already in progress for player"; "unknown_player"]
    | Continue e => playerByID s !! pid = Some e
    end) as Hend.
  { intros s2 F1 F2 F3 F4. destruct (playerByID s2 !! pid) as [e|] eqn:Ee; intros [= <- <-]; repeat (split; [done|]).
    - by rewrite <- F2.
    - right. left. }
  destruct (preparedByID s1 !! pid) as [t|]; [|by apply Hend]. destruct (String.eqb t tok); [by apply Hend|].
  destruct (match preparedByTk s1 !! t with Some _ => _ | None => _ end).
  - apply Hend; try done. intros t' Ht'. cbn. apply lookup_delete_None. right. by apply Hnone.
  - intros [= <- <-]. repeat (split; [done|]). left.
Qed.

(** The last entity id that the world of a cell has given out. *)
Definition ids (s : Server) : N := match Sim s with Some r => nextID (rt_World r) | None => 0 end.

Section Cell.
#[local] Set Default Proof Using "Type*".
(** A player, and the tokens of its handoffs, by the number of the call before which the clock is read. *)
Context (env : Env) (playerID : string).
Definition the_player : string := trim_space playerID.
Definition token (n : nat) : string := trim_space (handoff_token playerID (clock env n)).

Definition has (s : Server) : Prop := is_Some (playerByID s !! the_player).
#[global] Instance has_dec s : Decision (has s) := _.

Definition token_unused (tok : string) (s : Server) : Prop := acceptedByTk s !! tok = None /\ preparedByTk s !! tok = None.

(** A cell after [n] of at most [B] calls: it is well formed, it has ids left for the calls to come, and
    it does not know the tokens to come. *)
Record cell_ok (B n : nat) (s : Server) : Prop := {
  ck_wf : server_wf s; ck_sim : Sim s <> None;
  ck_room : (ids s + N.of_nat B < 2 ^ 64 - 1 + N.of_nat n)%N;
  ck_fresh : forall m, n <= m -> token_unused (token m) s }.

Lemma cell_later B n n' s : cell_ok B n s -> n <= n' -> cell_ok B n' s.
Proof. intros [H1 H2 H3 H4] Hn. split; [done|done|lia|]. intros m Hm. apply H4. lia. Qed.

(** The next call of a cell. *)
Lemma cell_step B n s s' :
  cell_ok B n s -> server_wf s' -> (Sim s <> None -> Sim s' <> None) -> (ids s' <= ids s + 1)%N ->
  (forall m, n < m -> token_unused (token m) s -> token_unused (token m) s') -> cell_ok B (S n) s'.
Proof.
  intros [H1 H2 H3 H4] Hwf Hsim Hid Htok. split; [done|auto|lia|]. intros m Hm. apply Htok; [lia|]. apply H4. lia.
Qed.

Lemma cell_room B n s : cell_ok B n s -> S n <= B -> room_for_entity s.
Proof. intros [_ _ H _] Hn r Hr. unfold ids in H. rewrite Hr in H. lia. Qed.

Context (Hpid : the_player <> "") (Hclock : forall m n, clock env m = clock env n -> m = n).

Lemma token_raw n : token n = handoff_token playerID (clock env n).
Proof.
  unfold token, handoff_token. destruct (itoa_graphic (clock env n)) as [H1 H2].
  assert (("gw-pos-" +:+ playerID +:+ "-" +:+ itoa (clock env n)) = String "g" ("w-pos-" +:+ playerID +:+ "-") +:+ itoa (clock env n)) as ->.
  { cbn. by rewrite <- string_app_assoc. }
  by apply trim_space_ends.
Qed.

Lemma token_nonempty n : token n <> "".
Proof. by rewrite token_raw. Qed.

Lemma token_inj m n : token m = token n -> m = n.
Proof.
  rewrite !token_raw. unfold handoff_token. intros E. apply Hclock. apply (inj (@pretty Z _)).
  assert (forall p s t, p +:+ s = p +:+ t -> s = t) as Happ.
  { intros p s t. induction p as [|a p IH]; cbn; [done|]. intros [= E']. auto. }
  apply Happ in E. apply Happ in E. by apply Happ in E.
Qed.

Lemma uint64_le n : (uint64 n <= n)%N.
Proof. unfold uint64. apply N.Div0.mod_le. Qed.

(** A join finds the player, refuses it or spawns it. *)
Lemma Join_cell B n s : cell_ok B n s -> S n <= B ->
  let '(s', j) := Join playerID s in
  cell_ok B (S n) s' /\
  if decide (has s) then jr_Ok j = true /\ jr_Message j = "already_joined" /\ has s'
  else (jr_Ok j = false /\ ~ has s') \/ (jr_Ok j = true /\ jr_Message j = "spawned" /\ has s').
Proof.
  intros Hok Hn. pose proof (Join_wf playerID s (ck_wf _ _ _ Hok) (cell_room _ _ _ Hok Hn)) as Hwf.
  pose proof (cell_step B n s (fst (Join playerID s)) Hok Hwf) as Hstep. clear Hwf. unfold Join in *. fold the_player in *.
  rewrite (proj2 (String.eqb_neq _ _) Hpid) in *. pose proof (ck_sim _ _ _ Hok) as Hsim. destruct (Sim s) as [r|] eqn:Er; [|done].
  unfold join_check in *. destruct (decide (has s)) as [Hh|Hh].
  { destruct Hh as [e Ee]. rewrite Ee in *. split; [apply Hstep; [by cbn; rewrite Er|cbn; lia|done]|]. split; [done|]. split; [done|]. by exists e. }
  assert (playerByID s !! the_player = None) as Ee by by apply eq_None_not_Some. rewrite Ee in *.
  destruct (splitDrain s); [split; [apply Hstep; [by cbn; rewrite Er|cbn; lia|done]|by left]|].
  unfold join_spawn in *. rewrite Er in *. destruct (join_spawn_world (rt_World r)) as [e w] eqn:Ew. cbn [fst] in Hstep. split.
  - apply Hstep; [done| |done]. unfold ids. rewrite Er. cbn. unfold join_spawn_world, CreateEntity in Ew. injection Ew as _ <-. cbn. apply uint64_le.
  - right. unfold has. cbn. rewrite lookup_insert_eq. eauto.
Qed.

(** After a leave the player is not there. *)
Lemma Leave_cell B n s : cell_ok B n s -> cell_ok B (S n) (fst (Leave playerID s)) /\ ~ has (fst (Leave playerID s)).
Proof.
  intros Hok. pose proof (Leave_wf playerID s (ck_wf _ _ _ Hok)) as Hwf.
  destruct (Leave_retry playerID s (ck_sim _ _ _ Hok) Hpid (ck_wf _ _ _ Hok)) as (_ & Hgone & _). fold the_player in Hgone.
  split; [|unfold has; rewrite Hgone; by intros [? [=]]]. apply (cell_step B n s _ Hok Hwf); clear Hwf Hgone; unfold Leave; fold the_player;
    rewrite (proj2 (String.eqb_neq _ _) Hpid).
  - destruct (Sim s) as [r|] eqn:Er; [|done]. intros _. unfold leave_unregister. destruct (leave_tokens _ _).
    destruct (playerByID s !! the_player); cbn; by rewrite Er.
  - unfold ids. destruct (Sim s) as [r|] eqn:Er; [|cbn; rewrite Er; lia]. unfold leave_unregister. destruct (leave_tokens _ _).
    destruct (playerByID s !! the_player); cbn; rewrite Er; cbn; lia.
  - intros m _ [H1 H2]. destruct (Sim s) as [r|] eqn:Er; [|done]. unfold leave_unregister.
    assert (forall t, snd (leave_tokens the_player t) !! token m = None \/ preparedByTk t !! token m <> None) as Htk.
    { intros t. unfold leave_tokens. destruct (preparedByTk t !! token m) eqn:E; [by right|left].
      destruct (preparedByID t !! the_player); cbn; [|done]. rewrite lookup_delete_None. by right. }
    destruct (playerByID s !! the_player) as [e|] eqn:Ee.
    + specialize (Htk (set_players (players s ∖ {[e]}) (delete the_player (playerByID s)) s)).
      destruct (leave_tokens _ _) as [byID byTk]. cbn in *. split; [done|]. apply map_lookup_filter_None. left. by destruct Htk.
    + specialize (Htk s). destruct (leave_tokens _ _) as [byID byTk]. cbn in *. split; [done|].
      apply map_lookup_filter_None. left. by destruct Htk.
Qed.

(** An input moves nobody. *)
Lemma Input_cell B n cos sin inp s : cell_ok B n s ->
  let '(s', r) := ApplyInput cos sin playerID inp s in
  cell_ok B (S n) s' /\ playerByID s' = playerByID s /\ (~ has s -> r = mkInputResp false "unknown_player").
Proof.
  intros Hok. pose proof (ApplyInput_wf cos sin playerID inp s (ck_wf _ _ _ Hok)) as Hwf.
  pose proof (cell_step B n s (fst (ApplyInput cos sin playerID inp s)) Hok Hwf) as Hstep. clear Hwf.
  assert (forall b t, Sim (reportApplyInput b t) = Sim t /\ playerByID (reportApplyInput b t) = playerByID t /\
    acceptedByTk (reportApplyInput b t) = acceptedByTk t /\ preparedByTk (reportApplyInput b t) = preparedByTk t) as Hrep.
  { intros b t. unfold reportApplyInput. by destruct (onApplyInput t). }
  assert (forall b, let s' := reportApplyInput b s in
    (Sim s <> None -> Sim s' <> None) /\ (ids s' <= ids s + 1)%N /\ (forall m, n < m -> token_unused (token m) s -> token_unused (token m) s')) as Hsame.
  { intros b s'. destruct (Hrep b s) as (E1 & E2 & E3 & E4). unfold s', ids, token_unused. rewrite E1, E3, E4. split; [done|]. split; [lia|done]. }
  unfold ApplyInput in *. fold the_player in *. rewrite (proj2 (String.eqb_neq _ _) Hpid) in *.
  pose proof (ck_sim _ _ _ Hok) as Hsim. destruct (Sim s) as [r|] eqn:Er; [|done]. unfold has.
  destruct (playerByID s !! the_player) as [e|] eqn:Ee.
  2:{ destruct (Hsame false) as (S1 & S2 & S3). split; [by apply Hstep|]. by split; [apply Hrep|]. }
  assert (~ ~ is_Some (Some e)) as Hhas by (intros H; apply H; eauto).
  destruct (bool_decide _); [destruct (Hsame false) as (S1 & S2 & S3); split; [by apply Hstep|]; split; [apply Hrep|by intros ?]|].
  destruct (PositionOf _ _); [|destruct (Hsame false) as (S1 & S2 & S3); split; [by apply Hstep|]; split; [apply Hrep|by intros ?]].
  set (s1 := on_world _ s) in *. destruct (Hrep true s1) as (E1 & E2 & E3 & E4).
  split; [|split; [by rewrite E2|by intros ?]]. apply Hstep; cbn [fst]; unfold ids, token_unused; rewrite ?E1, ?E3, ?E4.
  - unfold s1, on_world. cbn. by rewrite Er.
  - unfold s1, on_world. cbn. rewrite Er. cbn. lia.
  - done.
Qed.

(** ** The handoff of the player under the token [k] *)

Definition handing_over (k : nat) (s : Server) : Prop :=
  has s /\ exists pp, preparedByTk s !! token k = Some pp /\ pp_playerID pp = the_player /\ pp_finalized pp = false.

Lemma Prepare_cell B n k o n1 n2 n3 target s :
  cell_ok B n s -> k < n -> token_unused (token k) s -> trim_space target <> "" ->
  let '(s', r) := PreparePlayerHandoff o n1 n2 n3 the_player target (token k) s in
  cell_ok B (S n) s' /\ playerByID s' = playerByID s /\
  match pr_Payload r with
  | Some pl => pr_Ok r = true /\ h_PlayerId pl = the_player /\ handing_over k s'
  | None => pr_Message r ∈ ["handoff already in progress for player"; "unknown_player"; "entity_gone"]
  end.
Proof.
  intros Hok Hk [_ Htok] Htarget. pose proof (Prepare_wf o n1 n2 n3 the_player target (token k) s (ck_wf _ _ _ Hok)) as Hwf.
  pose proof (cell_step B n s _ Hok Hwf) as Hstep. clear Hwf. unfold PreparePlayerHandoff in *.
  assert (trim_space the_player = the_player) as Ep by apply trim_space_idem. assert (trim_space (token k) = token k) as Et by apply trim_space_idem.
  rewrite Ep, Et, (proj2 (String.eqb_neq _ _) Hpid), (proj2 (String.eqb_neq _ _) (token_nonempty k)), (proj2 (String.eqb_neq _ _) Htarget) in *.
  cbn [orb] in *. pose proof (ck_sim _ _ _ Hok) as Hsim. destruct (Sim s) as [r|] eqn:Er; [|done].
  destruct (prepare_begin o n1 n2 the_player (token k) s) as [s1 d] eqn:Eb.
  apply prepare_begin_frame in Eb as (E1 & E2 & E3 & E4 & Hd); [|apply Hok|done]. rewrite Er in E1.
  assert ((Some r <> None -> Sim s1 <> None) /\ (ids s1 <= ids s + 1)%N /\ (forall m, n < m -> token_unused (token m) s -> token_unused (token m) s1)) as (S1 & S2 & S3).
  { rewrite E1. split; [done|]. unfold ids. rewrite E1, Er. split; [lia|]. intros m _ [H1 H2]. unfold token_unused. rewrite E3. auto. }
  destruct d as [resp|e].
  { destruct Hd as [Hd1 Hd2]. split; [by apply Hstep|]. split; [done|]. rewrite Hd1. apply elem_of_cons in Hd2 as [E|E%list_elem_of_singleton]; rewrite E; [left|right; left]. }
  unfold prepare_capture in *. rewrite E1 in *. cbn [cap_pos] in *. destruct (PositionOf (rt_World r) e) as [pos|] eqn:Epos; cbn [cap_pos] in *.
  - cbn [fst pr_Payload] in *. split; [apply Hstep|split; [done|split; [done|split; [done|]]]].
    + cbn. by rewrite E1.
    + unfold ids. cbn. rewrite E1, Er. cbn. lia.
    + intros m Hm Hu. destruct (S3 m Hm Hu) as [U1 U2]. split; [done|]. cbn. rewrite lookup_insert_ne; [done|]. intros Ht%token_inj. lia.
    + split; [unfold has; cbn; rewrite E2; by exists e|]. eexists. cbn. rewrite lookup_insert_eq. done.
  - cbn [fst pr_Payload pr_Message] in *. split; [apply Hstep|split; [done|]].
    + cbn. by rewrite E1.
    + unfold ids. cbn. rewrite E1, Er. lia.
    + done.
    + right. right. left.
Qed.

Lemma Accept_cell B n k payload s :
  cell_ok B n s -> S n <= B -> k < n -> token_unused (token k) s -> ~ has s ->
  h_PlayerId payload = the_player -> h_HandoffToken payload = token k ->
  let '(s', r) := AcceptPlayerHandoff (Some payload) s in
  cell_ok B (S n) s' /\ ar_Ok r = true /\ ar_EntityId r <> 0%N /\ has s'.
Proof.
  intros Hok Hn Hk [Htok _] Hno Hp Ht. pose proof (cell_room _ _ _ Hok Hn) as Hroom.
  pose proof (Accept_wf (Some payload) s (ck_wf _ _ _ Hok) Hroom) as Hwf. pose proof (cell_step B n s _ Hok Hwf) as Hstep. clear Hwf.
  pose proof (ck_sim _ _ _ Hok) as Hsim. destruct (Sim s) as [r|] eqn:Er; [|done].
  destruct (create_fresh (rt_World r)) as [Ec _]; [by apply (swf_sim s (ck_wf _ _ _ Hok))|by apply Hroom|].
  unfold AcceptPlayerHandoff in *. rewrite Hp, Ht in *.
  assert (trim_space the_player = the_player) as Ep by apply trim_space_idem. assert (trim_space (token k) = token k) as Et by apply trim_space_idem.
  rewrite Ep, Et, (proj2 (String.eqb_neq _ _) Hpid), (proj2 (String.eqb_neq _ _) (token_nonempty k)) in *. cbn [orb] in *. rewrite Er in *.
  unfold accept_begin in *. rewrite Htok in *. assert (playerByID s !! the_player = None) as Ebyid by by apply eq_None_not_Some.
  rewrite Ebyid in *. cbn [accept_create] in *. rewrite Er in *. destruct (CreateEntity (rt_World r)) as [e w] eqn:Ew. cbn [fst snd] in *.
  split; [apply Hstep|split; [done|split]].
  - done.
  - unfold ids. cbn. rewrite Er. cbn. unfold CreateEntity in Ew. injection Ew as _ <-. cbn. apply uint64_le.
  - intros m Hm [U1 U2]. split; [|done]. cbn. rewrite lookup_insert_ne; [done|]. intros H%token_inj. lia.
  - injection Ec as -> _. cbn. lia.
  - unfold has. cbn. rewrite lookup_insert_eq. eauto.
Qed.

Lemma Finalize_cell B n k s :
  cell_ok B n s -> k < n -> handing_over k s ->
  let '(s', r) := FinalizePlayerHandoff the_player (token k) s in
  cell_ok B (S n) s' /\ fr_Ok r = true /\ ~ has s'.
Proof.
  intros Hok Hk ([e He] & pp & Hpp & Hid & Hfin). pose proof (Finalize_wf the_player (token k) s (ck_wf _ _ _ Hok)) as Hwf.
  pose proof (cell_step B n s _ Hok Hwf) as Hstep. clear Hwf. pose proof (ck_sim _ _ _ Hok) as Hsim. destruct (Sim s) as [r|] eqn:Er; [|done].
  unfold FinalizePlayerHandoff in *.
  assert (trim_space the_player = the_player) as Ep by apply trim_space_idem. assert (trim_space (token k) = token k) as Et by apply trim_space_idem.
  rewrite Ep, Et, (proj2 (String.eqb_neq _ _) Hpid), (proj2 (String.eqb_neq _ _) (token_nonempty k)) in *. cbn [orb] in *. rewrite Er in *.
  unfold finalize_section in *. rewrite Hpp, Hid, String.eqb_refl, Hfin in *. cbn [negb playerByID set_handoff] in *. rewrite He in *. cbn [fst] in *.
  split; [apply Hstep|split; [done|]].
  - cbn. by rewrite Er.
  - unfold ids. cbn. rewrite Er. cbn. lia.
  - intros m Hm [U1 U2]. split; [done|]. cbn. rewrite lookup_insert_ne; [done|]. intros H%token_inj. lia.
  - unfold has. cbn. rewrite lookup_delete_eq. by intros [? [=]].
Qed.
End Cell.

(** * Runs of at most [B] calls *)

Section Upto.
Context {S : Type} (count : S -> nat) (B : nat).

Definition grows : relation S := fun s s' => count s <= count s'.
#[export] Instance grows_preorder : PreOrder grows.
Proof. split; unfold grows; [by intros s|intros ? ? ?; lia]. Qed.

(** What holds after a run, if it ends within the calls. *)
Definition upto {A} (m : St S A) (s : S) (Q : result A -> S -> Prop) : Prop := count (snd (m s)) <= B -> after m s Q.

Lemma upto_conseq {A} (m : St S A) s (Q Q' : result A -> S -> Prop) : upto m s Q -> (forall r s', Q r s' -> Q' r s') -> upto m s Q'.
Proof. intros H HQ Hb. eapply after_conseq; [by apply H|done]. Qed.

Lemma upto_bind {A A'} (m : St S A) (f : A -> St S A') s (Q : result A' -> S -> Prop) :
  (forall a, steps_in grows (f a)) ->
  upto m s (fun r s' => match r with Ok a => upto (f a) s' Q | Err e => Q (Err e) s' end) -> upto (m ≫= f) s Q.
Proof.
  intros Hf Hm Hb. unfold upto, after, mbind, St_bind in *. destruct (m s) as [[a|e] s1]; cbn [fst snd] in *; [|by apply Hm].
  apply Hm; [|done]. specialize (Hf a s1). unfold grows in Hf. lia.
Qed.

Lemma upto_catch {A} (m : St S A) s (Q : result (result A) -> S -> Prop) : upto m s (fun r s' => Q (Ok r) s') -> upto (catch m) s Q.
Proof. unfold upto, after, catch. by destruct (m s). Qed.

Lemma upto_ret {A} (a : A) s (Q : result A -> S -> Prop) : Q (Ok a) s -> upto (mret a) s Q.
Proof. by intros H _. Qed.

Lemma upto_throw {A} e s (Q : result A -> S -> Prop) : Q (Err e) s -> upto (throw e) s Q.
Proof. by intros H _. Qed.

Lemma upto_lift {A} (r : result A) s (Q : result A -> S -> Prop) : Q r s -> upto (lift r) s Q.
Proof. by intros H _. Qed.

Lemma upto_guard b e s (Q : result unit -> S -> Prop) : Q (fail_if b e) s -> upto (guard_fail b e) s Q.
Proof. by intros H _. Qed.
End Upto.

(** * The cells of a cluster *)

Section Places.
#[local] Set Default Proof Using "Type*".
Context {C : Type} `{!Catalog C} (env : Env) (playerID : string).

Abbreviation growing := (steps_in (grows (S := Cluster C) calls)).

(** ** Calls are counted *)

Lemma grows_call {A} ep (h : nat -> Server -> Server * A) : growing (call_cell env ep h).
Proof. eapply (frame_call env (grows calls) (fun _ _ => True)); unfold grows; cbn; try done; intros; cbn; lia. Qed.

Lemma grows_remote {A} (m : M C A) : growing m -> growing (remote env m).
Proof.
  intros Hm cl. specialize (Hm (count_call cl)). unfold remote, grows in *. cbn in Hm.
  destruct (net env (calls cl)); cbn in *; lia.
Qed.

Lemma grows_handoff req : growing (ForwardPlayerHandoff env req).
Proof. eapply (frame_handoff env (grows calls) (fun _ _ => True)); unfold grows; cbn; try done; intros; cbn; lia. Qed.

Lemma grows_lift {A} (r : result A) : growing (lift r).
Proof. by apply steps_lift, _. Qed.

Lemma grows_leave ds : growing (leaveDownstream env ds playerID).
Proof. unfold leaveDownstream. steps. apply grows_call. Qed.

Lemma grows_attach id ep : growing (attachToCell env playerID id ep).
Proof. unfold attachToCell. steps. apply grows_call. Qed.

Lemma grows_probe id ep : growing (probe_already_joined env playerID id ep).
Proof. unfold probe_already_joined. steps; [apply grows_attach|apply grows_leave]. Qed.

Lemma grows_candidate cur spec : growing (try_candidate env playerID cur spec).
Proof. unfold try_candidate. steps. apply grows_probe. Qed.

Lemma grows_candidates cur specs : growing (try_candidates env playerID cur specs).
Proof. induction specs as [|spec specs IH]; cbn [try_candidates]; steps; [apply grows_candidate|exact IH]. Qed.

Lemma grows_pure {A} (m : M C A) : (forall cl, snd (m cl) = cl) -> growing m.
Proof. intros Hm. by apply steps_pure; [apply _|]. Qed.

Lemma grows_list : growing (SvcListCells env).
Proof. apply grows_pure. intros cl. unfold SvcListCells. destruct (Store cl); [|done]. by destruct (ListCells _ _). Qed.

Lemma grows_catalog cur : growing (tryAttachAlreadyJoinedFromCatalog env playerID cur).
Proof. unfold tryAttachAlreadyJoinedFromCatalog. steps; try apply grows_candidates. apply grows_remote, grows_list. Qed.

Lemma grows_handoff_switch from next : growing (forwardPlayerHandoffSwitch env playerID from next).
Proof. unfold forwardPlayerHandoffSwitch. steps; [by apply grows_pure|apply grows_remote, grows_handoff]. Qed.

Lemma grows_recover next : growing (tryRecoverFromMissingParentSwitch env playerID next).
Proof. unfold tryRecoverFromMissingParentSwitch. steps; [apply grows_attach|apply grows_leave]. Qed.

Lemma grows_recover_cell next e : growing (recover_cell env playerID next e).
Proof. unfold recover_cell. steps. apply grows_recover. Qed.

Lemma grows_fallback cur : growing (fallback_cell env playerID cur).
Proof. unfold fallback_cell. steps. apply grows_catalog. Qed.

Lemma grows_resolve x z missing : growing (resolve_target env x z missing).
Proof.
  unfold resolve_target. steps. apply grows_remote, grows_pure. intros cl. unfold ResolvePosition.
  destruct (Store cl); [|done]. by destruct (Resolve _ _ _ _).
Qed.

Context `{!CatalogLaws C} (B : nat) (c : C).

(** The world a session lives in: a network that loses nothing, endpoints that can be dialled, a clock
    that moves, and a catalog that can be listed, of cells with ids and endpoints of their own. *)
Record settled : Prop := {
  sd_player : the_player playerID <> "";
  sd_clock : forall m n, clock env m = clock env n -> m = n;
  sd_net : forall n, net env n = Delivered;
  sd_dial : forall ep, NewClient env ep = Ok tt;
  sd_missing : isParentCellMissingErr (unreachable env) = false;
  sd_unreachable : err_code (unreachable env) = Some Unavailable;
  sd_inv : catalog_inv c;
  sd_list : forall o, exists l, ListCells o c = Ok l;
  sd_text : forall s, registered c s -> (trim_space (Id s) = Id s /\ Id s <> "") /\ trim_space (GrpcEndpoint s) = GrpcEndpoint s /\ GrpcEndpoint s <> "";
  sd_endpoint : forall s t, registered c s -> registered c t -> GrpcEndpoint s = GrpcEndpoint t -> s = t }.

(** The player is registered exactly at the cells [X]. *)
Record placed (X : gset string) (cl : Cluster C) : Prop := {
  pl_store : Store cl = Some c;
  pl_cells : forall ep s, cellServers cl !! ep = Some s -> cell_ok env playerID B (calls cl) s;
  pl_where : forall ep, ep ∈ X <-> exists s, cellServers cl !! ep = Some s /\ has playerID s }.

Abbreviation run := (upto (S := Cluster C) calls B).
Lemma placed_set X Y cl : (forall ep, ep ∈ X <-> ep ∈ Y) -> placed X cl -> placed Y cl.
Proof. intros HX [H1 H2 H3]. split; [done..|]. intros ep. by rewrite <- HX. Qed.

Lemma placed_count X cl : placed X cl -> placed X (count_call cl).
Proof. intros [H1 H2 H3]. split; [done| |done]. intros ep s Hs. apply (cell_later _ _ _ (calls cl)); [by apply (H2 ep)|]. cbn. lia. Qed.

Context (Hs : settled).

(** A call reaches the server at the endpoint, if there is one. *)
Lemma placed_call {A} ep (h : nat -> Server -> Server * A) X cl (Q : result A -> Cluster C -> Prop) :
  placed X cl ->
  (forall cl', ep ∉ X -> placed X cl' -> Q (Err (unreachable env)) cl') ->
  (forall s, cellServers cl !! ep = Some s -> cell_ok env playerID B (calls cl) s -> (ep ∈ X <-> has playerID s) -> S (calls cl) <= B ->
    let '(s', a) := h (calls cl) s in
    cell_ok env playerID B (S (calls cl)) s' /\
    forall cl', calls cl' = S (calls cl) -> cellServers cl' = <[ep := s']> (cellServers cl) ->
      placed (if decide (has playerID s') then {[ep]} ∪ X else X ∖ {[ep]}) cl' -> Q (Ok a) cl') ->
  run (call_cell env ep h) cl Q.
Proof.
  intros [P1 P2 P3] Hnone Hsome Hb. unfold upto, after, call_cell in *. rewrite (sd_net Hs) in *.
  change (cellServers (count_call cl)) with (cellServers cl) in *. destruct (cellServers cl !! ep) as [s|] eqn:Es.
  - assert (S (calls cl) <= B) as HB by (destruct (h (calls cl) s); cbn in Hb; lia).
    specialize (Hsome s eq_refl (P2 _ _ Es)). destruct (h (calls cl) s) as [s' a]. cbn [fst snd] in *.
    destruct Hsome as [Hok HQ]; [rewrite (P3 ep), Es; split; [by intros (? & [= <-] & ?)|by exists s]|done|].
    apply HQ; [cbn; lia|done|]. split; [done| |].
    + intros ep' t. cbn. rewrite Nat.add_1_r. intros [[<- <-]|[_ Ht]]%lookup_insert_Some; [done|].
      apply (cell_later _ _ _ (calls cl)); [by apply (P2 ep')|lia].
    + intros ep'. cbn. destruct (decide (ep' = ep)) as [->|Hne].
      * rewrite lookup_insert_eq. destruct (decide (has playerID s')) as [Hh|Hh].
        { split; [intros _; by exists s'|set_solver]. }
        { split; [set_solver|by intros (? & [= <-] & ?)]. }
      * rewrite lookup_insert_ne by done. rewrite <- P3. destruct (decide (has playerID s')); set_solver.
  - cbn. apply Hnone; [rewrite P3, Es; by intros (? & [=] & _)|by apply (placed_count X cl)].
Qed.

(** The registry service reads the catalog and changes nothing. *)
Lemma placed_remote {A} (m : M C A) X cl (Q : result A -> Cluster C -> Prop) :
  placed X cl -> (forall cl', placed X cl' -> calls cl' = S (calls cl) -> cellServers cl' = cellServers cl -> run m cl' Q) -> run (remote env m) cl Q.
Proof.
  intros HX Hm. specialize (Hm (count_call cl) (placed_count _ _ HX)). unfold upto, after, remote in *. rewrite (sd_net Hs).
  apply Hm; [cbn; lia|done].
Qed.

(** ** Attaching, leaving and probing *)

Lemma placed_attach id ep X cl :
  placed X cl ->
  run (attachToCell env playerID id ep) cl (fun r cl' =>
    match r with
    | Err _ => ep ∉ X /\ placed X cl'
    | Ok (ds, msg) => ds_cellID ds = id /\ ds_endpoint ds = ep /\
        if decide (ep ∈ X) then msg = "already_joined" /\ placed X cl' else msg = "spawned" /\ placed ({[ep]} ∪ X) cl'
    end).
Proof.
  intros HX. unfold attachToCell. apply upto_bind; [intros _; steps; apply grows_call|].
  unfold on_error, lift. rewrite (sd_dial Hs). intros _. unfold after. cbn [fst snd].
  apply upto_bind; [intros r; destruct r; steps|]. apply upto_catch. apply (placed_call _ _ X); [done| |].
  { intros cl' Hep HX'. intros _. by split. }
  intros s Es Hok Hep HB. pose proof (Join_cell env playerID (sd_player Hs) (sd_clock Hs) B _ s Hok HB) as Hj.
  destruct (Join playerID s) as [s' j]. destruct Hj as [Hok' Hj]. split; [done|]. intros cl' _ _ HX' _.
  destruct (decide (has playerID s)) as [Hh|Hh].
  - destruct Hj as (Hj1 & Hj2 & Hj3). rewrite decide_True in HX' by done. rewrite Hj1, Hj2. cbn. split; [done|]. split; [done|].
    apply Hep in Hh. rewrite decide_True by done. split; [done|]. eapply placed_set; [|exact HX']. set_solver.
  - assert (ep ∉ X) as Hni by tauto. destruct Hj as [[Hj1 Hj3]|(Hj1 & Hj2 & Hj3)].
    + rewrite Hj1. cbn. split; [done|]. rewrite decide_False in HX' by done. eapply placed_set; [|exact HX']. set_solver.
    + rewrite Hj1, Hj2. cbn. split; [done|]. split; [done|]. rewrite decide_False by done. split; [done|]. by rewrite decide_True in HX'.
Qed.

Lemma placed_leave ds X cl :
  placed X cl -> run (leaveDownstream env ds playerID) cl (fun r cl' => r = Ok tt /\ placed (X ∖ {[ds_endpoint ds]}) cl').
Proof.
  intros HX. unfold leaveDownstream, ignore. intros Hb. unfold after. cbn [fst snd] in *. split; [done|]. revert Hb.
  apply (placed_call (ds_endpoint ds) (fun _ s => Leave playerID s) X cl (fun _ cl' => placed (X ∖ {[ds_endpoint ds]}) cl') HX).
  - intros cl' Hni HX'. eapply placed_set; [|exact HX']. set_solver.
  - intros s _ Hok _ _. pose proof (Leave_cell env playerID (sd_player Hs) (sd_clock Hs) B _ s Hok) as [Hok' Hno].
    destruct (Leave playerID s) as [s' l]. split; [done|]. intros cl' _ _. cbn [fst] in Hno. by rewrite decide_False.
Qed.

(** A probe finds the player where it is, and leaves no trace where it is not. *)
Lemma placed_probe id ep X cl :
  placed X cl ->
  run (probe_already_joined env playerID id ep) cl (fun r cl' => placed X cl' /\
    if decide (ep ∈ X) then exists ds, r = Ok (Some ds) /\ ds_cellID ds = id /\ ds_endpoint ds = ep else r = Ok None).
Proof.
  intros HX. unfold probe_already_joined. apply upto_bind; [intros r; steps; apply grows_leave|]. apply upto_catch.
  eapply upto_conseq; [by apply placed_attach|]. intros [[ds msg]|e] cl'.
  - intros (E1 & E2 & Hm). destruct (decide (ep ∈ X)) as [Hin|Hni]; destruct Hm as [-> HX']; cbn [String.eqb Ascii.eqb Bool.eqb].
    + apply upto_ret. split; [done|]. by exists ds.
    + apply upto_bind; [intros _; steps|]. eapply upto_conseq; [by apply placed_leave|]. intros r cl2 [-> HX2]. apply upto_ret.
      split; [|done]. eapply placed_set; [|exact HX2]. rewrite E2. set_solver.
  - intros [Hni HX']. apply upto_ret. split; [done|]. by rewrite decide_False.
Qed.

(** ** The cell that has the player, from the catalog *)

(** The answer of a search: a cell of the catalog where the player is, other than the current one. *)
Definition found_at (cur : string) (X : gset string) (ds : gatewayDownstream) : Prop :=
  exists spec, registered c spec /\ ds_cellID ds = Id spec /\ ds_endpoint ds = GrpcEndpoint spec /\ Id spec <> cur /\ GrpcEndpoint spec ∈ X.

Lemma placed_candidates cur specs X cl :
  (forall spec, Some spec ∈ specs -> registered c spec) -> placed X cl ->
  run (try_candidates env playerID cur specs) cl (fun r cl' => placed X cl' /\
    match r with
    | Ok (Some ds) => found_at cur X ds
    | Ok None => forall spec, Some spec ∈ specs -> Id spec <> cur -> GrpcEndpoint spec ∉ X
    | Err _ => False
    end).
Proof.
  revert cl. induction specs as [|[spec|] specs IH]; intros cl Hreg HX; cbn [try_candidates].
  { apply upto_ret. split; [done|]. by intros spec ?%not_elem_of_nil. }
  2:{ apply upto_bind; [intros [ds|]; steps; apply grows_candidates|]. apply upto_ret. eapply upto_conseq; [apply IH; [|done]|].
      - intros spec Hin. apply Hreg. by right.
      - intros [[ds|]|e] cl' [HX' Hr]; (split; [done|]); try done. intros spec [[=]|Hin]%elem_of_cons. by apply Hr. }
  assert (registered c spec) as Hspec by (apply Hreg; left). destruct (sd_text Hs spec Hspec) as ((T1 & T2) & T3 & T4).
  apply upto_bind; [intros [ds|]; steps; apply grows_candidates|].
  assert (forall cl', placed X cl' -> (Id spec <> cur -> GrpcEndpoint spec ∉ X) ->
    run (try_candidates env playerID cur specs) cl' (fun r cl2 => placed X cl2 /\
      match r with
      | Ok (Some ds) => found_at cur X ds
      | Ok None => forall s, Some s ∈ Some spec :: specs -> Id s <> cur -> GrpcEndpoint s ∉ X
      | Err _ => False
      end)) as Hrest.
  { intros cl' HX' Hno. eapply upto_conseq; [apply IH; [|done]|].
    - intros s Hin. apply Hreg. by right.
    - intros [[ds|]|e] cl2 [HX2 Hr]; (split; [done|]); try done. intros s [[= ->]|Hin]%elem_of_cons; [done|by apply Hr]. }
  unfold try_candidate. rewrite T1, T3, (proj2 (String.eqb_neq _ _) T2), (proj2 (String.eqb_neq _ _) T4). cbn [orb].
  destruct (String.eqb_spec (Id spec) cur) as [Hcur|Hcur]; [apply upto_ret; by apply Hrest|].
  eapply upto_conseq; [by apply placed_probe|]. intros r cl' [HX' Hr]. destruct (decide (GrpcEndpoint spec ∈ X)) as [Hin|Hni].
  - destruct Hr as (ds & -> & E1 & E2). apply upto_ret. split; [done|]. by exists spec.
  - subst r. by apply Hrest.
Qed.

Lemma placed_catalog cur X cl :
  trim_space cur = cur -> placed X cl ->
  run (tryAttachAlreadyJoinedFromCatalog env playerID cur) cl (fun r cl' => placed X cl' /\
    match r with
    | Ok (Some ds) => found_at cur X ds
    | Ok None => forall spec, registered c spec -> Id spec <> cur -> GrpcEndpoint spec ∉ X
    | Err _ => False
    end).
Proof.
  intros Hcur HX. unfold tryAttachAlreadyJoinedFromCatalog. apply upto_bind; [intros l; steps; apply grows_candidates|].
  apply (placed_remote _ X); [done|]. intros cl1 HX1 _ _ _. unfold SvcListCells, after. rewrite (pl_store _ _ HX1).
  destruct (sd_list Hs (order env (calls cl1))) as [l Hl]. rewrite Hl. cbn [fst snd]. pose proof (list_spec _ _ _ Hl) as Hspec.
  rewrite Hcur. apply upto_bind; [intros [ds|]; steps; apply grows_candidates|].
  assert (forall cl2, placed X cl2 -> run (try_candidates env playerID cur l) cl2 (fun r cl' => placed X cl' /\
    match r with
    | Ok (Some ds) => found_at cur X ds
    | Ok None => forall spec, registered c spec -> Id spec <> cur -> GrpcEndpoint spec ∉ X
    | Err _ => False
    end)) as Hall.
  { intros cl2 HX2. eapply upto_conseq; [apply placed_candidates; [|done]; intros spec Hin; by apply Hspec|].
    intros [[ds|]|e] cl3 [HX3 Hr]; (split; [done|]); try done. intros spec Hreg. by apply Hr, Hspec. }
  destruct (String.eqb cur ""); [apply upto_ret; by apply Hall|].
  eapply upto_conseq; [apply (placed_candidates cur _ X); [|done]|].
  - intros spec [_ Hin]%list_elem_of_filter. by apply Hspec.
  - intros [[ds|]|e] cl2 [HX2 Hr]; [by apply upto_ret|by apply Hall|done].
Qed.

(** ** Handing the player over *)

Lemma registered_located spec : registered c spec -> located c (Id spec) spec.
Proof.
  intros Hreg. destruct (sd_text Hs spec Hreg) as ((_ & T2) & _ & T4). split; [|done]. intros o.
  unfold FindCellByID. rewrite (proj2 (String.eqb_neq _ _) T2). destruct (sd_list Hs o) as [l Hl]. rewrite Hl. cbn. f_equal.
  pose proof (find_id_spec (Id spec) l) as Hf. pose proof (list_spec _ _ _ Hl) as Hspec. destruct (find_id (Id spec) l) as [s|].
  - destruct Hf as [Hin He]. apply Hspec in Hin. f_equal. by apply (registered_unique c); [apply Hs|..].
  - exfalso. by apply (Hf spec); [apply Hspec|].
Qed.

Lemma dial_registered spec cl : registered c spec -> Store cl = Some c -> dialCellClient env (Id spec) cl = (Ok (GrpcEndpoint spec, spec), cl).
Proof.
  intros Hreg Hst. destruct (registered_located spec Hreg) as [Hf Hep]. unfold dialCellClient, mbind, St_bind, find_cell.
  rewrite Hst, Hf, (proj2 (String.eqb_neq _ _) Hep). by rewrite (sd_dial Hs).
Qed.

Lemma prepare_refused_text msg :
  msg ∈ ["handoff already in progress for player"; "unknown_player"; "entity_gone"] ->
  isParentCellMissingErr (statusf FailedPrecondition "prepare failed: %s" [AStr msg]) = false.
Proof. intros [->|[->|[->|[]%elem_of_nil]%elem_of_cons]%elem_of_cons]%elem_of_cons; by vm_compute. Qed.

(** A handoff between two cells of the catalog either moves the player, which was at the first, or it
    leaves the player where it is. *)
Lemma placed_ForwardPlayerHandoff src dst k X cl :
  registered c src -> registered c dst -> Id src <> Id dst -> GrpcEndpoint dst ∉ X ->
  placed X cl -> k < calls cl -> (forall ep s, cellServers cl !! ep = Some s -> token_unused (token env playerID k) s) ->
  run (ForwardPlayerHandoff env (Some (mkPlayerReq (Id src) (Id dst) playerID (handoff_token playerID (clock env k))))) cl (fun r cl' =>
    match r with
    | Ok e => e <> 0%N /\ GrpcEndpoint src ∈ X /\ placed ({[GrpcEndpoint dst]} ∪ X ∖ {[GrpcEndpoint src]}) cl'
    | Err e => isParentCellMissingErr e = false /\ placed X cl'
    end).
Proof.
  intros Hsrc Hdst Hids Hdx HX Hk Htok. unfold ForwardPlayerHandoff.
  cbn [pq_ParentCellId pq_ChildCellId pq_PlayerId pq_HandoffToken]. fold (the_player playerID) (token env playerID k).
  destruct (sd_text Hs src Hsrc) as ((S1 & S2) & S3 & S4), (sd_text Hs dst Hdst) as ((D1 & D2) & D3 & D4). rewrite S1, D1.
  assert (GrpcEndpoint src <> GrpcEndpoint dst) as Hep by (intros E; apply Hids; by rewrite (sd_endpoint Hs src dst Hsrc Hdst E)).
  pose proof (sd_player Hs) as Hpid. pose proof (sd_clock Hs) as Hclock. pose proof (token_nonempty env playerID Hpid Hclock k) as Ht.
  intros Hb. unfold after. rewrite (run_guard _ _ _ cl) in * by (by rewrite (proj2 (String.eqb_neq _ _) S2), (proj2 (String.eqb_neq _ _) D2),
    (proj2 (String.eqb_neq _ _) Hpid), (proj2 (String.eqb_neq _ _) Ht)).
  rewrite (run_guard _ _ _ cl) in * by by apply String.eqb_neq.
  rewrite (run_bind _ _ cl _ _ (dial_registered src cl Hsrc (pl_store _ _ HX))), (run_bind _ _ cl _ _ (dial_registered dst cl Hdst (pl_store _ _ HX))) in *.
  cbn [fst snd] in *. match goal with |- match fst (?m cl) with _ => _ end => change (after m cl (fun r cl' => match r with
    | Ok e => e <> 0%N /\ GrpcEndpoint src ∈ X /\ placed ({[GrpcEndpoint dst]} ∪ X ∖ {[GrpcEndpoint src]}) cl'
    | Err e => isParentCellMissingErr e = false /\ placed X cl' end)) end.
  revert Hb. match goal with |- calls (snd (?m cl)) <= B -> after ?m' cl ?Q => change (run m cl Q) end.
  apply upto_bind; [intros prep; steps; apply grows_call|].
  apply (placed_call _ _ X); [done| |].
  { intros cl' _ HX'. split; [apply Hs|done]. }
  intros s Es Hok Hin HB.
  pose proof (Prepare_cell env playerID Hpid Hclock B (calls cl) k (order env (calls cl)) (clock env (calls cl)) (clock env (calls cl)) (clock env (calls cl)) (Id dst) s Hok Hk (Htok _ _ Es)) as Hprep.
  rewrite D1 in Hprep. specialize (Hprep D2).
  destruct (PreparePlayerHandoff _ _ _ _ _ _ _ s) as [s1 prep]. destruct Hprep as (Hok1 & Ebyid & Hr). split; [done|].
  intros cl1 Ec1 Es1 HX1. assert (placed X cl1) as HX1'.
  { assert (has playerID s1 <-> has playerID s) as Hhs by (unfold has; by rewrite Ebyid).
    eapply placed_set; [|exact HX1]. intros ep. destruct (decide (has playerID s1)) as [Hh|Hh].
    - assert (GrpcEndpoint src ∈ X) by tauto. set_solver.
    - assert (GrpcEndpoint src ∉ X) by tauto. set_solver. }
  clear HX1. destruct (pr_Payload prep) as [pl|].
  2:{ apply upto_bind; [intros ?; steps; apply grows_call|]. apply upto_throw. split; [by apply prepare_refused_text|done]. }
  destruct Hr as (Hr1 & Hr2 & Hho). assert (GrpcEndpoint src ∈ X) as Hsx.
  { apply Hin. destruct Hho as [Hh _]. unfold has in *. by rewrite <- Ebyid. }
  rewrite Hr1. apply upto_bind; [intros ?; steps; apply grows_call|]. apply upto_ret.
  apply upto_bind; [intros acc; steps; apply grows_call|]. apply (placed_call _ _ X); [done| |].
  { intros cl' _ HX'. split; [apply Hs|done]. }
  intros d Ed Hokd Hind HB2. assert (cellServers cl !! GrpcEndpoint dst = Some d) as Ed0.
  { rewrite Es1, lookup_insert_ne in Ed by done. exact Ed. }
  pose proof (Accept_cell env playerID Hpid Hclock B (calls cl1) k (stamp (Id src) (Id dst) (token env playerID k) pl) d Hokd HB2 ltac:(lia) (Htok _ _ Ed0)) as Hacc.
  destruct (AcceptPlayerHandoff _ d) as [d1 acc]. destruct Hacc as (Hok2 & Ha1 & Ha2 & Ha3); [tauto|done|done|]. split; [done|].
  intros cl2 Ec2 Es2 HX2. rewrite decide_True in HX2 by done.
  apply upto_bind; [intros ?; steps; apply grows_call|]. apply upto_guard. rewrite Ha1, (proj2 (N.eqb_neq _ _) Ha2). cbn [negb orb fail_if].
  apply upto_bind; [intros fin; steps|].
  assert (cellServers cl2 !! GrpcEndpoint src = Some s1) as Es1'.
  { rewrite Es2, lookup_insert_ne by done. by rewrite Es1, lookup_insert_eq. }
  apply (placed_call _ _ ({[GrpcEndpoint dst]} ∪ X)); [done| |].
  { intros cl' Hni _. set_solver. }
  intros s2 Es2' Hok3 _ HB3. rewrite Es1' in Es2'. injection Es2' as <-.
  pose proof (Finalize_cell env playerID Hpid Hclock B (calls cl2) k s1 Hok3 ltac:(lia) Hho) as Hfin.
  destruct (FinalizePlayerHandoff _ _ s1) as [s2 fin]. destruct Hfin as (Hok4 & Hf1 & Hf2). split; [done|].
  intros cl3 _ _ HX3. rewrite decide_False in HX3 by done.
  apply upto_bind; [intros ?; steps|]. apply upto_guard. rewrite Hf1. cbn [negb fail_if]. apply upto_ret.
  split; [done|]. split; [done|]. eapply placed_set; [|exact HX3]. set_solver.
Qed.

Lemma placed_handoff_switch src dst X cl :
  registered c src -> registered c dst -> Id src <> Id dst -> GrpcEndpoint dst ∉ X -> placed X cl ->
  run (forwardPlayerHandoffSwitch env playerID (Id src) dst) cl (fun r cl' =>
    match r with
    | Ok ds => ds_cellID ds = Id dst /\ ds_endpoint ds = GrpcEndpoint dst /\ GrpcEndpoint src ∈ X /\
        placed ({[GrpcEndpoint dst]} ∪ X ∖ {[GrpcEndpoint src]}) cl'
    | Err e => isParentCellMissingErr e = false /\ placed X cl'
    end).
Proof.
  intros Hsrc Hdst Hids Hdx HX. unfold forwardPlayerHandoffSwitch. destruct (sd_text Hs dst Hdst) as ((D1 & D2) & D3 & D4).
  rewrite D1, D3, (proj2 (String.eqb_neq _ _) D2), (proj2 (String.eqb_neq _ _) D4). cbn [orb].
  apply upto_bind; [intros nanos; steps; apply grows_remote, grows_handoff|]. intros _. unfold time_now, after. cbn [fst snd].
  apply upto_bind; [intros e; steps|]. apply (placed_remote _ X); [done|]. intros cl1 HX1 Ec Es.
  eapply upto_conseq; [apply (placed_ForwardPlayerHandoff src dst (calls cl) X); try done; [lia|]|].
  { intros ep s Hep. rewrite Es in Hep. by apply (ck_fresh _ _ _ _ _ (pl_cells _ _ HX ep s Hep)). }
  intros [e|e] cl2; [|done]. intros (He & Hsx & HX2). rewrite (proj2 (N.eqb_neq _ _) He).
  apply upto_bind; [intros ?; steps|]. unfold on_error, lift. rewrite (sd_dial Hs). intros _. unfold after. cbn [fst snd]. by apply upto_ret.
Qed.

(** The target of a position is a cell of the catalog. *)
Lemma placed_resolve x z missing X cl :
  placed X cl ->
  run (resolve_target env x z missing) cl (fun r cl' => placed X cl' /\
    match r with Ok spec => registered c spec | Err _ => exists o, forall spec, Resolve o c x z <> Ok (Some spec) end).
Proof.
  intros HX. unfold resolve_target. apply upto_bind; [intros r; steps|]. apply (placed_remote _ X); [done|]. intros cl1 HX1 _ _ _.
  unfold ResolvePosition, after. rewrite (pl_store _ _ HX1). destruct (sd_list Hs (order env (calls cl1))) as [l Hl].
  destruct (Resolve (order env (calls cl1)) c x z) as [r|e] eqn:Er; cbn [fst snd].
  2:{ split; [done|]. exists (order env (calls cl1)). intros spec. by rewrite Er. }
  pose proof (resolve_spec _ _ _ _ _ _ Er Hl) as Hr. destruct r as [spec|].
  2:{ apply upto_throw. split; [done|]. exists (order env (calls cl1)). intros spec. by rewrite Er. }
  destruct Hr as (Hin & _). apply (list_spec _ _ _ Hl) in Hin. destruct (sd_text Hs spec Hin) as (_ & D3 & D4).
  rewrite D3, (proj2 (String.eqb_neq _ _) D4). by apply upto_ret.
Qed.
End Places.
