(* ===== verification/GatewayProps.v ===== *)
(** What a WebSocket session of the gateway guarantees: while no request is lost, its player is in one
    cell at a time, and the session follows it there. *)
From Stdlib Require Import Ascii ZArith Lia.
From S2P Require Import Prelude Effects GoFloat GoString Partition Registry Ecs Aoi Replic CellSim CellSvc CellInv Handoff RegistrySvc RegistryLogic RegistryProps Db DbProps Http Gateway GatewayHttp Presence.
Local Open Scope string_scope.
Local Open Scope list_scope.

Section Session.
#[local] Set Default Proof Using "Type*".
Context {C : Type} `{!Catalog C} (env : Env) (db_env : DbEnv) (g : gateway) (hypot : f64 -> f64 -> f64) (cos sin : f64 -> f64).
Context (playerID : string).

Definition cluster_of (cn : Conn C) : Cluster C := gt_cluster (cn_gate cn).
Definition made (cn : Conn C) : nat := calls (cluster_of cn).

Abbreviation growing := (steps_in (grows made)).

Lemma growing_cells {A} (m : M C A) : steps_in (grows calls) m -> growing (cells m).
Proof.
  intros Hm cn. specialize (Hm (cluster_of cn)). unfold cells, on_gate, on_cells, grows, made, cluster_of in *.
  by destruct (m (gt_cluster (cn_gate cn))) as [r cl'].
Qed.

Lemma growing_session f : growing (on_session (C:=C) f).
Proof. intros cn. apply le_n. Qed.

Lemma growing_stream ds : growing (set_stream (C:=C) ds).
Proof. intros cn. apply le_n. Qed.

Lemma growing_save cellID rx rz : growing (save_last_cell (C:=C) db_env g playerID cellID rx rz).
Proof.
  intros cn. unfold save_last_cell. destruct (has_db g); [|apply le_n]. destruct (positionOr _ _ _) as [px pz].
  unfold ignore, on_gate, on_store. destruct (UpsertPlayerLastCell _ _ _ _ _ _). apply le_n.
Qed.

Lemma growing_switch fx fz : growing (trySwitchDownstream env fx fz).
Proof.
  intros cn. unfold trySwitchDownstream. destruct (gs_ds (cn_session cn)) as [cur|]; [|apply le_n]. destruct (positionOr _ _ _) as [px pz].
  match goal with |- grows made cn (snd (?m cn)) => enough (growing m) by done end.
  steps; apply growing_cells; first [apply grows_resolve | apply grows_catalog | apply grows_probe | apply grows_handoff_switch | apply grows_recover_cell | apply grows_fallback].
Qed.

Lemma growing_position : growing (trySwitchDownstreamByPosition env g hypot).
Proof.
  intros cn. unfold trySwitchDownstreamByPosition. destruct (gs_ds (cn_session cn)) as [cur|]; [|apply le_n].
  destruct (negb _); [apply le_n|]. destruct (markPositionResolveAttempt _ _ _ _ _ _ _) as [go session]. destruct (negb go); [apply le_n|].
  match goal with |- grows made cn (snd (?m cn)) => enough (growing m) by done end.
  steps; try apply growing_session; apply growing_cells;
    first [apply grows_resolve | apply grows_catalog | apply grows_probe | apply grows_handoff_switch | apply grows_recover_cell | apply grows_fallback].
Qed.

Lemma growing_apply old next rx rz : growing (applyDownstreamSwitch env db_env g old next playerID rx rz).
Proof.
  unfold applyDownstreamSwitch. steps; try apply growing_stream; try apply growing_session; try apply growing_save.
  apply growing_cells, grows_leave.
Qed.

Lemma growing_input cur rx rz inp : growing (forward_input env db_env g cos sin cur playerID rx rz inp).
Proof.
  unfold forward_input. steps; try (apply growing_cells, grows_call).
  - apply growing_switch.
  - apply growing_apply.
Qed.

Context `{!CatalogLaws C} (B : nat) (c : C).

(** The coordinates of the token, and what the session knows of the position of its player. *)
Context (rx rz : f64) (pos : bool * f64 * f64).
Definition known_position (s : gatewaySession) : bool * f64 * f64 := (hasPos s, lastX s, lastZ s).
Definition point : f64 * f64 := let '(b, x, z) := pos in if b then (x, z) else (rx, rz).

Abbreviation run := (upto made B).

(** The downstream is a cell of the catalog. *)
Definition stands (ds : gatewayDownstream) : Prop := exists spec, registered c spec /\ ds_cellID ds = Id spec /\ ds_endpoint ds = GrpcEndpoint spec.

(** The session of the player is attached to [cur], and the player is registered at the cells [X]. *)
Record attached (X : gset string) (cur : gatewayDownstream) (cn : Conn C) : Prop := {
  at_placed : placed env playerID B c X (cluster_of cn);
  at_player : gs_playerID (cn_session cn) = playerID;
  at_ds : gs_ds (cn_session cn) = Some cur;
  at_stands : stands cur;
  at_pos : known_position (cn_session cn) = pos }.

(** ** Lifting to the connection *)

Lemma run_cells {A} (m : M C A) cn (Q : result A -> Conn C -> Prop) :
  upto calls B m (cluster_of cn) (fun r cl' => Q r (mkConn (mkGate cl' (gt_db (cn_gate cn))) (cn_session cn) (cn_stream cn))) -> run (cells m) cn Q.
Proof.
  unfold upto, after, cells, on_gate, on_cells, made, cluster_of. destruct (m (gt_cluster (cn_gate cn))) as [r cl']. done.
Qed.

(** The state after calls that changed the cluster alone. *)
Lemma attached_cells X Y cur cn cl' :
  attached X cur cn -> placed env playerID B c Y cl' -> attached Y cur (mkConn (mkGate cl' (gt_db (cn_gate cn))) (cn_session cn) (cn_stream cn)).
Proof. by intros [H1 H2 H3 H4 H5] Hp. Qed.

Lemma attached_session X cur cn f :
  gs_playerID (f (cn_session cn)) = gs_playerID (cn_session cn) -> gs_ds (f (cn_session cn)) = gs_ds (cn_session cn) ->
  known_position (f (cn_session cn)) = known_position (cn_session cn) -> attached X cur cn -> attached X cur (mkConn (cn_gate cn) (f (cn_session cn)) (cn_stream cn)).
Proof. intros E1 E2 E3 [H1 H2 H3 H4 H5]. split; cbn; [done|by rewrite E1|by rewrite E2|done|by rewrite E3]. Qed.

Context (Hs : settled env playerID c).
#[local] Set Default Proof Using "All".

(** ** Looking for another cell *)

(** How a search from [cur] ends when the player is at [home]: with a new cell where the player now is,
    or with everything as it was. *)
Definition search_post (home : string) (cur : gatewayDownstream) (r : result (option gatewayDownstream)) (cn' : Conn C) : Prop :=
  match r with
  | Ok (Some ds) => stands ds /\ ds_endpoint ds <> ds_endpoint cur /\ (ds_endpoint ds = home \/ home = ds_endpoint cur) /\ attached {[ds_endpoint ds]} cur cn'
  | _ => attached {[home]} cur cn'
  end.

(** The player is at another cell of the catalog, and its position is in a cell. *)
Definition astray (home : string) (cur : gatewayDownstream) : Prop :=
  home <> ds_endpoint cur /\ (exists spec, registered c spec /\ GrpcEndpoint spec = home) /\
  forall o, exists spec, Resolve o c (fst point) (snd point) = Ok (Some spec).

Lemma found_stands home cur ds cn :
  attached {[home]} cur cn -> found_at c (ds_cellID cur) {[home]} ds ->
  stands ds /\ ds_endpoint ds <> ds_endpoint cur /\ ds_endpoint ds = home.
Proof.
  intros Ha (spec & Hreg & E1 & E2 & Hne & Hin%elem_of_singleton). split; [by exists spec|]. split; [|congruence].
  destruct (at_stands _ _ _ Ha) as (cs & Hcs & F1 & F2). intros E. apply Hne. rewrite F1. f_equal. apply (sd_endpoint _ _ _ Hs); congruence.
Qed.

(** When nothing is found although the catalog was searched, the player is where the session is. *)
Lemma not_found_home home cur cn :
  attached {[home]} cur cn -> astray home cur ->
  (forall spec, registered c spec -> Id spec <> ds_cellID cur -> GrpcEndpoint spec ∉ ({[home]} : gset string)) -> False.
Proof.
  intros Ha (Hne & (spec & Hreg & Hep) & _) Hno. apply (Hno spec Hreg); [|set_solver]. intros E. apply Hne.
  destruct (at_stands _ _ _ Ha) as (cs & Hcs & F1 & F2). rewrite F2, <- Hep. f_equal. apply (registered_unique c); [apply Hs|..]; congruence.
Qed.

Lemma trim_current X cur cn : attached X cur cn -> trim_space (ds_cellID cur) = ds_cellID cur.
Proof. intros Ha. destruct (at_stands _ _ _ Ha) as (cs & Hcs & F1 & _). rewrite F1. by apply (sd_text _ _ _ Hs). Qed.

Lemma run_resolve x z missing home cur cn :
  attached {[home]} cur cn ->
  run (cells (resolve_target env x z missing)) cn (fun r cn' => attached {[home]} cur cn' /\
    match r with Ok spec => registered c spec | Err _ => (x, z) = point -> ~ astray home cur end).
Proof.
  intros Ha. apply run_cells. eapply upto_conseq; [by apply placed_resolve; [|apply Ha]|]. intros r cl' [HX Hr].
  split; [by eapply attached_cells|]. destruct r as [spec|e]; [done|]. destruct Hr as [o Ho]. intros Hpt (_ & _ & Hall).
  destruct (Hall o) as [spec Hspec]. rewrite <- Hpt in Hspec. by apply (Ho spec).
Qed.

Lemma run_catalog home cur cn :
  attached {[home]} cur cn ->
  run (cells (tryAttachAlreadyJoinedFromCatalog env playerID (ds_cellID cur))) cn (fun r cn' => attached {[home]} cur cn' /\
    match r with
    | Ok (Some ds) => stands ds /\ ds_endpoint ds <> ds_endpoint cur /\ ds_endpoint ds = home
    | Ok None => ~ astray home cur
    | Err _ => False
    end).
Proof.
  intros Ha. apply run_cells. eapply upto_conseq; [apply (placed_catalog env playerID B c Hs _ {[home]}); [by eapply trim_current|apply Ha]|].
  intros r cl' [HX Hr]. assert (attached {[home]} cur (mkConn (mkGate cl' (gt_db (cn_gate cn))) (cn_session cn) (cn_stream cn))) as Ha' by by eapply attached_cells.
  split; [done|]. destruct r as [[ds|]|e]; [|intros Hast|done]; [by eapply found_stands|by eapply not_found_home].
Qed.

Lemma run_fallback home cur cn :
  attached {[home]} cur cn ->
  run (cells (fallback_cell env playerID (ds_cellID cur))) cn (fun r cn' => attached {[home]} cur cn' /\
    match r with
    | Ok (Some ds) => stands ds /\ ds_endpoint ds <> ds_endpoint cur /\ ds_endpoint ds = home
    | Ok None => ~ astray home cur
    | Err _ => False
    end).
Proof.
  intros Ha. pose proof (run_catalog home cur cn Ha) as Hc. unfold upto, after, cells, on_gate, on_cells, fallback_cell, made, cluster_of in *.
  unfold mbind, St_bind, catch. destruct (tryAttachAlreadyJoinedFromCatalog _ _ _ _) as [r cl']. cbn [fst snd cn_gate gt_cluster] in *.
  intros Hb. destruct (Hc Hb) as [Ha' Hr]. split; [done|]. by destruct r as [[ds|]|e].
Qed.

Lemma stands_other next cur cn home : attached {[home]} cur cn -> registered c next -> Id next <> ds_cellID cur -> GrpcEndpoint next <> ds_endpoint cur.
Proof.
  intros Ha Hreg Hne E. apply Hne. destruct (at_stands _ _ _ Ha) as (cs & Hcs & F1 & F2). rewrite F1. f_equal. apply (sd_endpoint _ _ _ Hs); congruence.
Qed.

Lemma run_probe next home cur cn :
  attached {[home]} cur cn -> registered c next -> Id next <> ds_cellID cur ->
  run (cells (probe_already_joined env playerID (Id next) (GrpcEndpoint next))) cn (fun r cn' => attached {[home]} cur cn' /\
    match r with
    | Ok (Some ds) => stands ds /\ ds_endpoint ds <> ds_endpoint cur /\ ds_endpoint ds = home
    | Ok None => GrpcEndpoint next <> home
    | Err _ => False
    end).
Proof.
  intros Ha Hreg Hne. apply run_cells. eapply upto_conseq; [apply (placed_probe env playerID B c Hs _ _ {[home]}), Ha|].
  intros r cl' [HX Hr]. split; [by eapply attached_cells|]. destruct (decide (GrpcEndpoint next ∈ ({[home]} : gset string))) as [Hin|Hni].
  - destruct Hr as (ds & -> & E1 & E2). apply elem_of_singleton in Hin. split; [by exists next|]. split; [|congruence].
    rewrite E2. by eapply stands_other.
  - rewrite Hr. set_solver.
Qed.

Lemma run_handoff next home cur cn :
  attached {[home]} cur cn -> registered c next -> Id next <> ds_cellID cur -> GrpcEndpoint next <> home ->
  run (cells (forwardPlayerHandoffSwitch env playerID (ds_cellID cur) next)) cn (fun r cn' =>
    match r with
    | Ok ds => stands ds /\ ds_endpoint ds <> ds_endpoint cur /\ home = ds_endpoint cur /\ attached {[ds_endpoint ds]} cur cn'
    | Err e => isParentCellMissingErr e = false /\ attached {[home]} cur cn'
    end).
Proof.
  intros Ha Hreg Hne Hh. apply run_cells. destruct (at_stands _ _ _ Ha) as (cs & Hcs & F1 & F2). rewrite F1.
  eapply upto_conseq; [apply (placed_handoff_switch env playerID B c Hs cs next {[home]}); try done; [congruence|set_solver|apply Ha]|].
  intros [ds|e] cl'; [|intros [? HX]; split; [done|by eapply attached_cells]]. intros (E1 & E2 & Hin%elem_of_singleton & HX).
  assert (GrpcEndpoint next <> ds_endpoint cur) as Hne' by by eapply stands_other.
  split; [by exists next|]. split; [congruence|]. split; [congruence|]. eapply attached_cells; [exact Ha|].
  refine (placed_set env playerID B c _ _ cl' _ HX). intros ep. rewrite E2. set_solver.
Qed.

Lemma run_recover next e home cur cn :
  attached {[home]} cur cn -> isParentCellMissingErr e = false ->
  run (cells (recover_cell env playerID next e)) cn (fun r cn' => r = Ok None /\ attached {[home]} cur cn').
Proof.
  intros Ha He. apply run_cells. unfold recover_cell. rewrite He. apply upto_ret. split; [done|]. eapply attached_cells; [done|apply Ha].
Qed.

Lemma search_found home cur cn ds : attached {[home]} cur cn -> stands ds /\ ds_endpoint ds <> ds_endpoint cur /\ ds_endpoint ds = home -> search_post home cur (Ok (Some ds)) cn.
Proof. intros Ha (H1 & H2 & <-). split; [done|]. split; [done|]. split; [by left|done]. Qed.

(** After a refused input the search finds the player wherever it is. *)
Lemma run_switch home cur cn :
  attached {[home]} cur cn ->
  run (trySwitchDownstream env rx rz) cn (fun r cn' => search_post home cur r cn' /\ (astray home cur -> exists ds, r = Ok (Some ds))).
Proof.
  intros Ha Hb. unfold after, trySwitchDownstream in *. rewrite (at_ds _ _ _ Ha), (at_player _ _ _ Ha) in *.
  assert (positionOr rx rz (cn_session cn) = point) as Hpt by (unfold point; rewrite <- (at_pos _ _ _ Ha); done).
  destruct (positionOr _ _ _) as [px pz]. revert Hb.
  match goal with |- made (snd (?m cn)) <= B -> _ => change (run m cn (fun r cn' => search_post home cur r cn' /\ (astray home cur -> exists ds, r = Ok (Some ds)))) end.
  apply upto_bind; [intros next; steps; apply growing_cells; first [apply grows_catalog|apply grows_probe|apply grows_handoff_switch|apply grows_recover_cell|apply grows_fallback]|].
  eapply upto_conseq; [by apply run_resolve|]. intros [next|e] cn1 [Ha1 Hr]; [|split; [done|]; intros Hast; by destruct (Hr Hpt)].
  destruct (String.eqb_spec (Id next) (ds_cellID cur)) as [Heq|Hne].
  { eapply upto_conseq; [by apply run_catalog|]. intros [[ds|]|e] cn2 [Ha2 Hf]; [|by split|done]. split; [by apply search_found|by exists ds]. }
  apply upto_bind; [intros [ds|]; steps; apply growing_cells; first [apply grows_handoff_switch|apply grows_recover_cell|apply grows_fallback]|].
  eapply upto_conseq; [by apply run_probe|]. intros [[ds|]|e] cn2 [Ha2 Hp]; [|..|done].
  { apply upto_ret. split; [by apply search_found|by exists ds]. }
  apply upto_bind; [intros [ds|e]; steps; apply growing_cells; first [apply grows_recover_cell|apply grows_fallback]|]. apply upto_catch.
  eapply upto_conseq; [by apply run_handoff|]. intros [ds|e] cn3.
  { intros (H1 & H2 & H3 & H4). apply upto_ret. split; [|by exists ds]. split; [done|]. split; [done|]. split; [by right|done]. }
  intros [He Ha3]. apply upto_bind; [intros [ds|]; steps; apply growing_cells; apply grows_fallback|].
  eapply upto_conseq; [by apply run_recover|]. intros r cn4 [-> Ha4].
  apply upto_bind; [intros [ds|]; steps|]. eapply upto_conseq; [by apply run_fallback|]. intros [[ds|]|e'] cn5 [Ha5 Hf]; [|..|done].
  - apply upto_ret. split; [by apply search_found|by exists ds].
  - apply upto_throw. by split.
Qed.

Lemma mark_same now x z move interval s :
  let s' := snd (markPositionResolveAttempt hypot now x z move interval s) in gs_playerID s' = gs_playerID s /\ gs_ds s' = gs_ds s /\ known_position s' = known_position s.
Proof.
  unfold markPositionResolveAttempt. destruct (negb (hasPos s)); [done|]. destruct (negb (hasResolvedPos s)); [done|]. by destruct (_ && _).
Qed.

Lemma fail_same now a b base max s :
  let s' := markPositionSwitchRetryFailure now a b base max s in gs_playerID s' = gs_playerID s /\ gs_ds s' = gs_ds s /\ known_position s' = known_position s.
Proof. unfold markPositionSwitchRetryFailure. by destruct (base <=? 0)%Z. Qed.

Lemma run_session f X cur cn (Q : result unit -> Conn C -> Prop) :
  (let s := cn_session cn in gs_playerID (f s) = gs_playerID s /\ gs_ds (f s) = gs_ds s /\ known_position (f s) = known_position s) -> attached X cur cn ->
  (forall cn', attached X cur cn' -> Q (Ok tt) cn') -> run (on_session f) cn Q.
Proof. intros (E1 & E2 & E3) Ha HQ _. apply HQ. by apply attached_session. Qed.

(** The search that the position of the player starts. *)
Lemma run_position home cur cn :
  attached {[home]} cur cn -> run (trySwitchDownstreamByPosition env g hypot) cn (search_post home cur).
Proof.
  intros Ha Hb. unfold after, trySwitchDownstreamByPosition in *. rewrite (at_ds _ _ _ Ha), (at_player _ _ _ Ha) in *.
  destruct (negb (hasPos (cn_session cn))); [done|]. set (now := clock env _) in *.
  pose proof (mark_same now (lastX (cn_session cn)) (lastZ (cn_session cn)) (positionSwitchMinMoveMeters g) (positionSwitchMinInterval g) (cn_session cn)) as Hm.
  destruct (markPositionResolveAttempt _ _ _ _ _ _ _) as [go session]. destruct (negb go); [done|]. cbn [snd] in Hm. revert Hb.
  match goal with |- made (snd (?m cn)) <= B -> _ => change (run m cn (search_post home cur)) end.
  apply upto_bind; [intros ?; steps; try apply growing_session; apply growing_cells;
    first [apply grows_resolve | apply grows_catalog|apply grows_probe|apply grows_handoff_switch|apply grows_recover_cell|apply grows_fallback]|].
  eapply run_session; [exact Hm|exact Ha|]. intros cn0 Ha0.
  apply upto_bind; [intros next; steps; try apply growing_session; apply growing_cells;
    first [apply grows_catalog|apply grows_probe|apply grows_handoff_switch|apply grows_recover_cell|apply grows_fallback]|].
  eapply upto_conseq; [by apply run_resolve|]. intros [next|e] cn1 [Ha1 Hr]; [|done].
  destruct (String.eqb_spec (Id next) (ds_cellID cur)) as [Heq|Hne].
  { eapply upto_conseq; [by apply run_catalog|]. intros [[ds|]|e] cn2 [Ha2 Hf]; [by apply search_found|done|done]. }
  destruct (negb (allowPositionSwitchRetry _ _ _ _)); [by apply upto_ret|].
  apply upto_bind; [intros [ds|]; steps; try apply growing_session; apply growing_cells;
    first [apply grows_handoff_switch|apply grows_recover_cell|apply grows_fallback]|].
  eapply upto_conseq; [by apply run_probe|]. intros [[ds|]|e] cn2 [Ha2 Hp]; [apply upto_ret; by apply search_found| |done].
  apply upto_bind; [intros [ds|e]; steps; try apply growing_session; apply growing_cells; first [apply grows_recover_cell|apply grows_fallback]|]. apply upto_catch.
  eapply upto_conseq; [by apply run_handoff|]. intros [ds|e] cn3.
  { intros (H1 & H2 & H3 & H4). apply upto_bind; [intros ?; steps|]. eapply run_session; [done|exact H4|]. intros cn4 Ha4.
    apply upto_ret. split; [done|]. split; [done|]. split; [by right|done]. }
  intros [He Ha3]. apply upto_bind; [intros [ds|]; steps; try apply growing_session; apply growing_cells; apply grows_fallback|].
  eapply upto_conseq; [by apply run_recover|]. intros r cn4 [-> Ha4].
  apply upto_bind; [intros [ds|]; steps; apply growing_session|]. eapply upto_conseq; [by apply run_fallback|]. intros [[ds|]|e'] cn5 [Ha5 Hf]; [| |done].
  - apply upto_bind; [intros ?; steps|]. eapply run_session; [done|exact Ha5|]. intros cn6 Ha6. apply upto_ret. by apply search_found.
  - apply upto_bind; [intros ?; steps|]. destruct (isRetriablePositionSwitchErr e); [|by apply upto_ret, upto_throw].
    eapply run_session; [apply fail_same|exact Ha5|]. intros cn6 Ha6. by apply upto_throw.
Qed.

(** ** A message of the client *)

Lemma run_apply next cur cn :
  stands next -> ds_endpoint next <> ds_endpoint cur -> attached {[ds_endpoint next]} cur cn ->
  run (applyDownstreamSwitch env db_env g cur next playerID rx rz) cn (fun r cn' => r = Ok tt /\ attached {[ds_endpoint next]} next cn').
Proof.
  intros Hst Hne Ha. unfold applyDownstreamSwitch.
  apply upto_bind; [intros _; steps; try apply growing_stream; try apply growing_session; try apply growing_save; apply growing_cells, grows_leave|].
  intros _. unfold set_stream at 1, after. cbn [fst snd].
  apply upto_bind; [intros _; steps; try apply growing_stream; try apply growing_session; apply growing_save|]. apply run_cells.
  eapply upto_conseq; [apply (placed_leave env playerID B c Hs cur {[ds_endpoint next]}); destruct Ha as [HX _ _ _ _]; exact HX|].
  intros r cl' [-> HX]. apply upto_bind; [intros _; steps; try apply growing_stream; apply growing_save|]. intros _. unfold on_session at 1, after. cbn [fst snd].
  apply upto_bind; [intros _; apply growing_save|]. intros _. unfold set_stream at 1, after. cbn [fst snd].
  assert (placed env playerID B c {[ds_endpoint next]} cl') as HX' by (refine (placed_set env playerID B c _ _ cl' _ HX); set_solver).
  intros _. unfold after, save_last_cell. destruct Ha as [_ Hp _ _ Hk]. cbn [cn_gate cn_session gt_cluster].
  destruct (has_db g); [|by split]. destruct (positionOr _ _ _) as [px pz]. unfold ignore, on_gate, on_store. cbn [cn_gate cn_session gt_cluster gt_db].
  by destruct (UpsertPlayerLastCell _ _ _ _ _ _).
Qed.

(** How a message ends that began with the player at [home] and the session at [cur]: with nothing
    changed, or with the session where the player now is. *)
Definition message_post (home : string) (cur : gatewayDownstream) (cn' : Conn C) : Prop :=
  exists cur', (astray home cur -> ds_endpoint cur' = home) /\
    (cur' = cur /\ attached {[home]} cur cn' \/
     (ds_endpoint cur' = home \/ home = ds_endpoint cur) /\ attached {[ds_endpoint cur']} cur' cn').

Lemma run_follow next cur home cn :
  search_post home cur (Ok (Some next)) cn ->
  run (applyDownstreamSwitch env db_env g cur next playerID rx rz) cn (fun r cn' => r = Ok tt /\ message_post home cur cn').
Proof.
  intros (H1 & H2 & H3 & H4). eapply upto_conseq; [by apply run_apply|]. intros r cn' [-> Ha]. split; [done|].
  exists next. split; [|by right]. intros (Hne & _). by destruct H3.
Qed.

Lemma run_input home cur inp cn :
  attached {[home]} cur cn ->
  run (forward_input env db_env g cos sin cur playerID rx rz inp) cn (fun r cn' => r = Ok tt /\ message_post home cur cn').
Proof.
  intros Ha. unfold forward_input. apply upto_bind; [intros r; steps; [apply growing_switch|apply growing_apply]|]. apply upto_catch. apply run_cells.
  assert (forall cl', placed env playerID B c {[home]} cl' -> attached {[home]} cur (mkConn (mkGate cl' (gt_db (cn_gate cn))) (cn_session cn) (cn_stream cn))) as Hat.
  { intros cl' HX. by eapply attached_cells. }
  assert (forall cl' (b : bool), placed env playerID B c {[home]} cl' -> (astray home cur -> b = true) ->
    run (if b then next ← catch (trySwitchDownstream env rx rz);
           match next with Ok (Some ds) => applyDownstreamSwitch env db_env g cur ds playerID rx rz | _ => mret tt end
         else mret tt) (mkConn (mkGate cl' (gt_db (cn_gate cn))) (cn_session cn) (cn_stream cn)) (fun r cn' => r = Ok tt /\ message_post home cur cn')) as Hend.
  { intros cl' b HX Hast. destruct b.
    - apply upto_bind; [intros r; steps; apply growing_apply|]. apply upto_catch. eapply upto_conseq; [by apply run_switch, Hat|].
      intros [[ds|]|e] cn1 [Hp Hf]; [by apply run_follow| |]; apply upto_ret; (split; [done|]); exists cur; (split; [|by left]);
        intros Ha'; by destruct (Hf Ha') as [? [=]].
    - apply upto_ret. split; [done|]. exists cur. split; [|left; split; [done|by apply Hat]]. intros Ha'. by specialize (Hast Ha'). }
  apply (placed_call env playerID B c Hs (ds_endpoint cur) _ {[home]}); [apply Ha| |].
  { intros cl' Hni HX. apply Hend; [done|]. intros _. unfold shouldSwitchDownstreamOnTransport. rewrite (sd_unreachable _ _ _ Hs). by rewrite bool_decide_true. }
  intros s Es Hok Hin HB. pose proof (Input_cell env playerID (sd_player _ _ _ Hs) (sd_clock _ _ _ Hs) B _ cos sin (Some inp) s Hok) as Hi.
  destruct (ApplyInput _ _ _ _ s) as [s' res]. destruct Hi as (Hok' & Ebyid & Hno). split; [done|]. intros cl' _ _ HX.
  assert (has playerID s' <-> has playerID s) as Hhs by (unfold has; by rewrite Ebyid).
  apply Hend.
  - refine (placed_set env playerID B c _ _ cl' _ HX). intros ep. destruct (decide (has playerID s')) as [Hh|Hh].
    + assert (ds_endpoint cur ∈ ({[home]} : gset string)) by tauto. set_solver.
    + assert (ds_endpoint cur ∉ ({[home]} : gset string)) by tauto. set_solver.
  - intros (Hne & _). rewrite Hno; [done|]. rewrite <- Hin. set_solver.
Qed.

Lemma run_message home cur inp cn :
  attached {[home]} cur cn ->
  run (ws_message env db_env g hypot cos sin playerID rx rz inp) cn (fun r cn' => r = Ok true /\ message_post home cur cn').
Proof.
  intros Ha Hb. unfold after, ws_message in *. rewrite (at_ds _ _ _ Ha) in *. revert Hb.
  match goal with |- made (snd (?m cn)) <= B -> _ => change (run m cn (fun r cn' => r = Ok true /\ message_post home cur cn')) end.
  apply upto_bind; [intros next; steps; [apply growing_apply|apply growing_input]|].
  assert (forall next cn', match next with Some ds => search_post home cur (Ok (Some ds)) cn' | None => attached {[home]} cur cn' end ->
    run (_ ← match next with
             | Some ds => applyDownstreamSwitch env db_env g cur ds playerID rx rz
             | None => forward_input env db_env g cos sin cur playerID rx rz inp
             end; mret true) cn' (fun r cn' => r = Ok true /\ message_post home cur cn')) as Hrest.
  { intros next cn' Hn. apply upto_bind; [intros _; steps|]. destruct next as [ds|].
    - eapply upto_conseq; [by apply run_follow|]. intros r cn2 [-> Hm]. by apply upto_ret.
    - eapply upto_conseq; [by apply run_input|]. intros r cn2 [-> Hm]. by apply upto_ret. }
  destruct (positionSwitchEnabled g); [|apply upto_ret; by apply (Hrest None)].
  apply upto_bind; [intros r; steps|]. apply upto_catch. eapply upto_conseq; [by apply run_position|]. intros r cn1 Hp. apply upto_ret.
  by destruct r as [[ds|]|e]; [apply (Hrest (Some ds))|apply (Hrest None)..].
Qed.

End Session.

(** * A session and everybody else

    A message of the client, a chunk of the stream that tells the session its position, and what others
    do in between: they keep the player in one cell, which they may change when [moves], leave the
    catalog alone, and do not use the tokens of this session. *)
Section Others.
Context {C : Type} `{CatalogLaws C} (env : Env) (db_env : DbEnv) (g : gateway) (hypot : f64 -> f64 -> f64) (cos sin : f64 -> f64).
Context (playerID : string) (B : nat) (c : C) (moves : bool) (rx rz : f64).

Inductive session_step : Conn C -> Conn C -> Prop :=
  | ss_message inp cn b cn' : ws_message env db_env g hypot cos sin playerID rx rz inp cn = (Ok b, cn') -> session_step cn cn'
  | ss_chunk entityID chunk cn : session_step cn (mkConn (cn_gate cn) (observeSelfPosition entityID chunk (cn_session cn)) (cn_stream cn))
  | ss_others home home' cn cl' d' :
      placed env playerID B c {[home]} (cluster_of cn) -> placed env playerID B c {[home']} cl' -> calls (cluster_of cn) <= calls cl' ->
      (moves = false -> home' = home) -> session_step cn (mkConn (mkGate cl' d') (cn_session cn) (cn_stream cn)).

Lemma growing_message inp : steps_in (grows made) (ws_message env db_env g hypot cos sin playerID rx rz inp).
Proof.
  intros cn. unfold ws_message. destruct (gs_ds (cn_session cn)) as [cur|]; [|apply le_n].
  match goal with |- grows made cn (snd (?m cn)) => enough (steps_in (grows made) m) by done end.
  steps; first [apply growing_position|apply growing_apply|apply growing_input].
Qed.

Lemma session_step_grows cn cn' : session_step cn cn' -> made cn <= made cn'.
Proof.
  intros [inp cn1 b cn2 E|? ? ?|? ? ? ? ? _ _ Hle _]; [|apply le_n|exact Hle].
  pose proof (growing_message inp cn1) as Hg. by rewrite E in Hg.
Qed.

Lemma observe_same entityID chunk s :
  let s' := observeSelfPosition entityID chunk s in gs_playerID s' = gs_playerID s /\ gs_ds s' = gs_ds s.
Proof. unfold observeSelfPosition. destruct (entityID =? 0)%N; [done|]. by destruct (find _ _). Qed.

Lemma singleton_placed a b cl : placed env playerID B c {[a]} cl -> placed env playerID B c {[b]} cl -> a = b.
Proof. intros Ha Hb. assert (a ∈ ({[b]} : gset string)); [|set_solver]. rewrite (pl_where _ _ _ _ _ _ Hb). apply (pl_where _ _ _ _ _ _ Ha). set_solver. Qed.

Definition single_presence (cn : Conn C) : Prop :=
  exists home cur pos, attached env playerID B c pos {[home]} cur cn /\ (moves = false -> home = ds_endpoint cur).

Lemma step_presence cn cn' : settled env playerID c -> session_step cn cn' -> made cn' <= B -> single_presence cn -> single_presence cn'.
Proof.
  intros Hs Hstep Hb (home & cur & pos & Ha & Hm). destruct Hstep as [inp cn b cn' E|e chunk cn|h1 h2 cn cl' d' H1 H2 Hle Hmv].
  - pose proof (run_message env db_env g hypot cos sin playerID B c rx rz pos Hs home cur inp cn Ha) as Hr. unfold upto, after in Hr. rewrite E in Hr.
    destruct (Hr Hb) as (_ & cur' & _ & [[-> Ha']|[Hor Ha']]); [by exists home, cur, pos|]. by exists (ds_endpoint cur'), cur', pos.
  - destruct Ha as [A1 A2 A3 A4 A5], (observe_same e chunk (cn_session cn)) as [E1 E2].
    exists home, cur, (known_position (observeSelfPosition e chunk (cn_session cn))). split; [|done].
    split; cbn; [done|by rewrite E1|by rewrite E2|done|done].
  - exists h2, cur, pos. destruct Ha as [A1 A2 A3 A4 A5]. rewrite <- (singleton_placed home h1 _ A1 H1) in Hmv. split; [by split|].
    intros Hf. by rewrite (Hmv Hf), (Hm Hf).
Qed.
End Others.

(** C3: the player of a session is in one cell at a time. While no request is lost, whatever messages the
    client sends and wherever the session searches, probes, hands the player over or falls back, after
    every message the player is registered at exactly one cell, and it is the cell the session is attached
    to, as long as nobody else moves the player to another one. *)
Theorem session_keeps_presence {C} `{CatalogLaws C} env db_env g hypot cos sin playerID B (c : C) moves rx rz cn cn' :
  settled env playerID c -> single_presence env playerID B c moves cn ->
  rtc (session_step env db_env g hypot cos sin playerID B c moves rx rz) cn cn' -> made cn' <= B ->
  exists home cur, gs_ds (cn_session cn') = Some cur /\
    (forall ep, (exists s, cellServers (cluster_of cn') !! ep = Some s /\ is_Some (playerByID s !! trim_space playerID)) <-> ep = home) /\
    (moves = false -> home = ds_endpoint cur).
Proof.
  intros Hs Hp Hrtc Hb.
  assert (single_presence env playerID B c moves cn') as (home & cur & pos & Ha & Hm).
  { induction Hrtc as [cn|cn cn1 cn' Hstep Hrtc IH]; [done|]. apply IH; [|done]. eapply step_presence; [done|done| |done].
    clear IH Hp Hstep. induction Hrtc as [|? ? ? Hstep _ IH]; [done|]. apply session_step_grows in Hstep. specialize (IH Hb). lia. }
  exists home, cur. split; [apply Ha|]. split; [|done]. intros ep. pose proof (pl_where _ _ _ _ _ _ (at_placed _ _ _ _ _ _ _ _ Ha) ep) as Hw.
  unfold has, the_player in Hw. rewrite <- Hw. set_solver.
Qed.

(** C4: the session follows its player, while every request is delivered, every endpoint can be dialed, the cells
    of the catalog have ids without blanks and endpoints of their own, and no cell runs out of entity ids. When
    somebody else has moved the player from the cell of the session to exactly one other cell of the
    catalog (a split, a merge), and its position lies in some cell, then the next message of the client
    attaches the session to the cell the player is at, whichever cell the position resolves to. *)
Theorem session_follows_player {C} `{CatalogLaws C} env db_env g hypot cos sin playerID B (c : C) rx rz pos inp home cur cn :
  settled env playerID c -> attached env playerID B c pos {[home]} cur cn -> astray c rx rz pos home cur ->
  let '(r, cn') := ws_message env db_env g hypot cos sin playerID rx rz inp cn in
  made cn' <= B ->
  r = Ok true /\ exists cur', gs_ds (cn_session cn') = Some cur' /\ ds_endpoint cur' = home /\
    forall ep, (exists s, cellServers (cluster_of cn') !! ep = Some s /\ is_Some (playerByID s !! trim_space playerID)) <-> ep = home.
Proof.
  intros Hs Ha Hast. pose proof (run_message env db_env g hypot cos sin playerID B c rx rz pos Hs home cur inp cn Ha) as Hr.
  unfold upto, after in Hr. destruct (ws_message _ _ _ _ _ _ _ _ _ _ cn) as [r cn']. cbn [fst snd] in Hr. intros Hb. destruct (Hr Hb) as (-> & cur' & Hf & Hor).
  split; [done|]. specialize (Hf Hast). destruct Hor as [[-> _]|[_ Ha']]; [by destruct Hast|]. rewrite Hf in Ha'.
  exists cur'. split; [apply Ha'|]. split; [done|]. intros ep. pose proof (pl_where _ _ _ _ _ _ (at_placed _ _ _ _ _ _ _ _ Ha') ep) as Hw.
  unfold has, the_player in Hw. rewrite <- Hw. set_solver.
Qed.

(** * A session in two cells *)

Definition reliable : Env := plain_env (fun _ => Delivered).

Lemma two_cells_settled : settled reliable "bob" two_cells.
Proof.
  assert (forall s, registered two_cells s -> exists id, Registry.cells two_cells !! id = Some s) as Hreg by done.
  split; try done.
  - cbn. intros m n Hmn. lia.
  - exact two_cells_wf.
  - intros o. by eexists.
  - intros s [id Hid]%Hreg. revert id s Hid.
    apply (bool_decide_eq_true_1 (map_Forall (fun _ s => (trim_space (Id s) = Id s /\ Id s <> "") /\ trim_space (GrpcEndpoint s) = GrpcEndpoint s /\ GrpcEndpoint s <> "") (Registry.cells two_cells))).
    by vm_compute.
  - intros s t [id Hid]%Hreg [id' Hid']%Hreg He. apply (registered_unique two_cells); [exact two_cells_wf|by exists id|by exists id'|]. revert id s Hid id' t Hid' He.
    apply (bool_decide_eq_true_1 (map_Forall (fun _ s => map_Forall (fun _ t => GrpcEndpoint s = GrpcEndpoint t -> Id s = Id t) (Registry.cells two_cells)) (Registry.cells two_cells))).
    by vm_compute.
Qed.

(** [bob] is at the root cell, at the origin; his session is attached to [ds]. *)
Definition no_tables : Tables := mkTables [] ∅ ∅ ∅ ∅ ∅ ∅ ∅ ∅ ∅ ∅ ∅ ∅.
Definition bob_session (ds : gatewayDownstream) : gatewaySession := mkSession "bob" (Some ds) f0 f0 true 0 f0 f0 false ∅.
Definition bob_conn (cl : Cluster Memory) (ds : gatewayDownstream) : Conn Memory := mkConn (mkGate cl (mkDb no_tables 0)) (bob_session ds) (Some ds).
Definition at_root : gatewayDownstream := mkDownstream "cell_root" "root:50051" 1.
Definition at_q3 : gatewayDownstream := mkDownstream "cell_-1_-1_1" "q3:50051" 1.
Definition plain_gateway : gateway := mkGateway "registry:50051" f0 f0 false false true 0 f0 0 0.
Definition no_db : DbEnv := mkDbEnv (fun _ => Delivered) (fun _ => order_id).

Definition bob_message (env : Env) (cn : Conn Memory) : result bool * Conn Memory :=
  ws_message env no_db plain_gateway (fun x _ => x) (fun x => x) (fun x => x) "bob" f0 f0 (mkInput 1 f0) cn.

Lemma bob_placed : placed reliable "bob" 40 two_cells {["root:50051"]} two_servers.
Proof.
  assert (forall m s, acceptedByTk s = ∅ -> preparedByTk s = ∅ -> token_unused (token reliable "bob" m) s) as Hfresh.
  { intros m s H1 H2. unfold token_unused. by rewrite H1, H2. }
  assert (cell_ok reliable "bob" 40 0 bob_joined) as H1.
  { split; [apply Join_wf; [apply init_wf, fresh_init|apply fresh_room]|done|by vm_compute|]. intros m _. by apply Hfresh. }
  assert (cell_ok reliable "bob" 40 0 (fresh_server "cell_-1_-1_1")) as H2.
  { split; [apply init_wf, fresh_init|done|by vm_compute|]. intros m _. by apply Hfresh. }
  split; [done| |].
  - intros ep s. cbn. intros [[_ <-]|[_ [[_ <-]|[_ Hs]]%lookup_insert_Some]]%lookup_insert_Some; [exact H1|exact H2|done].
  - intros ep. rewrite elem_of_singleton. split.
    + intros ->. exists bob_joined. split; [done|]. by exists 1%N.
    + intros (s & Hs & Hh). cbn in Hs. apply lookup_insert_Some in Hs as [[<- _]|[_ Hs]]; [done|].
      apply lookup_insert_Some in Hs as [[_ <-]|[_ Hs]]; [by destruct Hh|done].
Qed.

Lemma at_root_stands : stands two_cells at_root.
Proof. exists root_spec. split; [by exists "cell_root"|done]. Qed.

Lemma at_q3_stands : stands two_cells at_q3.
Proof. exists q3_spec. split; [by exists "cell_-1_-1_1"|done]. Qed.

(** Bob stands in the smaller cell: the message hands him over. *)
Lemma session_keeps_presence_witness :
  let cn' := snd (bob_message reliable (bob_conn two_servers at_root)) in
  exists home cur, gs_ds (cn_session cn') = Some cur /\ ds_endpoint cur = "q3:50051" /\ home = ds_endpoint cur /\
    forall ep, (exists s, cellServers (cluster_of cn') !! ep = Some s /\ is_Some (playerByID s !! trim_space "bob")) <-> ep = home.
Proof.
  intros cn'. set (cn := bob_conn two_servers at_root) in cn'.
  assert (fst (bob_message reliable cn) = Ok true) as Hf by by vm_compute.
  pose proof (surjective_pairing (bob_message reliable cn)) as Hrun. rewrite Hf in Hrun. fold cn' in Hrun.
  assert (made cn' <= 40) as Hb by (apply Nat.leb_le; by vm_compute).
  assert (ds_endpoint <$> gs_ds (cn_session cn') = Some "q3:50051") as Hq by by vm_compute.
  clearbody cn'.
  destruct (session_keeps_presence reliable no_db plain_gateway (fun x _ => x) (fun x => x) (fun x => x) "bob" 40 two_cells false f0 f0 cn cn' two_cells_settled)
    as (home & cur & H1 & H2 & H3).
  - exists "root:50051", at_root, (true, f0, f0). split; [|done]. split; [exact bob_placed|done|done|exact at_root_stands|done].
  - apply rtc_once. apply (ss_message _ _ _ _ _ _ _ _ _ false f0 f0 (mkInput 1 f0) cn true cn' Hrun).
  - exact Hb.
  - exists home, cur. split; [exact H1|]. split; [|split; [by apply H3|exact H2]]. rewrite H1 in Hq. cbn in Hq. by injection Hq.
Defined.

(** Bob was moved to the root cell while his session was attached to the smaller one. *)
Lemma session_follows_player_witness :
  let cn' := snd (bob_message reliable (bob_conn two_servers at_q3)) in
  exists cur, gs_ds (cn_session cn') = Some cur /\ ds_endpoint cur = "root:50051".
Proof.
  intros cn'. set (cn := bob_conn two_servers at_q3) in cn'.
  assert (made cn' <= 40) as Hb by (apply Nat.leb_le; by vm_compute).
  pose proof (surjective_pairing (bob_message reliable cn)) as Hrun. fold cn' in Hrun. unfold bob_message in Hrun at 1.
  pose proof (session_follows_player reliable no_db plain_gateway (fun x _ => x) (fun x => x) (fun x => x) "bob" 40 two_cells f0 f0 (true, f0, f0)
    (mkInput 1 f0) "root:50051" at_q3 cn two_cells_settled) as H.
  rewrite Hrun in H. clearbody cn'. clear Hrun. destruct H as (_ & cur & H1 & H2 & _); [| |exact Hb|by exists cur].
  - split; [exact bob_placed|done|done|exact at_q3_stands|done].
  - split; [done|]. split; [exists root_spec; split; [by exists "cell_root"|done]|]. intros o.
    change (exists spec, Ok (ResolveMostSpecific o two_cells f0 f0) = Ok (Some spec)).
    pose proof (resolve_most_specific o order_id two_cells f0 f0) as Hm. destruct (ResolveMostSpecific o two_cells f0 f0) as [spec|]; [by exists spec|].
    exfalso. cbn [most_specific] in Hm. assert (Contains (CBounds root_spec) f0 f0 = false) as Hc by (apply Hm; apply elem_of_List; exists "cell_root"; by vm_compute).
    by vm_compute in Hc.
Defined.

(** * What a lost request does

    While Bob's session is in the smaller cell it looks into the root cell, and the [Leave] of that probe
    is lost: he is in both. At his next message the root cell answers [already_joined]; the session moves
    there, to a new entity at the origin, and his own entity is destroyed. *)
Definition bob_in_q3 : Cluster Memory :=
  mkCluster (Some two_cells) false ∅ (<["root:50051" := fresh_server "cell_root"]> (<["q3:50051" := bob_joined]> ∅)) ∅ [] 0.

Definition bob_at (cn : Conn Memory) (ep : string) : bool := bool_decide (is_Some (cellServers (cluster_of cn) !! ep ≫= fun s => playerByID s !! "bob")).

Example probe_leaves_ghost :
  let lossy := plain_env (fun n => if Nat.eqb n 3 then LostRequest (errorf "timeout" []) else Delivered) in
  let cn1 := snd (bob_message lossy (bob_conn bob_in_q3 at_q3)) in
  let cn2 := snd (bob_message lossy cn1) in
  (bob_at cn1 "q3:50051", bob_at cn1 "root:50051", ds_endpoint <$> gs_ds (cn_session cn1)) = (true, true, Some "q3:50051") /\
  (bob_at cn2 "q3:50051", bob_at cn2 "root:50051", ds_endpoint <$> gs_ds (cn_session cn2)) = (false, true, Some "root:50051").
Proof. split; by vm_compute. Qed.

(** * The pause between attempts to move *)

Definition capped_base (base max : Z) : Z := if (0 <? max)%Z && (max <? base)%Z then max else base.

(** The pause before the next attempt to move from one cell to another does not grow. When an attempt
    that was allowed fails, the state of the pair of cells is that of a first failure, unless the attempt
    was made at the very moment the pause ended: further attempts are refused exactly for the base pause
    (or the maximum, if that is less), and a success ends the pause. *)
Theorem switch_pause_is_constant now from to base max s :
  (0 < base)%Z -> allowPositionSwitchRetry now from to s = true ->
  (forall st, gs_retry s !! switchRetryKey from to = Some st -> rs_nextAttemptAt st <> now) ->
  let s' := markPositionSwitchRetryFailure now from to base max s in
  gs_retry s' = <[switchRetryKey from to := mkRetry 1 (now + capped_base base max)]> (gs_retry s) /\
  (forall t, allowPositionSwitchRetry t from to s' = negb (t <? now + capped_base base max)%Z) /\
  (forall t, allowPositionSwitchRetry t from to (clearPositionSwitchRetryState from to s') = true).
Proof.
  intros Hbase Hallow Hne. cbv zeta. unfold markPositionSwitchRetryFailure, allowPositionSwitchRetry in *.
  destruct (Z.leb_spec base 0) as [|_]; [lia|].
  assert ((match gs_retry s !! switchRetryKey from to with
           | Some st => if (rs_nextAttemptAt st <? now)%Z || (rs_attempts st <=? 0)%Z then 1%Z else (rs_attempts st + 1)%Z
           | None => 1%Z end) = 1%Z) as ->.
  { destruct (gs_retry s !! switchRetryKey from to) as [st|]; [|done]. apply negb_true_iff, Z.ltb_ge in Hallow. specialize (Hne st eq_refl).
    by rewrite (proj2 (Z.ltb_lt _ _)) by lia. }
  cbn [Z.sub Z.add Z.opp Z.to_nat Pos.of_succ_nat double_backoff Z.pos_sub]. fold (capped_base base max). cbn [gs_retry set_retry].
  split; [done|]. split; [intros t; by rewrite lookup_insert_eq|]. intros t. unfold clearPositionSwitchRetryState. cbn [gs_retry set_retry].
  by rewrite lookup_delete_eq.
Qed.

Lemma switch_pause_is_constant_witness :
  let s := set_retry {["a->b" := mkRetry 4 1000]} (bob_session at_root) in
  gs_retry (markPositionSwitchRetryFailure 1001 "a" "b" 500 4000 s) !! "a->b" = Some (mkRetry 1 1501).
Proof.
  intros s. destruct (switch_pause_is_constant 1001 "a" "b" 500 4000 s) as (-> & _); [done|done| |apply lookup_insert_eq].
  intros st. change (switchRetryKey "a" "b") with "a->b". 
  intros Hst. change (({["a->b" := mkRetry 4 1000]} : gmap string switchRetryState) !! "a->b" = Some st) in Hst.
  apply lookup_singleton_Some in Hst as [_ <-]. done.
Defined.
