(* ===== verification/Consul.v ===== *)
(** [internal/discovery/consul.go] and [consul_map.go]: the catalog kept in Consul. A cell is a service of
    the Consul agent with its area in the meta data; the id of the service is the id of the cell with the
    host name of the process, so that two processes may serve one cell while it is rolled out. The agent
    is the class [ConsulAgent], what its documentation promises the class [AgentLaws]. *)
From Stdlib Require Import Ascii ZArith Lia.
From Stdlib.Floats Require Import SpecFloat.
From S2P Require Import Prelude Effects GoFloat GoString Partition Registry RegistrySvc HostPort GoNumber GoFormat.
Local Open Scope string_scope.
Local Open Scope list_scope.

Definition ServiceNameMMOCell : string := "mmo-cell".
Definition MetaLevel : string := "level".
Definition MetaXMin : string := "x_min".
Definition MetaXMax : string := "x_max".
Definition MetaZMin : string := "z_min".
Definition MetaZMax : string := "z_max".
Definition MetaStatus : string := "status".
Definition MetaCellLogicalID : string := "mmo_cell_id".

(** * The client library *)

Record AgentServiceRegistration := mkRegistration {
  reg_ID : string; reg_Name : string; reg_Address : string; reg_Port : Z; reg_Meta : gmap string string }.

Record AgentService := mkService {
  svc_ID : string; svc_Service : string; svc_Address : string; svc_Port : Z; svc_Meta : gmap string string }.

(** The calls of the agent; [ServiceEntry.Service] of the rows, both pointers may be nil. *)
Class ConsulAgent (S : Type) := {
  ServiceRegister : AgentServiceRegistration -> St S unit;
  ServiceDeregister : string -> St S unit;
  HealthService : string -> bool -> St S (list (option (option AgentService)))
}.

(** * The map between cells and services *)

Definition formatFloat (f : f64) : string := FormatFloat f.

Definition cellSpecToAgentRegistration (spec : option CellSpec) : result AgentServiceRegistration :=
  match spec with
  | None => Err (errorf "invalid cell spec" [])
  | Some s =>
      match CBounds s with
      | None => Err (errorf "invalid cell spec" [])
      | Some b =>
          if String.eqb (Id s) "" then Err (errorf "invalid cell spec" [])
          else if fle (XMax b) (XMin b) || fle (ZMax b) (ZMin b) then Err (errorf "invalid bounds" [])
          else match SplitHostPort (GrpcEndpoint s) with
          | Err err => Err (errorf "grpc_endpoint host:port: %w" [ATxt (error_string err)])
          | Ok (host, portStr) =>
              match atoi portStr with
              | None => Err (errorf "invalid port in grpc_endpoint" [])
              | Some port =>
                  if (port <? 1)%Z then Err (errorf "invalid port in grpc_endpoint" [])
                  else Ok (mkRegistration (Id s) ServiceNameMMOCell host port
                    (<[MetaCellLogicalID := Id s]> (<[MetaLevel := itoa (Level s)]>
                    (<[MetaXMin := formatFloat (XMin b)]> (<[MetaXMax := formatFloat (XMax b)]>
                    (<[MetaZMin := formatFloat (ZMin b)]> (<[MetaZMax := formatFloat (ZMax b)]>
                    (<[MetaStatus := "active"]> ∅))))))))
              end
          end
      end
  end.

(** A value of the meta data, read by [parse]. *)
Definition meta_value {A} (parse : string -> result A) (meta : gmap string string) (key : string) : result A :=
  match meta !! key with
  | None => Err (errorf "meta %q missing" [AStr key])
  | Some s => match parse s with Ok v => Ok v | Err err => Err (errorf "meta %q: %w" [AStr key; ATxt (error_string err)]) end
  end.

Definition metaFloat64 : gmap string string -> string -> result f64 := meta_value ParseFloat64.
Definition metaInt32 : gmap string string -> string -> result Z := meta_value ParseInt32.

Definition metaToBounds (meta : gmap string string) : result Bounds :=
  xmin ← metaFloat64 meta MetaXMin;
  xmax ← metaFloat64 meta MetaXMax;
  zmin ← metaFloat64 meta MetaZMin;
  zmax ← metaFloat64 meta MetaZMax;
  Ok (mkBounds xmin xmax zmin zmax).

Definition agentServiceToCellSpec (s : option AgentService) : result CellSpec :=
  match s with
  | None => Err (errorf "nil service" [])
  | Some s =>
      let endpoint := JoinHostPort (svc_Address s) (itoa (svc_Port s)) in
      bounds ← metaToBounds (svc_Meta s);
      level ← metaInt32 (svc_Meta s) MetaLevel;
      let logical := trim_space (default "" (svc_Meta s !! MetaCellLogicalID)) in
      let logical := if String.eqb logical "" then svc_ID s else logical in
      Ok (mkCellSpec logical level (Some bounds) endpoint)
  end.

(** * [ConsulCatalog] *)

Definition isConsulUnknownServiceID (err : error) : bool := contains (to_lower (sprint (error_string err))) "unknown service id".

Section Catalog.
Context {S : Type} `{!ConsulAgent S}.
(** The environment variable [HOSTNAME] of the process. *)
Context (HOSTNAME : string).

Definition ConsulServiceInstanceID (logicalCellID : string) : string :=
  if String.eqb logicalCellID "" then ""
  else
    let h := trim_space HOSTNAME in
    if negb (String.eqb h "") then logicalCellID +:+ "-" +:+ h else logicalCellID.

Definition with_ID (id : string) (reg : AgentServiceRegistration) : AgentServiceRegistration :=
  mkRegistration id (reg_Name reg) (reg_Address reg) (reg_Port reg) (reg_Meta reg).

Definition RegisterCell (spec : option CellSpec) : St S unit :=
  reg ← lift (cellSpecToAgentRegistration spec);
  ServiceRegister (with_ID (ConsulServiceInstanceID (from_option Id "" spec)) reg).

Definition Deregister (serviceID : string) : St S unit :=
  if String.eqb serviceID "" then throw (errorf "empty service id" [])
  else on_error (fun err => if isConsulUnknownServiceID err then mret tt else throw err) (ServiceDeregister serviceID).

(** The service is an instance of the cell: by its meta data, or by its own id. *)
Definition is_instance (logicalCellID : string) (svc : AgentService) : bool :=
  let svcID := trim_space (svc_ID svc) in
  let metaID := trim_space (default "" (svc_Meta svc !! MetaCellLogicalID)) in
  let metaID := if String.eqb metaID "" then svcID else metaID in
  String.eqb metaID logicalCellID || String.eqb svcID logicalCellID.

(** The loop of [DeregisterLogicalCell]: how many were removed, and the first error. *)
Fixpoint remove_instances (logicalCellID : string) (rows : list (option (option AgentService))) (removed : nat) (firstErr : option error) :
    St S (nat * option error) :=
  match rows with
  | [] => mret (removed, firstErr)
  | Some (Some svc) :: rows =>
      if negb (is_instance logicalCellID svc) then remove_instances logicalCellID rows removed firstErr
      else
        r ← catch (ServiceDeregister (trim_space (svc_ID svc)));
        match r with
        | Ok _ => remove_instances logicalCellID rows (removed + 1) firstErr
        | Err derr =>
            if isConsulUnknownServiceID derr then remove_instances logicalCellID rows (removed + 1) firstErr
            else remove_instances logicalCellID rows removed (match firstErr with None => Some derr | Some _ => firstErr end)
        end
  | _ :: rows => remove_instances logicalCellID rows removed firstErr
  end.

Definition DeregisterLogicalCell (logicalCellID : string) : St S unit :=
  let logicalCellID := trim_space logicalCellID in
  if String.eqb logicalCellID "" then throw (errorf "empty logical cell id" [])
  else
    rows ← HealthService ServiceNameMMOCell false;
    '(removed, firstErr) ← remove_instances logicalCellID rows 0 None;
    match firstErr with
    | Some err => throw err
    | None =>
        if Nat.eqb removed 0
        then on_error (fun derr => if isConsulUnknownServiceID derr then mret tt else throw derr) (ServiceDeregister logicalCellID)
        else mret tt
    end.

(** The cells of the rows; a service whose meta data is no area is skipped. *)
Fixpoint cells_of (rows : list (option (option AgentService))) : result (list CellSpec) :=
  match rows with
  | [] => Ok []
  | None :: _ => Err nil_dereference
  | Some None :: rows => cells_of rows
  | Some (Some svc) :: rows =>
      match agentServiceToCellSpec (Some svc) with
      | Err _ => cells_of rows
      | Ok spec => out ← cells_of rows; Ok (spec :: out)
      end
  end.

(** When nothing was listed the services in any health are asked for, for a line in the log. *)
Definition List : St S (list (option CellSpec)) :=
  entries ← HealthService ServiceNameMMOCell true;
  out ← lift (cells_of entries);
  _ ← (if Nat.eqb (length out) 0 then ignore (HealthService ServiceNameMMOCell false) else mret tt);
  mret (Some <$> out).

Definition ResolveMostSpecific (x z : f64) : St S (option CellSpec) :=
  cells ← List; mret (PickBestCell cells x z).
End Catalog.

(** * What the agent promises *)

(** The services of the agent by id, and which of them are healthy. A refused change may have been made
    or not; an unknown id is one the agent does not have. *)
Class AgentLaws (S : Type) `{!ConsulAgent S} := {
  services : S -> string -> option AgentService;
  passing : S -> string -> bool;
  services_id s id svc : services s id = Some svc -> svc_ID svc = id;
  register_law reg s :
    let '(r, s') := ServiceRegister reg s in
    (forall id, id <> reg_ID reg -> services s' id = services s id) /\
    (is_ok r = true -> services s' (reg_ID reg) = Some (mkService (reg_ID reg) (reg_Name reg) (reg_Address reg) (reg_Port reg) (reg_Meta reg)));
  deregister_law id s :
    let '(r, s') := ServiceDeregister id s in
    (forall id', id' <> id -> services s' id' = services s id') /\
    match r with
    | Ok _ => services s' id = None
    | Err e => if isConsulUnknownServiceID e then services s' id = None else services s' id = services s id \/ services s' id = None
    end;
  health_law name only_passing s :
    let '(r, s') := HealthService name only_passing s in
    (forall id, services s' id = services s id) /\
    forall rows, r = Ok rows -> None ∉ rows /\ forall svc, Some (Some svc) ∈ rows <->
      services s (svc_ID svc) = Some svc /\ svc_Service svc = name /\ (only_passing = true -> passing s (svc_ID svc) = true)
}.

(** An agent that keeps its services in a map and passes every check. *)
Record Agent := mkAgent { agent_services : gmap string (string * string * Z * gmap string string) }.

Definition agent_lookup (a : Agent) (id : string) : option AgentService :=
  (fun '(name, address, port, meta) => mkService id name address port meta) <$> agent_services a !! id.

Definition agent_rows (name : string) (a : Agent) : list AgentService :=
  base.filter (fun svc => svc_Service svc = name) (omap (agent_lookup a) (map_to_list (agent_services a)).*1).

#[export] Instance Agent_agent : ConsulAgent Agent := {
  ServiceRegister reg a := (Ok tt, mkAgent (<[reg_ID reg := (reg_Name reg, reg_Address reg, reg_Port reg, reg_Meta reg)]> (agent_services a)));
  ServiceDeregister id a :=
    match agent_services a !! id with
    | None => (Err (errorf "Unknown service ID %q. Ensure that the service ID is passed, not the service name." [AStr id]), a)
    | Some _ => (Ok tt, mkAgent (delete id (agent_services a)))
    end;
  HealthService name _ a := (Ok (Some ∘ Some <$> agent_rows name a), a)
}.

(** * Lemmas *)

Lemma elem_of_agent_rows name a svc : svc ∈ agent_rows name a <-> agent_lookup a (svc_ID svc) = Some svc /\ svc_Service svc = name.
Proof.
  unfold agent_rows. rewrite list_elem_of_filter, list_elem_of_omap. split.
  - intros (Hn & id & Hid & Hl). split; [|done]. assert (svc_ID svc = id) as ->; [|done].
    unfold agent_lookup in Hl. destruct (agent_services a !! id) as [[[[? ?] ?] ?]|]; [|done]. by injection Hl as <-.
  - intros (Hl & Hn). split; [done|]. exists (svc_ID svc). split; [|done].
    unfold agent_lookup in Hl. destruct (agent_services a !! svc_ID svc) as [v|] eqn:E; [|done].
    apply list_elem_of_fmap. exists (svc_ID svc, v). split; [done|]. by apply elem_of_map_to_list.
Qed.

Lemma agent_unknown id : isConsulUnknownServiceID (errorf "Unknown service ID %q. Ensure that the service ID is passed, not the service name." [AStr id]) = true.
Proof. done. Qed.

#[export] Instance Agent_laws : AgentLaws Agent.
Proof.
  refine {| services := agent_lookup; passing _ _ := true |}; cbn.
  - intros a id svc. unfold agent_lookup. destruct (agent_services a !! id) as [[[[? ?] ?] ?]|]; [|done]. by intros [= <-].
  - intros reg a. unfold agent_lookup. cbn. split; [|by rewrite lookup_insert_eq]. intros id Hid. by rewrite lookup_insert_ne.
  - intros id a. unfold agent_lookup. destruct (agent_services a !! id) as [v|] eqn:E; cbn; [|by rewrite E].
    split; [|by rewrite lookup_delete_eq]. intros id' Hid. by rewrite lookup_delete_ne.
  - intros name only a. split; [done|]. intros rows [= <-]. split; [by intros (? & ? & _)%list_elem_of_fmap|].
    intros svc. rewrite list_elem_of_fmap. split.
    + intros (svc' & [= <-] & Hs). apply elem_of_agent_rows in Hs as [? ?]. done.
    + intros (Hl & Hn & _). exists svc. split; [done|]. by apply elem_of_agent_rows.
Defined.

(** ** The map *)

(** The services a registration leads to, under any service id. *)
Definition service_of (id : string) (reg : AgentServiceRegistration) : AgentService :=
  mkService id (reg_Name reg) (reg_Address reg) (reg_Port reg) (reg_Meta reg).

Definition bounds_valid (b : Bounds) : Prop :=
  valid_f64 (XMin b) = true /\ valid_f64 (XMax b) = true /\ valid_f64 (ZMin b) = true /\ valid_f64 (ZMax b) = true.

(** The values that the Go types can hold. *)
Definition spec_typed (s : CellSpec) : Prop :=
  (- 2 ^ 31 <= Level s < 2 ^ 31)%Z /\ forall b, CBounds s = Some b -> bounds_valid b.

#[local] Set Default Proof Using "Type*".

(** The conditions of a registration, and what is registered. *)
Lemma registration_Ok spec reg :
  cellSpecToAgentRegistration spec = Ok reg <->
  exists s b host p port, spec = Some s /\ Id s <> "" /\ CBounds s = Some b /\ fle (XMax b) (XMin b) = false /\ fle (ZMax b) (ZMin b) = false /\
    SplitHostPort (GrpcEndpoint s) = Ok (host, p) /\ atoi p = Some port /\ (1 <= port)%Z /\
    reg = mkRegistration (Id s) ServiceNameMMOCell host port
      (<[MetaCellLogicalID := Id s]> (<[MetaLevel := itoa (Level s)]>
      (<[MetaXMin := formatFloat (XMin b)]> (<[MetaXMax := formatFloat (XMax b)]>
      (<[MetaZMin := formatFloat (ZMin b)]> (<[MetaZMax := formatFloat (ZMax b)]>
      (<[MetaStatus := "active"]> ∅))))))).
Proof using Type.
  unfold cellSpecToAgentRegistration. split.
  - destruct spec as [s|]; [|done]. destruct (CBounds s) as [b|] eqn:Eb; [|done].
    destruct (String.eqb_spec (Id s) "") as [|Hid]; [done|]. destruct (_ || _) eqn:E; [done|]. apply orb_false_iff in E as [E1 E2].
    destruct (SplitHostPort _) as [[host p]|] eqn:Ep; [|done]. destruct (atoi p) as [port|] eqn:Ea; [|done].
    destruct (Z.ltb_spec port 1); [done|]. intros [= <-]. by exists s, b, host, p, port.
  - intros (s & b & host & p & port & -> & Hid & -> & -> & -> & -> & -> & Hp & ->). apply String.eqb_neq in Hid. rewrite Hid.
    cbn [orb]. by destruct (Z.ltb_spec port 1); [lia|].
Qed.

(** What is read back: the cell with a trimmed id and its address rewritten. *)
Lemma registration_read s reg id :
  spec_typed s -> trim_space (Id s) <> "" -> cellSpecToAgentRegistration (Some s) = Ok reg ->
  exists host p port, SplitHostPort (GrpcEndpoint s) = Ok (host, p) /\ atoi p = Some port /\
    agentServiceToCellSpec (Some (service_of id reg)) =
    Ok (mkCellSpec (trim_space (Id s)) (Level s) (CBounds s) (JoinHostPort host (itoa port))).
Proof.
  intros [Hl Hb] Hid Hr%registration_Ok. destruct Hr as (s' & b & host & p & port & [= <-] & _ & Eb & _ & _ & Hsp & Ha & _ & ->).
  exists host, p, port. split; [done|]. split; [done|]. destruct (Hb b Eb) as (H1 & H2 & H3 & H4).
  unfold agentServiceToCellSpec. cbn [svc_Address svc_Port svc_Meta service_of reg_Address reg_Port reg_Meta].
  set (meta := <[MetaCellLogicalID := _]> _).
  assert (metaToBounds meta = Ok b) as ->.
  { assert (forall key x, meta !! key = Some (FormatFloat x) -> valid_f64 x = true -> metaFloat64 meta key = Ok x) as Hm.
    { intros key x Hk Hx. unfold metaFloat64, meta_value. by rewrite Hk, FormatFloat_reads. }
    unfold metaToBounds. rewrite (Hm MetaXMin (XMin b)), (Hm MetaXMax (XMax b)), (Hm MetaZMin (ZMin b)), (Hm MetaZMax (ZMax b)) by (exact eq_refl || assumption). by destruct b. }
  cbn [mbind result_bind]. assert (metaInt32 meta MetaLevel = Ok (Level s)) as ->.
  { unfold metaInt32, meta_value. change (meta !! MetaLevel) with (Some (itoa (Level s))). cbv beta iota. by rewrite ParseInt32_itoa. } cbn [mbind result_bind]. change (default "" (meta !! MetaCellLogicalID)) with (Id s).
  apply String.eqb_neq in Hid. by rewrite Hid, Eb.
Qed.

(** A cell as the program makes them: a trimmed id, an area, and the address that [JoinHostPort] gives. *)
Record canonical (s : CellSpec) : Prop := mkCanonical {
  can_typed : spec_typed s;
  can_id : trim_space (Id s) = Id s /\ Id s <> "";
  can_bounds : exists b, CBounds s = Some b /\ fle (XMax b) (XMin b) = false /\ fle (ZMax b) (ZMin b) = false;
  can_endpoint : exists host port, GrpcEndpoint s = JoinHostPort host (itoa port) /\ no_brackets host /\ (1 <= port < 2 ^ 63)%Z }.

Lemma canonical_registration s :
  canonical s -> exists reg, cellSpecToAgentRegistration (Some s) = Ok reg /\ reg_ID reg = Id s /\
    reg_Name reg = ServiceNameMMOCell /\ forall id, agentServiceToCellSpec (Some (service_of id reg)) = Ok s.
Proof.
  intros [Ht [Hid Hne] (b & Eb & H1 & H2) (host & port & Ee & Hh & Hp)].
  assert (SplitHostPort (GrpcEndpoint s) = Ok (host, itoa port)) as Hs.
  { rewrite Ee. apply SplitHostPort_Ok, JoinHostPort_address; [done|apply itoa_port..]. }
  assert (atoi (itoa port) = Some port) as Ha by (apply atoi_itoa; lia).
  assert (exists reg, cellSpecToAgentRegistration (Some s) = Ok reg) as [reg Hr].
  { eexists. apply registration_Ok. exists s, b, host, (itoa port), port. split_and!; [done..|lia|done]. }
  exists reg. split; [done|]. pose proof Hr as Hr'. apply registration_Ok in Hr' as (s' & ? & ? & ? & ? & [= <-] & _ & _ & _ & _ & _ & _ & _ & Er).
  split; [by rewrite Er|]. split; [by rewrite Er|]. intros id. clear Er.
  destruct (registration_read s reg id Ht ltac:(by rewrite Hid) Hr) as (h & p & q & Hs' & Ha' & ->).
  rewrite Hs in Hs'. injection Hs' as <- <-. rewrite Ha in Ha'. injection Ha' as <-. rewrite Hid, <- Ee. by destruct s.
Qed.

(** ** The operations *)

Section Operations.
Context {S : Type} `{AgentLaws S}.
#[local] Set Default Proof Using "Type*".

(** The service lists the cell. *)
Definition lists (s : S) (svc : AgentService) (c : CellSpec) : Prop :=
  services s (svc_ID svc) = Some svc /\ svc_Service svc = ServiceNameMMOCell /\ agentServiceToCellSpec (Some svc) = Ok c.

Lemma cells_of_spec rows :
  None ∉ rows -> exists out, cells_of rows = Ok out /\
    forall c, c ∈ out <-> exists svc, Some (Some svc) ∈ rows /\ agentServiceToCellSpec (Some svc) = Ok c.
Proof using Type.
  induction rows as [|row rows IH]; intros Hn.
  { exists []. split; [done|]. intros c. split; [by intros ?%not_elem_of_nil|by intros (? & ?%not_elem_of_nil & _)]. }
  apply not_elem_of_cons in Hn as [Hrow Hn]. destruct (IH Hn) as (out & Eo & Hc). destruct row as [[svc|]|]; [| |done].
  - cbn [cells_of]. destruct (agentServiceToCellSpec (Some svc)) as [c0|e] eqn:Es.
    + rewrite Eo. exists (c0 :: out). split; [done|]. intros c. rewrite elem_of_cons, Hc. split.
      * intros [->|(svc' & ? & ?)]; [exists svc; split; [left|done]|exists svc'; split; [by right|done]].
      * intros (svc' & [[= ->]|?]%elem_of_cons & He); [left; congruence|right; by exists svc'].
    + exists out. split; [done|]. intros c. rewrite Hc. split; intros (svc' & Hin & He); exists svc'; (split; [|done]); [by right|].
      apply elem_of_cons in Hin as [[= ->]|?]; [congruence|done].
  - exists out. split; [done|]. intros c. rewrite Hc. split; intros (svc' & Hin & He); exists svc'; (split; [|done]); [by right|].
    by apply elem_of_cons in Hin as [?|?].
Qed.

(** A listing changes no service and has the cells of the healthy services that can be read. *)
Lemma List_spec s l s' :
  List s = (Ok l, s') -> (forall id, services s' id = services s id) /\
  forall c, Some c ∈ l <-> exists svc, lists s svc c /\ passing s (svc_ID svc) = true.
Proof.
  unfold List. intros (rows & s1 & Hh & Hr)%bind_inv. pose proof (health_law ServiceNameMMOCell true s) as HL. rewrite Hh in HL.
  destruct HL as [Hs1 Hrows]. destruct (Hrows rows eq_refl) as [Hn Hin]. destruct (cells_of_spec rows Hn) as (out & Eo & Hc).
  rewrite Eo in Hr. unfold mbind, St_bind, lift in Hr. cbv beta iota in Hr.
  assert (l = Some <$> out /\ forall id, services s' id = services s1 id) as [-> Hs'].
  { destruct (Nat.eqb (length out) 0); [|by injection Hr as <- <-]. unfold ignore in Hr.
    pose proof (health_law ServiceNameMMOCell false s1) as HL. destruct (HealthService ServiceNameMMOCell false s1) as [r2 s2].
    injection Hr as <- <-. split; [done|apply HL]. }
  split; [intros id; congruence|]. intros c. rewrite elem_of_Some_fmap, Hc. unfold lists. split.
  - intros (svc & (? & ? & Hp)%Hin & ?). exists svc. by split_and!; [..|apply Hp].
  - intros (svc & (? & ? & ?) & Hp). exists svc. split; [|done]. by apply Hin.
Qed.

(** What removing services may do: the services are removed or as they were. *)
Definition shrinks (s s' : S) : Prop := forall id, services s' id = services s id \/ services s' id = None.

Lemma shrinks_gone s s' id : shrinks s s' -> services s id = None -> services s' id = None.
Proof. intros Hs Hn. destruct (Hs id); congruence. Qed.

Lemma shrinks_trans s s1 s2 : shrinks s s1 -> shrinks s1 s2 -> shrinks s s2.
Proof. intros H1 H2 id. destruct (H1 id), (H2 id); [left|right..]; congruence. Qed.

(** One removal: done when it was answered well or the id was not known. *)
Lemma deregister_run id s r s' :
  ServiceDeregister id s = (r, s') -> shrinks s s' /\ (forall id', id' <> id -> services s' id' = services s id') /\
  ((match r with Ok _ => true | Err e => isConsulUnknownServiceID e end) = true -> services s' id = None).
Proof.
  intros Hr. pose proof (deregister_law id s) as HL. rewrite Hr in HL. destruct HL as [Ho Hid]. split; [|split; [done|]].
  - intros id'. destruct (decide (id' = id)) as [->|]; [|left; by apply Ho]. destruct r as [u|e]; [by right|].
    destruct (isConsulUnknownServiceID e); [by right|done].
  - destruct r as [u|e]; [done|]. destruct (isConsulUnknownServiceID e); [done|done].
Qed.

(** A removal whose unknown id is no error. *)
Lemma deregister_known_run id s r s' :
  on_error (fun e => if isConsulUnknownServiceID e then mret tt else throw e) (ServiceDeregister id) s = (r, s') ->
  shrinks s s' /\ forall id', id' <> id -> services s' id' = services s id'.
Proof.
  unfold on_error. destruct (ServiceDeregister id s) as [r1 s1] eqn:Ed. destruct (deregister_run _ _ _ _ Ed) as (Hsh & Hoth & _).
  intros Hr. assert (s' = s1) as ->; [|done]. unfold mret, St_ret, throw in Hr. destruct r1 as [u|e]; [congruence|].
  destruct (isConsulUnknownServiceID e); congruence.
Qed.

(** The loop removes only instances, and all of them unless it has an error to report. *)
Lemma remove_instances_run id rows : forall n err s, exists n' err' s',
  remove_instances id rows n err s = (Ok (n', err'), s') /\ shrinks s s' /\
  (forall k, (forall svc, Some (Some svc) ∈ rows -> is_instance id svc = true -> k <> trim_space (svc_ID svc)) -> services s' k = services s k) /\
  (err' = None -> err = None /\ (forall svc, Some (Some svc) ∈ rows -> is_instance id svc = true -> services s' (trim_space (svc_ID svc)) = None)) /\
  (err' = None -> n' = 0 -> n = 0 /\ forall svc, Some (Some svc) ∈ rows -> is_instance id svc = false).
Proof.
  assert (forall s, shrinks s s) as Hrefl by (intros s k; by left).
  induction rows as [|row rows IH]; intros n err s; cbn [remove_instances].
  { exists n, err, s. split; [done|]. split; [done|]. split; [done|]. split; intros; (split; [done|]); intros ? ?%not_elem_of_nil; done. }
  assert (Hskip : (forall svc, row = Some (Some svc) -> is_instance id svc = false) -> exists n' err' s',
    remove_instances id rows n err s = (Ok (n', err'), s') /\ shrinks s s' /\
    (forall k, (forall svc, Some (Some svc) ∈ row :: rows -> is_instance id svc = true -> k <> trim_space (svc_ID svc)) -> services s' k = services s k) /\
    (err' = None -> err = None /\ (forall svc, Some (Some svc) ∈ row :: rows -> is_instance id svc = true -> services s' (trim_space (svc_ID svc)) = None)) /\
    (err' = None -> n' = 0 -> n = 0 /\ forall svc, Some (Some svc) ∈ row :: rows -> is_instance id svc = false)).
  { intros Hrow. destruct (IH n err s) as (n' & err' & s' & E & H1 & H2 & H3 & H4). exists n', err', s'. split; [done|]. split; [done|]. split.
    - intros k Hk. apply H2. intros svc Hin. apply Hk. by right.
    - split.
      + intros He. destruct (H3 He) as [? H5]. split; [done|]. intros svc [Hr|Hin]%elem_of_cons Hi; [|by apply H5].
        by rewrite (Hrow svc) in Hi.
      + intros He Hn. destruct (H4 He Hn) as [? H5]. split; [done|]. intros svc [Hr|Hin]%elem_of_cons; [by apply Hrow|by apply H5]. }
  destruct row as [[svc|]|]; [|by apply Hskip..]. destruct (is_instance id svc) eqn:Ei; cbn [negb]; [|apply Hskip; by intros ? [= <-]].
  clear Hskip. unfold mbind, St_bind, catch. destruct (ServiceDeregister (trim_space (svc_ID svc)) s) as [r s1] eqn:Er.
  destruct (deregister_run _ _ _ _ Er) as (Hsh & Hoth & Hgone). cbv beta iota.
  set (ok := match r with Ok _ => true | Err e => isConsulUnknownServiceID e end) in *.
  assert (exists n1 err1, (match r with
    | Ok _ => remove_instances id rows (n + 1) err
    | Err derr => if isConsulUnknownServiceID derr then remove_instances id rows (n + 1) err
                  else remove_instances id rows n (match err with None => Some derr | Some _ => err end)
    end) s1 = remove_instances id rows n1 err1 s1 /\ (if ok then n1 = n + 1 /\ err1 = err else err1 <> None)) as (n1 & err1 & -> & Hn1).
  { subst ok. destruct r as [u|e]; [by eexists _, _|]. destruct (isConsulUnknownServiceID e); eexists _, _; (split; [reflexivity|]); [done|]. by destruct err. }
  destruct (IH n1 err1 s1) as (n' & err' & s' & -> & H1 & H2 & H3 & H4). exists n', err', s'. split; [done|].
  split; [by eapply shrinks_trans|]. split.
  { intros k Hk. rewrite H2; [apply Hoth; apply Hk; [left|done]|]. intros svc' Hin. apply Hk. by right. }
  assert (err' = None -> ok = true) as Hok. { intros He. destruct (H3 He) as [-> _]. by destruct ok. }
  split.
  - intros He. specialize (Hok He). rewrite Hok in *. destruct (H3 He) as [? H5]. destruct Hn1 as [_ <-]. split; [done|].
    intros svc' [[= ->]|Hin]%elem_of_cons Hi; [by eapply shrinks_gone, Hgone|by apply H5].
  - intros He Hz. rewrite (Hok He) in Hn1. destruct (H4 He Hz) as [? _]. lia.
Qed.

(** A service with a trimmed id that lists a cell is an instance of that cell, and of the one its own id
    names. *)
Lemma lists_instance s svc c id : trim_space (svc_ID svc) = svc_ID svc -> lists s svc c -> is_instance id svc = false <-> Id c <> id /\ svc_ID svc <> id.
Proof.
  intros Ht (_ & _ & Hc). unfold agentServiceToCellSpec in Hc. apply bind_Ok in Hc as (b & _ & Hc). apply bind_Ok in Hc as (lv & _ & Hc).
  injection Hc as <-. unfold is_instance. rewrite Ht, orb_false_iff, !String.eqb_neq. done.
Qed.

(** What [DeregisterLogicalCell] does to the services of cells, when their ids are trimmed. *)
Lemma deregister_logical_run s id r s' :
  (forall k svc, services s k = Some svc -> svc_Service svc = ServiceNameMMOCell -> trim_space k = k) ->
  DeregisterLogicalCell id s = (r, s') ->
  shrinks s s' /\
  (forall k svc, services s k = Some svc -> svc_Service svc = ServiceNameMMOCell -> is_instance (trim_space id) svc = false -> services s' k = Some svc) /\
  (is_ok r = true -> forall k svc, services s k = Some svc -> svc_Service svc = ServiceNameMMOCell -> is_instance (trim_space id) svc = true -> services s' k = None).
Proof.
  intros Ht. unfold DeregisterLogicalCell. set (lid := trim_space id).
  destruct (String.eqb_spec lid "") as [_|_]; [by intros [= <- <-]; split; [intros k; by left|]|].
  unfold mbind, St_bind. pose proof (health_law ServiceNameMMOCell false s) as HL.
  destruct (HealthService ServiceNameMMOCell false s) as [[rows|e] s1] eqn:Eh; destruct HL as [Hs1 HL].
  2: { intros [= <- <-]. split; [intros k; by left|]. split; [|done]. intros k svc Hk _ _. by rewrite Hs1. }
  destruct (HL rows eq_refl) as [_ Hin]. clear HL.
  destruct (remove_instances_run lid rows 0 None s1) as (n & err & s2 & -> & Hsh & Hkeep & Hgone & Hnone).
  assert (shrinks s s2) as Hsh2 by (intros k; rewrite <- Hs1; apply Hsh).
  assert (forall k svc, services s k = Some svc -> svc_Service svc = ServiceNameMMOCell -> Some (Some svc) ∈ rows /\ svc_ID svc = k) as Hrow.
  { intros k svc Hk Hn. pose proof (services_id _ _ _ Hk) as Hid. split; [|done]. apply Hin. by rewrite Hid. }
  assert (forall k svc, services s k = Some svc -> svc_Service svc = ServiceNameMMOCell -> is_instance lid svc = false -> services s2 k = Some svc) as Hother.
  { intros k svc Hk Hn Hi. rewrite Hkeep, Hs1; [done|]. intros svc' Hsvc' Hi'. apply Hin in Hsvc' as (Hs' & Hn' & _).
    rewrite (Ht _ _ Hs' Hn'). intros ->. congruence. }
  assert (err = None -> forall k svc, services s k = Some svc -> svc_Service svc = ServiceNameMMOCell -> is_instance lid svc = true -> services s2 k = None) as Hall.
  { intros He k svc Hk Hn Hi. destruct (Hrow k svc Hk Hn) as [Hr Hid]. destruct (Hgone He) as [_ H2]. specialize (H2 svc Hr Hi).
    by rewrite Hid, (Ht k svc Hk Hn) in H2. }
  destruct err as [e|]; [by intros [= <- <-]; split_and!|]. destruct (Nat.eqb n 0).
  2: { intros Hr. injection Hr as <- <-. split; [done|]. split; [done|]. intros _. by apply Hall. }
  intros [Hsh3 Hoth]%deregister_known_run.
  split; [by eapply shrinks_trans|]. split.
  - intros k svc Hk Hn Hi. rewrite Hoth; [by apply Hother|]. intros ->. destruct (Hrow _ _ Hk Hn) as [_ Hid].
    unfold is_instance in Hi. rewrite Hid, (Ht _ _ Hk Hn), String.eqb_refl, orb_true_r in Hi. done.
  - intros _ k svc Hk Hn Hi. eapply shrinks_gone; [exact Hsh3|]. by eapply Hall.
Qed.
End Operations.

(** * Properties *)

(** C33: a cell as the program makes them is listed by Consul as it was registered: the entry of the
    service, under whatever service id, is read back as the same cell - its id, its level, every bound and
    its address. *)
Theorem consul_entry_roundtrip (s : CellSpec) (Hs : canonical s) :
  exists reg, cellSpecToAgentRegistration (Some s) = Ok reg /\ reg_ID reg = Id s /\
    forall id, agentServiceToCellSpec (Some (service_of id reg)) = Ok s.
Proof. destruct (canonical_registration s Hs) as (reg & H1 & H2 & _ & H3). by exists reg. Qed.

(** C11: taking a cell out of Consul, when the ids of the services of cells carry no blanks around them.
    Whatever the outcome, every service that lists another cell stays, unless its own id is the id of the cell
    taken out, and no service is added or changed. After a success no service is left that lists the
    cell, healthy or not, and none with its id that lists another; so no listing has the cell. *)
Theorem deregister_logical_spec {S} `{AgentLaws S} (s s' : S) (id : string) (r : result unit)
    (Ht : forall k svc, services s k = Some svc -> svc_Service svc = ServiceNameMMOCell -> trim_space k = k)
    (Hr : DeregisterLogicalCell id s = (r, s')) :
  (forall c svc, lists s svc c -> Id c <> trim_space id -> svc_ID svc <> trim_space id -> lists s' svc c) /\
  (forall k svc, services s' k = Some svc -> services s k = Some svc) /\
  (is_ok r = true ->
     (forall c svc, lists s' svc c -> Id c <> trim_space id /\ svc_ID svc <> trim_space id) /\
     (forall l s'', List s' = (Ok l, s'') -> forall c, Some c ∈ l -> Id c <> trim_space id)).
Proof.
  destruct (deregister_logical_run s id r s' Ht Hr) as (Hsh & Hother & Hgone).
  assert (forall k svc, services s' k = Some svc -> services s k = Some svc) as Hsub.
  { intros k svc Hk. destruct (Hsh k); congruence. }
  assert (forall s1 c svc, (forall k svc, services s1 k = Some svc -> services s k = Some svc) -> lists s1 svc c ->
    is_instance (trim_space id) svc = false <-> Id c <> trim_space id /\ svc_ID svc <> trim_space id) as Hinst.
  { intros s1 c svc Hs1 Hl. apply (lists_instance s1); [|done]. destruct Hl as (Hk & Hn & _). by apply (Ht _ svc); [apply Hs1|]. }
  split; [|split; [done|]].
  - intros c svc Hl Hi1 Hi2. pose proof (proj2 (Hinst s c svc (fun _ _ H => H) Hl) (conj Hi1 Hi2)) as Hi. destruct Hl as (Hk & Hn & Hc). split_and!; [by apply Hother|done..].
  - intros Hok. assert (forall c svc, lists s' svc c -> Id c <> trim_space id /\ svc_ID svc <> trim_space id) as Hleft.
    { intros c svc Hl. apply (Hinst s' c svc Hsub Hl). destruct Hl as (Hk & Hn & _). destruct (is_instance (trim_space id) svc) eqn:Ei; [|done].
      rewrite (Hgone Hok _ _ (Hsub _ _ Hk) Hn Ei) in Hk. done. }
    split; [done|]. intros l s'' Hl c Hc. apply (proj2 (List_spec s' l s'' Hl)) in Hc as (svc & Hlist & _). by apply (Hleft c svc).
Qed.

(** C13: while a cell is rolled out its new process registers and its old one deregisters; they have
    different host names, and the cell stays registered throughout, under the address of the new one. *)
Theorem rollout_keeps_cell {S} `{AgentLaws S} (old_host new_host : string)
    (c : CellSpec) (Hc : canonical c) (Hh : trim_space old_host <> trim_space new_host)
    (s0 s1 s2 : S) (r : result unit)
    (H1 : RegisterCell new_host (Some c) s0 = (Ok tt, s1))
    (H2 : Deregister (ConsulServiceInstanceID old_host (Id c)) s1 = (r, s2)) :
  exists svc, svc_ID svc = ConsulServiceInstanceID new_host (Id c) /\ lists s1 svc c /\ lists s2 svc c.
Proof.
  destruct (canonical_registration c Hc) as (reg & Er & _ & En & Hread). destruct Hc as [_ [_ Hne] _ _].
  unfold RegisterCell in H1. rewrite Er in H1. unfold mbind, St_bind, lift in H1. cbv beta iota in H1. cbn [from_option] in H1.
  pose proof (register_law (with_ID (ConsulServiceInstanceID new_host (Id c)) reg) s0) as HL. rewrite H1 in HL. destruct HL as [_ HL].
  set (svc := service_of (ConsulServiceInstanceID new_host (Id c)) reg).
  assert (services s1 (svc_ID svc) = Some svc) as Hs1 by (by apply HL).
  assert (forall s, services s (svc_ID svc) = Some svc -> lists s svc c) as Hlists by (intros s Hs; split; [done|split; [done|apply Hread]]).
  exists svc. split; [done|]. split; [by apply Hlists|]. apply Hlists. rewrite <- Hs1.
  unfold Deregister in H2. destruct (String.eqb _ ""); [by injection H2 as _ <-|]. apply deregister_known_run in H2 as [_ Hoth].
  apply Hoth. cbn.
  unfold ConsulServiceInstanceID. apply String.eqb_neq in Hne. rewrite Hne. clear -Hh.
  assert (forall h, Id c +:+ "-" +:+ h <> Id c) as Hlen.
  { intros h E. apply (f_equal String.length) in E. rewrite !string_length_app in E. cbn in E. lia. }
  destruct (String.eqb_spec (trim_space new_host) ""), (String.eqb_spec (trim_space old_host) ""); cbn [negb].
  - congruence.
  - by apply not_eq_sym, Hlen.
  - apply Hlen.
  - intros E. apply string_app_inj in E as [_ [= E]]; [by apply Hh|done].
Qed.

(** * Witnesses *)

Definition square (n : Z) : Bounds := mkBounds (f64_of_Z (- n)) (f64_of_Z n) (f64_of_Z (- n)) (f64_of_Z n).
Definition cell_a : CellSpec := mkCellSpec "cell_a" 1 (Some (square 100)) "[fd00::1]:50051".
Definition cell_b : CellSpec := mkCellSpec "cell_b" 1 (Some (square 50)) "cell-b.mmo.svc:50051".

Lemma cell_a_canonical : canonical cell_a.
Proof.
  split.
  - split; [by vm_compute|]. intros b [= <-]. by vm_compute.
  - split; [by vm_compute|done].
  - by eexists.
  - exists "fd00::1", 50051%Z. split; [by vm_compute|]. split; [|done]. by split.
Qed.

(** Two processes of one cell and one of another. *)
Definition pods : Agent := snd (
  (_ ← RegisterCell "pod-1" (Some cell_a); _ ← RegisterCell "pod-2" (Some cell_a); RegisterCell "pod-3" (Some cell_b))
  (mkAgent ∅)).

Example pods_listed : fst (List pods) = (Ok [Some cell_a; Some cell_a; Some cell_b]).
Proof. by vm_compute. Qed.

Lemma pods_trimmed k svc : services pods k = Some svc -> svc_Service svc = ServiceNameMMOCell -> trim_space k = k.
Proof.
  intros Hk _. assert (Forall (fun kv => trim_space kv.1 = kv.1) (map_to_list (agent_services pods))) as HF by (by vm_compute; repeat constructor).
  rewrite Forall_forall in HF. cbn in Hk. unfold agent_lookup in Hk. destruct (agent_services pods !! k) as [v|] eqn:E; [|done].
  apply (HF (k, v)), elem_of_map_to_list, E.
Qed.

Lemma consul_entry_roundtrip_witness :
  exists reg, cellSpecToAgentRegistration (Some cell_a) = Ok reg /\ reg_ID reg = "cell_a" /\
    forall id, agentServiceToCellSpec (Some (service_of id reg)) = Ok cell_a.
Proof. exact (consul_entry_roundtrip cell_a cell_a_canonical). Defined.

Lemma deregister_logical_spec_witness :
  let '(r, a) := DeregisterLogicalCell " cell_a " pods in
  r = Ok tt /\ fst (List a) = Ok [Some cell_b] /\
  forall l a', List a = (Ok l, a') -> forall c, Some c ∈ l -> Id c <> "cell_a".
Proof.
  destruct (DeregisterLogicalCell " cell_a " pods) as [r a] eqn:E.
  assert (r = Ok tt /\ fst (List a) = Ok [Some cell_b]) as [Hr Hl].
  { pose proof (f_equal fst E) as E1. pose proof (f_equal snd E) as E2. cbn [fst snd] in E1, E2. rewrite <- E1, <- E2. split; by vm_compute. }
  split; [exact Hr|split; [exact Hl|]].
  exact (proj2 (proj2 (proj2 (deregister_logical_spec pods a " cell_a " r pods_trimmed E)) (f_equal is_ok Hr))).
Defined.

Lemma rollout_keeps_cell_witness :
  exists svc, svc_ID svc = "cell_a-pod-2" /\ exists s1 s2,
    lists (S:=Agent) s1 svc cell_a /\ lists s2 svc cell_a /\ fst (List s2) = Ok [Some cell_a].
Proof.
  destruct (RegisterCell "pod-1" (Some cell_a) (mkAgent ∅)) as [r0 s0] eqn:E0.
  destruct (RegisterCell "pod-2" (Some cell_a) s0) as [r1 s1] eqn:E1.
  destruct (Deregister (ConsulServiceInstanceID "pod-1" "cell_a") s1) as [r2 s2] eqn:E2.
  assert (s0 = snd (RegisterCell "pod-1" (Some cell_a) (mkAgent ∅))) as Hs0 by exact (eq_sym (f_equal snd E0)).
  assert (r1 = Ok tt) as -> by (pose proof (f_equal fst E1) as H; cbn [fst] in H; rewrite <- H, Hs0; by vm_compute).
  assert (s1 = snd (RegisterCell "pod-2" (Some cell_a) s0)) as Hs1 by exact (eq_sym (f_equal snd E1)).
  assert (s2 = snd (Deregister (ConsulServiceInstanceID "pod-1" "cell_a") s1)) as Hs2 by exact (eq_sym (f_equal snd E2)).
  assert (trim_space "pod-1" <> trim_space "pod-2") as Hh by (by vm_compute).
  destruct (rollout_keeps_cell "pod-1" "pod-2" cell_a cell_a_canonical Hh s0 s1 s2 r2 E1 E2) as (svc & Hid & H1 & H2).
  exists svc. split; [exact Hid|]. exists s1, s2. split; [exact H1|split; [exact H2|]]. rewrite Hs2, Hs1, Hs0. by vm_compute.
Defined.

(** A space around the id of a cell is lost on the way: it is listed under another id. *)
Example untrimmed_id_renamed :
  fst ((_ ← RegisterCell "pod" (Some (mkCellSpec "cell_a " 1 (Some (square 100)) "h:1")); List) (mkAgent ∅)) =
  Ok [Some (mkCellSpec "cell_a" 1 (Some (square 100)) "h:1")].
Proof. by vm_compute. Qed.

(** The last resort of a removal takes any service of that name out, a cell or not. *)
Example removal_takes_other_service :
  let a := mkAgent {[ "mmo-gateway" := ("mmo-gateway", "10.0.0.1", 8080%Z, ∅) ]} in
  agent_services (snd (DeregisterLogicalCell "mmo-gateway" a)) = ∅.
Proof. by vm_compute. Qed.
