(* ===== verification/CatalogRefine.v ===== *)
(** The two catalogs of [internal/discovery] as one: a Consul agent that a process talks to under its host
    name and the in-memory catalog answer a sequence of calls alike. *)
From Stdlib Require Import Ascii ZArith Lia.
From S2P Require Import Prelude Effects GoFloat GoString HostPort Partition Registry Ecs Consul.
Local Open Scope string_scope.
Local Open Scope list_scope.

(** * Calls and answers *)

Inductive CatCall :=
  | CRegister (spec : CellSpec)
  | CDeregister (logicalCellID : string)
  | CList
  | CResolve (x z : f64).
Inductive CatAnswer := ADone | ACells (cells : list (option CellSpec)) | ACell (cell : option CellSpec).

Section Consul.
Context {S : Type} `{!ConsulAgent S} (HOSTNAME : string).

Definition consul_call (c : CatCall) : St S CatAnswer :=
  match c with
  | CRegister spec => _ ← Consul.RegisterCell HOSTNAME (Some spec); mret ADone
  | CDeregister id => _ ← Consul.DeregisterLogicalCell id; mret ADone
  | CList => l ← Consul.List; mret (ACells l)
  | CResolve x z => r ← Consul.ResolveMostSpecific x z; mret (ACell r)
  end.

Fixpoint consul_calls (cs : list CatCall) : St S (list CatAnswer) :=
  match cs with [] => mret [] | c :: cs => a ← consul_call c; l ← consul_calls cs; mret (a :: l) end.
End Consul.

(** Any catalog, in the orders [o] of its maps. *)
Definition catalog_call {C} `{!Catalog C} (o : iter_order) (c : CatCall) (m : C) : result (CatAnswer * C) :=
  match c with
  | CRegister spec => m ← Registry.RegisterCell m (Some spec); Ok (ADone, m)
  | CDeregister id =>
      m' ← Registry.DeregisterLogicalCell (Some m) id; Ok (ADone, default m m')
  | CList => l ← ListCells o m; Ok (ACells l, m)
  | CResolve x z => r ← Resolve o m x z; Ok (ACell r, m)
  end.

Fixpoint catalog_calls {C} `{!Catalog C} (os : nat -> iter_order) (cs : list CatCall) (m : C) : result (list CatAnswer * C) :=
  match cs with
  | [] => Ok ([], m)
  | c :: cs => '(a, m) ← catalog_call (os (length cs)) c m; '(l, m) ← catalog_calls os cs m; Ok (a :: l, m)
  end.

(** The same cells in any order and number; a cell of the same level that contains the position too. *)
Definition same_answer (c : CatCall) (a b : CatAnswer) : Prop :=
  match c, a, b with
  | CList, ACells l, ACells l' => forall t, Some t ∈ l <-> Some t ∈ l'
  | CResolve x z, ACell r, ACell r' =>
      match r, r' with
      | Some t, Some t' => Contains (CBounds t) x z = true /\ Contains (CBounds t') x z = true /\ Level t = Level t'
      | None, None => True
      | _, _ => False
      end
  | CRegister _, ADone, ADone | CDeregister _, ADone, ADone => True
  | _, _, _ => False
  end.

(** * Names *)

Lemma app_cancel_r (a b s : string) : a +:+ s = b +:+ s -> a = b.
Proof.
  revert b. induction a as [|x a IH]; intros [|y b] E; cbn in E; [done| | |].
  - apply (f_equal String.length) in E. cbn in E. rewrite string_length_app in E. lia.
  - apply (f_equal String.length) in E. cbn in E. rewrite string_length_app in E. lia.
  - injection E as -> E. f_equal. by apply IH.
Qed.

Lemma instance_id_inj host a b : a <> "" -> b <> "" -> ConsulServiceInstanceID host a = ConsulServiceInstanceID host b -> a = b.
Proof.
  intros Ha Hb. unfold ConsulServiceInstanceID. rewrite (proj2 (String.eqb_neq _ _) Ha), (proj2 (String.eqb_neq _ _) Hb).
  destruct (negb _); [apply app_cancel_r|done].
Qed.

(** The ids in use: visible characters, and none is the service id of another. *)
Record names (host : string) (U : string -> Prop) : Prop := mkNames {
  nm_host : string_forall graphic (trim_space host) = true;
  nm_graphic : forall a, U a -> a <> "" /\ string_forall graphic a = true;
  nm_apart : forall a b, U a -> U b -> ConsulServiceInstanceID host a = b -> a = b }.

Lemma instance_id_trimmed host U a : names host U -> U a -> trim_space (ConsulServiceInstanceID host a) = ConsulServiceInstanceID host a.
Proof.
  intros [Hh Hg _] [Hne Ha]%Hg. apply trim_space_graphic. unfold ConsulServiceInstanceID. rewrite (proj2 (String.eqb_neq _ _) Hne).
  destruct (negb _); [|done]. by rewrite !string_forall_app, Ha, Hh.
Qed.

(** * Picking from a list *)

Lemma pick_best_spec l x z : most_specific x z (Some <$> l) (PickBestCell (Some <$> l) x z).
Proof.
  unfold PickBestCell.
  assert (forall best, fold_left (fun best c => match c with None => best | Some c =>
    if bool_decide (CBounds c = None) then best else better x z best c end) (Some <$> l) best = fold_left (better x z) l best) as ->.
  { induction l as [|c l' IH]; intros best; [done|]. cbn [fold_left fmap list_fmap]. rewrite IH.
    destruct (bool_decide_reflect (CBounds c = None)) as [Hb|Hb]; [|done]. unfold better. by rewrite Hb. }
  pose proof (fold_better x z l None ltac:(done)) as H. destruct (fold_left _ _ _) as [c|]; [rewrite cloneSpec_id|]; unfold most_specific.
  - destruct H as ([?|Hin] & Hc & Hmax); [done|]. split; [by apply elem_of_Some_fmap|]. split; [done|].
    intros c' Hin'%elem_of_Some_fmap_1. apply Hmax. by right.
  - destruct H as [_ H]. intros c' Hin'%elem_of_Some_fmap_1. by apply H.
Qed.

(** Two best cells of the same cells are on one level. *)
Lemma most_specific_agree x z l l' r r' :
  (forall t, Some t ∈ l <-> Some t ∈ l') -> most_specific x z l r -> most_specific x z l' r' -> same_answer (CResolve x z) (ACell r) (ACell r').
Proof.
  intros Hl Hr Hr'. destruct r as [t|], r' as [t'|]; cbn in *.
  - destruct Hr as (H1 & H2 & H3), Hr' as (H4 & H5 & H6). split; [done|]. split; [done|].
    assert (Level t' <= Level t)%Z by (apply H3; [by apply Hl|done]). assert (Level t <= Level t')%Z by (apply H6; [by apply Hl|done]). lia.
  - destruct Hr as (H1 & H2 & _). apply Hl, Hr' in H1. congruence.
  - destruct Hr' as (H1 & H2 & _). apply Hl, Hr in H1. congruence.
  - done.
Qed.

(** * The simulation *)

Section Simulation.
Context {S : Type} `{AgentLaws S} (host : string) (U : string -> Prop).
#[local] Set Default Proof Using "Type*".
Context (Hnames : names host U) (Hpassing : forall s k, passing s k = true).

(** The services of cells at the agent are those of the registered cells, each under its service id. *)
Record mirrors (s : S) (m : Memory) : Prop := mkMirrors {
  mi_wf : registry_wf m;
  mi_names : forall id t, cells m !! id = Some t -> U id;
  mi_services : forall k svc, services s k = Some svc -> svc_Service svc = ServiceNameMMOCell ->
    exists t, cells m !! Id t = Some t /\ k = ConsulServiceInstanceID host (Id t) /\ agentServiceToCellSpec (Some svc) = Ok t /\
      svc_Meta svc !! MetaCellLogicalID = Some (Id t);
  mi_cells : forall t, cells m !! Id t = Some t -> exists svc, services s (ConsulServiceInstanceID host (Id t)) = Some svc /\ svc_Service svc = ServiceNameMMOCell }.

Lemma mirrors_ext s s' m : (forall k, services s' k = services s k) -> mirrors s m -> mirrors s' m.
Proof using Type.
  intros He [H1 H2 H3 H4]. split; [done|done| |].
  - intros k svc Hk. rewrite He in Hk. by apply H3.
  - intros t Ht. rewrite He. by apply H4.
Qed.

(** The service of a cell. *)
Lemma mirrors_service s m t :
  mirrors s m -> cells m !! Id t = Some t ->
  exists svc, services s (ConsulServiceInstanceID host (Id t)) = Some svc /\ svc_Service svc = ServiceNameMMOCell /\
    agentServiceToCellSpec (Some svc) = Ok t /\ svc_Meta svc !! MetaCellLogicalID = Some (Id t).
Proof using Hnames.
  intros Hm Ht. destruct (mi_cells s m Hm t Ht) as (svc & Hs & Hn). exists svc. split; [done|]. split; [done|].
  destruct (mi_services s m Hm _ svc Hs Hn) as (t' & Ht' & Hk & Hr). assert (Id t' = Id t) as E.
  { symmetry. apply (instance_id_inj host); [apply (nm_graphic _ _ Hnames), (mi_names s m Hm _ _ Ht)|apply (nm_graphic _ _ Hnames), (mi_names s m Hm _ _ Ht')|done]. }
  assert (t' = t) as -> by (rewrite E in Ht'; congruence). done.
Qed.

(** A service is an instance of its own cell and of no other. *)
Lemma mirrors_instance s m k svc t id :
  mirrors s m -> U id -> U (Id t) -> services s k = Some svc -> k = ConsulServiceInstanceID host (Id t) ->
  svc_Meta svc !! MetaCellLogicalID = Some (Id t) -> is_instance id svc = bool_decide (Id t = id).
Proof using Hnames.
  intros Hm Hid Ht Hk Ek Hmeta. unfold is_instance. rewrite Hmeta, (services_id _ _ _ Hk), Ek, (instance_id_trimmed host U) by done. change (default "" (Some (Id t))) with (Id t).
  destruct (nm_graphic _ _ Hnames _ Ht) as [Hne Hg]. rewrite (trim_space_graphic (Id t)) by done. rewrite (proj2 (String.eqb_neq _ _) Hne).
  apply eq_true_iff_eq. rewrite orb_true_iff, !String.eqb_eq, bool_decide_eq_true. split; [|by left].
  intros [?|E]; [done|]. by apply (nm_apart _ _ Hnames).
Qed.

Lemma mirrors_register s m spec s' :
  mirrors s m -> canonical spec -> U (Id spec) -> Consul.RegisterCell host (Some spec) s = (Ok tt, s') ->
  exists m', Register m (Some spec) = Ok m' /\ mirrors s' m'.
Proof using Hnames.
  intros Hm Hc Hu Hr. destruct (canonical_registration spec Hc) as (reg & Er & Eid & En & Hread).
  unfold Consul.RegisterCell in Hr. rewrite Er in Hr. unfold mbind, St_bind, lift in Hr. cbv beta iota in Hr. cbn [from_option] in Hr.
  set (k := ConsulServiceInstanceID host (Id spec)) in *. pose proof (register_law (with_ID k reg) s) as HL. rewrite Hr in HL.
  destruct HL as [Hoth Hnew]. specialize (Hnew eq_refl). cbn [reg_ID with_ID] in Hoth, Hnew.
  assert (services s' k = Some (service_of k reg)) as Hk by exact Hnew.
  destruct (can_bounds _ Hc) as (b & Eb & Hx & Hz). pose proof (proj2 (can_id _ Hc)) as Hne.
  assert (Register m (Some spec) = Ok (mkMemory (<[Id spec := spec]> (cells m)))) as Hreg.
  { unfold Register. rewrite (proj2 (String.eqb_neq _ _) Hne), Eb, Hx, Hz. cbn [orb]. by rewrite cloneSpec_id. }
  exists (mkMemory (<[Id spec := spec]> (cells m))). split; [exact Hreg|].
  assert (svc_Meta (service_of k reg) !! MetaCellLogicalID = Some (Id spec)) as Hmeta.
  { apply registration_Ok in Er as (s0 & ? & ? & ? & ? & [= <-] & _ & _ & _ & _ & _ & _ & _ & ->). cbn. by rewrite lookup_insert_eq. }
  split; cbn [cells].
  - exact (registry_wf_register m (Some spec) _ (mi_wf _ _ Hm) Hreg).
  - intros id t [[<- _]|[_ Ht]]%lookup_insert_Some; [done|by eapply mi_names].
  - intros k' svc Hk' Hn. destruct (decide (k' = k)) as [->|Hk'n].
    + rewrite Hk in Hk'. injection Hk' as <-. exists spec. rewrite lookup_insert_eq. split_and!; [done..|apply Hread|done].
    + rewrite Hoth in Hk' by done. destruct (mi_services s m Hm _ _ Hk' Hn) as (t & Ht & -> & Hrest). exists t. split; [|done].
      rewrite lookup_insert_ne; [done|]. intros E. apply Hk'n. unfold k. by rewrite E.
  - intros t [[E <-]|[Hne' Ht]]%lookup_insert_Some; [exists (service_of k reg); by split|].
    destruct (mi_cells s m Hm t Ht) as (svc & Hs & Hn). exists svc. rewrite Hoth; [done|].
    intros E. apply Hne'. symmetry. apply (instance_id_inj host); [apply (nm_graphic _ _ Hnames), (mi_names s m Hm _ _ Ht)|done|done].
Qed.

Lemma mirrors_deregister s m id s' :
  mirrors s m -> U id -> Consul.DeregisterLogicalCell id s = (Ok tt, s') -> mirrors s' (mkMemory (delete id (cells m))).
Proof using Hnames.
  intros Hm Hu Hr. destruct (nm_graphic _ _ Hnames _ Hu) as [Hne Hg].
  assert (forall k svc, services s k = Some svc -> svc_Service svc = ServiceNameMMOCell -> trim_space k = k) as Htrim.
  { intros k svc Hk Hn. destruct (mi_services s m Hm _ _ Hk Hn) as (t & Ht & -> & _). by apply (instance_id_trimmed host U), (mi_names s m Hm _ _ Ht). }
  destruct (deregister_logical_run s id (Ok tt) s' Htrim Hr) as (Hsh & Hkeep & Hgone). rewrite (trim_space_graphic id Hg) in *. specialize (Hgone eq_refl).
  split; cbn [cells].
  - apply map_Forall_delete, (mi_wf _ _ Hm).
  - intros id' t [_ Ht]%lookup_delete_Some. by eapply mi_names.
  - intros k svc Hk Hn. assert (services s k = Some svc) as Hk0 by (destruct (Hsh k); congruence).
    destruct (mi_services s m Hm _ _ Hk0 Hn) as (t & Ht & Ek & Hr' & Hmeta). exists t. split; [|done]. rewrite lookup_delete_ne; [done|].
    intros E. rewrite (Hgone k svc Hk0 Hn) in Hk; [done|].
    rewrite (mirrors_instance s m k svc t id Hm Hu (mi_names s m Hm _ _ Ht) Hk0 Ek Hmeta). by apply bool_decide_eq_true.
  - intros t [Hne' Ht]%lookup_delete_Some. destruct (mirrors_service s m t Hm Ht) as (svc & Hs & Hn & _ & Hmeta). exists svc. split; [|done].
    apply (Hkeep _ svc Hs Hn). rewrite (mirrors_instance s m _ svc t id Hm Hu (mi_names s m Hm _ _ Ht) Hs eq_refl Hmeta). by apply bool_decide_eq_false.
Qed.

Lemma mirrors_list s m o l s' :
  mirrors s m -> Consul.List s = (Ok l, s') -> mirrors s' m /\ forall t, Some t ∈ l <-> Some t ∈ Registry.List o m.
Proof using Hnames Hpassing.
  intros Hm Hl. destruct (List_spec s l s' Hl) as [Hs Hin]. split; [by apply (mirrors_ext s)|]. intros t. rewrite Hin, elem_of_List. split.
  - intros (svc & (Hk & Hn & Hr) & _). destruct (mi_services s m Hm _ _ Hk Hn) as (t' & Ht' & _ & Hr' & _). exists (Id t'). congruence.
  - intros (id & Hid). destruct (mi_wf _ _ Hm id t Hid) as [E _]. subst id.
    destruct (mirrors_service s m t Hm Hid) as (svc & Hs' & Hn & Hr & _). exists svc. split; [|apply Hpassing]. split; [|done].
    by rewrite (services_id _ _ _ Hs').
Qed.

(** What may be called: cells as the program makes them, and their ids. *)
Definition call_ok (c : CatCall) : Prop :=
  match c with CRegister spec => canonical spec /\ U (Id spec) | CDeregister id => U id | CList | CResolve _ _ => True end.

Lemma call_simulated o c s m a s' :
  mirrors s m -> call_ok c -> consul_call host c s = (Ok a, s') ->
  exists b m', catalog_call o c m = Ok (b, m') /\ mirrors s' m' /\ same_answer c a b.
Proof.
  intros Hm Hok Hc. destruct c as [spec|id| |x z]; cbn [consul_call catalog_call call_ok] in *.
  - apply bind_inv in Hc as ([] & s1 & Hr & [= <- <-]). destruct Hok as [Hcan Hu]. destruct (mirrors_register s m spec s1 Hm Hcan Hu Hr) as (m' & E & Hm').
    exists ADone, m'. cbn [Registry.RegisterCell MemoryCatalog]. by rewrite E.
  - apply bind_inv in Hc as ([] & s1 & Hr & [= <- <-]). exists ADone, (mkMemory (delete id (cells m))).
    split; [|split; [by apply (mirrors_deregister s)|done]]. unfold Registry.DeregisterLogicalCell. cbn [DeregisterLogical MemoryCatalog]. unfold Registry.Deregister.
    by rewrite (proj2 (String.eqb_neq _ _) (proj1 (nm_graphic _ _ Hnames _ Hok))).
  - apply bind_inv in Hc as (l & s1 & Hl & [= <- <-]). destruct (mirrors_list s m o l s1 Hm Hl) as [Hm' Hin]. by exists (ACells (Registry.List o m)), m.
  - apply bind_inv in Hc as (r & s1 & Hr & [= <- <-]). unfold Consul.ResolveMostSpecific in Hr. apply bind_inv in Hr as (l & s2 & Hl & [= <- <-]).
    destruct (mirrors_list s m o l s2 Hm Hl) as [Hm' Hin]. exists (ACell (Registry.ResolveMostSpecific o m x z)), m. split; [done|]. split; [done|].
    apply (most_specific_agree x z l (Registry.List o m)); [done| |apply resolve_most_specific].
    assert (exists cs, l = Some <$> cs) as [cs ->]; [|apply pick_best_spec].
    unfold Consul.List in Hl. apply bind_inv in Hl as (rows & s3 & _ & Hl). apply bind_inv in Hl as (out & s4 & _ & Hl).
    apply bind_inv in Hl as (u & s5 & _ & [= <- _]). by exists out.
Qed.

(** C12: Consul is as good as memory to a process that registers cells under its host name, as long as the
    agent reports success and all services pass their checks, the cells are as the program makes
    them, and their ids are of visible characters and none is the service id of another. Then a sequence of
    calls of the catalog - registering, taking out, listing, resolving - has at Consul the answers that the
    in-memory catalog gives, from any states that hold the same cells and for any order of its map, and the
    states hold the same cells again. Listings have the same cells, in any order; resolutions both fail, or
    give cells that contain the position, both of the deepest level of any that does. *)
Theorem consul_refines_memory os cs s m l s' :
  mirrors s m -> Forall call_ok cs -> consul_calls host cs s = (Ok l, s') ->
  exists l' m', catalog_calls os cs m = Ok (l', m') /\ mirrors s' m' /\ Forall2 (fun c '(a, b) => same_answer c a b) cs (zip l l') /\ length l = length l'.
Proof.
  revert s m l. induction cs as [|c cs IH]; intros s m l Hm Hok; cbn [consul_calls catalog_calls].
  { intros [= <- <-]. exists [], m. split; [done|]. split; [done|]. split; [apply Forall2_nil_2|done]. }
  apply Forall_cons in Hok as [Hc Hok]. intros (a & s1 & Ha & Hl)%bind_inv. apply bind_inv in Hl as (l1 & s2 & Hl & [= <- <-]).
  destruct (call_simulated (os (length cs)) c s m a s1 Hm Hc Ha) as (b & m1 & Eb & Hm1 & Hab).
  destruct (IH s1 m1 l1 Hm1 Hok Hl) as (l' & m' & El & Hm' & Hall & Hlen). exists (b :: l'), m'.
  rewrite Eb. cbn [mbind result_bind]. rewrite El. cbn [mbind result_bind zip zip_with length]. split; [done|]. split; [done|]. split; [by constructor|congruence].
Qed.
End Simulation.

(** * A witness *)

Definition refine_calls : list CatCall :=
  [CRegister cell_a; CRegister cell_b; CList; CResolve f0 f0; CDeregister "cell_b"; CResolve f0 f0; CDeregister "cell_b"; CList].

Lemma cell_b_canonical : canonical cell_b.
Proof.
  split.
  - split; [by vm_compute|]. intros b [= <-]. by vm_compute.
  - split; [by vm_compute|done].
  - by eexists.
  - exists "cell-b.mmo.svc", 50051%Z. split; [by vm_compute|]. split; [|done]. by split.
Qed.

Lemma refine_names : names "pod-1" (fun id => id = "cell_a" \/ id = "cell_b").
Proof. split; [done|by intros a [-> | ->]|]. intros a b [-> | ->] [-> | ->]; done. Qed.

Lemma refine_ok : Forall (call_ok (fun id => id = "cell_a" \/ id = "cell_b")) refine_calls.
Proof.
  apply Forall_cons. split; [split; [exact cell_a_canonical|left; exact eq_refl]|].
  apply Forall_cons. split; [split; [exact cell_b_canonical|right; exact eq_refl]|].
  do 2 (apply Forall_cons; split; [exact I|]). apply Forall_cons. split; [right; exact eq_refl|]. apply Forall_cons. split; [exact I|].
  apply Forall_cons. split; [right; exact eq_refl|]. apply Forall_cons. split; [exact I|]. apply Forall_nil_2.
Qed.

(** Both cells stand at the origin, on one level: either may be given. *)
Lemma consul_refines_memory_witness :
  exists l l' m', fst (consul_calls (S:=Agent) "pod-1" refine_calls (mkAgent ∅)) = Ok l /\
    catalog_calls (fun _ => order_rev) refine_calls NewMemory = Ok (l', m') /\
    Forall2 (fun c '(a, b) => same_answer c a b) refine_calls (zip l l') /\ cells m' = {["cell_a" := cell_a]}.
Proof.
  destruct (consul_calls (S:=Agent) "pod-1" refine_calls (mkAgent ∅)) as [[l|e] s'] eqn:E.
  2:{ apply (f_equal (fun x => is_ok (fst x))) in E. by vm_compute in E. }
  assert (mirrors (S:=Agent) "pod-1" (fun id => id = "cell_a" \/ id = "cell_b") (mkAgent ∅) NewMemory) as Hm.
  { split; [apply map_Forall_empty|intros ? ? Hid; destruct (lookup_empty_Some _ _ Hid)|by intros k svc ?|intros t Ht; destruct (lookup_empty_Some _ _ Ht)]. }
  destruct (consul_refines_memory (S:=Agent) "pod-1" _ refine_names ltac:(intros; exact eq_refl) (fun _ => order_rev) refine_calls (mkAgent ∅) NewMemory l s' Hm)
    as (l' & m' & E' & _ & Hall & _); [|exact E|].
  { exact refine_ok. }
  exists l, l', m'. split; [done|]. split; [done|]. split; [done|].
  assert (cells m' = match catalog_calls (fun _ => order_rev) refine_calls NewMemory with Ok (_, m') => cells m' | Err _ => ∅ end) as -> by by rewrite E'.
  by vm_compute.
Defined.

(** A cell whose id is the service id of another: taking it out takes the other one out as well. *)
Example service_id_is_a_cell :
  let a := mkCellSpec "cell-pod" 1 (Some (square 100)) "h:1" in
  let b := mkCellSpec "cell" 1 (Some (square 50)) "h:2" in
  fst (consul_calls (S:=Agent) "pod" [CRegister a; CRegister b; CDeregister "cell-pod"; CList] (mkAgent ∅)) = Ok [ADone; ADone; ADone; ACells []] /\
  match catalog_calls (fun _ => order_id) [CRegister a; CRegister b; CDeregister "cell-pod"; CList] NewMemory with
  | Ok (l, _) => l = [ADone; ADone; ADone; ACells [Some b]]
  | Err _ => False
  end.
Proof. split; by vm_compute. Qed.
