(* ===== verification/Controller.v ===== *)
(** [cmd/cell-controller/main.go]: the cell controller. It starts and removes the Kubernetes service and
    deployment of a cell when the grid manager asks for it over NATS, and keeps the last events of the
    workflows in Redis. The Kubernetes API is the class [K8s], what its documentation promises
    [K8sLaws]. *)
From Stdlib Require Import Ascii ZArith Lia.
From S2P Require Import Prelude Effects GoFloat GoString GoNumber GoFormat Partition Workflow Http HostPort.
Local Open Scope string_scope.
Local Open Scope list_scope.

(** * Names *)

(** [strings.ToLower] as far as the ASCII bytes of the result go: the Kelvin sign (U+212A) is lowered to
    [k] and the dotted capital I (U+0130) to [i]; the other bytes that are not ASCII stay that. *)
Fixpoint to_lower_runes (s : string) : string :=
  match s with
  | EmptyString => EmptyString
  | String a s1 =>
      match s1 with
      | String b s2 =>
          if Nat.eqb (nat_of_ascii a) 196 && Nat.eqb (nat_of_ascii b) 176 then String "i" (to_lower_runes s2)
          else match s2 with
          | String c s3 =>
              if Nat.eqb (nat_of_ascii a) 226 && Nat.eqb (nat_of_ascii b) 132 && Nat.eqb (nat_of_ascii c) 170
              then String "k" (to_lower_runes s3) else String (lower a) (to_lower_runes s1)
          | EmptyString => String (lower a) (to_lower_runes s1)
          end
      | EmptyString => String (lower a) ""
      end
  end.

(** [strings.ReplaceAll(s, "_", "-")] *)
Fixpoint underscores (s : string) : string :=
  match s with EmptyString => "" | String a s' => String (if byte_eqb a "_" then "-"%char else a) (underscores s') end.

(** [[a-z0-9-]] *)
Definition rfc1123 (a : ascii) : bool :=
  let n := nat_of_ascii a in (Nat.leb 97 n && Nat.leb n 122) || (Nat.leb 48 n && Nat.leb n 57) || Nat.eqb n 45.

(** [nonRFC1123.ReplaceAllString(s, "-")]: every longest run of other bytes becomes one hyphen. *)
Fixpoint replace_runs (in_run : bool) (s : string) : string :=
  match s with
  | EmptyString => ""
  | String a s' =>
      if rfc1123 a then String a (replace_runs false s')
      else if in_run then replace_runs true s' else String "-" (replace_runs true s')
  end.

(** [strings.Trim(s, "-")] *)
Fixpoint trim_hyphens_left (s : string) : string :=
  match s with String a s' => if byte_eqb a "-" then trim_hyphens_left s' else s | EmptyString => "" end.
Definition trim_hyphens (s : string) : string := String.rev (trim_hyphens_left (String.rev (trim_hyphens_left s))).

Definition name_stem (cellID : string) : string :=
  let s := to_lower_runes (trim_space cellID) in
  let s := underscores s in
  let s := replace_runs false s in
  let s := trim_hyphens s in
  let s := if Nat.ltb 30 (String.length s) then take_bytes 30 s else s in
  if String.eqb s "" then "auto" else s.

Definition namesForCell (cellID : string) : string * string :=
  let s := name_stem cellID in ("mmo-cell-auto-" +:+ s, "cell-node-auto-" +:+ s).

(** * Kubernetes objects

    [O] stands for the fields the controller does not set. *)
Record ServicePort := mkPort { port_Name : string; Port : Z; TargetPort : Z }.

Record Service (O : Type) := mkService {
  s_Name : string; s_Namespace : string; s_Labels : gmap string string; s_Selector : gmap string string;
  s_Ports : list ServicePort; s_other : O }.
Arguments mkService {O} _ _ _ _ _ _.
Arguments s_Name {O} _.
Arguments s_Namespace {O} _.
Arguments s_Labels {O} _.
Arguments s_Selector {O} _.
Arguments s_Ports {O} _.
Arguments s_other {O} _.

Record PodSecurityContext := mkPodSecurity { RunAsNonRoot : bool; RunAsUser : Z; RunAsGroup : Z; SeccompProfile : string }.
Record SecurityContext := mkSecurity { AllowPrivilegeEscalation : bool; DropCapabilities : list string }.

Record Container := mkContainer {
  c_Name : string; Image : string; ImagePullPolicy : string; Command : list string; c_SecurityContext : SecurityContext;
  Args : list string; ContainerPorts : list (string * Z); EnvVars : list (string * string); EnvFromSecrets : list string }.

Record DeploymentSpec := mkDeploymentSpec {
  Replicas : Z; MatchLabels : gmap string string; TemplateLabels : gmap string string;
  PodSecurity : PodSecurityContext; Containers : list Container }.

Record Deployment (O : Type) := mkDeployment {
  d_Name : string; d_Namespace : string; d_Labels : gmap string string; d_Spec : DeploymentSpec; d_other : O }.
Arguments mkDeployment {O} _ _ _ _ _.
Arguments d_Name {O} _.
Arguments d_Namespace {O} _.
Arguments d_Labels {O} _.
Arguments d_Spec {O} _.
Arguments d_other {O} _.

(** The typed clients of services and deployments; [unset] are the other fields of a new object. *)
Class K8s (K O : Type) := {
  unset : O;
  IsNotFound : error -> bool;
  GetService : string -> string -> St K (Service O);
  CreateService : Service O -> St K unit;
  UpdateService : Service O -> St K unit;
  DeleteService : string -> string -> St K unit;
  GetDeployment : string -> string -> St K (Deployment O);
  CreateDeployment : Deployment O -> St K unit;
  UpdateDeployment : Deployment O -> St K unit;
  DeleteDeployment : string -> string -> St K unit
}.

(** * The controller *)

(** Events of the workflows as they arrive, and the events the controller publishes, without their time. *)
Record workflowEvent := mkWorkflowEvent {
  we_CellID : string; we_ParentCellID : string; we_Stage : string; we_Message : string; we_ChildCell : string;
  we_Attrs : list (string * string); we_AtUnixMs : Z; we_Successful : bool }.

Record CellLifecycleEvent := mkLifecycle { le_CellID : string; le_Action : string; le_OK : bool; le_Message : text; le_ParentID : string }.

(** A value in Redis: the bytes of a message, or what [json.Marshal] makes of a value. *)
Inductive stored := Raw (s : string) | Marshalled (j : Json).

(** The API server, Redis if there is one, whether there is a NATS client, the events that reached it, and
    how many calls of Redis and NATS were made. *)
Record Plane (K : Type) := mkPlane {
  cluster : K; redis : option (gmap string stored); nats : bool; lifecycle : list CellLifecycleEvent; calls : nat }.
Arguments mkPlane {K} _ _ _ _ _.
Arguments cluster {K} _.
Arguments redis {K} _.
Arguments nats {K} _.
Arguments lifecycle {K} _.
Arguments calls {K} _.

(** [encoding/json] on the messages: the [op] of a control message, the two requests, and an event. *)
Record MessageCodec := mkMessageCodec {
  decode_op : string -> result string;
  decode_delete : string -> result (string * string);
  decode_create : string -> result (string * string * ChildCellSpec);
  decode_event : string -> result workflowEvent }.

Section Controller.
Context {K O : Type} `{!K8s K O} (net : nat -> Outcome) (codec : MessageCodec).
(** The namespace and [MMO_CELL_IMAGE]. *)
Context (ns MMO_CELL_IMAGE : string).

Abbreviation P := (St (Plane K)).

Definition on_k8s {A} (m : St K A) : P A := fun p =>
  let '(r, k) := m (cluster p) in (r, mkPlane k (redis p) (nats p) (lifecycle p) (calls p)).

(** [_ = rdb.Set(...)] and [rdb.Del(...)]: the error is dropped. *)
Definition redis_do (f : gmap string stored -> gmap string stored) : P unit := fun p =>
  (Ok tt, match redis p with
   | None => p
   | Some m =>
       let m' := match net (calls p) with LostRequest _ => m | _ => f m end in
       mkPlane (cluster p) (Some m') (nats p) (lifecycle p) (S (calls p))
   end).

Definition publishCellLifecycle (ev : CellLifecycleEvent) : P unit := fun p =>
  (Ok tt, if negb (nats p) then p
   else
     let l := match net (calls p) with LostRequest _ => lifecycle p | _ => lifecycle p ++ [ev] end in
     mkPlane (cluster p) (redis p) (nats p) l (S (calls p))).

(** ** Services and deployments *)

Definition labels_of (deployName : string) : gmap string string := <["app" := "cell-node"]> {[ "cell_shard" := deployName ]}.

Definition desired_service (serviceName deployName : string) : Service O :=
  mkService serviceName ns (labels_of deployName) (labels_of deployName)
    [mkPort "grpc" 50051 50051; mkPort "metrics" 9090 9090] unset.

Definition ensureCellService (serviceName deployName : string) : St K unit :=
  let desired := desired_service serviceName deployName in
  r ← catch (GetService ns serviceName);
  match r with
  | Err err => if IsNotFound err then CreateService desired else throw err
  | Ok cur => UpdateService (mkService (s_Name cur) (s_Namespace cur) (s_Labels desired) (s_Selector desired) (s_Ports desired) (s_other cur))
  end.

Definition restrictedPodSecurityContext : PodSecurityContext := mkPodSecurity true 65532 65532 "RuntimeDefault".
Definition restrictedContainerSecurityContext : SecurityContext := mkSecurity false ["ALL"].

Definition cell_args (ch : ChildCellSpec) : list string :=
  ["-listen"; "0.0.0.0:50051"; "-id"; cs_ID ch; "-level"; itoa (cs_Level ch);
   "-xmin"; Sprintf_g (cs_XMin ch); "-xmax"; Sprintf_g (cs_XMax ch);
   "-zmin"; Sprintf_g (cs_ZMin ch); "-zmax"; Sprintf_g (cs_ZMax ch);
   "-metrics-listen"; "0.0.0.0:9090"].

Definition advertise_address (serviceName : string) : string := serviceName +:+ "." +:+ ns +:+ ".svc.cluster.local:50051".

Definition desired_deployment (deployName serviceName image : string) (ch : ChildCellSpec) : Deployment O :=
  let labels := labels_of deployName in
  mkDeployment deployName ns labels
    (mkDeploymentSpec 1 labels labels restrictedPodSecurityContext
      [mkContainer "cell-node" image "Always" ["/cell-node"] restrictedContainerSecurityContext (cell_args ch)
        [("grpc", 50051%Z); ("metrics", 9090%Z)]
        [("MMO_CELL_GRPC_ADVERTISE", advertise_address serviceName); ("MMO_LOG_FORMAT", "json")]
        ["mmo-backend"]]) unset.

Definition ensureCellDeployment (deployName serviceName image : string) (ch : ChildCellSpec) : St K unit :=
  let desired := desired_deployment deployName serviceName image ch in
  r ← catch (GetDeployment ns deployName);
  match r with
  | Err err => if IsNotFound err then CreateDeployment desired else throw err
  | Ok cur => UpdateDeployment (mkDeployment (d_Name cur) (d_Namespace cur) (d_Labels desired) (d_Spec desired) (d_other cur))
  end.

Definition resolveCellImage : St K string :=
  let v := trim_space MMO_CELL_IMAGE in
  if negb (String.eqb v "") then mret v
  else
    dep ← GetDeployment ns "cell-node";
    match Containers (d_Spec dep) with
    | [] => throw (errorf "cell-node deployment has no containers" [])
    | c :: _ => mret (Image c)
    end.

(** ** Control messages *)

(** [if err := ...; err != nil { publishCellLifecycle(failed); return }] *)
Definition or_failed {A} (id parentID prefix : string) (m : St K A) (k : A -> P unit) : P unit :=
  r ← catch (on_k8s m);
  match r with
  | Err err => publishCellLifecycle (mkLifecycle id "cell.failed" false (Fmt (prefix +:+ "%v") [ATxt (error_string err)]) parentID)
  | Ok a => k a
  end.

Definition create_cell (parentCellID : string) (ch : ChildCellSpec) : P unit :=
  if String.eqb (trim_space (cs_ID ch)) "" then mret tt
  else
    let '(serviceName, deployName) := namesForCell (cs_ID ch) in
    or_failed (cs_ID ch) parentCellID "resolve image: " resolveCellImage (fun image =>
    or_failed (cs_ID ch) parentCellID "service: " (ensureCellService serviceName deployName) (fun _ =>
    or_failed (cs_ID ch) parentCellID "deployment: " (ensureCellDeployment deployName serviceName image ch) (fun _ =>
      _ ← publishCellLifecycle (mkLifecycle (cs_ID ch) "cell.created" true (Fmt "deployment=%s service=%s" [AStr deployName; AStr serviceName]) parentCellID);
      redis_do (insert ("mmo:cell-controller:created:" +:+ cs_ID ch) (Raw serviceName))))).

Definition handleControlEvent (raw : string) : P unit :=
  match decode_create codec raw with
  | Err _ => mret tt
  | Ok (parentCellID, _, ch) => create_cell parentCellID ch
  end.

(** An error that is not [NotFound]. *)
Definition unless_not_found (m : St K unit) : St K unit := on_error (fun err => if IsNotFound err then mret tt else throw err) m.

Definition handleRuntimeCellDelete (cellID reason : string) : P unit :=
  let cid := trim_space cellID in
  if String.eqb cid "" then mret tt
  else
    let '(svc, dep) := namesForCell cid in
    or_failed cid "" "delete service: " (unless_not_found (DeleteService ns svc)) (fun _ =>
    or_failed cid "" "delete deployment: " (unless_not_found (DeleteDeployment ns dep)) (fun _ =>
      _ ← publishCellLifecycle (mkLifecycle cid "cell.deleted" true (Fmt "removed deployment=%s service=%s reason=%s" [AStr dep; AStr svc; AStr reason]) "");
      redis_do (delete ("mmo:cell-controller:created:" +:+ cid)))).

Definition OpDeleteRuntimeChild : string := "delete_runtime_child".

Definition handleControlMessage (raw : string) : P unit :=
  match decode_op codec raw with
  | Err _ => mret tt
  | Ok op =>
      if String.eqb op OpDeleteRuntimeChild then
        match decode_delete codec raw with
        | Err _ => mret tt
        | Ok (cellID, reason) => handleRuntimeCellDelete cellID reason
        end
      else handleControlEvent raw
  end.

(** ** Events of the workflows *)

Definition with_attrs (ev : workflowEvent) (fields : list (string * Json)) : Json :=
  JObj (fields ++ match we_Attrs ev with [] => [] | l => [("attrs", JObj (prod_map id JStr <$> l))] end).

Definition event_fields (phase : string) (ev : workflowEvent) : list (string * Json) :=
  [("phase", JStr phase); ("parent_id", JStr (we_CellID ev)); ("at_unix_ms", JInt (we_AtUnixMs ev)); ("workflow_msg", JStr (we_Message ev))].

Definition writeAutomationCompleteState (ev : workflowEvent) : P unit :=
  redis_do (insert ("mmo:cell-controller:automation_complete:" +:+ we_CellID ev) (Marshalled (with_attrs ev (event_fields "automation_complete" ev)))).

Definition writeRetireReadyState (ev : workflowEvent) : P unit :=
  let payload := with_attrs ev (event_fields "retire_ready" ev ++
    (if String.eqb (we_ChildCell ev) "" then [] else [("child_cell", JStr (we_ChildCell ev))])) in
  _ ← redis_do (insert ("mmo:cell-controller:retire:" +:+ we_CellID ev) (Marshalled payload));
  redis_do (insert ("mmo:cell-controller:retire_ready:" +:+ we_CellID ev) (Marshalled payload)).

Definition writeMergeAutomationState (ev : workflowEvent) : P unit :=
  redis_do (insert ("mmo:cell-controller:merge:automation_complete:" +:+ we_CellID ev)
    (Marshalled (with_attrs ev (event_fields "automation_complete" ev ++ [("stage", JStr (we_Stage ev))])))).

Definition handleWorkflowEvent (raw : string) : P unit :=
  match decode_event codec raw with
  | Err _ => mret tt
  | Ok ev =>
      let cellID := trim_space (we_CellID ev) in
      let cellID := if String.eqb cellID "" then trim_space (we_ParentCellID ev) else cellID in
      if String.eqb cellID "" then mret tt
      else
        let ev := mkWorkflowEvent cellID (we_ParentCellID ev) (we_Stage ev) (we_Message ev) (we_ChildCell ev) (we_Attrs ev) (we_AtUnixMs ev) (we_Successful ev) in
        _ ← redis_do (insert ("mmo:cell-controller:last:" +:+ cellID) (Raw raw));
        if we_Successful ev && (String.eqb (we_Stage ev) "retire_ready" || String.eqb (we_Stage ev) "parent_retiring") then writeRetireReadyState ev
        else if we_Successful ev && String.eqb (we_Stage ev) "automation_complete" then writeAutomationCompleteState ev
        else if we_Successful ev && String.eqb (we_Stage ev) "topology_switched" then writeMergeAutomationState ev
        else mret tt
  end.
End Controller.

(** * Names: lemmas *)

(** Lower-case letters, digits and underscores. *)
Definition id_byte (a : ascii) : bool :=
  let n := nat_of_ascii a in (Nat.leb 97 n && Nat.leb n 122) || (Nat.leb 48 n && Nat.leb n 57) || Nat.eqb n 95.

Lemma id_byte_facts a : id_byte a = true ->
  lower a = a /\ nat_of_ascii a <> 196 /\ nat_of_ascii a <> 226 /\ rfc1123 (if byte_eqb a "_" then "-"%char else a) = true /\
  (byte_eqb a "_" = false -> byte_eqb a "-" = false).
Proof. destruct a as [[] [] [] [] [] [] [] []]; vm_compute; intros H; try discriminate H; split_and!; try done; lia. Qed.

Lemma to_lower_runes_id s : string_forall id_byte s = true -> to_lower_runes s = s.
Proof.
  induction s as [|a s IH]; [done|]. cbn [string_forall]. intros [Ha Hs]%andb_true_iff. specialize (IH Hs).
  destruct (id_byte_facts a Ha) as (Hl & H1 & H2 & _). apply Nat.eqb_neq in H1, H2. cbn. rewrite H1, H2, Hl. cbn [andb].
  destruct s as [|b s]; [done|]. destruct s as [|c s]; by rewrite IH.
Qed.

Lemma replace_runs_id s : string_forall id_byte s = true -> replace_runs false (underscores s) = underscores s.
Proof.
  induction s as [|a s IH]; [done|]. cbn [string_forall]. intros [Ha Hs]%andb_true_iff. cbn [underscores replace_runs].
  destruct (id_byte_facts a Ha) as (_ & _ & _ & -> & _). by rewrite IH.
Qed.

Lemma underscores_app s t : underscores (s +:+ t) = underscores s +:+ underscores t.
Proof. induction s as [|a s IH]; [done|]. cbn. by rewrite IH. Qed.

Lemma underscores_length s : String.length (underscores s) = String.length s.
Proof. induction s as [|a s IH]; [done|]. cbn. by rewrite IH. Qed.

Lemma underscores_inj s t :
  string_forall id_byte s = true -> string_forall id_byte t = true -> underscores s = underscores t -> s = t.
Proof.
  revert t. induction s as [|a s IH]; intros [|b t]; cbn [string_forall underscores]; [done..|].
  intros [Ha Hs]%andb_true_iff [Hb Ht]%andb_true_iff [= Hab Hst]. f_equal; [|by apply IH].
  destruct (id_byte_facts a Ha) as (_ & _ & _ & _ & Ha'), (id_byte_facts b Hb) as (_ & _ & _ & _ & Hb').
  destruct (Ascii.eqb_spec a "_") as [->|], (Ascii.eqb_spec b "_") as [->|]; [done|subst b|subst a|done].
  - by specialize (Hb' eq_refl).
  - by specialize (Ha' eq_refl).
Qed.

(** A string that starts and ends with another byte keeps its hyphens. *)
Lemma trim_hyphens_id a s b : byte_eqb a "-" = false -> byte_eqb b "-" = false -> trim_hyphens (String a s +:+ String b "") = String a s +:+ String b "".
Proof.
  intros Ha Hb. unfold trim_hyphens. change (String a s +:+ String b "") with (String a (s +:+ String b "")).
  cbn [trim_hyphens_left]. rewrite Ha. change (String a (s +:+ String b "")) with (String a s +:+ String b "").
  rewrite string_rev_app2. change (String.rev (String b "")) with (String b ""). change (String b "" +:+ String.rev (String a s)) with (String b (String.rev (String a s))).
  cbn [trim_hyphens_left]. rewrite Hb. change (String b (String.rev (String a s))) with (String b "" +:+ String.rev (String a s)).
  rewrite string_rev_app2, string_rev_involutive. done.
Qed.

(** The identifier of a cell starts with [c] and ends with a digit or a letter. *)
Lemma segment_id_bytes q : (0 <= q <= 3)%Z -> string_forall id_byte (segment q) = true.
Proof. intros Hq. by destruct (quad_cases q Hq) as [->|[->|[->| ->]]]. Qed.

Lemma tail_id_bytes p : valid_path p -> string_forall id_byte (tail_of p) = true.
Proof. induction 1 as [|q p Hq Hp IH]; [done|]. cbn -[segment]. by rewrite string_forall_app, segment_id_bytes. Qed.

Lemma render_id_bytes p : valid_path p -> string_forall id_byte (render p) = true.
Proof.
  destruct 1 as [|q p Hq Hp]; [done|]. unfold render. rewrite join_segments, !string_forall_app, segment_id_bytes, tail_id_bytes by done. done.
Qed.

Lemma tail_last q p : valid_path (q :: p) -> exists s d, segment q +:+ tail_of p = s +:+ String d "" /\ byte_eqb d "_" = false /\ byte_eqb d "-" = false.
Proof.
  revert q. induction p as [|q' p IH]; intros q Hp; apply Forall_cons in Hp as [Hq Hp].
  - exists "q". by destruct (quad_cases q Hq) as [->|[->|[->| ->]]]; eexists.
  - destruct (IH q' Hp) as (s & d & E & Hd). exists (segment q +:+ String "_" s), d. split; [|done].
    cbn -[segment]. rewrite E. rewrite <- string_app_assoc. done.
Qed.

Lemma render_ends p : valid_path p -> exists s d, render p = String "c" s +:+ String d "" /\ byte_eqb d "_" = false /\ byte_eqb d "-" = false.
Proof.
  destruct p as [|q p]; intros Hp; [by exists "ell_roo", "t"%char|]. unfold render. rewrite join_segments.
  destruct (tail_last q p Hp) as (s & d & -> & Hd). by exists ("ell_" +:+ s), d.
Qed.

Lemma tail_length p : valid_path p -> String.length (tail_of p) = 3 * length p.
Proof.
  induction 1 as [|q p Hq Hp IH]; [done|]. cbn -[segment Nat.mul]. rewrite string_length_app, IH.
  assert (String.length (segment q) = 2) as -> by (by destruct (quad_cases q Hq) as [->|[->|[->| ->]]]). lia.
Qed.

Lemma render_length p : valid_path p -> String.length (render p) <= 9 \/ String.length (render p) = 3 * length p + 4.
Proof.
  destruct p as [|q p]; intros Hp; [left; cbn; lia|right]. unfold render. rewrite join_segments, string_length_app, string_length_app.
  apply Forall_cons in Hp as [Hq Hp]. rewrite (tail_length p Hp).
  assert (String.length (segment q) = 2) as -> by (by destruct (quad_cases q Hq) as [->|[->|[->| ->]]]). cbn [String.length length]. lia.
Qed.

(** Down to the eighth level a cell's name is its id with hyphens. *)
Lemma name_stem_path p : valid_path p -> length p <= 8 -> name_stem (render p) = underscores (render p).
Proof.
  intros Hp Hl. unfold name_stem. rewrite trim_render, to_lower_runes_id, replace_runs_id by auto using render_id_bytes.
  destruct (render_ends p Hp) as (s & d & E & H1 & H2).
  assert (underscores (render p) = String "c" (underscores s) +:+ String d "") as Eu.
  { rewrite E, underscores_app. cbn [underscores]. by rewrite H1. }
  rewrite Eu, trim_hyphens_id, <- Eu by done. rewrite underscores_length.
  destruct (Nat.ltb_spec 30 (String.length (render p))); [pose proof (render_length p Hp); lia|]. by rewrite Eu.
Qed.

(** * What the API server promises *)

(** The fields of a service that the controller sets. *)
Definition same_service {O} (s t : Service O) : Prop :=
  s_Name s = s_Name t /\ s_Namespace s = s_Namespace t /\ s_Labels s = s_Labels t /\ s_Selector s = s_Selector t /\ s_Ports s = s_Ports t.
Definition same_deployment {O} (d e : Deployment O) : Prop :=
  d_Name d = d_Name e /\ d_Namespace d = d_Namespace e /\ d_Labels d = d_Labels e /\ d_Spec d = d_Spec e.

(** The objects of a server, by namespace and name. *)
Record Objects (O : Type) := mkObjects {
  svc_at : string -> string -> option (Service O); dep_at : string -> string -> option (Deployment O) }.
Arguments mkObjects {O} _ _.
Arguments svc_at {O} _ _ _.
Arguments dep_at {O} _ _ _.

(** At most the service, or the deployment, of this name differs. *)
Definition only_service {O} (ns name : string) (a b : Objects O) : Prop :=
  dep_at b = dep_at a /\ forall ns' name', (ns', name') <> (ns, name) -> svc_at b ns' name' = svc_at a ns' name'.
Definition only_deployment {O} (ns name : string) (a b : Objects O) : Prop :=
  svc_at b = svc_at a /\ forall ns' name', (ns', name') <> (ns, name) -> dep_at b ns' name' = dep_at a ns' name'.

(** A write that was answered well is done, a refused one may have been made; an object is reported as not
    found only when there is none. An object that is read carries its own name. *)
Class K8sLaws (K O : Type) `{!K8s K O} := {
  objects : K -> Objects O;
  get_service_law ns name k :
    let '(r, k') := GetService ns name k in
    objects k' = objects k /\ match r with Ok s => svc_at (objects k) ns name = Some s /\ s_Name s = name /\ s_Namespace s = ns
                              | Err e => IsNotFound e = true -> svc_at (objects k) ns name = None end;
  create_service_law s k :
    let '(r, k') := CreateService s k in
    only_service (s_Namespace s) (s_Name s) (objects k) (objects k') /\
    (is_ok r = true -> exists t, svc_at (objects k') (s_Namespace s) (s_Name s) = Some t /\ same_service t s);
  update_service_law s k :
    let '(r, k') := UpdateService s k in
    only_service (s_Namespace s) (s_Name s) (objects k) (objects k') /\
    (is_ok r = true -> exists t, svc_at (objects k') (s_Namespace s) (s_Name s) = Some t /\ same_service t s);
  delete_service_law ns name k :
    let '(r, k') := DeleteService ns name k in
    only_service ns name (objects k) (objects k') /\
    match r with Ok _ => svc_at (objects k') ns name = None | Err e => IsNotFound e = true -> svc_at (objects k') ns name = None end;
  get_deployment_law ns name k :
    let '(r, k') := GetDeployment ns name k in
    objects k' = objects k /\ match r with Ok d => dep_at (objects k) ns name = Some d /\ d_Name d = name /\ d_Namespace d = ns
                              | Err e => IsNotFound e = true -> dep_at (objects k) ns name = None end;
  create_deployment_law d k :
    let '(r, k') := CreateDeployment d k in
    only_deployment (d_Namespace d) (d_Name d) (objects k) (objects k') /\
    (is_ok r = true -> exists t, dep_at (objects k') (d_Namespace d) (d_Name d) = Some t /\ same_deployment t d);
  update_deployment_law d k :
    let '(r, k') := UpdateDeployment d k in
    only_deployment (d_Namespace d) (d_Name d) (objects k) (objects k') /\
    (is_ok r = true -> exists t, dep_at (objects k') (d_Namespace d) (d_Name d) = Some t /\ same_deployment t d);
  delete_deployment_law ns name k :
    let '(r, k') := DeleteDeployment ns name k in
    only_deployment ns name (objects k) (objects k') /\
    match r with Ok _ => dep_at (objects k') ns name = None | Err e => IsNotFound e = true -> dep_at (objects k') ns name = None end
}.

(** A server that keeps its objects in maps. *)
Record ApiServer := mkApi { api_services : gmap (string * string) (Service unit); api_deployments : gmap (string * string) (Deployment unit) }.

Definition not_found : error := errorf "not found" [].
Definition already_exists : error := errorf "already exists" [].

#[export] Instance ApiServer_k8s : K8s ApiServer unit := {
  unset := tt;
  IsNotFound e := match err_text e with Fmt f _ => String.eqb f "not found" end;
  GetService ns name k :=
    (match api_services k !! (ns, name) with
     | Some s => Ok (mkService name ns (s_Labels s) (s_Selector s) (s_Ports s) (s_other s)) | None => Err not_found end, k);
  CreateService s k :=
    match api_services k !! (s_Namespace s, s_Name s) with
    | Some _ => (Err already_exists, k)
    | None => (Ok tt, mkApi (<[(s_Namespace s, s_Name s) := s]> (api_services k)) (api_deployments k))
    end;
  UpdateService s k :=
    match api_services k !! (s_Namespace s, s_Name s) with
    | None => (Err not_found, k)
    | Some _ => (Ok tt, mkApi (<[(s_Namespace s, s_Name s) := s]> (api_services k)) (api_deployments k))
    end;
  DeleteService ns name k :=
    match api_services k !! (ns, name) with
    | None => (Err not_found, k)
    | Some _ => (Ok tt, mkApi (delete (ns, name) (api_services k)) (api_deployments k))
    end;
  GetDeployment ns name k :=
    (match api_deployments k !! (ns, name) with
     | Some d => Ok (mkDeployment name ns (d_Labels d) (d_Spec d) (d_other d)) | None => Err not_found end, k);
  CreateDeployment d k :=
    match api_deployments k !! (d_Namespace d, d_Name d) with
    | Some _ => (Err already_exists, k)
    | None => (Ok tt, mkApi (api_services k) (<[(d_Namespace d, d_Name d) := d]> (api_deployments k)))
    end;
  UpdateDeployment d k :=
    match api_deployments k !! (d_Namespace d, d_Name d) with
    | None => (Err not_found, k)
    | Some _ => (Ok tt, mkApi (api_services k) (<[(d_Namespace d, d_Name d) := d]> (api_deployments k)))
    end;
  DeleteDeployment ns name k :=
    match api_deployments k !! (ns, name) with
    | None => (Err not_found, k)
    | Some _ => (Ok tt, mkApi (api_services k) (delete (ns, name) (api_deployments k)))
    end
}.

Definition api_objects (k : ApiServer) : Objects unit := mkObjects
  (fun ns name => (fun s => mkService name ns (s_Labels s) (s_Selector s) (s_Ports s) (s_other s)) <$> api_services k !! (ns, name))
  (fun ns name => (fun d => mkDeployment name ns (d_Labels d) (d_Spec d) (d_other d)) <$> api_deployments k !! (ns, name)).

#[export] Instance ApiServer_laws : K8sLaws ApiServer unit.
Proof.
  refine {| objects := api_objects |}; cbn.
  - intros ns name k. split; [done|]. by destruct (api_services k !! (ns, name)).
  - intros s k. destruct (api_services k !! _); (split; [split; [done|]|done || intros _]); intros; cbn; [done|by rewrite lookup_insert_ne|].
    rewrite lookup_insert_eq. by eexists.
  - intros s k. destruct (api_services k !! _); (split; [split; [done|]|done || intros _]); intros; cbn; [by rewrite lookup_insert_ne| |done].
    rewrite lookup_insert_eq. by eexists.
  - intros ns name k. destruct (api_services k !! _) eqn:E; (split; [split; [done|]|]); intros; cbn; [by rewrite lookup_delete_ne|by rewrite lookup_delete_eq|done|by rewrite E].
  - intros ns name k. split; [done|]. by destruct (api_deployments k !! (ns, name)).
  - intros s k. destruct (api_deployments k !! _); (split; [split; [done|]|done || intros _]); intros; cbn; [done|by rewrite lookup_insert_ne|].
    rewrite lookup_insert_eq. by eexists.
  - intros s k. destruct (api_deployments k !! _); (split; [split; [done|]|done || intros _]); intros; cbn; [by rewrite lookup_insert_ne| |done].
    rewrite lookup_insert_eq. by eexists.
  - intros ns name k. destruct (api_deployments k !! _) eqn:E; (split; [split; [done|]|]); intros; cbn; [by rewrite lookup_delete_ne|by rewrite lookup_delete_eq|done|by rewrite E].
Defined.

(** * What the handlers do *)

Section Handlers.
Context {K O : Type} `{K8sLaws K O} (net : nat -> Outcome) (ns MMO_CELL_IMAGE : string).
#[local] Set Default Proof Using "Type*".

Abbreviation create := (create_cell net ns MMO_CELL_IMAGE).
Abbreviation remove := (handleRuntimeCellDelete net ns).

(** One control message, once decoded. *)
Definition handle (m : ControlMessage) : St (Plane K) unit :=
  match m with
  | ChildCreate parentCellID _ ch => create parentCellID ch
  | ChildDelete cellID reason => remove cellID reason
  end.

Definition objs (p : Plane K) : Objects O := objects (cluster p).

(** Nothing but the service and the deployment of these names differs. *)
Definition only_cell (names : string * string) (a b : Objects O) : Prop :=
  (forall ns' name, (ns', name) <> (ns, fst names) -> svc_at b ns' name = svc_at a ns' name) /\
  (forall ns' name, (ns', name) <> (ns, snd names) -> dep_at b ns' name = dep_at a ns' name).

#[export] Instance only_cell_preorder names : PreOrder (only_cell names).
Proof.
  split; [by split|]. intros a b c [H1 H2] [H3 H4]. split; intros; [by rewrite H3, H1|by rewrite H4, H2].
Qed.

Lemma only_service_cell names a b : only_service ns (fst names) a b -> only_cell names a b.
Proof. intros [E Hs]. split; [done|]. intros ? ? _. by rewrite E. Qed.

Lemma only_deployment_cell names a b : only_deployment ns (snd names) a b -> only_cell names a b.
Proof. intros [E Hd]. split; [|done]. intros ? ? _. by rewrite E. Qed.

(** The cell's service and deployment are the ones asked for. *)
Definition in_place (ch : ChildCellSpec) (a : Objects O) : Prop :=
  let '(sn, dn) := namesForCell (cs_ID ch) in
  exists image s d, svc_at a ns sn = Some s /\ same_service s (desired_service ns sn dn) /\
    dep_at a ns dn = Some d /\ same_deployment d (desired_deployment ns dn sn image ch).

Definition gone (cellID : string) (a : Objects O) : Prop :=
  let '(sn, dn) := namesForCell cellID in svc_at a ns sn = None /\ dep_at a ns dn = None.

Lemma ensure_service_run sn dn k :
  let '(r, k') := ensureCellService ns sn dn k in
  only_service ns sn (objects k) (objects k') /\
  (is_ok r = true -> exists t, svc_at (objects k') ns sn = Some t /\ same_service t (desired_service ns sn dn)).
Proof.
  unfold ensureCellService, mbind, St_bind, catch. pose proof (get_service_law ns sn k) as HG.
  destruct (GetService ns sn k) as [[cur|e] k1]; destruct HG as [HG1 HG2]; cbv beta iota.
  - destruct HG2 as (_ & En & Ens). set (new := mkService _ _ _ _ _ _).
    pose proof (update_service_law new k1) as HU. destruct (UpdateService new k1) as [r k2]. subst new. cbn in HU. rewrite En, Ens, HG1 in HU. exact HU.
  - destruct (IsNotFound e); [|unfold throw; rewrite HG1; by split; [split|]].
    pose proof (create_service_law (desired_service ns sn dn) k1) as HC. destruct (CreateService _ k1) as [r k2]. cbn in HC. by rewrite HG1 in HC.
Qed.

Lemma ensure_deployment_run sn dn image ch k :
  let '(r, k') := ensureCellDeployment ns dn sn image ch k in
  only_deployment ns dn (objects k) (objects k') /\
  (is_ok r = true -> exists t, dep_at (objects k') ns dn = Some t /\ same_deployment t (desired_deployment ns dn sn image ch)).
Proof.
  unfold ensureCellDeployment, mbind, St_bind, catch. pose proof (get_deployment_law ns dn k) as HG.
  destruct (GetDeployment ns dn k) as [[cur|e] k1]; destruct HG as [HG1 HG2]; cbv beta iota.
  - destruct HG2 as (_ & En & Ens). set (new := mkDeployment _ _ _ _ _).
    pose proof (update_deployment_law new k1) as HU. destruct (UpdateDeployment new k1) as [r k2]. subst new. cbn in HU. rewrite En, Ens, HG1 in HU. exact HU.
  - destruct (IsNotFound e); [|unfold throw; rewrite HG1; by split; [split|]].
    pose proof (create_deployment_law (desired_deployment ns dn sn image ch) k1) as HC. destruct (CreateDeployment _ k1) as [r k2]. cbn in HC. by rewrite HG1 in HC.
Qed.

Lemma resolve_image_run k : objects (snd (resolveCellImage ns MMO_CELL_IMAGE k)) = objects k.
Proof.
  unfold resolveCellImage. destruct (negb _); [done|]. unfold mbind, St_bind. pose proof (get_deployment_law ns "cell-node" k) as HG.
  destruct (GetDeployment ns "cell-node" k) as [[d|e] k1]; destruct HG as [HG _]; [|done]. by destruct (Containers (d_Spec d)).
Qed.

(** What a handler reports: at most one event, about this cell, true of the objects. *)
Definition reports (cellID : string) (good : Objects O -> Prop) (p p' : Plane K) : Prop :=
  lifecycle p' = lifecycle p \/
  exists ev, lifecycle p' = lifecycle p ++ [ev] /\ le_CellID ev = cellID /\ (le_OK ev = true -> good (objs p')).

Lemma publish_run ev (p p' : Plane K) r :
  publishCellLifecycle net ev p = (r, p') -> r = Ok tt /\ cluster p' = cluster p /\ (lifecycle p' = lifecycle p \/ lifecycle p' = lifecycle p ++ [ev]).
Proof.
  unfold publishCellLifecycle. intros [= <- <-]. split; [done|]. destruct (negb (nats p)); [by split; [|left]|]. split; [done|]. cbn.
  destruct (net (calls p)); auto.
Qed.

Lemma redis_run f (p p' : Plane K) r : redis_do (K:=K) net f p = (r, p') -> r = Ok tt /\ cluster p' = cluster p /\ lifecycle p' = lifecycle p.
Proof. unfold redis_do. intros [= <- <-]. by destruct (redis p). Qed.

(** A step that fails is reported; otherwise the handler goes on from the state after it. *)
Lemma or_failed_run {A} id parent prefix (m : St K A) (k : A -> St (Plane K) unit) names good p p' r :
  or_failed net id parent prefix m k p = (r, p') ->
  only_cell names (objects (cluster p)) (objects (snd (m (cluster p)))) ->
  (forall a p1, fst (m (cluster p)) = Ok a -> cluster p1 = snd (m (cluster p)) -> k a p1 = (r, p') -> only_cell names (objs p1) (objs p') /\ reports id good p1 p') ->
  only_cell names (objs p) (objs p') /\ reports id good p p'.
Proof.
  unfold or_failed, mbind, St_bind, catch, on_k8s. destruct (m (cluster p)) as [[a|e] k1] eqn:Em; cbn [fst snd]; intros Hr Hm Hk.
  - destruct (Hk a (mkPlane k1 (redis p) (nats p) (lifecycle p) (calls p)) eq_refl eq_refl Hr) as [H1 H2]. split; [by etrans|]. exact H2.
  - destruct (publish_run _ _ _ _ Hr) as (_ & Hc & Hl). unfold objs. rewrite Hc. split; [done|].
    destruct Hl as [Hl|Hl]; [by left|right]. eexists. split; [exact Hl|]. done.
Qed.

(** The last step of a handler that succeeded. *)
Lemma done_run (id : string) ev f (good : Objects O -> Prop) names (p p' : Plane K) (r : result unit) :
  (_ ← publishCellLifecycle net ev; redis_do net f) p = (r, p') -> le_CellID ev = id -> good (objs p) ->
  only_cell names (objs p) (objs p') /\ reports id good p p'.
Proof.
  unfold mbind, St_bind. destruct (publishCellLifecycle net ev p) as [r1 p1] eqn:Ep. destruct (publish_run _ _ _ _ Ep) as (-> & Hc & Hl).
  intros (_ & Hc' & Hl')%redis_run Hid Hg. unfold reports, objs in *. rewrite Hc', Hc, Hl'. split; [done|].
  destruct Hl as [->| ->]; [by left|right]. by exists ev.
Qed.

Lemma create_cell_run parent ch p p' r :
  create parent ch p = (r, p') -> only_cell (namesForCell (cs_ID ch)) (objs p) (objs p') /\ reports (cs_ID ch) (in_place ch) p p'.
Proof.
  unfold create_cell. destruct (String.eqb (trim_space (cs_ID ch)) ""); [intros [= <- <-]; split; [done|by left]|].
  destruct (namesForCell (cs_ID ch)) as [sn dn] eqn:En. intros Hr. refine (or_failed_run _ _ _ _ _ _ _ _ _ _ Hr _ _).
  { by rewrite resolve_image_run. }
  intros image p1 _ Hp1 Hr1. pose proof (ensure_service_run sn dn (cluster p1)) as HS.
  destruct (ensureCellService ns sn dn (cluster p1)) as [rs k1] eqn:Es. destruct HS as [HS1 HS2].
  refine (or_failed_run _ _ _ _ _ _ _ _ _ _ Hr1 _ _); [rewrite Es; by apply only_service_cell|].
  intros u p2 Hu Hp2 Hr2. rewrite Es in Hu, Hp2. cbn in Hu, Hp2. subst rs k1. destruct (HS2 eq_refl) as (s & Hs1 & Hs2).
  pose proof (ensure_deployment_run sn dn image ch (cluster p2)) as HD.
  destruct (ensureCellDeployment ns dn sn image ch (cluster p2)) as [rd k2] eqn:Ed. destruct HD as [HD1 HD2].
  refine (or_failed_run _ _ _ _ _ _ _ _ _ _ Hr2 _ _); [rewrite Ed; by apply only_deployment_cell|].
  intros v p3 Hv Hp3 Hr3. rewrite Ed in Hv, Hp3. cbn in Hv, Hp3. subst rd k2. destruct (HD2 eq_refl) as (d & Hd1 & Hd2).
  refine (done_run _ _ _ _ _ _ _ _ Hr3 eq_refl _). unfold in_place. rewrite En. exists image, s, d. unfold objs.
  destruct HD1 as [-> _]. by split_and!.
Qed.

Lemma unless_not_found_run (m : St K unit) k :
  let '(r, k') := m k in
  let '(r1, k1) := unless_not_found m k in
  k1 = k' /\ (is_ok r1 = true -> match r with Ok _ => True | Err e => IsNotFound e = true end).
Proof.
  unfold unless_not_found, on_error. destruct (m k) as [[u|e] k']; [done|]. by destruct (IsNotFound e).
Qed.

Lemma delete_cell_run cellID reason p p' r :
  remove cellID reason p = (r, p') -> trim_space cellID = cellID ->
  only_cell (namesForCell cellID) (objs p) (objs p') /\ reports cellID (gone cellID) p p'.
Proof.
  unfold handleRuntimeCellDelete. intros Hr Ht. rewrite Ht in Hr. revert Hr. cbv zeta.
  destruct (String.eqb cellID ""); [intros [= <- <-]; split; [done|by left]|].
  destruct (namesForCell cellID) as [sn dn] eqn:En. intros Hr.
  pose proof (unless_not_found_run (DeleteService ns sn) (cluster p)) as HU. pose proof (delete_service_law ns sn (cluster p)) as HS.
  destruct (DeleteService ns sn (cluster p)) as [rs k1]. destruct (unless_not_found _ (cluster p)) as [r1 k1'] eqn:E1.
  destruct HU as [-> HU], HS as [HS1 HS2].
  refine (or_failed_run _ _ _ _ _ _ _ _ _ _ Hr _ _); [rewrite E1; by apply only_service_cell|].
  intros u p1 Hu Hp1 Hr1. rewrite E1 in Hu, Hp1. cbn in Hu, Hp1. subst r1 k1.
  assert (svc_at (objects (cluster p1)) ns sn = None) as Hs by (destruct rs; [done|by apply HS2, HU]). clear HU HS1 HS2 E1.
  pose proof (unless_not_found_run (DeleteDeployment ns dn) (cluster p1)) as HU. pose proof (delete_deployment_law ns dn (cluster p1)) as HD.
  destruct (DeleteDeployment ns dn (cluster p1)) as [rd k2]. destruct (unless_not_found _ (cluster p1)) as [r2 k2'] eqn:E2.
  destruct HU as [-> HU], HD as [HD1 HD2].
  refine (or_failed_run _ _ _ _ _ _ _ _ _ _ Hr1 _ _); [rewrite E2; by apply only_deployment_cell|].
  intros v p2 Hv Hp2 Hr2. rewrite E2 in Hv, Hp2. cbn in Hv, Hp2. subst r2 k2.
  refine (done_run _ _ _ _ _ _ _ _ Hr2 eq_refl _). unfold gone. rewrite En. unfold objs. destruct HD1 as [-> _].
  split; [done|]. destruct rd; [done|by apply HD2, HU].
Qed.
End Handlers.

(** ** Names that are valid *)

Lemma string_forall_rev f s : string_forall f (String.rev s) = string_forall f s.
Proof.
  induction s as [|a s IH]; [done|]. change (String a s) with (String a "" +:+ s). rewrite string_rev_app2, !string_forall_app, IH. apply andb_comm.
Qed.

Lemma replace_runs_rfc1123 s b : string_forall rfc1123 (replace_runs b s) = true.
Proof.
  revert b. induction s as [|a s IH]; intros b; [done|]. cbn [replace_runs]. destruct (rfc1123 a) eqn:Ea; [cbn [string_forall]; by rewrite Ea, IH|].
  destruct b; [apply IH|]. cbn [string_forall]. by rewrite IH.
Qed.

Lemma trim_left_rfc1123 s : string_forall rfc1123 s = true -> string_forall rfc1123 (trim_hyphens_left s) = true.
Proof. induction s as [|a s IH]; [done|]. cbn [trim_hyphens_left]. destruct (byte_eqb a "-"); [|done]. intros [_ Hs]%andb_true_iff. by apply IH. Qed.

Lemma trim_hyphens_rfc1123 s : string_forall rfc1123 s = true -> string_forall rfc1123 (trim_hyphens s) = true.
Proof. intros Hs. unfold trim_hyphens. rewrite string_forall_rev. apply trim_left_rfc1123. rewrite string_forall_rev. by apply trim_left_rfc1123. Qed.

Lemma take_bytes_forall f n s : string_forall f s = true -> string_forall f (take_bytes n s) = true.
Proof. revert s. induction n as [|n IH]; intros [|a s]; try done. cbn. intros [-> Hs]%andb_true_iff. by apply IH. Qed.

Lemma take_bytes_length n s : String.length (take_bytes n s) <= n.
Proof. revert s. induction n as [|n IH]; intros [|a s]; cbn; try lia. specialize (IH s). lia. Qed.

Lemma name_stem_valid id : string_forall rfc1123 (name_stem id) = true /\ 1 <= String.length (name_stem id) <= 30.
Proof.
  unfold name_stem. set (s := trim_hyphens _). assert (string_forall rfc1123 s = true) as Hs by apply trim_hyphens_rfc1123, replace_runs_rfc1123.
  clearbody s. set (t := if Nat.ltb 30 (String.length s) then _ else s).
  assert (string_forall rfc1123 t = true /\ String.length t <= 30) as [Ht Hl].
  { subst t. destruct (Nat.ltb_spec 30 (String.length s)); [split; [by apply take_bytes_forall|apply take_bytes_length]|done]. }
  clearbody t. destruct (String.eqb_spec t "") as [|Hne]; [by split; [|cbn; lia]|]. split; [done|]. destruct t; [done|cbn in *; lia].
Qed.

(** The ids of cells down to the eighth level. *)
Definition shallow (id : string) : Prop := exists p, valid_path p /\ length p <= 8 /\ id = render p.

Lemma name_stem_inj a b : shallow a -> shallow b -> name_stem a = name_stem b -> a = b.
Proof.
  intros (p & Hp & Hlp & ->) (q & Hq & Hlq & ->). rewrite !name_stem_path by done. apply underscores_inj; by apply render_id_bytes.
Qed.

Lemma shallow_trimmed id : shallow id -> trim_space id = id.
Proof. intros (p & Hp & _ & ->). by apply trim_render. Qed.

Definition about (m : ControlMessage) : string := match m with ChildCreate _ _ ch => cs_ID ch | ChildDelete cellID _ => cellID end.

Section Messages.
Context {K O : Type} `{K8sLaws K O} (net : nat -> Outcome) (ns MMO_CELL_IMAGE : string).
#[local] Set Default Proof Using "Type*".

Abbreviation handled := (handle net ns MMO_CELL_IMAGE).

(** What a message asks for. *)
Definition done_as_asked (m : ControlMessage) (a : Objects O) : Prop :=
  match m with
  | ChildCreate _ _ ch => in_place (K:=K) ns ch a
  | ChildDelete cellID _ => gone ns cellID a
  end.

Lemma handle_run m p p' r :
  shallow (about m) -> handled m p = (r, p') ->
  only_cell ns (namesForCell (about m)) (objs p) (objs p') /\ reports (about m) (done_as_asked m) p p'.
Proof.
  intros Hs. destruct m as [parent rid ch|cellID reason]; [apply create_cell_run|]. intros Hr. eapply delete_cell_run; [exact Hr|by apply shallow_trimmed].
Qed.

(** Messages about other cells leave it as it is. *)
Lemma done_frame m names a b :
  fst names <> fst (namesForCell (about m)) -> snd names <> snd (namesForCell (about m)) -> only_cell ns names a b ->
  done_as_asked m a -> done_as_asked m b.
Proof.
  intros H1 H2 [Hs Hd]. unfold done_as_asked. destruct m as [parent rid ch|cellID reason]; unfold in_place, gone; cbn [about] in *.
  - destruct (namesForCell (cs_ID ch)) as [sn dn]. cbn [fst snd] in *. intros (image & s & d & E1 & E2 & E3 & E4). exists image, s, d.
    rewrite Hs, Hd by congruence. done.
  - destruct (namesForCell cellID) as [sn dn]. cbn [fst snd] in *. intros [E1 E2]. by rewrite Hs, Hd by congruence.
Qed.

(** The messages arrive one after the other. *)
Definition handle_all (msgs : list ControlMessage) (p : Plane K) : Plane K := fold_left (fun p m => snd (handled m p)) msgs p.

Lemma handle_all_frame m msgs p :
  shallow (about m) -> Forall (fun m' => shallow (about m') /\ about m' <> about m) msgs ->
  done_as_asked m (objs p) -> done_as_asked m (objs (handle_all msgs p)).
Proof.
  intros Hm Hall. revert p. induction Hall as [|m' msgs [Hs Hne] Hall IH]; intros p Hd; [done|]. apply IH.
  destruct (handled m' p) as [r p'] eqn:Er. destruct (handle_run _ _ _ _ Hs Er) as [Hf _]. cbn [snd].
  assert (name_stem (about m') <> name_stem (about m)) as Hn by (intros E; by apply Hne, name_stem_inj).
  eapply done_frame; [| |exact Hf|exact Hd]; intros E; apply string_app_inj in E as [_ E]; done.
Qed.
End Messages.

(** * Properties *)

(** C35: the names the controller gives are DNS labels of at most 45 bytes whatever the id of the cell, and
    cells of different paths down to the eighth level have different names. *)
Theorem namesForCell_spec :
  (forall id, let '(sn, dn) := namesForCell id in
    string_forall rfc1123 sn = true /\ string_forall rfc1123 dn = true /\ String.length sn <= 44 /\ String.length dn <= 45) /\
  (forall a b, shallow a -> shallow b -> a <> b -> fst (namesForCell a) <> fst (namesForCell b) /\ snd (namesForCell a) <> snd (namesForCell b)).
Proof.
  split.
  - intros id. unfold namesForCell. destruct (name_stem_valid id) as [Hv Hl]. rewrite !string_forall_app, Hv, !string_length_app. cbn [String.length]. split_and!; [done..|lia|lia].
  - intros a b Ha Hb Hne. split; intros E; apply string_app_inj in E as [_ E]; try done; by apply Hne, name_stem_inj.
Qed.

(** C9: what the controller announces is so and stays so, for cells down to the eighth level, whose names are
    distinct: after such a cell was reported as created its service and deployment run exactly the cell
    that was asked for, with the address of the service, and after it was reported as deleted they are
    gone, whatever later messages about other cells of these levels do or fail to do. *)
Theorem announced_stays {K O : Type} `{K8sLaws K O} (net : nat -> Outcome) (ns image : string)
    (m : ControlMessage) (msgs : list ControlMessage) (p : Plane K) (ev : CellLifecycleEvent)
    (Hm : shallow (about m)) (Hmsgs : Forall (fun m' => shallow (about m') /\ about m' <> about m) msgs)
    (Hev : lifecycle (snd (handle net ns image m p)) = lifecycle p ++ [ev]) (Hok : le_OK ev = true) :
  le_CellID ev = about m /\
  done_as_asked (K:=K) ns m (objs (handle_all net ns image msgs (snd (handle net ns image m p)))).
Proof.
  destruct (handle net ns image m p) as [r p1] eqn:Er. cbn [snd] in *.
  destruct (handle_run _ _ _ _ _ _ _ Hm Er) as [_ [Hl|(ev' & Hl & Hid & Hgood)]].
  { rewrite Hl in Hev. apply (f_equal length) in Hev. rewrite length_app in Hev. cbn in Hev. lia. }
  rewrite Hev in Hl. apply app_inj_2 in Hl as [_ [= ->]]; [|done]. split; [done|]. apply handle_all_frame; auto.
Qed.

(** * Witnesses *)

Definition child (id : string) : ChildCellSpec := mkChild id 1 (f64_of_Z 0) (f64_of_Z 100) (f64_of_Z 0) (f64_of_Z 100).
Definition lossless : nat -> Outcome := fun _ => Delivered.
Definition idle : Plane ApiServer := mkPlane (mkApi ∅ ∅) (Some ∅) true [] 0.

Lemma shallow_ids id : existsb (String.eqb id) ["cell_q0"; "cell_q1"; "cell_q2"; "cell_q3"] = true -> shallow id.
Proof.
  cbn. intros H. repeat (apply orb_true_iff in H as [->%String.eqb_eq|H]); [exists [0%Z]|exists [1%Z]|exists [2%Z]|exists [3%Z]|done];
    (split; [by repeat constructor|]; split; [cbn; lia|done]).
Qed.

Lemma announced_stays_witness :
  let p1 := snd (handle lossless "mmo" "cell:1" (ChildCreate "cell_root" "r" (child "cell_q0")) idle) in
  let p2 := handle_all lossless "mmo" "cell:1"
    [ChildCreate "cell_root" "r" (child "cell_q1"); ChildDelete "cell_q2" "merge"; ChildDelete "cell_q1" "merge"] p1 in
  done_as_asked (K:=ApiServer) "mmo" (ChildCreate "cell_root" "r" (child "cell_q0")) (objs p2).
Proof.
  intros p1 p2.
  exact (proj2 (announced_stays lossless "mmo" "cell:1" (ChildCreate "cell_root" "r" (child "cell_q0"))
    [ChildCreate "cell_root" "r" (child "cell_q1"); ChildDelete "cell_q2" "merge"; ChildDelete "cell_q1" "merge"] idle
    (mkLifecycle "cell_q0" "cell.created" true (Fmt "deployment=%s service=%s" [AStr "cell-node-auto-cell-q0"; AStr "mmo-cell-auto-cell-q0"]) "cell_root")
    (shallow_ids "cell_q0" eq_refl)
    ltac:(repeat apply Forall_cons_2; [split; [apply shallow_ids; reflexivity|discriminate]..|apply Forall_nil_2])
    ltac:(vm_compute; reflexivity) eq_refl)).
Defined.

(** At the ninth level the names of the four children of a cell are one name: the second child that is
    created takes the deployment of the first, and both are reported as created. *)
Definition deep (q : string) : string := "cell_q0_q0_q0_q0_q0_q0_q0_q0_" +:+ q.

Example deep_names_collide :
  namesForCell (deep "q0") = namesForCell (deep "q1") /\
  let p := handle_all lossless "mmo" "cell:1"
    [ChildCreate "p" "r" (child (deep "q0")); ChildCreate "p" "r" (child (deep "q1"))] idle in
  map le_OK (lifecycle p) = [true; true] /\
  map (fun d => flat_map Args (Containers (d_Spec d))) (map snd (map_to_list (api_deployments (cluster p)))) =
    [cell_args (child (deep "q1"))].
Proof. split; [reflexivity|]. split; by vm_compute. Qed.

(** Cut to length, a name may end with a hyphen, which no DNS label does. *)
Example name_ends_with_hyphen : snd (namesForCell "abcdefghijklmnopqrstuvwxyz012_4") = "cell-node-auto-abcdefghijklmnopqrstuvwxyz012-".
Proof. reflexivity. Qed.
