(* ===== verification/CellNode.v ===== *)
(** [cmd/cell-node]: the process of a cell. It reads its flags, restores the state of the cell from Redis,
    registers in Consul or at the grid manager, serves, and saves the state and deregisters when it is
    told to stop. *)
From Stdlib Require Import Ascii ZArith Lia.
From S2P Require Import Prelude Effects GoFloat GoString Partition Registry Ecs Aoi Replic CellSim CellSvc CellOps RegistrySvc Workflow HostPort GoNumber GoFormat GoFlag Consul Controller.
Local Open Scope string_scope.
Local Open Scope list_scope.

(** * The command line *)

(** The flags and their defaults. *)
Record Flags := mkFlags {
  listen : string; grpcAdvertise : string; registryAddr : string; consulAddr : string; cellID : string; level : Z;
  xmin : f64; xmax : f64; zmin : f64; zmax : f64; demoNPCs : Z; metricsListen : string; persistSnapshot : bool }.

Definition default_flags : Flags :=
  mkFlags "127.0.0.1:0" "" "127.0.0.1:9100" "" "" 0 (f64_of_Z (-1000)) (f64_of_Z 1000) (f64_of_Z (-1000)) (f64_of_Z 1000) 0 "" true.

Definition set_flag (name value : string) (f : Flags) : result Flags :=
  let '(mkFlags li ga ra ca id lv x0 x1 z0 z1 demo ml ps) := f in
  if String.eqb name "listen" then Ok (mkFlags value ga ra ca id lv x0 x1 z0 z1 demo ml ps)
  else if String.eqb name "grpc-advertise" then Ok (mkFlags li value ra ca id lv x0 x1 z0 z1 demo ml ps)
  else if String.eqb name "registry" then Ok (mkFlags li ga value ca id lv x0 x1 z0 z1 demo ml ps)
  else if String.eqb name "consul-addr" then Ok (mkFlags li ga ra value id lv x0 x1 z0 z1 demo ml ps)
  else if String.eqb name "id" then Ok (mkFlags li ga ra ca value lv x0 x1 z0 z1 demo ml ps)
  else if String.eqb name "level" then n ← ParseInt0 value; Ok (mkFlags li ga ra ca id n x0 x1 z0 z1 demo ml ps)
  else if String.eqb name "xmin" then x ← ParseFloat64 value; Ok (mkFlags li ga ra ca id lv x x1 z0 z1 demo ml ps)
  else if String.eqb name "xmax" then x ← ParseFloat64 value; Ok (mkFlags li ga ra ca id lv x0 x z0 z1 demo ml ps)
  else if String.eqb name "zmin" then x ← ParseFloat64 value; Ok (mkFlags li ga ra ca id lv x0 x1 x z1 demo ml ps)
  else if String.eqb name "zmax" then x ← ParseFloat64 value; Ok (mkFlags li ga ra ca id lv x0 x1 z0 x demo ml ps)
  else if String.eqb name "demo-npcs" then n ← ParseInt0 value; Ok (mkFlags li ga ra ca id lv x0 x1 z0 z1 n ml ps)
  else if String.eqb name "metrics-listen" then Ok (mkFlags li ga ra ca id lv x0 x1 z0 z1 demo value ps)
  else if String.eqb name "persist-snapshot" then
    b ← bool_flag value; Ok (mkFlags li ga ra ca id lv x0 x1 z0 z1 demo ml b)
  else flag_error.

(** [flag.Parse]; the positional arguments are not looked at. *)
Definition is_bool_flag (name : string) : bool := String.eqb name "persist-snapshot".
Definition parse_args (args : list string) (f : Flags) : result Flags :=
  '(f, _) ← parse_flags set_flag is_bool_flag args f; Ok f.

(** * The process *)

(** The rest of the system, the data in Redis if the process has one, and how often it was asked. *)
Record Host (S : Type) := mkHost { system : S; redis : option (gmap string string); calls : nat }.
Arguments mkHost {S} _ _ _.
Arguments system {S} _.
Arguments redis {S} _.
Arguments calls {S} _.

(** What the process gets from outside: environment variables, the address it is given to listen on, the
    Consul client, protobuf, and the call of the registry service. *)
Record NodeEnv (S : Type) := mkNodeEnv {
  MMO_CELL_GRPC_ADVERTISE : string; CELL_GRPC_ENDPOINT : string; HOSTNAME : string; CONSUL_HTTP_ADDR : string;
  net_Listen : string -> result string;
  NewConsulClient : string -> result unit;
  marshal : CellPersist -> result string; unmarshal : string -> result CellPersist;
  redis_net : nat -> Outcome;
  register_rpc : string -> CellSpec -> St S unit }.
Arguments mkNodeEnv {S} _ _ _ _ _ _ _ _ _ _.
Arguments MMO_CELL_GRPC_ADVERTISE {S} _.
Arguments CELL_GRPC_ENDPOINT {S} _.
Arguments HOSTNAME {S} _.
Arguments CONSUL_HTTP_ADDR {S} _.
Arguments net_Listen {S} _ _.
Arguments NewConsulClient {S} _ _.
Arguments marshal {S} _ _.
Arguments unmarshal {S} _ _.
Arguments redis_net {S} _ _.
Arguments register_rpc {S} _ _ _.

Definition redisStateKey (cellID : string) : string := "mmo:cell:" +:+ cellID +:+ ":state".

Section Node.
Context {S : Type} `{!ConsulAgent S} (env : NodeEnv S).

Abbreviation N := (St (Host S)).

Definition on_system {A} (m : St S A) : N A := fun h =>
  let '(r, s) := m (system h) in (r, mkHost s (redis h) (calls h)).

(** [rdb.Get]; [None] is [redis.Nil]. *)
Definition redis_get (data : gmap string string) (key : string) : N (option string) := fun h =>
  let h' := mkHost (system h) (redis h) (Datatypes.S (calls h)) in
  match redis_net env (calls h) with
  | Delivered => (Ok (data !! key), h')
  | LostRequest e | LostReply e => (Err e, h')
  end.

Definition redis_set (data : gmap string string) (key value : string) : N unit := fun h =>
  let h' := mkHost (system h) (redis h) (Datatypes.S (calls h)) in
  let done := mkHost (system h) (Some (<[key := value]> data)) (Datatypes.S (calls h)) in
  match redis_net env (calls h) with
  | Delivered => (Ok tt, done)
  | LostRequest e => (Err e, h')
  | LostReply e => (Err e, done)
  end.

(** The restored runtime; [None] is false. *)
Definition loadPersistedState (key : string) (sim : Runtime) : N (option Runtime) := fun h =>
  match redis h with
  | None => (Ok None, h)
  | Some data =>
      (b ← catch (redis_get data key);
       mret (match b with
       | Err _ | Ok None => None
       | Ok (Some b) =>
           match unmarshal env b with
           | Err _ => None
           | Ok p => match Decode order_id true (Some sim) (Some p) with Ok sim => Some sim | Err _ => None end
           end
       end)) h
  end.

Definition savePersistedState (o : iter_order) (key : string) (cellSvc : Server) : N unit := fun h =>
  match redis h with
  | None => (Ok tt, h)
  | Some data =>
      match marshal env (Encode o (Sim cellSvc) (Some (IsPlayer cellSvc))) with
      | Err _ => (Ok tt, h)
      | Ok b => ignore (redis_set data key b) h
      end
  end.

Definition with_demo_npcs (n : Z) (sim : Runtime) : Runtime := if (0 <? n)%Z then SpawnDemoNPCs n sim else sim.

Definition tryLoadAndMaybeSpawnNPCs (key : string) (sim : Runtime) (demoNPCs : Z) (usePersist : bool) : N Runtime := fun h =>
  if negb usePersist || bool_decide (redis h = None) then (Ok (with_demo_npcs demoNPCs sim), h)
  else (loaded ← loadPersistedState key sim;
        mret (match loaded with Some sim => sim | None => with_demo_npcs demoNPCs sim end)) h.

Definition saveOnShutdown (o : iter_order) (key : string) (cellSvc : Server) (usePersist : bool) : N unit := fun h =>
  if negb usePersist || bool_decide (redis h = None) then (Ok tt, h) else savePersistedState o key cellSvc h.

Definition grpcEndpointForRegistry (flagAdvertise listenAddr : string) : string :=
  default listenAddr (find (fun s => negb (String.eqb s ""))
    [trim_space flagAdvertise; trim_space (MMO_CELL_GRPC_ADVERTISE env); trim_space (CELL_GRPC_ENDPOINT env)]).

Definition usePersist (f : Flags) (h : Host S) : bool := persistSnapshot f && bool_decide (redis h <> None).
Definition caddr (f : Flags) : string := if String.eqb (consulAddr f) "" then CONSUL_HTTP_ADDR env else consulAddr f.

(** [main] up to the point where it waits; an error ends the process. *)
Definition start (args : list string) : N (Flags * Server) :=
  f ← lift (parse_args args default_flags);
  h ← get;
  _ ← guard_fail (String.eqb (cellID f) "") (errorf "cell-node: -id is required" []);
  _ ← guard_fail (fle (xmax f) (xmin f) || fle (zmax f) (zmin f)) (errorf "invalid bounds" []);
  listenAddr ← lift (net_Listen env (listen f));
  let endpoint := grpcEndpointForRegistry (grpcAdvertise f) listenAddr in
  let bounds := mkBounds (xmin f) (xmax f) (zmin f) (zmax f) in
  let spec := mkCellSpec (cellID f) (int32 (level f)) (Some bounds) endpoint in
  sim ← tryLoadAndMaybeSpawnNPCs (redisStateKey (cellID f)) NewRuntime (demoNPCs f) (usePersist f h);
  let cellSvc := mkServer (cellID f) (Some sim) (Some bounds) (int32 (level f)) ∅ ∅ ∅ ∅ ∅ ∅ false [] false in
  _ ← (if negb (String.eqb (caddr f) "") then
         _ ← lift (NewConsulClient env (caddr f));
         on_system (Consul.RegisterCell (HOSTNAME env) (Some spec))
       else on_system (register_rpc env (registryAddr f) spec));
  mret (f, cellSvc).

(** [main] from the signal on. *)
Definition stop (o : iter_order) (f : Flags) (cellSvc : Server) : N unit :=
  h ← get;
  _ ← saveOnShutdown o (redisStateKey (cellID f)) cellSvc (usePersist f h);
  if negb (String.eqb (caddr f) "")
  then ignore (on_system (Consul.Deregister (ConsulServiceInstanceID (HOSTNAME env) (cellID f))))
  else mret tt.
End Node.

(** * What a start went through *)

Section Facts.
Context {S : Type} `{!ConsulAgent S} (env : NodeEnv S).
#[local] Set Default Proof Using "Type*".

Definition spec_of (f : Flags) (endpoint : string) : CellSpec :=
  mkCellSpec (cellID f) (int32 (level f)) (Some (mkBounds (xmin f) (xmax f) (zmin f) (zmax f))) endpoint.

Definition server_of (f : Flags) (sim : Runtime) : Server :=
  mkServer (cellID f) (Some sim) (Some (mkBounds (xmin f) (xmax f) (zmin f) (zmax f))) (int32 (level f)) ∅ ∅ ∅ ∅ ∅ ∅ false [] false.

Lemma start_inv args h f s h' :
  start env args h = (Ok (f, s), h') ->
  parse_args args default_flags = Ok f /\ cellID f <> "" /\ fle (xmax f) (xmin f) = false /\ fle (zmax f) (zmin f) = false /\
  exists addr sim h1, net_Listen env (listen f) = Ok addr /\
    tryLoadAndMaybeSpawnNPCs env (redisStateKey (cellID f)) NewRuntime (demoNPCs f) (usePersist f h) h = (Ok sim, h1) /\
    s = server_of f sim /\
    (caddr env f <> "" -> on_system (Consul.RegisterCell (HOSTNAME env) (Some (spec_of f (grpcEndpointForRegistry env (grpcAdvertise f) addr)))) h1 = (Ok tt, h')).
Proof.
  unfold start. intros (f0 & h0 & Hp & Hr)%bind_inv. injection Hp as Hp <-.
  apply bind_inv in Hr as (h0' & h1' & Hg & Hr). injection Hg as <- <-.
  apply bind_inv in Hr as (u1 & ? & [Hid ->]%guard_inv & Hr). apply bind_inv in Hr as (u2 & ? & [Hb ->]%guard_inv & Hr).
  apply bind_inv in Hr as (addr & ha & Hl & Hr). injection Hl as Hl <-. cbv zeta in Hr.
  apply bind_inv in Hr as (sim & h1 & Ht & Hr). apply bind_inv in Hr as ([] & h2 & Hreg & Hr). injection Hr as -> <- <-.
  apply String.eqb_neq in Hid. apply orb_false_iff in Hb as [Hb1 Hb2]. split_and!; [done..|].
  exists addr, sim, h1. split_and!; [done..|]. intros Hc. apply String.eqb_neq in Hc. rewrite Hc in Hreg. cbn [negb] in Hreg.
  apply bind_inv in Hreg as ([] & h1' & Hcl & Hreg). by injection Hcl as _ <-.
Qed.

(** A save that is answered is in Redis. *)
Lemma save_run o key s rt h data b :
  Sim s = Some rt -> redis h = Some data -> marshal env (export_state o s rt) = Ok b -> redis_net env (calls h) = Delivered ->
  savePersistedState env o key s h = (Ok tt, mkHost (system h) (Some (<[key := b]> data)) (Datatypes.S (calls h))).
Proof.
  intros Hs Hd Hm Hn. unfold savePersistedState. rewrite Hd, Hs. change (Encode o (Some rt) (Some (IsPlayer s))) with (export_state o s rt).
  rewrite Hm. unfold ignore, redis_set. by rewrite Hn.
Qed.

(** A load of what a cell exported. *)
Lemma load_run o key s rt h data b rd :
  redis h = Some data -> data !! key = Some b -> unmarshal env b = Ok (export_state o s rt) -> redis_net env (calls h) = Delivered ->
  exists rd' h', loadPersistedState env key rd h = (Ok (Some rd'), h') /\ Decode order_id true (Some rd) (Some (export_state o s rt)) = Ok rd'.
Proof.
  intros Hd Hk Hu Hn. destruct (decode_export o order_id s rt rd) as (rd' & E & _). unfold loadPersistedState. rewrite Hd.
  unfold mbind, St_bind, catch, redis_get. rewrite Hn, Hk. cbv beta iota. rewrite Hu, E. by eexists _, _.
Qed.

Lemma on_system_redis {A} (m : St S A) h : redis (snd (on_system m h)) = redis h.
Proof. unfold on_system. by destruct (m (system h)). Qed.
End Facts.

(** ** The command line of a deployment *)

Definition area (ch : ChildCellSpec) : Bounds := mkBounds (cs_XMin ch) (cs_XMax ch) (cs_ZMin ch) (cs_ZMax ch).
(** The values the Go types can hold. *)
Definition child_typed (ch : ChildCellSpec) : Prop := (- 2 ^ 31 <= cs_Level ch < 2 ^ 31)%Z /\ bounds_valid (area ch).

Definition child_flags (ch : ChildCellSpec) : Flags :=
  mkFlags "0.0.0.0:50051" "" "127.0.0.1:9100" "" (cs_ID ch) (cs_Level ch) (cs_XMin ch) (cs_XMax ch) (cs_ZMin ch) (cs_ZMax ch) 0 "0.0.0.0:9090" true.

Lemma parse_cell_args ch : child_typed ch -> parse_args (cell_args ch) default_flags = Ok (child_flags ch).
Proof.
  intros [Hl (H1 & H2 & H3 & H4)]. cbn [area XMin XMax ZMin ZMax] in *.
  unfold cell_args, default_flags, parse_args.
  erewrite (parse_flags_step _ _ "-listen") by reflexivity. erewrite (parse_flags_step _ _ "-id") by reflexivity.
  erewrite (parse_flags_step _ _ "-level") by (try reflexivity; cbn; rewrite ParseInt0_itoa by lia; reflexivity).
  erewrite (parse_flags_step _ _ "-xmin") by (try reflexivity; cbn; rewrite Sprintf_g_reads by done; reflexivity).
  erewrite (parse_flags_step _ _ "-xmax") by (try reflexivity; cbn; rewrite Sprintf_g_reads by done; reflexivity).
  erewrite (parse_flags_step _ _ "-zmin") by (try reflexivity; cbn; rewrite Sprintf_g_reads by done; reflexivity).
  erewrite (parse_flags_step _ _ "-zmax") by (try reflexivity; cbn; rewrite Sprintf_g_reads by done; reflexivity).
  erewrite (parse_flags_step _ _ "-metrics-listen") by reflexivity. done.
Qed.

(** ** The cell that was planned *)

Definition planned (ns : string) (ch : ChildCellSpec) : CellSpec :=
  mkCellSpec (cs_ID ch) (cs_Level ch) (Some (area ch)) (advertise_address ns (fst (namesForCell (cs_ID ch)))).

(** A namespace of Kubernetes is a DNS label. *)
Definition namespace_ok (ns : string) : Prop := string_forall rfc1123 ns = true.

Lemma advertise_shape ns sn : advertise_address ns sn = JoinHostPort (sn +:+ "." +:+ ns +:+ ".svc.cluster.local") (itoa 50051) \/ has_byte ":" (sn +:+ "." +:+ ns +:+ ".svc.cluster.local") = true.
Proof.
  unfold JoinHostPort. destruct (has_byte ":" _); [by right|left]. unfold advertise_address. change (itoa 50051) with "50051".
  rewrite <- !string_app_assoc. done.
Qed.

Lemma advertise_host ns id c :
  namespace_ok ns -> rfc1123 c = false -> c <> "."%char -> has_byte c (fst (namesForCell id) +:+ "." +:+ ns +:+ ".svc.cluster.local") = false.
Proof.
  intros Hns Hc Hd. unfold namesForCell. cbn [fst]. destruct (name_stem_valid id) as [Hv _].
  assert (forall s, string_forall rfc1123 s = true -> has_byte c s = false) as Hb by (intros s Hs; by eapply has_byte_forall).
  rewrite !has_byte_app, (Hb ns), (Hb (name_stem id)), (Hb "mmo-cell-auto-"), (has_byte_cons c "." "") by done.
  assert (byte_eqb "." c = false) as Hdot by (by apply Ascii.eqb_neq, not_eq_sym).
  change ".svc.cluster.local" with ("." +:+ "svc" +:+ "." +:+ "cluster" +:+ "." +:+ "local").
  rewrite !has_byte_app, (Hb "svc"), (Hb "cluster"), (Hb "local"), (has_byte_cons c "." "") by done. by rewrite Hdot.
Qed.

Lemma advertise_trimmed ns id : trim_space (advertise_address ns (fst (namesForCell id))) = advertise_address ns (fst (namesForCell id)).
Proof.
  unfold advertise_address, namesForCell. cbn [fst].
  assert ((("mmo-cell-auto-" +:+ name_stem id) +:+ "." +:+ ns +:+ ".svc.cluster.local:50051") =
    String "m" ("mo-cell-auto-" +:+ name_stem id +:+ "." +:+ ns) +:+ ".svc.cluster.local:50051") as ->.
  { rewrite <- !string_app_assoc. cbn. rewrite <- !string_app_assoc. done. }
  by apply trim_space_ends.
Qed.

Lemma planned_canonical ns ch :
  namespace_ok ns -> shallow (cs_ID ch) -> child_typed ch -> fle (cs_XMax ch) (cs_XMin ch) = false -> fle (cs_ZMax ch) (cs_ZMin ch) = false ->
  canonical (planned ns ch).
Proof.
  intros Hns Hid [Hl Hb] H1 H2. split.
  - split; [done|]. by intros b [= <-].
  - split; [by apply shallow_trimmed|]. cbn. destruct Hid as (p & _ & _ & ->). apply render_nonempty.
  - by eexists.
  - assert (forall c, rfc1123 c = false -> c <> "."%char -> has_byte c (fst (namesForCell (cs_ID ch)) +:+ "." +:+ ns +:+ ".svc.cluster.local") = false) as Hh
      by (intros; by apply advertise_host).
    destruct (advertise_shape ns (fst (namesForCell (cs_ID ch)))) as [E|E]; [|by rewrite Hh in E].
    exists (fst (namesForCell (cs_ID ch)) +:+ "." +:+ ns +:+ ".svc.cluster.local"), 50051%Z.
    split; [exact E|]. split; [by split; apply Hh|done].
Qed.

(** * Properties *)

(** C8: a cell the grid manager asks for comes up as it was planned. A process started with the command
    line and the advertised address of the deployment that is in place for it, once it runs, is registered
    in Consul under its id with the planned level, area and the address of its service, and serves that
    cell. *)
Theorem child_registers_as_planned {K O S : Type} `{K8sLaws K O} `{AgentLaws S}

    (ns : string) (Hns : namespace_ok ns) (ch : ChildCellSpec) (Hid : shallow (cs_ID ch)) (Ht : child_typed ch)
    (k : K) (Hk : in_place (K:=K) ns ch (objects k))
    (d : Deployment O) (Hd : dep_at (objects k) ns (snd (namesForCell (cs_ID ch))) = Some d)
    (c : Container) (Hc : Containers (d_Spec d) = [c])
    (env : NodeEnv S) (Henv : ("MMO_CELL_GRPC_ADVERTISE", MMO_CELL_GRPC_ADVERTISE env) ∈ EnvVars c) (Hconsul : CONSUL_HTTP_ADDR env <> "")
    (h h' : Host S) (f : Flags) (s : Server) (Hs : start env (Args c) h = (Ok (f, s), h')) :
  CellID s = cs_ID ch /\ SLevel s = cs_Level ch /\ SBounds s = Some (area ch) /\
  exists svc, svc_ID svc = ConsulServiceInstanceID (HOSTNAME env) (cs_ID ch) /\ lists (system h') svc (planned ns ch).
Proof.
  unfold in_place in Hk. destruct (namesForCell (cs_ID ch)) as [sn dn] eqn:En. cbn [snd] in Hd.
  destruct Hk as (image & s0 & d0 & _ & _ & Hd0 & (_ & _ & _ & Esp)). rewrite Hd in Hd0. injection Hd0 as <-.
  rewrite Esp in Hc. cbn in Hc. injection Hc as <-. cbn [Args EnvVars] in *.
  assert (MMO_CELL_GRPC_ADVERTISE env = advertise_address ns (fst (namesForCell (cs_ID ch)))) as Hadv.
  { rewrite En. apply elem_of_cons in Henv as [[= ->]|[[= ?]|?%not_elem_of_nil]%elem_of_cons]; done. }
  destruct (start_inv _ _ _ _ _ _ Hs) as (Ha & Hne & Hx & Hz & addr & sim & h1 & _ & _ & -> & Hreg).
  rewrite parse_cell_args in Ha by done. injection Ha as <-. cbn [child_flags xmin xmax zmin zmax cellID level grpcAdvertise] in *.
  unfold server_of. cbn [CellID SLevel SBounds child_flags xmin xmax zmin zmax cellID level]. destruct Ht as [Hl Hb].
  rewrite int32_id by done. split_and!; [done..|].
  assert (spec_of (child_flags ch) (grpcEndpointForRegistry env "" addr) = planned ns ch) as Espec.
  { unfold spec_of, planned, grpcEndpointForRegistry. cbn [child_flags xmin xmax zmin zmax cellID level find]. rewrite Hadv, advertise_trimmed, int32_id by done.
    assert (String.eqb (advertise_address ns (fst (namesForCell (cs_ID ch)))) "" = false) as ->; [|done]. unfold namesForCell, advertise_address. done. }
  rewrite Espec in Hreg. specialize (Hreg Hconsul). unfold on_system in Hreg.
  destruct (Consul.RegisterCell (HOSTNAME env) (Some (planned ns ch)) (system h1)) as [r s1] eqn:Er. injection Hreg as -> <-. cbn [system].
  destruct (canonical_registration (planned ns ch)) as (reg & Ereg & _ & En' & Hread); [by apply planned_canonical|].
  unfold Consul.RegisterCell in Er. rewrite Ereg in Er. unfold mbind, St_bind, lift in Er. cbv beta iota in Er. cbn [from_option] in Er.
  pose proof (register_law (with_ID (ConsulServiceInstanceID (HOSTNAME env) (cs_ID ch)) reg) (system h1)) as HL.
  change (Id (planned ns ch)) with (cs_ID ch) in Er. rewrite Er in HL. destruct HL as [_ HL].
  exists (service_of (ConsulServiceInstanceID (HOSTNAME env) (cs_ID ch)) reg). split; [done|]. split; [by apply HL|]. split; [done|apply Hread].
Qed.

(** C10: a cell that is stopped and started again has its NPCs back: if the save and the load reach Redis, the
    new process has exactly the NPCs the old one had, each at its position rounded to single precision,
    none of its players, and goes on at its tick. *)
Theorem restart_restores_npcs {S : Type} `{!ConsulAgent S} (env : NodeEnv S)
    (o : iter_order) (f f' : Flags) (s s' : Server) (rt : Runtime) (h h1 h2 h3 : Host S) (args : list string) (b : string) (r : result unit)
    (Hrt : Sim s = Some rt) (Hm : marshal env (export_state o s rt) = Ok b) (Hu : unmarshal env b = Ok (export_state o s rt))
    (Hpersist : usePersist f h = true) (Hsave : redis_net env (calls h) = Delivered) (Hstop : stop env o f s h = (r, h1))
    (Hredis : redis h2 = redis h1) (Hload : redis_net env (calls h2) = Delivered)
    (Hstart : start env args h2 = (Ok (f', s'), h3)) (Hid : cellID f' = cellID f) (Hpersist' : persistSnapshot f' = true) :
  exists rt', Sim s' = Some rt' /\ playerByID s' = ∅ /\
    (forall e, e ∈ alive (rt_World rt') <-> npc s rt e) /\
    (forall e pos, npc s rt e -> PositionOf (rt_World rt) e = Some pos ->
      PositionOf (rt_World rt') e = Some (mkPosition (of_f32 (to_f32 (X pos))) (of_f32 (to_f32 (Y pos))) (of_f32 (to_f32 (Z_ pos))))) /\
    TickCount (Stats (Loop rt')) = TickCount (Stats (Loop rt)).
Proof.
  assert (exists data, redis h = Some data) as [data Hd].
  { unfold usePersist in Hpersist. apply andb_true_iff in Hpersist as [_ Hne%bool_decide_eq_true]. destruct (redis h); [by eexists|done]. }
  assert (redis h1 = Some (<[redisStateKey (cellID f) := b]> data)) as Hd1.
  { unfold stop in Hstop. unfold mbind, St_bind, get in Hstop. cbv beta iota in Hstop. unfold saveOnShutdown in Hstop.
    rewrite Hpersist, bool_decide_eq_false_2 in Hstop by (by rewrite Hd). cbn [negb orb] in Hstop. rewrite (save_run env o _ s rt h data b) in Hstop by done.
    destruct (negb (String.eqb (caddr env f) "")); [|by injection Hstop as _ <-]. unfold ignore in Hstop. injection Hstop as _ <-. by rewrite on_system_redis. }
  rewrite Hd1 in Hredis. destruct (start_inv _ _ _ _ _ _ Hstart) as (_ & _ & _ & _ & addr & sim & h4 & _ & Htry & -> & _).
  unfold tryLoadAndMaybeSpawnNPCs in Htry. unfold usePersist in Htry. rewrite Hredis, Hpersist', bool_decide_eq_true_2, bool_decide_eq_false_2 in Htry by done.
  cbn [andb negb orb] in Htry. rewrite Hid in Htry.
  destruct (load_run env o (redisStateKey (cellID f)) s rt h2 _ b NewRuntime Hredis (lookup_insert_eq _ _ _) Hu Hload) as (rd & h5 & El & Ed).
  unfold mbind, St_bind in Htry. rewrite El in Htry. injection Htry as <- _.
  destruct (decode_export o order_id s rt NewRuntime) as (rd' & Ed' & H1 & H2 & H3). rewrite Ed in Ed'. injection Ed' as <-.
  exists rd. by split_and!.
Qed.

(** * Witnesses *)

(** A process in a pod, with a codec that knows the state it is to save. *)
Definition pod_env (advertise : string) (p : CellPersist) (net : nat -> Outcome) : NodeEnv Agent :=
  mkNodeEnv advertise "" "pod-1" "consul:8500" (fun _ => Ok "[::]:50051") (fun _ => Ok tt) (fun _ => Ok "state") (fun _ => Ok p) net (fun _ _ => mret tt).

Definition child_q0 : ChildCellSpec := child "cell_q0".
Definition api_with_child : ApiServer :=
  cluster (snd (create_cell lossless "mmo" "cell:1" "cell_root" child_q0 idle)).
Definition child_env : NodeEnv Agent := pod_env "mmo-cell-auto-cell-q0.mmo.svc.cluster.local:50051" (mkPersist 1 0 f0 []) lossless.
Definition child_container : Container :=
  mkContainer "cell-node" "cell:1" "Always" ["/cell-node"] restrictedContainerSecurityContext (cell_args child_q0)
    [("grpc", 50051%Z); ("metrics", 9090%Z)]
    [("MMO_CELL_GRPC_ADVERTISE", "mmo-cell-auto-cell-q0.mmo.svc.cluster.local:50051"); ("MMO_LOG_FORMAT", "json")] ["mmo-backend"].
Definition child_deployment : Deployment unit :=
  mkDeployment "cell-node-auto-cell-q0" "mmo" (labels_of "cell-node-auto-cell-q0")
    (mkDeploymentSpec 1 (labels_of "cell-node-auto-cell-q0") (labels_of "cell-node-auto-cell-q0") restrictedPodSecurityContext [child_container]) tt.

Lemma child_in_place : in_place (K:=ApiServer) "mmo" child_q0 (objects api_with_child).
Proof.
  unfold in_place. change (namesForCell (cs_ID child_q0)) with ("mmo-cell-auto-cell-q0", "cell-node-auto-cell-q0").
  exists "cell:1", (desired_service (K:=ApiServer) "mmo" "mmo-cell-auto-cell-q0" "cell-node-auto-cell-q0"), child_deployment.
  split; [by vm_compute|]. split; [by split_and!|]. split; [by vm_compute|by split_and!].
Qed.

Lemma child_typed_q0 : child_typed child_q0.
Proof. split; [done|]. split_and!; by vm_compute. Qed.

Lemma child_registers_as_planned_witness :
  exists f s h', start child_env (Args child_container) (mkHost (mkAgent ∅) None 0) = (Ok (f, s), h') /\
    CellID s = "cell_q0" /\ exists svc, svc_ID svc = "cell_q0-pod-1" /\ lists (system h') svc (planned "mmo" child_q0).
Proof.
  destruct (start child_env (Args child_container) (mkHost (mkAgent ∅) None 0)) as [r h'] eqn:E.
  assert (is_ok r = true) as Hr by (pose proof (f_equal (fun x => is_ok (fst x)) E) as H; cbn [fst] in H; rewrite <- H; vm_compute; reflexivity).
  destruct r as [[f s]|e]; [|discriminate Hr].
  exists f, s, h'. split; [reflexivity|].
  destruct (child_registers_as_planned "mmo" eq_refl child_q0 (shallow_ids "cell_q0" eq_refl) child_typed_q0 api_with_child child_in_place
    child_deployment ltac:(vm_compute; reflexivity) child_container eq_refl child_env
    ltac:(apply list_elem_of_here) ltac:(vm_compute; discriminate) (mkHost (mkAgent ∅) None 0) h' f s E) as (H1 & _ & _ & H2).
  split; [exact H1|exact H2].
Defined.

(** A cell with three NPCs is stopped and started. *)
Definition npc_server : Server := server_of (child_flags child_q0) (SpawnDemoNPCs 3 NewRuntime).
Definition npc_env (net : nat -> Outcome) : NodeEnv Agent := pod_env "cell:1" (export_state order_id npc_server (SpawnDemoNPCs 3 NewRuntime)) net.
Definition with_redis (data : gmap string string) (calls : nat) : Host Agent := mkHost (mkAgent ∅) (Some data) calls.

Lemma restart_restores_npcs_witness :
  exists f s h3 rt, start (npc_env lossless) (Args child_container)
      (snd (stop (npc_env lossless) order_id (child_flags child_q0) npc_server (with_redis ∅ 0))) = (Ok (f, s), h3) /\
    Sim s = Some rt /\ forall e, e ∈ alive (rt_World rt) <-> npc npc_server (SpawnDemoNPCs 3 NewRuntime) e.
Proof.
  destruct (stop (npc_env lossless) order_id (child_flags child_q0) npc_server (with_redis ∅ 0)) as [r1 h1] eqn:E1. cbn [snd].
  assert (h1 = snd (stop (npc_env lossless) order_id (child_flags child_q0) npc_server (with_redis ∅ 0))) as Hh1 by exact (eq_sym (f_equal snd E1)).
  destruct (start (npc_env lossless) (Args child_container) h1) as [r h3] eqn:E.
  assert (is_ok r = true) as Hr by (pose proof (f_equal (fun x => is_ok (fst x)) E) as H; cbn [fst] in H; rewrite <- H, Hh1; vm_compute; reflexivity).
  destruct r as [[f s]|e]; [|discriminate Hr].
  destruct (start_inv _ _ _ _ _ _ E) as (Hf & _).
  assert (Hid : parse_args (Args child_container) default_flags = Ok (child_flags child_q0)) by exact (parse_cell_args child_q0 child_typed_q0).
  rewrite Hid in Hf. injection Hf as <-.
  destruct (restart_restores_npcs (npc_env lossless) order_id (child_flags child_q0) (child_flags child_q0) npc_server s
    (SpawnDemoNPCs 3 NewRuntime) (with_redis ∅ 0) h1 h1 h3 (Args child_container) "state" r1 eq_refl eq_refl eq_refl eq_refl eq_refl E1 eq_refl eq_refl E eq_refl eq_refl)
    as (rt & H1 & _ & H2 & _).
  exists (child_flags child_q0), s, h3, rt. split; [reflexivity|split; [exact H1|exact H2]].
Defined.

(** A read that fails counts as no state: the cell starts empty, and its next stop saves that over the
    state there was. *)
Example lost_read_starts_empty :
  let lost n := if Nat.eqb n 1 then LostReply (errorf "i/o timeout" []) else Delivered in
  let h1 := snd (stop (npc_env lost) order_id (child_flags child_q0) npc_server (with_redis ∅ 0)) in
  match fst (start (npc_env lost) (Args child_container) h1) with
  | Ok (_, s) => match Sim s with Some rt => bool_decide (alive (rt_World rt) = ∅) | None => false end
  | Err _ => false
  end = true.
Proof. by vm_compute. Qed.
