(* ===== verification/GatewayMain.v ===== *)
(** [cmd/gateway/main.go] around its handlers: the settings, the connection to the database and its
    migrations (also [cmd/migrate]), the limiter of each host, the routes, the stream of a WebSocket, and
    the gauge of attached players. *)
From Stdlib Require Import Ascii ZArith Lia.
From Stdlib.Floats Require Import SpecFloat.
From S2P Require Import Prelude Effects GoFloat GoString HostPort GoNumber GoFlag Partition Registry Ecs Aoi Replic CellSim CellSvc RegistrySvc Db Http.
From S2P Require Import CellInv CellOps Gateway GatewayHttp Config.
Local Open Scope string_scope.
Local Open Scope list_scope.

(** * Settings *)

Definition parseDurationWithDefault (raw : string) (fallback : Z) : Z :=
  let raw := trim_space raw in
  if String.eqb raw "" then fallback
  else match ParseDuration raw with Some d => if (d <? 0)%Z then fallback else d | None => fallback end.

Definition parseFloatWithDefault (raw : string) (fallback : f64) : f64 :=
  let raw := trim_space raw in
  if String.eqb raw "" then fallback
  else match ParseFloat64 raw with Ok v => if flt v f0 then fallback else v | Err _ => fallback end.

Record GatewayFlags := mkGatewayFlags { gf_listen : string; gf_registry : string; gf_jwtSecret : string; gf_resX : f64; gf_resZ : f64 }.
Definition default_gateway_flags : GatewayFlags := mkGatewayFlags "127.0.0.1:8080" "127.0.0.1:9100" "dev-insecure-change-me" f0 f0.

Definition set_gateway_flag (name value : string) (f : GatewayFlags) : result GatewayFlags :=
  let '(mkGatewayFlags l r s x z) := f in
  if String.eqb name "listen" then Ok (mkGatewayFlags value r s x z)
  else if String.eqb name "registry" then Ok (mkGatewayFlags l value s x z)
  else if String.eqb name "jwt-secret" then Ok (mkGatewayFlags l r value x z)
  else if String.eqb name "resolve-x" then v ← ParseFloat64 value; Ok (mkGatewayFlags l r s v z)
  else if String.eqb name "resolve-z" then v ← ParseFloat64 value; Ok (mkGatewayFlags l r s x v)
  else flag_error.

Definition Millisecond : Z := 1000000.

Section Settings.
Context (Getenv : string -> string).

Definition envBoolWithDefault (key : string) (fallback : bool) : bool :=
  let raw := trim_space (Getenv key) in
  if String.eqb raw "" then fallback else EqualFold raw "1" || EqualFold raw "true" || EqualFold raw "yes".

(** The key of the session tokens. *)
Definition jwt_secret (f : GatewayFlags) : string :=
  let v := trim_space (Getenv "GATEWAY_JWT_SECRET") in if negb (String.eqb v "") then v else gf_jwtSecret f.

Definition new_gateway (f : GatewayFlags) (db : bool) : gateway :=
  let mismatch := trim_space (Getenv "GATEWAY_ALLOW_CELL_HANDOFF_MISMATCH") in
  mkGateway (gf_registry f) (gf_resX f) (gf_resZ f) db
    (EqualFold mismatch "1" || EqualFold mismatch "true" || EqualFold mismatch "yes")
    (envBoolWithDefault "GATEWAY_POSITION_SWITCH_ENABLED" true)
    (parseDurationWithDefault (Getenv "GATEWAY_POSITION_SWITCH_MIN_INTERVAL") (1500 * Millisecond))
    (parseFloatWithDefault (Getenv "GATEWAY_POSITION_SWITCH_MIN_MOVE_METERS") (f64_of 1 (-1)))
    (parseDurationWithDefault (Getenv "GATEWAY_POSITION_SWITCH_RETRY_BACKOFF") (700 * Millisecond))
    (parseDurationWithDefault (Getenv "GATEWAY_POSITION_SWITCH_RETRY_MAX_BACKOFF") (5000 * Millisecond)).
End Settings.

(** Times are never negative, and a distance is not less than zero. *)
Lemma parseDuration_range raw fallback : (0 <= fallback < 2 ^ 63)%Z -> (0 <= parseDurationWithDefault raw fallback < 2 ^ 63)%Z.
Proof.
  intros Hf. unfold parseDurationWithDefault. destruct (String.eqb _ _); [done|]. destruct (ParseDuration _) as [d|] eqn:E; [|done].
  apply ParseDuration_range in E. destruct (Z.ltb_spec d 0); lia.
Qed.

Lemma parseFloat_not_negative raw fallback : flt fallback f0 = false -> flt (parseFloatWithDefault raw fallback) f0 = false.
Proof. intros Hf. unfold parseFloatWithDefault. destruct (String.eqb _ _); [done|]. destruct (ParseFloat64 _) as [v|]; [|done]. by destruct (flt v f0) eqn:E. Qed.

(** A distance that is not a number is taken; every message then asks the registry for a cell. *)
Example position_asked_always :
  let g := new_gateway (fun k => if String.eqb k "GATEWAY_POSITION_SWITCH_MIN_MOVE_METERS" then "NaN" else "") default_gateway_flags false in
  let s := mkSession "bob" None f1 f1 true 0 f1 f1 true ∅ in
  fst (markPositionResolveAttempt (fun _ _ => f0) 1 f1 f1 (positionSwitchMinMoveMeters g) (positionSwitchMinInterval g) s) = true.
Proof. vm_compute. done. Qed.

(** * The database *)

(** [pgxpool], [database/sql] and [goose] on a server [S]. *)
Record DbLibrary (S : Type) := mkDbLibrary {
  pgxpool_ParseConfig : string -> result unit;
  pgxpool_New : string -> Z -> Z -> St S unit;
  pool_Close : St S unit;
  sql_Open : string -> result unit;
  sql_Ping : St S unit;
  sql_Close : St S unit;
  goose_SetDialect : string -> result unit;
  goose_Up : string -> St S unit }.
Arguments pgxpool_ParseConfig {S} _.
Arguments pgxpool_New {S} _.
Arguments pool_Close {S} _.
Arguments sql_Open {S} _.
Arguments sql_Ping {S} _.
Arguments sql_Close {S} _.
Arguments goose_SetDialect {S} _.
Arguments goose_Up {S} _.

Section Database.
Context {S : Type} (lib : DbLibrary S).

(** At most four connections, none kept open. *)
Definition OpenPool (connString : string) : St S unit :=
  _ ← guard_fail (String.eqb connString "") (errorf "empty database url" []);
  _ ← lift (pgxpool_ParseConfig lib connString);
  pgxpool_New lib connString 4 0.

Definition RunMigrations (connString : string) : St S unit :=
  _ ← lift (sql_Open lib connString);
  defer (sql_Close lib)
    (_ ← sql_Ping lib;
     _ ← lift (goose_SetDialect lib "postgres");
     goose_Up lib "migrations").

(** [log.Fatalf] *)
Definition fatal {A} (what : string) (e : error) : St S A := throw (errorf "%s: %v" [AStr what; ATxt (error_string e)]).

(** Whether the gateway has a database. *)
Definition open_database (c : Config) : St S bool :=
  if String.eqb (trim_space (DatabaseURLRW c)) "" then mret false
  else
    _ ← on_error (fatal "database pool") (OpenPool (DatabaseURLRW c));
    _ ← (if GatewaySkipDBMigrations c then mret tt
         else on_error (fun e => _ ← pool_Close lib; fatal "database migrations" e) (RunMigrations (DatabaseURLRW c)));
    mret true.

(** The job of [cmd/migrate]. *)
Definition migrate (c : Config) : St S unit :=
  _ ← guard_fail (String.eqb (DatabaseURLRW c) "") (errorf "DATABASE_URL_RW or DATABASE_URL required" []);
  RunMigrations (DatabaseURLRW c).

(** The gateway up to the point where it listens: the server it is, the key of its tokens, its address. *)
Definition start (Getenv : string -> string) (url_parse : string -> option (string * string * string)) (args : list string)
    : St S (gateway * string * string) :=
  '(f, _) ← lift (parse_flags set_gateway_flag (fun _ => false) args default_gateway_flags);
  db ← open_database (FromEnv Getenv url_parse);
  mret (new_gateway Getenv f db, jwt_secret Getenv f, gf_listen f).
End Database.

(** * The limiter of each host *)

Definition peerHost (remoteAddr : string) : string :=
  match SplitHostPort remoteAddr with Ok (host, _) => host | Err _ => remoteAddr end.

(** [golang.org/x/time/rate]: a limiter of so many events a second with a burst; whether one more may
    happen now. *)
Class RateLimiter (L : Type) := { NewLimiter : Z -> Z -> L; Allow : Z -> L -> bool * L }.

Section Limiters.
Context {L : Type} `{!RateLimiter L}.
Abbreviation Limiters := (gmap string L).

(** [sync.Map.LoadOrStore] *)
Definition limiterForIP (ip : string) (m : Limiters) : L * Limiters :=
  match m !! ip with
  | Some l => (l, m)
  | None => let l := NewLimiter 100 30 in (l, <[ip := l]> m)
  end.

(** [limiterForIP(peerHost(r)).Allow()]: the limiter in the map is the one that is asked. *)
Definition session_allowed (now : Z) (remoteAddr : string) (m : Limiters) : bool * Limiters :=
  let ip := peerHost remoteAddr in
  let '(l, m) := limiterForIP ip m in
  let '(ok, l) := Allow now l in
  (ok, <[ip := l]> m).

(** Requests one after the other: their times and addresses. *)
Fixpoint allowed_run (reqs : list (Z * string)) (m : Limiters) : list (string * bool) * Limiters :=
  match reqs with
  | [] => ([], m)
  | (now, addr) :: reqs =>
      let '(ok, m) := session_allowed now addr m in
      let '(oks, m) := allowed_run reqs m in
      ((peerHost addr, ok) :: oks, m)
  end.

Lemma session_allowed_cases now addr (m : Limiters) :
  let l := default (NewLimiter 100 30) (m !! peerHost addr) in
  session_allowed now addr m = (fst (Allow now l), <[peerHost addr := snd (Allow now l)]> m).
Proof.
  intros l. unfold session_allowed, limiterForIP, l. destruct (m !! peerHost addr) as [l'|]; cbn [default from_option id].
  - by destruct (Allow now l').
  - destruct (Allow now _). cbn [fst snd]. by rewrite insert_insert_eq.
Qed.

(** The answers of a host depend on its own requests only. *)
Lemma hosts_limited_apart reqs (m m' : Limiters) host :
  m !! host = m' !! host ->
  base.filter (fun '(h, _) => h = host) (fst (allowed_run reqs m)) =
  fst (allowed_run (base.filter (fun '(_, addr) => peerHost addr = host) reqs) m').
Proof.
  revert m m'. induction reqs as [|[now addr] reqs IH]; intros m m' Hm; [done|]. cbn [allowed_run]. rewrite session_allowed_cases.
  set (m1 := <[_ := _]> m). destruct (allowed_run reqs m1) as [oks m2] eqn:E. cbn [fst]. rewrite !filter_cons.
  destruct (decide (peerHost addr = host)) as [<-|Hne].
  - cbn [allowed_run]. rewrite session_allowed_cases. set (m1' := <[_ := _]> m'). specialize (IH m1 m1'). rewrite E in IH.
    destruct (allowed_run _ m1') as [oks' m2']. cbn [fst] in *. rewrite Hm. f_equal. apply IH.
    unfold m1, m1'. rewrite !lookup_insert_eq, Hm. done.
  - specialize (IH m1 m'). rewrite E in IH. cbn [fst] in IH. apply IH. unfold m1. by rewrite lookup_insert_ne.
Qed.
End Limiters.

(** * [readyz]

    [pool.Ping], and the rows of goose's table: its versions, and whether each is applied. *)
Definition LatestAppliedGooseVersion (rows : result (list (Z * bool))) : result Z :=
  rows ← rows;
  Ok match base.filter (fun '(_, is_applied) => is_true is_applied) rows with
     | [] => 0%Z
     | (v, _) :: rows => fold_left (fun best '(v, _) => Z.max best v) rows v
     end.

Definition ok_text : Response := mkResponse 200 [] (BText (lit "ok")).

Definition readyz (g : gateway) (ping : result unit) (goose_db_version : result (list (Z * bool))) : Response :=
  if negb (has_db g) then ok_text
  else match ping with
  | Err _ => http_error 503 (lit "database unavailable")
  | Ok _ =>
      match LatestAppliedGooseVersion goose_db_version with
      | Ok ver => if (0 <? ver)%Z then mkResponse 200 [("X-MMO-Goose-Version", itoa ver)] (BText (lit "ok")) else ok_text
      | Err _ => ok_text
      end
  end.

(** A table that is missing is an error, not version 0. *)
Lemma latest_version_spec rows v :
  LatestAppliedGooseVersion rows = Ok v ->
  exists l, rows = Ok l /\ (forall ver, (ver, true) ∈ l -> (ver <= v)%Z) /\ ((exists ver, (ver, true) ∈ l) -> (v, true) ∈ l).
Proof.
  unfold LatestAppliedGooseVersion. destruct rows as [l|e]; [|done]. cbn [mbind result_bind]. intros [= <-]. exists l. split; [done|].
  assert (forall ver, (ver, true) ∈ l <-> (ver, true) ∈ base.filter (fun '(_, ok) => is_true ok) l) as Hin.
  { intros ver. rewrite list_elem_of_filter. by split; [intros|intros [_ ?]]. }
  assert (forall p, p ∈ base.filter (fun '(_, ok) => is_true ok) l -> snd p = true) as Hall.
  { intros [ver ok] [Hok _]%list_elem_of_filter. exact (Is_true_eq_true _ Hok) || exact Hok. }
  destruct (base.filter _ l) as [|[v0 ok0] rest].
  { split; [by intros ver ?%Hin%elem_of_nil|]. by intros (ver & ?%Hin%elem_of_nil). }
  assert (forall rest best, (forall p, p ∈ rest -> snd p = true) ->
    let v := fold_left (fun best '(v, _) => Z.max best v) rest best in
    (best <= v)%Z /\ (forall ver, (ver, true) ∈ rest -> (ver <= v)%Z) /\ (v = best \/ (v, true) ∈ rest)) as Hf.
  { clear. induction rest as [|[x ok] rest IH]; intros best Hr; cbn [fold_left].
    - split; [done|]. split; [by intros ver ?%elem_of_nil|by left].
    - destruct (IH (Z.max best x)) as (H1 & H2 & H3); [intros p Hp; apply Hr; by right|]. split; [lia|]. split.
      + intros ver [[= -> <-]|Hv]%elem_of_cons; [lia|by apply H2].
      + destruct H3 as [->|H3]; [|right; by right].
        destruct (Z.max_spec best x) as [[_ ->]|[_ ->]]; [|by left]. right. assert (ok = true) as -> by (apply (Hr (x, ok)); by left). by left. }
  assert (ok0 = true) as -> by (apply (Hall (v0, ok0)); by left).
  destruct (Hf rest v0) as (H1 & H2 & H3); [intros p Hp; apply Hall; by right|]. split.
  - intros ver [[= ->]|Hv]%Hin%elem_of_cons; [done|by apply H2].
  - intros _. apply Hin. destruct H3 as [->|H3]; [|by right]. by left.
Qed.

(** * The routes *)

Inductive Route :=
  | Healthz | Readyz | Metrics | SessionRoute | MeQuests | QuestProgress | ItemsAdd | ItemsRemove | ItemsTransfer | ResolvePreview | LastCell | Ws.

(** The patterns of the mux have neither wildcards nor a final slash: a clean path is matched as a whole. *)
Definition mux (path : string) : option Route :=
  if String.eqb path "/healthz" then Some Healthz
  else if String.eqb path "/readyz" then Some Readyz
  else if String.eqb path "/metrics" then Some Metrics
  else if String.eqb path "/v1/session" then Some SessionRoute
  else if String.eqb path "/v1/me/quests" then Some MeQuests
  else if String.eqb path "/v1/me/quest-progress" then Some QuestProgress
  else if String.eqb path "/v1/me/items/add" then Some ItemsAdd
  else if String.eqb path "/v1/me/items/remove" then Some ItemsRemove
  else if String.eqb path "/v1/me/items/transfer" then Some ItemsTransfer
  else if String.eqb path "/v1/me/resolve-preview" then Some ResolvePreview
  else if String.eqb path "/v1/me/last-cell" then Some LastCell
  else if String.eqb path "/v1/ws" then Some Ws
  else None.

(** What comes with a request besides its own data: the time, the address of the peer, whether the upgrade
    of a WebSocket succeeds, what the database answers to [readyz], and the text of the metrics. *)
Record Arrival := mkArrival {
  ar_now : Z; ar_remote : string; ar_upgraded : bool; ar_ping : result unit; ar_goose : result (list (Z * bool)); ar_metrics : text }.

Section Serve.
Context {C L : Type} `{!Catalog C, !RateLimiter L} (env : Env) (db_env : DbEnv) (g : gateway) (codecs : Codecs).

Record Front := mkFront { fr_gate : Gate C; fr_limiters : gmap string L }.

Definition on_front {A} (m : St (Gate C) A) : St Front A := fun s =>
  let '(r, gate) := m (fr_gate s) in (r, mkFront gate (fr_limiters s)).

(** An answer, or a session when the connection became a WebSocket (one that failed to attach is closed). *)
Definition answer (m : St (Gate C) Response) : St Front (Response + option Started) := on_front (r ← m; mret (inl r)).

(** The method is looked at before the limiter. *)
Definition serve_session (a : Arrival) (r : Request) : St Front (Response + option Started) := fun s =>
  if negb (String.eqb (Method r) "POST") then answer (session db_env g codecs true r) s
  else
    let '(allowed, limiters) := session_allowed (ar_now a) (ar_remote a) (fr_limiters s) in
    answer (session db_env g codecs allowed r) (mkFront (fr_gate s) limiters).

Definition serve (path : string) (a : Arrival) (r : Request) : St Front (Response + option Started) :=
  match mux path with
  | None => mret (inl (http_error 404 (lit "404 page not found")))
  | Some Healthz => mret (inl ok_text)
  | Some Readyz => mret (inl (readyz g (ar_ping a) (ar_goose a)))
  | Some Metrics => mret (inl (mkResponse 200 [] (BText (ar_metrics a))))
  | Some SessionRoute => serve_session a r
  | Some MeQuests => answer (meQuests db_env g codecs r)
  | Some QuestProgress => answer (questProgress db_env g codecs r)
  | Some ItemsAdd => answer (itemsAdd db_env g codecs r)
  | Some ItemsRemove => answer (itemsRemove db_env g codecs r)
  | Some ItemsTransfer => answer (itemsTransfer db_env g codecs r)
  | Some ResolvePreview => answer (resolvePreview env db_env g codecs r)
  | Some LastCell => answer (lastCell db_env g codecs r)
  | Some Ws => on_front (ws_start env db_env g codecs (ar_upgraded a) r)
  end.
End Serve.
Arguments Front : clear implicits.
Arguments mkFront {C L} _ _.

(** * The stream of a WebSocket

    The frames that are written. [marshal] encodes a chunk with the viewer's entity; [write] tells whether
    each write succeeds. *)
Inductive Frame := TextFrame (j : Json) | BinaryFrame (data : string).

(** The JSON frame before the first chunk; none without an entity. *)
Definition writeWsEntityMeta (entityID : N) (attachedCellID : string) : option Frame :=
  if (entityID =? 0)%N then None
  else Some (TextFrame (JObj [("mmo_ws_meta", JObj [("entity_id", JInt (Z.of_N entityID)); ("cell_id", JStr (trim_space attachedCellID))])])).

Record Pump := mkPump { pu_session : gatewaySession; pu_frames : list Frame; pu_writes : nat }.

Section Stream.
Context (marshal : N -> WorldChunk -> option string) (write : nat -> bool).

Definition write_frame (f : Frame) (p : Pump) : bool * Pump :=
  let ok := write (pu_writes p) in
  (ok, mkPump (pu_session p) (if ok then pu_frames p ++ [f] else pu_frames p) (S (pu_writes p))).

(** The chunks up to the one whose write fails; a chunk that cannot be encoded is skipped. *)
Fixpoint pump (entityID : N) (chunks : list WorldChunk) (p : Pump) : Pump :=
  match chunks with
  | [] => p
  | chunk :: chunks =>
      let p := mkPump (observeSelfPosition entityID chunk (pu_session p)) (pu_frames p) (pu_writes p) in
      match marshal entityID chunk with
      | None => pump entityID chunks p
      | Some b => let '(ok, p) := write_frame (BinaryFrame b) p in if ok then pump entityID chunks p else p
      end
  end.

(** [sub] is what subscribing gives: the chunks received before the stream ends. *)
Definition streamDeltasToWS (ds : gatewayDownstream) (sub : result (list WorldChunk)) (s : gatewaySession) : Pump :=
  let p := mkPump s [] 0 in
  let p := match writeWsEntityMeta (ds_entityID ds) (ds_cellID ds) with Some f => snd (write_frame f p) | None => p end in
  match sub with Ok chunks => pump (ds_entityID ds) chunks p | Err _ => p end.

Lemma pump_written entityID chunks p :
  (forall n, write n = true) ->
  pu_frames (pump entityID chunks p) = pu_frames p ++ (BinaryFrame <$> omap (marshal entityID) chunks) /\
  pu_session (pump entityID chunks p) = foldl (fun s c => observeSelfPosition entityID c s) (pu_session p) chunks.
Proof.
  intros Hw. revert p. induction chunks as [|c chunks IH]; intros p; [split; [symmetry; apply app_nil_r|done]|].
  cbn [pump omap list_omap foldl]. destruct (marshal entityID c) as [b|].
  2:{ exact (IH (mkPump (observeSelfPosition entityID c (pu_session p)) (pu_frames p) (pu_writes p))). }
  unfold write_frame. rewrite Hw. cbn [pu_frames pu_writes pu_session]. destruct (IH (mkPump (observeSelfPosition entityID c (pu_session p))
    (pu_frames p ++ [BinaryFrame b]) (S (pu_writes p)))) as [-> ->]. cbn [pu_frames pu_session fmap list_fmap]. by rewrite <- app_assoc.
Qed.
End Stream.

(** A client that decodes the binary frames; [unmarshal] gives the viewer and the chunk. *)
Definition client_read (unmarshal : string -> option (N * WorldChunk)) (known : gset N) (f : Frame) : gset N :=
  match f with
  | TextFrame _ => known
  | BinaryFrame b => match unmarshal b with Some (_, c) => client_apply known (Some c) | None => known end
  end.

Lemma client_reads marshal unmarshal entityID chunks known :
  (forall c, c ∈ chunks -> (marshal entityID c ≫= unmarshal) = Some (entityID, c)) ->
  fold_left (client_read unmarshal) (BinaryFrame <$> omap (marshal entityID) chunks) known = fold_left client_apply (Some <$> chunks) known.
Proof.
  revert known. induction chunks as [|c chunks IH]; intros known H; [done|]. cbn [omap list_omap fmap list_fmap fold_left].
  pose proof (H c ltac:(by left)) as Hc. destruct (marshal entityID c) as [b|]; [|done]. cbn [mbind option_bind] in Hc.
  cbn [fmap list_fmap fold_left client_read]. rewrite Hc. apply IH. intros c' Hin. apply H. by right.
Qed.

(** C6: from the cell to the screen. While the connection holds and the codec gives chunks back, a client
    that decodes the frames of its WebSocket is told its entity and its cell first and then has on screen
    exactly the entities in the player's area of interest in the cell; and the session, which moves by that
    position, has the position of the player that the last chunk with the player told. *)
Theorem client_sees_view hypot marshal unmarshal write ds v its it s :
  v <> 0%N -> ds_entityID ds = v -> Forall (viewer_present v) (its ++ [it]) -> (forall n, write n = true) ->
  let chunks := sub_chunks hypot (Subscribe v) (its ++ [it]) in
  (forall c, c ∈ chunks -> (marshal v c ≫= unmarshal) = Some (v, c)) ->
  let p := streamDeltasToWS marshal write ds (Ok chunks) s in
  fold_left (client_read unmarshal) (pu_frames p) ∅ = in_view v (it_server it) /\
  head (pu_frames p) = Some (TextFrame (JObj [("mmo_ws_meta", JObj [("entity_id", JInt (Z.of_N v)); ("cell_id", JStr (trim_space (ds_cellID ds)))])])) /\
  pu_session p = foldl (fun s c => observeSelfPosition v c s) s chunks.
Proof.
  intros Hv Hds Hp Hw chunks Hc. cbv zeta. unfold streamDeltasToWS, writeWsEntityMeta. rewrite Hds, (proj2 (N.eqb_neq v 0) Hv).
  unfold write_frame. rewrite Hw. cbn [pu_frames pu_session pu_writes snd app].
  set (f := TextFrame _). destruct (pump_written marshal write v chunks (mkPump s [f] 1) Hw) as [-> ->]. cbn [pu_frames pu_session].
  split; [|done]. cbn [app fold_left client_read f]. rewrite (client_reads marshal unmarshal v chunks ∅ Hc).
  unfold chunks. rewrite <- sub_chunks_known. apply Forall_app in Hp as [Hits Hit]. rewrite Forall_singleton in Hit.
  rewrite fold_left_app. cbn [fold_left]. by destruct (sub_iterate_tracks hypot v _ it (sub_run_tracks hypot v its Hv Hits) Hit) as (_ & ? & _).
Qed.

(** A codec that knows one chunk. *)
Lemma client_sees_view_witness :
  let s := fst (Join "bob" (fresh_server "cell_root")) in
  let it := mkIteration order_id order_id order_rev s in
  let hypot := fun x _ : f64 => x in
  let chunks := sub_chunks hypot (Subscribe 1) [it] in
  let p := streamDeltasToWS (fun _ _ => Some "chunk") (fun _ => true) (mkDownstream "cell_root" "h:1" 1) (Ok chunks)
             (mkSession "bob" None f0 f0 false 0 f0 f0 false ∅) in
  fold_left (client_read (fun _ => (fun c => (1%N, c)) <$> head chunks)) (pu_frames p) ∅ = in_view 1 s /\ hasPos (pu_session p) = true.
Proof.
  intros s it hypot chunks p. assert (viewer_present 1 it) as Hv by (eexists _, _; split; reflexivity).
  assert (length chunks = 1) as Hlen by (vm_compute; reflexivity).
  assert (forall l : list WorldChunk, length l = 1 -> forall c, c ∈ l -> (fun c => (1%N, c)) <$> head l = Some (1%N, c)) as Hl.
  { intros [|c [|? ?]]; [discriminate| |discriminate]. intros _ c' ->%list_elem_of_singleton. reflexivity. }
  destruct (client_sees_view hypot (fun _ _ => Some "chunk") (fun _ => (fun c => (1%N, c)) <$> head chunks) (fun _ => true)
    (mkDownstream "cell_root" "h:1" 1) 1 [] it (mkSession "bob" None f0 f0 false 0 f0 f0 false ∅)) as (H1 & _ & H2).
  - discriminate.
  - reflexivity.
  - by repeat constructor.
  - reflexivity.
  - exact (Hl chunks Hlen).
  - split; [exact H1|]. unfold p. refine (eq_trans (f_equal hasPos H2) _). vm_compute. reflexivity.
Defined.

(** * The gauge of attached players *)

Definition metricCellLabel (cellID : string) : string :=
  let cellID := trim_space cellID in if String.eqb cellID "" then "unknown" else cellID.

(** [mmo_gateway_attached_cell_players]: a label that was never touched counts nobody. *)
Abbreviation Gauge := (gmap string Z).
Definition gauge_value (label : string) (g : Gauge) : Z := default 0%Z (g !! label).
Definition gauge_add (label : string) (d : Z) (g : Gauge) : Gauge := <[label := (gauge_value label g + d)%Z]> g.

Definition recordAttachedCellAttach (cellID : string) (g : Gauge) : Gauge := gauge_add (metricCellLabel cellID) 1 g.
Definition recordAttachedCellDetach (cellID : string) (g : Gauge) : Gauge := gauge_add (metricCellLabel cellID) (-1) g.

(** The sessions of a gateway, each with the cell it is attached to; the three places that touch the gauge
    are the start of a session, a switch, and the end. *)
Record Attached := mkAttached { at_cells : gmap nat string; at_gauge : Gauge }.

Inductive attach_step : relation Attached :=
  | as_start n cell a : at_cells a !! n = None ->
      attach_step a (mkAttached (<[n := cell]> (at_cells a)) (recordAttachedCellAttach cell (at_gauge a)))
  | as_switch n from to a : at_cells a !! n = Some from ->
      attach_step a (mkAttached (<[n := to]> (at_cells a)) (recordAttachedCellAttach to (recordAttachedCellDetach from (at_gauge a))))
  | as_end n cell a : at_cells a !! n = Some cell ->
      attach_step a (mkAttached (delete n (at_cells a)) (recordAttachedCellDetach cell (at_gauge a))).

Definition attached_at (label : string) (cells : gmap nat string) : nat :=
  size (base.filter (fun '(_, cell) => metricCellLabel cell = label) cells).

Lemma attached_insert label n cell cells :
  cells !! n = None -> attached_at label (<[n := cell]> cells) = attached_at label cells + (if decide (metricCellLabel cell = label) then 1 else 0).
Proof.
  intros Hn. unfold attached_at. destruct (decide (metricCellLabel cell = label)) as [He|He].
  - rewrite map_filter_insert_True by done. rewrite map_size_insert_None; [lia|]. apply map_lookup_filter_None. by left.
  - rewrite map_filter_insert_False by done. rewrite delete_id by done. lia.
Qed.

Lemma gauge_value_add label l d g : gauge_value label (gauge_add l d g) = (gauge_value label g + if decide (l = label) then d else 0)%Z.
Proof.
  unfold gauge_value at 1, gauge_add. destruct (decide (l = label)) as [->|Hne].
  - by rewrite lookup_insert_eq.
  - rewrite lookup_insert_ne by done. unfold gauge_value. lia.
Qed.

(** However sessions start, move and end, the gauge of a cell counts the sessions attached to it. *)
Lemma gauge_counts_sessions a label :
  rtc attach_step (mkAttached ∅ ∅) a -> gauge_value label (at_gauge a) = Z.of_nat (attached_at label (at_cells a)).
Proof.
  intros Hr. remember (mkAttached ∅ ∅) as a0 eqn:E. assert (gauge_value label (at_gauge a0) = Z.of_nat (attached_at label (at_cells a0))) as H0.
  { subst a0. cbn [at_gauge at_cells]. unfold attached_at. by rewrite map_filter_empty, map_size_empty. }
  clear E. induction Hr as [|x y z Hs _ IH]; [done|]. apply IH. clear IH.
  destruct Hs as [n cell a1 Hn|n from to a1 Hn|n cell a1 Hn]; cbn [at_gauge at_cells];
    unfold recordAttachedCellAttach, recordAttachedCellDetach; rewrite !gauge_value_add, H0.
  - rewrite attached_insert by done. destruct (decide _); lia.
  - assert (<[n := to]> (at_cells a1) = <[n := to]> (delete n (at_cells a1))) as -> by (by rewrite insert_delete_eq).
    rewrite <- (insert_delete_id (at_cells a1) n from Hn) at 1. rewrite !attached_insert by apply lookup_delete_eq.
    repeat destruct (decide _); lia.
  - rewrite <- (insert_delete_id (at_cells a1) n cell Hn) at 1. rewrite attached_insert by apply lookup_delete_eq. destruct (decide _); lia.
Qed.
