(* ===== verification/GatewayAccess.v ===== *)
(** Who may change what over HTTP: a request to the gateway changes the rows of the player it is made for
    only, and a request that needs a token and has none changes nothing. *)
From Stdlib Require Import Ascii ZArith Lia.
From S2P Require Import Prelude Effects GoFloat GoString Partition Registry Ecs CellSvc RegistrySvc Db DbProps Http Gateway GatewayHttp GatewayMain.
Local Open Scope string_scope.
Local Open Scope list_scope.

(** * The rows of a player *)

(** The rows under the player's own key. *)
Definition own_rows (p : string) (t : Tables) :=
  (base.filter (fun p' => p' = p) (session_issue t), last_cell t !! p, profile t !! p, player_stats t !! p, wallet t !! p, inventory t !! p,
   wallet_address t !! p).

(** What belongs to nobody: the definitions, and what the indexer stores. *)
Definition common (t : Tables) := (item_def t, quest_def t, chain_cursor t, chain_event t).

(** The rows of the players outside [P], and the common ones, are as they were. *)
Definition others (P : gset string) (t t' : Tables) : Prop :=
  common t' = common t /\
  forall p, p ∉ P -> own_rows p t' = own_rows p t /\ forall x, quest t' !! (p, x) = quest t !! (p, x) /\ player_item t' !! (p, x) = player_item t !! (p, x).

#[export] Instance others_preorder P : PreOrder (others P).
Proof.
  split; [by intros t; split|]. intros t1 t2 t3 [H1 H2] [H3 H4]. split; [congruence|]. intros p Hp.
  destruct (H2 p Hp) as [H5 H6], (H4 p Hp) as [H7 H8]. split; [congruence|]. intros x. destruct (H6 x), (H8 x). split; congruence.
Qed.

Lemma others_weaken P Q t t' : P ⊆ Q -> others P t t' -> others Q t t'.
Proof. intros HPQ [H1 H2]. split; [done|]. intros p Hp. apply H2. set_solver. Qed.

(** Rows under another key stay. *)
Lemma other_insert {V} (P : gset string) (k p : string) (v : V) (m : gmap string V) : k ∈ P -> p ∉ P -> <[k := v]> m !! p = m !! p.
Proof. intros Hk Hp. apply lookup_insert_ne. by intros ->. Qed.

Lemma other_insert2 {V} (P : gset string) (k p x y : string) (v : V) (m : gmap (string * string) V) : k ∈ P -> p ∉ P -> <[(k, x) := v]> m !! (p, y) = m !! (p, y).
Proof. intros Hk Hp. apply lookup_insert_ne. by intros [= -> _]. Qed.

Lemma other_new {V} (P : gset string) (k p : string) (v : V) (m : gmap string V) : k ∈ P -> p ∉ P -> insert_new k v m !! p = m !! p.
Proof. intros Hk Hp. unfold insert_new. destruct (m !! k); [done|by eapply other_insert]. Qed.

Lemma other_session (P : gset string) (k p : string) l : k ∈ P -> p ∉ P -> base.filter (fun p' => p' = p) (l ++ [k]) = base.filter (fun p' => p' = p) l.
Proof.
  intros Hk Hp. rewrite filter_app, filter_cons. case_decide as He; [by subst k|]. by rewrite filter_nil, app_nil_r.
Qed.

(** * Statements *)

(** Walks through the cases of a statement; each changes one row of a player in [P]. *)
Ltac own_stmt P :=
  intros ? ? ? ? ?; repeat case_match; simplify_eq; try done; (split; [done|]); intros ? ?; unfold own_rows;
  unfold set_session_issue, set_last_cell, set_profile, set_player_stats, set_wallet, set_inventory, set_quest, set_player_item;
  cbn [session_issue last_cell profile player_stats wallet inventory quest item_def player_item quest_def chain_cursor chain_event wallet_address];
  repeat first [rewrite (other_session P) by done | rewrite (other_insert P) by done | rewrite (other_new P) by done];
  (split; [done|]); intros ?; repeat first [rewrite (other_insert2 P) by done]; try done.

Section Statements.
Context (P : gset string) (p : string) (Hp : p ∈ P).

Lemma own_session : stmt_in (others P) (insert_session p).
Proof using Hp. unfold insert_session. own_stmt P. Qed.
Lemma own_last_cell r : stmt_in (others P) (upsert_last_cell p r).
Proof using Hp. unfold upsert_last_cell. own_stmt P. Qed.
Lemma own_profile n : stmt_in (others P) (upsert_profile p n).
Proof using Hp. unfold upsert_profile. own_stmt P. Qed.
Lemma own_stats : stmt_in (others P) (insert_stats p).
Proof using Hp. unfold insert_stats. own_stmt P. Qed.
Lemma own_wallet : stmt_in (others P) (insert_wallet p).
Proof using Hp. unfold insert_wallet. own_stmt P. Qed.
Lemma own_inventory : stmt_in (others P) (insert_inventory p).
Proof using Hp. unfold insert_inventory. own_stmt P. Qed.
Lemma own_slots l : stmt_in (others P) (update_inventory p l).
Proof using Hp. unfold update_inventory. own_stmt P. Qed.
Lemma own_gold d : stmt_in (others P) (add_gold p d).
Proof using Hp. unfold add_gold. own_stmt P. Qed.
Lemma own_seed : stmt_in (others P) (insert_quest_seed p).
Proof using Hp. unfold insert_quest_seed, insert_new. own_stmt P. Qed.
Lemma own_starter : stmt_in (others P) (insert_starter_item p).
Proof using Hp. unfold insert_starter_item. own_stmt P. Qed.
Lemma own_upsert_item i q : stmt_in (others P) (upsert_item p i q).
Proof using Hp. unfold upsert_item. own_stmt P. Qed.
Lemma own_subtract i q : stmt_in (others P) (subtract_item p i q).
Proof using Hp. unfold subtract_item. own_stmt P. Qed.
Lemma own_update_quest q st n : stmt_in (others P) (update_quest p q st n).
Proof using Hp. unfold update_quest. own_stmt P. Qed.

Lemma own_delete i : stmt_in (others P) (delete_item p i).
Proof using Hp.
  intros o t a t' [= _ <-]. split; [done|]. intros x Hx. split; [done|]. intros y. split; [done|]. cbn. apply lookup_delete_ne. by intros [= -> _].
Qed.

Lemma own_unlocked : stmt_in (others P) (insert_unlocked p).
Proof using Hp.
  intros o t a t' [= _ <-]. split; [done|]. intros x Hx. split; [done|]. intros y. split; [|done]. cbn.
  induction (unlockable p o t) as [|q l IH]; [done|]. cbn [foldr]. by rewrite (other_insert2 P).
Qed.
End Statements.

Lemma read_items P p : stmt_in (others P) (select_items p).
Proof. by intros o t a t' [= _ <-]. Qed.
Lemma read_quests P p : stmt_in (others P) (select_quests p).
Proof. by intros o t a t' [= _ <-]. Qed.
Lemma read_get P {A} (f : Tables -> A) : stmt_in (others P) (sql_get f).
Proof. apply get_in, _. Qed.

(** * Operations of the store *)

#[export] Hint Resolve own_session own_last_cell own_profile own_stats own_wallet own_inventory own_slots own_gold own_seed own_starter
  own_upsert_item own_subtract own_update_quest own_delete own_unlocked read_items read_quests read_get : access.

Section Operations.
Context (env : DbEnv) (P : gset string).
Abbreviation owned := (steps_in (on_tables (others P))).
Abbreviation owned_tx := (steps_in (on_tx (others P))).

Ltac owned := db_steps; eauto with access.

Lemma owned_sync p : p ∈ P -> owned_tx (syncPlayerInventoryJSONBTx env p).
Proof. intros Hp. unfold syncPlayerInventoryJSONBTx. owned. Qed.

Lemma owned_remove p i q : p ∈ P -> owned_tx (removePlayerItemQuantityTx env p i q).
Proof. intros Hp. unfold removePlayerItemQuantityTx. owned. Qed.

Lemma owned_add p i q : p ∈ P -> owned_tx (addPlayerItemQuantityTx env p i q).
Proof. intros Hp. unfold addPlayerItemQuantityTx. owned. Qed.

Lemma owned_known i : owned_tx (known_item env i).
Proof. unfold known_item. owned. Qed.

#[local] Hint Resolve owned_sync owned_remove owned_add owned_known : access.

Lemma owned_add_item p i q : p ∈ P -> owned (AddPlayerItemQuantity env p i q).
Proof. intros Hp. unfold AddPlayerItemQuantity. owned. Qed.

Lemma owned_remove_item p i q : p ∈ P -> owned (RemovePlayerItemQuantity env p i q).
Proof. intros Hp. unfold RemovePlayerItemQuantity. owned. Qed.

Lemma owned_transfer p p' i q : trim_space p ∈ P -> trim_space p' ∈ P -> owned (TransferPlayerItems env p p' i q).
Proof. intros Hp Hp'. unfold TransferPlayerItems. owned. Qed.

Lemma owned_progress p q n : p ∈ P -> owned (ApplyPlayerQuestProgress env p q n).
Proof.
  intros Hp. unfold ApplyPlayerQuestProgress, progress_tx, loadQuestDefTx, completed_answer, complete_quest, grantWalletGoldTx,
    ListPlayerItemsNormalized, EnsureUnlockedQuestsForPlayer. owned.
Qed.

Lemma owned_prepare body : sb_PlayerID body ∈ P -> owned (prepare_player env body).
Proof.
  intros Hp. unfold prepare_player, RecordSessionIssue, UpsertPlayerProfile, EnsurePlayerStats, EnsurePlayerWallet, EnsurePlayerInventory,
    EnsurePlayerQuestSeed, EnsureUnlockedQuestsForPlayer, EnsureStarterPlayerItems, SyncPlayerInventoryJSONB, ListPlayerItemsNormalized, EnsurePlayerInventory.
  owned.
Qed.

Lemma owned_state p : owned (player_state env p).
Proof.
  unfold player_state, GetPlayerStats, GetPlayerWallet, GetPlayerInventoryItems, ListPlayerQuestsForAPI, ListPlayerItemsNormalized. owned.
Qed.

Lemma owned_quests p : owned (ListPlayerQuestsForAPI env p).
Proof. unfold ListPlayerQuestsForAPI. owned. Qed.
Lemma owned_record p : owned (GetPlayerLastCellRecord env p).
Proof. unfold GetPlayerLastCellRecord. owned. Qed.
Lemma owned_coords p : owned (GetPlayerLastCellCoords env p).
Proof. unfold GetPlayerLastCellCoords. owned. Qed.
End Operations.

(** * Handlers *)

Section Handlers.
Context {C L : Type} `{!Catalog C, !RateLimiter L} (env : Env) (db_env : DbEnv) (g : gateway) (codecs : Codecs).

Definition on_rows (P : gset string) (a b : Gate C) : Prop := others P (tables (gt_db a)) (tables (gt_db b)).

#[export] Instance on_rows_preorder P : PreOrder (on_rows P).
Proof. split; [by intros a; unfold on_rows|]. intros a b c H1 H2. unfold on_rows in *. by etrans. Qed.

Lemma rows_store P {A} (m : St Db A) : steps_in (on_tables (others P)) m -> steps_in (on_rows P) (on_store m).
Proof. intros Hm a. specialize (Hm (gt_db a)). unfold on_store, on_rows. by destruct (m (gt_db a)). Qed.

Lemma rows_cells P {A} (m : M C A) : steps_in (on_rows P) (on_cells m).
Proof. intros a. unfold on_cells, on_rows. by destruct (m (gt_cluster a)). Qed.

(** Walks through a handler up to what it asks of the store. *)
Ltac handler :=
  repeat first
    [ progress steps
    | lazymatch goal with
      | |- steps_in _ (refuse _ _ _) => apply steps_refuse; [apply _|]
      | |- steps_in _ (attempt _ _ _) => apply steps_attempt; [apply _| |intros ?]
      | |- steps_in _ (on_store _) => apply rows_store
      | |- steps_in _ (on_cells _) => apply rows_cells
      end ].

Lemma rows_coords P p : steps_in (on_rows P) (stored_resolve db_env g p).
Proof.
  intros s. unfold stored_resolve. destruct (has_db g); [|done]. pose proof (rows_store P _ (owned_coords db_env P p) s) as H.
  by destruct (on_store _ s) as [[[[? ?]|]|?] ?].
Qed.

(** The player of the token. *)
Definition speaks_for (P : gset string) (tokenStr : string) : Prop := forall claims, claims_of codecs tokenStr = Some claims -> Subject claims ∈ P.

Lemma rows_claims P r k :
  (forall claims, claims_of codecs (bearerOrQueryToken r) = Some claims -> steps_in (on_rows P) (k claims)) ->
  steps_in (on_rows P) (with_claims (C:=C) codecs r k).
Proof. intros Hk. unfold with_claims. destruct (String.eqb _ _); [handler|]. destruct (claims_of _ _) eqn:E; [by apply Hk|handler]. Qed.

Lemma rows_player P method r k :
  (forall claims, claims_of codecs (bearerOrQueryToken r) = Some claims -> steps_in (on_rows P) (k claims)) ->
  steps_in (on_rows P) (player_handler (C:=C) g codecs method r k).
Proof. intros Hk. unfold player_handler. handler. by apply rows_claims. Qed.

Lemma rows_session P allowed r :
  (forall body, body_of (parse_session codecs) r = Some body -> sb_PlayerID body ∈ P) ->
  steps_in (on_rows P) (session (C:=C) db_env g codecs allowed r).
Proof.
  intros Hp. unfold session. do 2 (apply steps_refuse; [apply _|]). destruct (body_of _ r) as [body|] eqn:E; [|handler]. specialize (Hp body eq_refl).
  assert (forall rx rz, steps_in (on_rows P) (issue_token (C:=C) db_env g codecs body rx rz)) as Hissue.
  { intros rx rz. unfold issue_token. handler; [by apply owned_prepare|apply owned_state]. }
  handler; first [apply Hissue | apply rows_coords].
Qed.

Lemma rows_read P r :
  steps_in (on_rows P) (meQuests (C:=C) db_env g codecs r) /\ steps_in (on_rows P) (lastCell (C:=C) db_env g codecs r).
Proof.
  split; apply rows_player; intros claims _; handler; [apply owned_quests|apply owned_record].
Qed.

Lemma rows_preview P r : steps_in (on_rows P) (resolvePreview (C:=C) env db_env g codecs r).
Proof.
  unfold resolvePreview. apply steps_refuse; [apply _|]. apply rows_claims. intros claims _. handler.
  - unfold preview_position. handler; try apply rows_coords.
  - intros s. unfold preview_last_cell. destruct (has_db g); [|done]. pose proof (rows_store P _ (owned_record db_env P (Subject claims)) s) as H.
    by destruct (on_store _ s) as [[[?|]|?] ?].
Qed.

Lemma rows_progress P r : speaks_for P (bearerOrQueryToken r) -> steps_in (on_rows P) (questProgress (C:=C) db_env g codecs r).
Proof. intros Hp. apply rows_player. intros claims Hc. handler. by apply owned_progress, Hp. Qed.

Lemma rows_items P op r :
  (forall p i q, p ∈ P -> steps_in (on_tables (others P)) (op p i q)) -> speaks_for P (bearerOrQueryToken r) ->
  steps_in (on_rows P) (items_handler (C:=C) g codecs op r).
Proof. intros Hop Hp. apply rows_player. intros claims Hc. handler. by apply Hop, Hp. Qed.

Lemma rows_transfer P r :
  (forall claims, claims_of codecs (bearerOrQueryToken r) = Some claims -> trim_space (Subject claims) ∈ P) ->
  (forall to i q, body_of (parse_transfer codecs) r = Some (to, i, q) -> trim_space to ∈ P) ->
  steps_in (on_rows P) (itemsTransfer (C:=C) db_env g codecs r).
Proof.
  intros Hp Hto. apply rows_player. intros claims Hc. destruct (body_of _ r) as [[[to i] q]|] eqn:E; handler.
  apply owned_transfer; [by apply Hp|by eapply Hto].
Qed.

Lemma rows_ws P upgraded r : steps_in (on_rows P) (ws_start (C:=C) env db_env g codecs upgraded r).
Proof.
  unfold ws_start. destruct (claims_of _ _) as [claims|]; [|handler]. destruct (if MmoHasResolve claims then _ else _) as [rx rz]. handler.
  intros s. unfold handoff_check. destruct (has_db g); [|done]. pose proof (rows_store P _ (owned_record db_env P (Subject claims)) s) as H.
  destruct (on_store _ s) as [[[?|]|?] ?]; [|done..]. by destruct (_ && _).
Qed.

(** * Requests *)

(** The players whose rows a request may change. A transfer is made between trimmed ids. *)
Definition touched (path : string) (r : Request) : gset string :=
  let of_claims f := match claims_of codecs (bearerOrQueryToken r) with Some claims => {[f (Subject claims)]} | None => ∅ end in
  match mux path with
  | Some SessionRoute => match body_of (parse_session codecs) r with Some body => {[sb_PlayerID body]} | None => ∅ end
  | Some (QuestProgress | ItemsAdd | ItemsRemove) => of_claims id
  | Some ItemsTransfer =>
      of_claims trim_space ∪ match body_of (parse_transfer codecs) r with Some (to, _, _) => {[trim_space to]} | None => ∅ end
  | _ => ∅
  end.

(** The routes that ask for a token, and its claims. *)
Definition needs_token (path : string) : bool :=
  match mux path with None | Some (Healthz | Readyz | Metrics | SessionRoute) => false | Some _ => true end.
Definition token_claims (path : string) (r : Request) : option sessionClaims :=
  claims_of codecs match mux path with Some Ws => ws_token r | _ => bearerOrQueryToken r end.

(** A computation that refuses with one of these answers and changes nothing. *)
Definition refuses {A} (m : St (Gate C) A) (inl_ : Response -> A) : Prop :=
  forall s, exists resp, m s = (Ok (inl_ resp), s) /\ resp_status resp ∈ [401; 405; 503]%Z.

Lemma refuses_player method r k : claims_of codecs (bearerOrQueryToken r) = None -> refuses (player_handler (C:=C) g codecs method r k) id.
Proof.
  intros Hc s. unfold player_handler, with_claims, refuse. rewrite Hc. destruct (negb (String.eqb _ _)); [by eexists; split; [done|set_solver]|].
  destruct (negb (has_db g)); [by eexists; split; [done|set_solver]|]. by destruct (String.eqb _ _); eexists; (split; [done|set_solver]).
Qed.

Lemma refuses_preview r : claims_of codecs (bearerOrQueryToken r) = None -> refuses (resolvePreview (C:=C) env db_env g codecs r) id.
Proof.
  intros Hc s. unfold resolvePreview, with_claims, refuse. rewrite Hc. destruct (negb (String.eqb _ _)); [by eexists; split; [done|set_solver]|].
  by destruct (String.eqb _ _); eexists; (split; [done|set_solver]).
Qed.

Lemma refuses_ws upgraded r : claims_of codecs (ws_token r) = None -> refuses (ws_start (C:=C) env db_env g codecs upgraded r) inl.
Proof. intros Hc s. unfold ws_start. rewrite Hc. eexists. split; [done|set_solver]. Qed.

Lemma refuses_answer (m : St (Gate C) Response) (s : Front C L) :
  refuses m id -> exists resp, answer m s = (Ok (inl resp), s) /\ resp_status resp ∈ [401; 405; 503]%Z.
Proof.
  intros Hm. destruct (Hm (fr_gate s)) as (resp & E & Hs). exists resp. split; [|done]. unfold answer, on_front.
  rewrite (run_bind _ _ _ _ _ E). by destruct s.
Qed.

Lemma rows_answer P (m : St (Gate C) Response) (s : Front C L) :
  steps_in (on_rows P) m -> on_rows P (fr_gate s) (fr_gate (snd (answer m s))).
Proof.
  intros Hm. set (m' := r ← m; mret (inl (B:=option Started) r)). assert (steps_in (on_rows P) m') as Hm' by (unfold m'; by steps).
  specialize (Hm' (fr_gate s)). unfold answer, on_front. fold m'. by destruct (m' (fr_gate s)).
Qed.

Lemma rows_serve path a r (s : Front C L) :
  on_rows (touched path r) (fr_gate s) (fr_gate (snd (serve env db_env g codecs path a r s))).
Proof.
  unfold serve, touched. assert (forall f, (forall claims, claims_of codecs (bearerOrQueryToken r) = Some claims ->
    f (Subject claims) ∈ match claims_of codecs (bearerOrQueryToken r) with Some claims => {[f (Subject claims)]} | None => (∅ : gset string) end)) as Hs.
  { intros f claims ->. set_solver. }
  destruct (mux path) as [[]|]; try done.
  - unfold serve_session. assert (forall body, body_of (parse_session codecs) r = Some body ->
      sb_PlayerID body ∈ match body_of (parse_session codecs) r with Some body => {[sb_PlayerID body]} | None => (∅ : gset string) end) as Hb.
    { intros body ->. set_solver. }
    destruct (negb _); [by apply rows_answer, rows_session|]. destruct (session_allowed _ _ _) as [allowed limiters].
    apply (rows_answer _ _ (mkFront (fr_gate s) limiters)). by apply rows_session.
  - apply rows_answer, rows_read.
  - apply rows_answer, rows_progress. exact (Hs id).
  - apply rows_answer, rows_items; [intros; by apply owned_add_item|exact (Hs id)].
  - apply rows_answer, rows_items; [intros; by apply owned_remove_item|exact (Hs id)].
  - apply rows_answer, rows_transfer; [intros claims Hc%(Hs trim_space); set_solver|]. intros to i q ->. set_solver.
  - apply rows_answer, rows_preview.
  - apply rows_answer, rows_read.
  - unfold on_front. pose proof (rows_ws ∅ (ar_upgraded a) r (fr_gate s)) as H. by destruct (ws_start _ _ _ _ _ _ _).
Qed.

(** C5: a request over HTTP changes only the rows of the player it is made for - the subject of its token,
    for a transfer also the receiver, for a session the player who asks for it - whatever is lost between
    the gateway and its database; rows of others, definitions and what the indexer stores stay. Without a
    valid token every route that needs one refuses with 401, 405 or 503, and nothing at all changes. *)
Theorem requests_touch_own_rows path a r (s : Front C L) :
  others (touched path r) (tables (gt_db (fr_gate s))) (tables (gt_db (fr_gate (snd (serve env db_env g codecs path a r s))))) /\
  (needs_token path = true -> token_claims path r = None ->
   exists resp, serve env db_env g codecs path a r s = (Ok (inl resp), s) /\ resp_status resp ∈ [401; 405; 503]%Z).
Proof.
  split; [apply rows_serve|]. unfold needs_token, token_claims, serve.
  destruct (mux path) as [[]|]; intros Hn Hc; try discriminate; try (apply refuses_answer; first [by apply refuses_player | by apply refuses_preview]).
  destruct (refuses_ws (ar_upgraded a) r Hc (fr_gate s)) as (resp & E & Hs). exists resp. split; [|done]. unfold on_front. rewrite E. by destruct s.
Qed.
End Handlers.

(** * A witness *)

(** A bucket of tokens, refilled at the rate up to the burst; times in nanoseconds. *)
Record Bucket := mkBucket { b_rate : Z; b_burst : Z; b_tokens : Z; b_last : Z }.
#[export] Instance bucket_limiter : RateLimiter Bucket := {
  NewLimiter rate burst := mkBucket rate burst (burst * 1000000000) 0;
  Allow now b :=
    let tokens := Z.min (b_burst b * 1000000000) (b_tokens b + Z.max 0 (now - b_last b) * b_rate b)%Z in
    if (1000000000 <=? tokens)%Z then (true, mkBucket (b_rate b) (b_burst b) (tokens - 1000000000) now)
    else (false, mkBucket (b_rate b) (b_burst b) tokens now) }.

(** Thirty-one requests at once: the last is refused, and another host is not affected. *)
Example burst_of_thirty :
  let reqs := replicate 31 (0%Z, "10.0.0.1:5000") ++ [(0%Z, "10.0.0.2:5000"); (10000000%Z, "10.0.0.1:5001")] in
  snd <$> fst (allowed_run reqs (∅ : gmap string Bucket)) = replicate 30 true ++ [false; true; true].
Proof. vm_compute. done. Qed.

Definition shop_codecs : Codecs :=
  mkCodecs (fun c => Ok (Subject c)) (fun t => if String.eqb t "" then None else Some (mkClaims t false f0 f0)) (fun _ => None) (fun _ => None)
    (fun b => Some (b, 2%Z)) (fun _ => None).
Definition shop_env : Env :=
  mkEnv (fun _ => Delivered) (fun n => Z.of_nat n) (fun _ => order_id) (fun _ => Ok "{}") (fun _ => Err (errorf "no codec" []))
    (fun _ => Ok tt) (statusf Unavailable "unreachable" []) "" "" "".
Definition shop_gateway : gateway := mkGateway "reg:9100" f0 f0 true false true 0 f0 0 0.
Definition shop_tables : Tables :=
  mkTables [] ∅ ∅ ∅ ∅ ∅ ∅ {["coin_copper" := mkItemDef "coin" 99]} {[("ann", "coin_copper") := 5%Z; ("bob", "coin_copper") := 3%Z]} ∅ ∅ ∅ ∅.
Definition shop : Front Memory Bucket := mkFront (mkGate (mkCluster None false ∅ ∅ ∅ [] 0) (mkDb shop_tables 0)) ∅.
Definition shop_request (token : string) : Request :=
  mkRequest "POST" (fun h => if String.eqb h "Authorization" then token else "") (fun _ => "") "" (Ok "coin_copper").
Definition shop_serve (token : string) : result (Response + option Started) * Front Memory Bucket :=
  serve shop_env (mkDbEnv (fun _ => Delivered) (fun _ => order_id)) shop_gateway shop_codecs "/v1/me/items/add"
    (mkArrival 0 "10.0.0.1:5000" false (Ok tt) (Ok []) (lit "")) (shop_request token) shop.

Lemma requests_touch_own_rows_witness :
  (let t := tables (gt_db (fr_gate (snd (shop_serve "Bearer ann")))) in
   player_item t !! ("ann", "coin_copper") = Some 7%Z /\ player_item t !! ("bob", "coin_copper") = Some 3%Z) /\
  snd (shop_serve "") = shop.
Proof.
  split.
  - destruct (requests_touch_own_rows shop_env (mkDbEnv (fun _ => Delivered) (fun _ => order_id)) shop_gateway shop_codecs "/v1/me/items/add"
      (mkArrival 0 "10.0.0.1:5000" false (Ok tt) (Ok []) (lit "")) (shop_request "Bearer ann") shop) as [[_ H] _].
    assert ("bob" ∉ touched shop_codecs "/v1/me/items/add" (shop_request "Bearer ann")) as Hb by (apply (bool_decide_eq_true_1 _); vm_compute; reflexivity).
    destruct (H "bob" Hb) as [_ H1]. destruct (H1 "coin_copper") as [_ H2]. cbv zeta. split; [vm_compute; reflexivity|].
    refine (eq_trans H2 _). vm_compute. reflexivity.
  - destruct (requests_touch_own_rows shop_env (mkDbEnv (fun _ => Delivered) (fun _ => order_id)) shop_gateway shop_codecs "/v1/me/items/add"
      (mkArrival 0 "10.0.0.1:5000" false (Ok tt) (Ok []) (lit "")) (shop_request "") shop) as [_ H].
    destruct (H eq_refl eq_refl) as (resp & E & _). exact (f_equal snd E).
Defined.

(** A token for the player [" ann"], whom the session takes for another one, gives away what [ann] has:
    transfers trim the ids that the token does not. *)
Example untrimmed_subject : touched shop_codecs "/v1/me/items/transfer" (shop_request "Bearer ann") = {["ann"]} /\
  touched (mkCodecs (jwt_sign shop_codecs) (fun _ => Some (mkClaims " ann" false f0 f0)) (parse_session shop_codecs) (parse_quest shop_codecs) (parse_item shop_codecs)
    (parse_transfer shop_codecs)) "/v1/me/items/transfer" (shop_request "Bearer x") = {["ann"]}.
Proof. split; apply (bool_decide_eq_true_1 _); vm_compute; reflexivity. Qed.
