(* ===== verification/Bus.v ===== *)
(** [internal/bus/nats]: the NATS client of the program - how it connects, what it counts, and the stream it
    sets up. The library [nats.go] is behind the interfaces [NatsLibrary] and [JetStream]. *)
From Stdlib Require Import Ascii ZArith Lia.
From S2P Require Import Prelude Effects GoString.
Local Open Scope string_scope.

(** * Subjects *)

Definition SubjectCellEvents : string := "cell.events".
Definition SubjectCellMigration : string := "cell.migration".
Definition SubjectCellControl : string := "cell.control".
Definition SubjectGridCommands : string := "grid.commands".
Definition SubjectGridSplitWorkflow : string := "grid.split.workflow".
Definition SubjectGridMergeWorkflow : string := "grid.merge.workflow".

Definition CellMigrationSubject (cellID : string) : string := SubjectCellMigration +:+ "." +:+ cellID.

(** * Connections *)

(** The options the program passes; the handlers count into the client. *)
Inductive Option :=
  | RetryOnFailedConnect (retry : bool)
  | MaxReconnects (max : Z)
  | ReconnectWait (t : Z)
  | Timeout (t : Z)
  | DisconnectErrHandler
  | ReconnectHandler.

(** A connection: what is published and flushed, what arrives on a subject. *)
Class NatsLibrary (N Conn : Type) := {
  nats_Connect : string -> list Option -> St N Conn;
  conn_Publish : Conn -> string -> string -> St N unit;
  conn_FlushTimeout : Conn -> Z -> St N unit;
  conn_SubscribeSync : Conn -> string -> St N nat;
  conn_NextMsg : Conn -> nat -> Z -> St N string;
  conn_Close : Conn -> St N unit
}.

Record Client (Conn : Type) := mkClient { conn : Conn; reconnectCount : Z; disconnectCount : Z }.
Arguments mkClient {Conn} _ _ _.
Arguments conn {Conn} _.
Arguments reconnectCount {Conn} _.
Arguments disconnectCount {Conn} _.

Record ReconnectConfig := mkReconnect { rc_RetryOnFailedConnect : bool; rc_MaxReconnects : Z; rc_ReconnectWait : Z; rc_ConnectTimeout : Z }.
Definition DefaultReconnectConfig : ReconnectConfig := mkReconnect true (-1) (2 * 1000000000) (2 * 1000000000).

Definition ErrEmptyURL : error := errorf "empty NATS server URL" [].

Section Connecting.
Context {N Conn : Type} `{!NatsLibrary N Conn}.

Definition Connect (url : string) (opts : list Option) : St N (Client Conn) :=
  _ ← guard_fail (String.eqb url "") ErrEmptyURL;
  conn ← nats_Connect url opts;
  mret (mkClient conn 0 0).

(** Later options override earlier ones. *)
Definition reconnect_options (cfg : ReconnectConfig) : list Option :=
  [RetryOnFailedConnect (rc_RetryOnFailedConnect cfg); MaxReconnects (rc_MaxReconnects cfg); ReconnectWait (rc_ReconnectWait cfg);
   Timeout (rc_ConnectTimeout cfg); DisconnectErrHandler; ReconnectHandler].

Definition ConnectResilient (url : string) (cfg : ReconnectConfig) (opts : list Option) : St N (Client Conn) :=
  _ ← guard_fail (String.eqb url "") ErrEmptyURL;
  conn ← nats_Connect url (reconnect_options cfg ++ opts);
  mret (mkClient conn 0 0).

Definition Publish (c : Client Conn) (subject data : string) : St N unit := conn_Publish (conn c) subject data.
Definition FlushTimeout (c : Client Conn) (t : Z) : St N unit := conn_FlushTimeout (conn c) t.
Definition Close (c : Client Conn) : St N unit := conn_Close (conn c).

Lemma empty_url_refused (cfg : ReconnectConfig) opts n :
  Connect "" opts n = (Err ErrEmptyURL, n) /\ ConnectResilient "" cfg opts n = (Err ErrEmptyURL, n).
Proof. done. Qed.
End Connecting.

(** ** What the handlers count *)

Inductive ConnEvent := Disconnected | Reconnected.

(** The counters are [int64] and wrap. *)
Definition on_event {Conn} (c : Client Conn) (ev : ConnEvent) : Client Conn :=
  match ev with
  | Disconnected => mkClient (conn c) (reconnectCount c) (int64 (disconnectCount c + 1))
  | Reconnected => mkClient (conn c) (int64 (reconnectCount c + 1)) (disconnectCount c)
  end.

Definition ReconnectStats {Conn} (c : Client Conn) : text :=
  Fmt "disconnects=%d reconnects=%d" [AInt (disconnectCount c); AInt (reconnectCount c)].

Definition is_disconnected (ev : ConnEvent) : bool := match ev with Disconnected => true | Reconnected => false end.

(** The status reports how often each happened since the client was made. *)
Lemma stats_count {Conn} (x : Conn) evs :
  (Z.of_nat (length evs) < 2 ^ 63)%Z ->
  let lost := Z.of_nat (length (base.filter (fun ev => is_disconnected ev = true) evs)) in
  ReconnectStats (foldl on_event (mkClient x 0 0) evs) =
    Fmt "disconnects=%d reconnects=%d" [AInt lost; AInt (Z.of_nat (length evs) - lost)].
Proof.
  intros Hlen lost. assert (forall c : Client Conn, (0 <= disconnectCount c)%Z -> (0 <= reconnectCount c)%Z ->
    (disconnectCount c + reconnectCount c + Z.of_nat (length evs) < 2 ^ 63)%Z ->
    disconnectCount (foldl on_event c evs) = (disconnectCount c + lost)%Z /\
    reconnectCount (foldl on_event c evs) = (reconnectCount c + (Z.of_nat (length evs) - lost))%Z) as H.
  { unfold lost. clear lost Hlen. induction evs as [|ev evs IH]; intros c Hd Hr Hs; cbn [foldl length] in *; [cbn; lia|].
    rewrite filter_cons. destruct ev; cbn [is_disconnected]; case_decide; try done; cbn [length].
    - destruct (IH (on_event c Disconnected)) as [-> ->]; cbn [on_event disconnectCount reconnectCount]; rewrite ?int64_id; lia.
    - destruct (IH (on_event c Reconnected)) as [-> ->]; cbn [on_event disconnectCount reconnectCount]; rewrite ?int64_id; lia. }
  destruct (H (mkClient x 0 0)) as [H1 H2]; cbn; try lia. unfold ReconnectStats. rewrite H1, H2. done.
Qed.

(** * JetStream *)

Record JetStreamConfig := mkJetStream { StreamName : string; Subjects : list string; MaxAge : Z; Replicas : Z }.

Definition DefaultJetStreamConfig : JetStreamConfig :=
  mkJetStream "MMO_EVENTS"
    [SubjectCellEvents; SubjectCellMigration +:+ ".*"; SubjectCellControl; SubjectGridCommands; SubjectGridSplitWorkflow; SubjectGridMergeWorkflow]
    (24 * 3600 * 1000000000) 1.

(** [nats.StreamConfig]: file storage and retention by limits are the program's fixed choice. *)
Record StreamConfig := mkStream { sc_Name : string; sc_Subjects : list string; sc_MaxAge : Z; sc_Replicas : Z }.

(** The streams of the server; the information on a stream is its configuration. *)
Class JetStream (J : Type) := {
  StreamInfo : string -> St J StreamConfig;
  AddStream : StreamConfig -> St J StreamConfig
}.

Definition EnsureStream {J} `{!JetStream J} (cfg : JetStreamConfig) : St J StreamConfig :=
  _ ← guard_fail (String.eqb (trim_space (StreamName cfg)) "") (errorf "jetstream stream name is empty" []);
  _ ← guard_fail (match Subjects cfg with [] => true | _ => false end) (errorf "jetstream subjects are empty" []);
  let age := if (MaxAge cfg <=? 0)%Z then (24 * 3600 * 1000000000)%Z else MaxAge cfg in
  let replicas := if (Replicas cfg <=? 0)%Z then 1%Z else Replicas cfg in
  si ← catch (StreamInfo (StreamName cfg));
  match si with
  | Ok si => mret si
  | Err _ => AddStream (mkStream (StreamName cfg) (Subjects cfg) age replicas)
  end.

(** What the documentation of JetStream promises: asking changes nothing, a stream that was added is there
    under its name as it was configured, and the others stay. Any call may fail. *)
Class JetStreamLaws (J : Type) `{!JetStream J} := {
  stream : J -> string -> option StreamConfig;
  info_law : forall name j, let '(r, j') := StreamInfo name j in
    j' = j /\ match r with Ok c => stream j name = Some c | Err _ => True end;
  add_law : forall c j, let '(r, j') := AddStream c j in
    (forall name, name <> sc_Name c -> stream j' name = stream j name) /\
    match r with Ok c' => c' = c /\ stream j' (sc_Name c) = Some c | Err _ => True end
}.

(** A success means that the stream is there: the one there was, whatever its settings are, or one with the
    settings asked for, the defaults in the place of those that are not positive. Other streams stay. *)
Lemma EnsureStream_spec {J} `{JetStreamLaws J} cfg (j j' : J) r :
  EnsureStream cfg j = (r, j') ->
  (forall name, name <> StreamName cfg -> stream j' name = stream j name) /\
  match r with
  | Ok c => stream j' (StreamName cfg) = Some c /\
      (j' = j \/ c = mkStream (StreamName cfg) (Subjects cfg) (if (MaxAge cfg <=? 0)%Z then 24 * 3600 * 1000000000 else MaxAge cfg)%Z
                       (if (Replicas cfg <=? 0)%Z then 1 else Replicas cfg)%Z)
  | Err _ => True
  end.
Proof.
  unfold EnsureStream, mbind, St_bind, guard_fail, catch.
  destruct (String.eqb _ ""); [by intros [= <- <-]|]. destruct (Subjects cfg) as [|s subjects] eqn:Es; [by intros [= <- <-]|].
  cbn [fail_if]. pose proof (info_law (StreamName cfg) j) as HI. destruct (StreamInfo _ j) as [ri j1]. destruct HI as [-> HI].
  destruct ri as [c|e].
  - intros [= <- <-]. split; [done|]. split; [done|by left].
  - pose proof (add_law (mkStream (StreamName cfg) (s :: subjects) (if (MaxAge cfg <=? 0)%Z then 24 * 3600 * 1000000000 else MaxAge cfg)%Z
      (if (Replicas cfg <=? 0)%Z then 1 else Replicas cfg)%Z) j) as HA.
    destruct (AddStream _ j) as [ra j2]. intros [= <- <-]. destruct HA as [HA1 HA2]. split; [exact HA1|].
    destruct ra as [c|]; [|done]. destruct HA2 as [-> HA2]. split; [exact HA2|by right].
Qed.

(** ** Streams in memory *)

Abbreviation Streams := (gmap string StreamConfig).

#[export] Instance Streams_jetstream : JetStream Streams := {
  StreamInfo name j := (match j !! name with Some c => Ok c | None => Err (errorf "nats: stream not found" []) end, j);
  AddStream c j :=
    match j !! sc_Name c with
    | Some _ => (Err (errorf "nats: stream name already in use" []), j)
    | None => (Ok c, <[sc_Name c := c]> j)
    end }.

#[export] Instance Streams_laws : JetStreamLaws Streams.
Proof.
  refine {| stream j name := j !! name |}; cbn.
  - intros name j. split; [done|]. by destruct (j !! name).
  - intros c j. destruct (j !! sc_Name c); cbn; [done|]. split; [intros name Hn; by rewrite lookup_insert_ne|].
    split; [done|apply lookup_insert_eq].
Defined.

(** A stream that is there keeps its settings, though others were asked for. *)
Example existing_stream_kept :
  let '(r1, j1) := EnsureStream DefaultJetStreamConfig (∅ : Streams) in
  let '(r2, j2) := EnsureStream (mkJetStream "MMO_EVENTS" ["a.*"] 0 3) j1 in
  is_ok r1 = true /\ r2 = r1 /\ j2 = j1.
Proof. vm_compute. done. Qed.
