(* ===== verification/GridConfig.v ===== *)
(** The settings of the grid manager ([cmd/grid-manager]): what the environment makes of the thresholds,
    the policies and the two workflows, the probe interval, and the choice of the catalog ([main.go]). *)
From Stdlib Require Import Ascii ZArith Lia.
From Stdlib.Floats Require Import SpecFloat.
From S2P Require Import Prelude Effects GoFloat GoString GoNumber HostPort Partition Registry Ecs CellSvc RegistrySvc LoadPolicy Workflow.
From S2P Require MergeWorkflow SplitWorkflow.
From S2P Require Import Config.
Local Open Scope string_scope.

(** * Readers of settings *)

Definition parseDurationWithDefault (raw : string) (fallback : Z) : Z :=
  let raw := trim_space raw in
  if String.eqb raw "" then fallback else default fallback (ParseDuration raw).

Definition parseIntWithDefault (raw : string) (fallback : Z) : Z :=
  let raw := trim_space raw in
  if String.eqb raw "" then fallback else default fallback (atoi raw).

Definition parseFloat64WithDefault (raw : string) (fallback : f64) : f64 :=
  let raw := trim_space raw in
  if String.eqb raw "" then fallback
  else match ParseFloat64 raw with Ok v => v | Err _ => fallback end.

Fixpoint firstNonEmpty (values : list string) : string :=
  match values with
  | [] => ""
  | v :: values => let v := trim_space v in if negb (String.eqb v "") then v else firstNonEmpty values
  end.

Definition parseCellIDSet (raw : string) : gset string :=
  list_to_set (csv_words (trim_space raw)).

Definition Second : Z := 1000000000.
Definition Minute : Z := 60 * Second.

Section Environment.
Context (Getenv : string -> string).

Definition envBool (key : string) : bool :=
  let s := trim_space (Getenv key) in EqualFold s "1" || EqualFold s "true" || EqualFold s "yes".

(** A setting that counts only when it is positive. *)
Definition int_from (key : string) (old : Z) : Z :=
  let n := parseIntWithDefault (Getenv key) old in if (1 <=? n)%Z then n else old.
Definition duration_from (key : string) (old : Z) : Z :=
  let d := parseDurationWithDefault (Getenv key) old in if (0 <? d)%Z then d else old.

(** * Thresholds and the probe *)

Definition parseLoadThresholds : loadThresholds :=
  let int_of key old := let s := trim_space (Getenv key) in if String.eqb s "" then old else default old (atoi s) in
  let s := trim_space (Getenv "MMO_GRID_THRESHOLD_MAX_TICK_SECONDS") in
  mkThresholds (int_of "MMO_GRID_THRESHOLD_MAX_PLAYERS" 200%Z) (int_of "MMO_GRID_THRESHOLD_MAX_ENTITIES" 8000%Z)
    (let five_hundredths := fdiv (f64_of_Z 5) (f64_of_Z 100) in
     if String.eqb s "" then five_hundredths else match ParseFloat64 s with Ok f => f | Err _ => five_hundredths end).

Definition cellProbeInterval : Z :=
  let s := trim_space (Getenv "MMO_GRID_CELL_PROBE_INTERVAL") in
  if String.eqb s "" then 10 * Second
  else match ParseDuration s with
       | Some d => if (d <? Second)%Z then 10 * Second else d
       | None => 10 * Second
       end%Z.

(** * The policies *)

Definition parseLoadPolicyConfig : loadPolicyConfig :=
  let not_negative key old :=
    let s := trim_space (Getenv key) in
    if String.eqb s "" then old
    else match ParseDuration s with Some d => if (0 <=? d)%Z then d else old | None => old end in
  mkPolicyConfig
    (not_negative "MMO_GRID_LOAD_POLICY_MIN_BREACH_DURATION" (20 * Second)%Z)
    (not_negative "MMO_GRID_LOAD_POLICY_COOLDOWN" (2 * Minute)%Z)
    (envBool "MMO_GRID_AUTO_SPLIT_DRAIN")
    (envBool "MMO_GRID_AUTO_MERGE_WORKFLOW")
    (envBool "MMO_GRID_MERGE_PLAYER_HANDOFF")
    (parseDurationWithDefault (Getenv "MMO_GRID_MERGE_MIN_LOW_LOAD_DURATION") (3 * Minute))
    (parseDurationWithDefault (Getenv "MMO_GRID_MERGE_COOLDOWN") (6 * Minute))
    (parseFloat64WithDefault (Getenv "MMO_GRID_MERGE_THRESHOLD_MAX_PLAYERS") f0)
    (parseFloat64WithDefault (Getenv "MMO_GRID_MERGE_PLAYER_HANDOFF_MAX_PLAYERS") (f64_of_Z 32))
    (parseFloat64WithDefault (Getenv "MMO_GRID_MERGE_THRESHOLD_MAX_ENTITIES") (f64_of_Z 300))
    (parseFloat64WithDefault (Getenv "MMO_GRID_MERGE_THRESHOLD_MAX_TICK_SECONDS") (fdiv (f64_of_Z 1) (f64_of_Z 100))).

(** * The workflows

    The Go structure is kept in two parts: what the start guard looks at, and what a run uses. *)

Definition registry_addr : string := firstNonEmpty [trim_space (Getenv "MMO_GRID_REGISTRY_ADDR"); "127.0.0.1:9100"].

(** Read anew in each run. [strings.ToLower] makes none of these words of other letters. *)
Definition postHandoffOrchestrationEnabled : bool :=
  let v := trim_space (to_lower (Getenv "MMO_GRID_AUTO_POST_HANDOFF_ORCHESTRATION")) in
  if String.eqb v "" then true else String.eqb v "1" || String.eqb v "true" || String.eqb v "yes".

Definition parseSplitWorkflowConfig : SplitWorkflow.splitWorkflowConfig :=
  SplitWorkflow.mkSplitConfig registry_addr
    (Z.to_nat (int_from "MMO_GRID_SPLIT_WORKFLOW_MAX_RETRIES" 4))
    (duration_from "MMO_GRID_SPLIT_WORKFLOW_BACKOFF" (1 * Second))
    (duration_from "MMO_GRID_SPLIT_WORKFLOW_MAX_BACKOFF" (12 * Second))
    (duration_from "MMO_GRID_SPLIT_WORKFLOW_WAIT_CHILDREN" (90 * Second))
    postHandoffOrchestrationEnabled
    (envBool "MMO_GRID_SPLIT_TEARDOWN_RUNTIME_CHILDREN").

(** [cfg.maxLevel = int32(n)] drops the upper bits of [n]. *)
Definition split_guard : splitWorkflowRuntime :=
  mkSplit (envBool "MMO_GRID_AUTO_SPLIT_WORKFLOW")
    (int32 (int_from "MMO_GRID_SPLIT_MAX_LEVEL" 0))
    (int_from "MMO_GRID_SPLIT_MAX_CONCURRENT_WORKFLOWS" 0)
    (parseCellIDSet (Getenv "MMO_GRID_SPLIT_WORKFLOW_BLOCKLIST")) ∅.

Definition parseMergeWorkflowConfig : MergeWorkflow.mergeWorkflowConfig :=
  MergeWorkflow.mkMergeConfig registry_addr
    (Z.to_nat (int_from "MMO_GRID_MERGE_WORKFLOW_MAX_RETRIES" 3))
    (duration_from "MMO_GRID_MERGE_WORKFLOW_BACKOFF" (1 * Second))
    (duration_from "MMO_GRID_MERGE_WORKFLOW_MAX_BACKOFF" (10 * Second))
    (envBool "MMO_GRID_MERGE_PLAYER_HANDOFF")
    (int_from "MMO_GRID_MERGE_PLAYER_HANDOFF_MAX_PLAYERS" 32).

Definition merge_guard : mergeWorkflowRuntime :=
  mkMerge (envBool "MMO_GRID_AUTO_MERGE_WORKFLOW") (parseCellIDSet (Getenv "MMO_GRID_MERGE_WORKFLOW_BLOCKLIST")) ∅.

(** * The runtimes

    [connect] is [natsbus.ConnectResilient]: whether a client results for this URL; a failure is logged
    and the workflow goes on without. The Redis client is made when there is an address. *)
Context (url_parse : string -> option (string * string * string)) (connect : string -> bool).

Definition has_nats : bool :=
  let url := NATSURL (FromEnv Getenv url_parse) in negb (String.eqb url "") && connect url.
Definition has_redis : bool := negb (String.eqb (RedisAddr (FromEnv Getenv url_parse)) "").

Definition newSplitWorkflowRuntime : splitWorkflowRuntime * (bool * bool) := (split_guard, (has_nats, has_redis)).
Definition newMergeWorkflowRuntime : mergeWorkflowRuntime * (bool * bool) := (merge_guard, (has_nats, has_redis)).

Definition newLoadPolicyRuntime : loadPolicyRuntime :=
  mkPolicy parseLoadPolicyConfig ∅ ∅ (Some (fst newSplitWorkflowRuntime)) (Some (fst newMergeWorkflowRuntime)) has_nats [] [].

(** The subject that the policy publishes on. *)
Definition policy_subject : string :=
  let subj := trim_space (Getenv "MMO_GRID_POLICY_NATS_SUBJECT") in
  if String.eqb subj "" then "grid.commands" else subj.

(** * The catalog

    [ConsulAddrFromEnv] is the address in the configuration. A Consul client for the address may fail to
    be made. *)
Inductive CatalogChoice := MemoryCatalog | ConsulCatalog (addr token : string).
Context (new_consul : string -> string -> result unit).

Definition openCatalog (backend consulAddrFlag : string) : result CatalogChoice :=
  let cfg := FromEnv Getenv url_parse in
  let addr := if String.eqb consulAddrFlag "" then ConsulHTTPAddr_ cfg else consulAddrFlag in
  let consul := _ ← new_consul addr (ConsulHTTPToken cfg); Ok (ConsulCatalog addr (ConsulHTTPToken cfg)) in
  if String.eqb backend "memory" then Ok MemoryCatalog
  else if String.eqb backend "consul" then
    if String.eqb addr "" then Err (errorf "consul backend requires -consul-addr or CONSUL_HTTP_ADDR" []) else consul
  else if String.eqb backend "auto" then
    if negb (String.eqb addr "") then consul else Ok MemoryCatalog
  else Err (errorf "backend must be auto, memory, or consul" []).
End Environment.

Definition catalogDesc (store : CatalogChoice) : string :=
  match store with ConsulCatalog _ _ => "consul" | MemoryCatalog => "memory" end.

(** * What every environment gives *)

Lemma parseDuration_cases raw fallback :
  parseDurationWithDefault raw fallback = fallback \/ ParseDuration (trim_space raw) = Some (parseDurationWithDefault raw fallback).
Proof.
  unfold parseDurationWithDefault. destruct (String.eqb _ _); [by left|].
  destruct (ParseDuration (trim_space raw)); [by right|by left].
Qed.

Lemma duration_from_range Getenv key old : (0 < old < 2 ^ 63)%Z -> (0 < duration_from Getenv key old < 2 ^ 63)%Z.
Proof.
  intros Hold. unfold duration_from. destruct (Z.ltb_spec 0 (parseDurationWithDefault (Getenv key) old)); [|done].
  destruct (parseDuration_cases (Getenv key) old) as [->|Hd%ParseDuration_range]; lia.
Qed.

Lemma int_from_range Getenv key old : (0 <= old < 2 ^ 63)%Z -> (old <= int_from Getenv key old \/ 1 <= int_from Getenv key old)%Z /\ (0 <= int_from Getenv key old < 2 ^ 63)%Z.
Proof.
  intros Hold. unfold int_from. destruct (Z.leb_spec 1 (parseIntWithDefault (Getenv key) old)); [|lia].
  unfold parseIntWithDefault in *. destruct (String.eqb _ _); [lia|]. destruct (atoi _) as [n|] eqn:E; [|cbn in *; lia].
  apply atoi_range in E. cbn [default from_option id] in *. lia.
Qed.

(** An id of a block list is a non-empty trimmed word, as the ids the guards look up. *)
Lemma elem_of_parseCellIDSet id raw :
  id ∈ parseCellIDSet raw <-> id <> "" /\ exists part, part ∈ split_on "," (trim_space raw) /\ trim_space part = id.
Proof.
  unfold parseCellIDSet, csv_words. rewrite elem_of_list_to_set, list_elem_of_filter, list_elem_of_fmap. split.
  - intros [Hne (part & -> & Hin)]. eauto.
  - intros [Hne (part & Hin & <-)]. eauto.
Qed.

Lemma firstNonEmpty_spec values : (exists v, v ∈ values /\ trim_space v <> "") ->
  firstNonEmpty values <> "" /\ trim_space (firstNonEmpty values) = firstNonEmpty values.
Proof.
  induction values as [|v values IH]; intros (w & Hw & Hne); [by apply elem_of_nil in Hw|]. cbn [firstNonEmpty].
  destruct (String.eqb_spec (trim_space v) ""); cbn [negb].
  - apply IH. apply elem_of_cons in Hw as [->|Hw]; [done|eauto].
  - split; [done|apply trim_space_idem].
Qed.

(** ** The settings are sane *)

(** A pause of a workflow: positive, and a duration. *)
Definition pause (d : Z) : Prop := (0 < d < 2 ^ 63)%Z.
(** A count an [int] holds. *)
Definition count (n : Z) : Prop := (0 <= n < 2 ^ 63)%Z.
(** What the start guards compare ids with. *)
Definition trimmed (ids : gset string) : Prop := forall id, id ∈ ids -> id <> "" /\ trim_space id = id.

Lemma parseCellIDSet_trimmed raw : trimmed (parseCellIDSet raw).
Proof. intros id (Hne & part & _ & <-)%elem_of_parseCellIDSet. split; [done|apply trim_space_idem]. Qed.

Lemma Second_pause n : (0 < n < 1000)%Z -> pause (n * Second).
Proof. unfold pause, Second. lia. Qed.

(** C26: Whatever the environment holds - nothing, words that are no numbers, negative or huge ones - the
    grid manager runs its workflows with at least one attempt, positive pauses, an address to call, and
    block lists of trimmed ids; the split workflow waits for its children for a positive time, with a limit
    of runs that is not negative (zero is none) and a level limit that is an int32; the merge workflow
    moves at most a positive number of players; the cells are probed no more often than once a second; and
    the minimal duration and the cooldown of the breach policy are not negative. (The two times of the merge
    policy may be: [odd_settings].) *)
Theorem grid_settings_sane Getenv :
  let split := parseSplitWorkflowConfig Getenv in
  let merge := parseMergeWorkflowConfig Getenv in
  let policy := parseLoadPolicyConfig Getenv in
  (1 <= SplitWorkflow.maxRetries split /\ pause (SplitWorkflow.initialBackoff split) /\ pause (SplitWorkflow.maxBackoff split) /\
   pause (SplitWorkflow.waitChildren split) /\ SplitWorkflow.registryAddr split <> "") /\
  (1 <= MergeWorkflow.maxRetries merge /\ pause (MergeWorkflow.initialBackoff merge) /\ pause (MergeWorkflow.maxBackoff merge) /\
   (1 <= MergeWorkflow.maxPlayersMove merge)%Z /\ MergeWorkflow.registryAddr merge <> "") /\
  (trimmed (sp_blockedCells (split_guard Getenv)) /\ count (sp_maxConcurrent (split_guard Getenv)) /\
   (- 2 ^ 31 <= sp_maxLevel (split_guard Getenv) < 2 ^ 31)%Z /\ trimmed (mw_blockedParents (merge_guard Getenv))) /\
  (count (minBreachDuration policy) /\ count (cooldown policy) /\ (Second <= cellProbeInterval Getenv < 2 ^ 63)%Z).
Proof.
  assert (registry_addr Getenv <> "") as Haddr.
  { apply firstNonEmpty_spec. exists "127.0.0.1:9100". split; [set_solver|by vm_compute]. }
  assert (forall key n, (1 <= n < 1000)%Z -> (1 <= int_from Getenv key n)%Z) as Hint.
  { intros key n Hn. pose proof (int_from_range Getenv key n ltac:(lia)). lia. }
  assert (forall key n, (0 < n < 1000)%Z -> pause (duration_from Getenv key (n * Second))) as Hdur.
  { intros key n Hn. by apply duration_from_range, Second_pause. }
  cbv zeta. split; [|split; [|split]].
  - split; [|by split_and!; (apply Hdur || apply Haddr)].
    pose proof (Hint "MMO_GRID_SPLIT_WORKFLOW_MAX_RETRIES" 4%Z ltac:(lia)). cbn. lia.
  - split; [|split_and!; (apply Hdur || apply Haddr || apply Hint); lia].
    pose proof (Hint "MMO_GRID_MERGE_WORKFLOW_MAX_RETRIES" 3%Z ltac:(lia)). cbn. lia.
  - split; [apply parseCellIDSet_trimmed|]. split; [by apply int_from_range|]. split; [|apply parseCellIDSet_trimmed].
    cbn [sp_maxLevel split_guard]. unfold int32. pose proof (Z.mod_pos_bound (int_from Getenv "MMO_GRID_SPLIT_MAX_LEVEL" 0 + 2 ^ 31) (2 ^ 32)). lia.
  - assert (forall s old, count old -> count (if String.eqb s "" then old else
        match ParseDuration s with Some d => if (0 <=? d)%Z then d else old | None => old end)) as Hnn.
    { intros s old Hold. destruct (String.eqb s ""); [done|]. destruct (ParseDuration s) as [d|] eqn:E; [|done].
      apply ParseDuration_range in E. destruct (Z.leb_spec 0 d); [unfold count; lia|done]. }
    split; [by apply Hnn|]. split; [by apply Hnn|]. unfold cellProbeInterval.
    destruct (String.eqb _ _); [done|]. destruct (ParseDuration _) as [d|] eqn:E; [|done].
    apply ParseDuration_range in E. destruct (Z.ltb_spec d Second); [done|lia].
Qed.

(** ** Three readers of the player limit

    The registry service, the merge workflow and the merge policy each read the two variables of the
    player handoff in a merge. *)
Definition reads_handoff (Getenv : string -> string) (env : Env) : Prop :=
  env_handoff env = Getenv "MMO_GRID_MERGE_PLAYER_HANDOFF" /\
  env_handoff_max env = Getenv "MMO_GRID_MERGE_PLAYER_HANDOFF_MAX_PLAYERS".

(** The registry service and the merge workflow read the player handoff settings alike, whatever they
    are. The policy, which reads the limit as a float, agrees with both when the limit is not set and when
    it is the decimal numeral of a positive number below 2^53, with white space around it. *)
Theorem handoff_limits_agree Getenv env :
  reads_handoff Getenv env ->
  let merge := parseMergeWorkflowConfig Getenv in
  let policy := parseLoadPolicyConfig Getenv in
  mergePlayerHandoffEnabled env = MergeWorkflow.playerHandoff merge /\
  mergePlayerHandoff policy = MergeWorkflow.playerHandoff merge /\
  mergePlayerHandoffMaxPlayers env = MergeWorkflow.maxPlayersMove merge /\
  (forall n, (0 < n < 2 ^ 53)%Z ->
     trim_space (Getenv "MMO_GRID_MERGE_PLAYER_HANDOFF_MAX_PLAYERS") = itoa n \/
     trim_space (Getenv "MMO_GRID_MERGE_PLAYER_HANDOFF_MAX_PLAYERS") = "" /\ n = 32%Z ->
     MergeWorkflow.maxPlayersMove merge = n /\ mergeHandoffMaxPlayers policy = f64_of_Z n).
Proof.
  intros [H1 H2]. cbv zeta. unfold mergePlayerHandoffEnabled, mergePlayerHandoffMaxPlayers. rewrite H1, H2.
  cbn [MergeWorkflow.playerHandoff MergeWorkflow.maxPlayersMove parseMergeWorkflowConfig mergePlayerHandoff mergeHandoffMaxPlayers parseLoadPolicyConfig].
  split; [done|]. split; [done|]. unfold int_from, parseIntWithDefault, parseFloat64WithDefault.
  generalize (trim_space (Getenv "MMO_GRID_MERGE_PLAYER_HANDOFF_MAX_PLAYERS")) as raw. intros raw. split.
  - destruct (String.eqb raw ""); [done|]. destruct (atoi raw) as [n|]; [|done]. cbn [default from_option id].
    destruct (Z.leb_spec n 0), (Z.leb_spec 1 n); try done; lia.
  - intros n Hn [->|[-> ->]]; [|done]. destruct (String.eqb_spec (itoa n) "") as [E|_]; [by destruct (itoa_graphic n)|].
    rewrite atoi_itoa, ParseFloat64_itoa by lia. cbn [default from_option id].
    destruct (Z.leb_spec 1 n); [done|lia].
Qed.

Definition env_of (l : list (string * string)) (key : string) : string := default "" ((list_to_map l : gmap string string) !! key).

Lemma handoff_limits_agree_witness :
  let Getenv := env_of [("MMO_GRID_MERGE_PLAYER_HANDOFF", " Yes "); ("MMO_GRID_MERGE_PLAYER_HANDOFF_MAX_PLAYERS", " 12")] in
  let env := mkEnv (fun _ => Delivered) (fun _ => 0%Z) (fun _ => order_id) (fun _ => Ok "") (fun _ => Err (errorf "" [])) (fun _ => Ok tt)
               (errorf "" []) " Yes " " 12" "" in
  mergePlayerHandoffEnabled env = true /\ mergePlayerHandoffMaxPlayers env = 12%Z /\
  mergeHandoffMaxPlayers (parseLoadPolicyConfig Getenv) = f64_of_Z 12.
Proof.
  intros Getenv env. assert (reads_handoff Getenv env) as H by (split; vm_compute; reflexivity).
  assert (trim_space (Getenv "MMO_GRID_MERGE_PLAYER_HANDOFF_MAX_PLAYERS") = itoa 12) as Hmax by (vm_compute; reflexivity).
  destruct (handoff_limits_agree Getenv env H) as (H1 & _ & H3 & H4).
  destruct (H4 12%Z (conj eq_refl eq_refl) (or_introl Hmax)) as [H5 H6].
  split; [rewrite H1; vm_compute; reflexivity|]. split; [rewrite H3; exact H5|exact H6].
Defined.

(** The policy does not read the limit as the others do: zero is a limit of zero players for it and the
    default of 32 for them, and a fraction is a limit for it and no number for them. *)
Example handoff_limits_differ :
  let reads v := let Getenv := env_of [("MMO_GRID_MERGE_PLAYER_HANDOFF_MAX_PLAYERS", v)] in
    (MergeWorkflow.maxPlayersMove (parseMergeWorkflowConfig Getenv), mergeHandoffMaxPlayers (parseLoadPolicyConfig Getenv)) in
  reads "0" = (32%Z, f0) /\ reads "1.5" = (32%Z, f64_of 3 (-1)) /\ reads "NaN" = (32%Z, S754_nan).
Proof. vm_compute. done. Qed.

(** A limit on the level of 2^32 or more loses its upper bits: it limits nothing, or everything. *)
Example level_limit_wraps :
  let limit v := sp_maxLevel (split_guard (env_of [("MMO_GRID_SPLIT_MAX_LEVEL", v)])) in
  limit "12" = 12%Z /\ limit "4294967296" = 0%Z /\ limit "2147483648" = (- 2 ^ 31)%Z /\ limit "4294967297" = 1%Z.
Proof. vm_compute. done. Qed.

(** A threshold that is not a number is taken, and then never exceeded; a merge takes negative waits. *)
Example odd_settings :
  let Getenv := env_of [("MMO_GRID_THRESHOLD_MAX_TICK_SECONDS", "nan"); ("MMO_GRID_MERGE_THRESHOLD_MAX_ENTITIES", "nan");
                        ("MMO_GRID_MERGE_MIN_LOW_LOAD_DURATION", "-1h"); ("MMO_GRID_LOAD_POLICY_COOLDOWN", "-1h")] in
  maxTickSec (parseLoadThresholds Getenv) = S754_nan /\ fst (evalLoadThresholds order_id true f0 f0 (S754_infinity false) (parseLoadThresholds Getenv)) = f1 /\
  mergeMaxEntities (parseLoadPolicyConfig Getenv) = S754_nan /\
  exceeds (mergeMaxEntities (parseLoadPolicyConfig Getenv)) (f64_of_Z 1000000) = false /\
  mergeLowLoadFor (parseLoadPolicyConfig Getenv) = (- 3600 * Second)%Z /\ cooldown (parseLoadPolicyConfig Getenv) = (2 * Minute)%Z.
Proof. vm_compute. done. Qed.

(** ** What is written is what is used *)

(** Ids joined by commas are read back as their set. *)
Lemma blocklist_roundtrip ids : Forall list_word ids -> parseCellIDSet (join "," ids) = list_to_set ids.
Proof. intros HF. unfold parseCellIDSet. by rewrite trim_space_graphic, csv_words_join by auto using join_graphic. Qed.

(** A whole number of a unit is used as it is written. *)
Lemma duration_from_whole Getenv key old n u unit :
  unitMap u = Some unit -> (0 < n)%Z -> (n * unit < 2 ^ 63)%Z -> trim_space (Getenv key) = itoa n +:+ u ->
  duration_from Getenv key old = (n * unit)%Z.
Proof.
  intros Hu Hn Hlt Hk. unfold duration_from, parseDurationWithDefault. rewrite Hk.
  destruct (unitMap_cases u unit Hu) as (_ & _ & _ & _ & Hpos).
  destruct (String.eqb_spec (itoa n +:+ u) "") as [E|_]; [destruct (itoa_graphic n) as [_ Hi]; by destruct (itoa n)|].
  rewrite (ParseDuration_whole n u unit) by (done || lia). cbn [default from_option id]. destruct (Z.ltb_spec 0 (n * unit)); [done|nia].
Qed.

(** The starts and ends of workflows since the runtime was made. *)
Inductive use := Starts (cellID : string) | Finishes (cellID : string).
Definition use_split (w : splitWorkflowRuntime) (u : use) : splitWorkflowRuntime :=
  match u with Starts c => fst (split_maybeStart c w) | Finishes c => split_finish c w end.
Definition use_merge (w : mergeWorkflowRuntime) (u : use) : mergeWorkflowRuntime :=
  match u with Starts c => fst (merge_maybeStart c w) | Finishes c => merge_finish c w end.

Lemma use_split_blocked uses w : sp_blockedCells (foldl use_split w uses) = sp_blockedCells w.
Proof.
  revert w. induction uses as [|[c|c] uses IH]; intros w; [done| |]; cbn [foldl]; rewrite IH; [|done].
  cbn [use_split]. unfold split_maybeStart. by repeat case_match.
Qed.

Lemma use_merge_blocked uses w : mw_blockedParents (foldl use_merge w uses) = mw_blockedParents w.
Proof.
  revert w. induction uses as [|[c|c] uses IH]; intros w; [done| |]; cbn [foldl]; rewrite IH; [|done].
  cbn [use_merge]. unfold merge_maybeStart. by repeat case_match.
Qed.

(** Cells named in the block list of splits, or of merges, are never split or merged: however the
    runtime has been used since it was made, a start for one of them is refused. *)
Theorem blocked_cells_never_start Getenv ids id padded uses :
  Forall list_word ids -> id ∈ ids -> trim_space padded = id ->
  (Getenv "MMO_GRID_SPLIT_WORKFLOW_BLOCKLIST" = join "," ids ->
   snd (split_maybeStart padded (foldl use_split (split_guard Getenv) uses)) = None) /\
  (Getenv "MMO_GRID_MERGE_WORKFLOW_BLOCKLIST" = join "," ids ->
   snd (merge_maybeStart padded (foldl use_merge (merge_guard Getenv) uses)) = None).
Proof.
  intros HF Hin Hp. split; intros Hg.
  - unfold split_maybeStart. rewrite use_split_blocked, Hp. cbn [sp_blockedCells split_guard]. rewrite Hg, blocklist_roundtrip by done.
    rewrite (bool_decide_eq_true_2 (id ∈ list_to_set ids)) by (by apply elem_of_list_to_set). by destruct (_ || _).
  - unfold merge_maybeStart. rewrite use_merge_blocked, Hp. cbn [mw_blockedParents merge_guard]. rewrite Hg, blocklist_roundtrip by done.
    rewrite (bool_decide_eq_true_2 (id ∈ list_to_set ids)) by (by apply elem_of_list_to_set). by destruct (_ || _).
Qed.

Lemma blocked_cells_never_start_witness :
  let Getenv := env_of [("MMO_GRID_AUTO_SPLIT_WORKFLOW", "true"); ("MMO_GRID_SPLIT_WORKFLOW_BLOCKLIST", "cell_root,cell_q1")] in
  snd (split_maybeStart "cell_q0" (split_guard Getenv)) = Some "cell_q0" /\
  snd (split_maybeStart " cell_q1 " (fst (split_maybeStart "cell_q0" (split_guard Getenv)))) = None.
Proof.
  intros Getenv. split; [vm_compute; reflexivity|].
  assert (Forall list_word ["cell_root"; "cell_q1"]) as HF by (repeat constructor; vm_compute; discriminate).
  assert (Hin : "cell_q1" ∈ ["cell_root"; "cell_q1"]) by (by right; left).
  assert (Hp : trim_space " cell_q1 " = "cell_q1") by (vm_compute; reflexivity).
  assert (Hg : Getenv "MMO_GRID_SPLIT_WORKFLOW_BLOCKLIST" = join "," ["cell_root"; "cell_q1"]) by (vm_compute; reflexivity).
  exact (proj1 (blocked_cells_never_start Getenv ["cell_root"; "cell_q1"] "cell_q1" " cell_q1 " [Starts "cell_q0"] HF Hin Hp) Hg).
Defined.
