(* ===== verification/Startup.v ===== *)
(** How the other processes start: the grid manager ([cmd/grid-manager/main.go]), the cell controller with
    the subjects it listens to ([cmd/cell-controller/main.go]), and the indexer ([cmd/web3-indexer/main.go]). *)
From Stdlib Require Import Ascii ZArith Lia.
From S2P Require Import Prelude Effects GoFloat GoString GoFlag Partition Registry CellSvc RegistrySvc LoadPolicy Db Http Web3 Controller Config.
From S2P Require Import GatewayMain Bus GridConfig.
Local Open Scope string_scope.
Local Open Scope list_scope.

(** * The grid manager *)

Record GridFlags := mkGridFlags { gr_listen : string; gr_metrics : string; gr_backend : string; gr_consulAddr : string }.
Definition default_grid_flags : GridFlags := mkGridFlags "127.0.0.1:9100" "" "auto" "".

Definition set_grid_flag (name value : string) (f : GridFlags) : result GridFlags :=
  let '(mkGridFlags l m b c) := f in
  if String.eqb name "listen" then Ok (mkGridFlags value m b c)
  else if String.eqb name "metrics-listen" then Ok (mkGridFlags l value b c)
  else if String.eqb name "backend" then Ok (mkGridFlags l m value c)
  else if String.eqb name "consul-addr" then Ok (mkGridFlags l m b value)
  else flag_error.

(** The running process: its catalog, the policies if the probe runs, whether its registry publishes. *)
Record GridProcess := mkGridProcess { gp_listen : string; gp_catalog : CatalogChoice; gp_policy : option loadPolicyRuntime; gp_nats : bool }.

(** The probe, and with it the policies, runs only when there is an address for the metrics. *)
Definition grid_main (Getenv : string -> string) (url_parse : string -> option (string * string * string)) (connect : string -> bool)
    (new_consul : string -> string -> result unit) (args : list string) : result GridProcess :=
  '(f, _) ← parse_flags set_grid_flag (fun _ => false) args default_grid_flags;
  store ← openCatalog Getenv url_parse new_consul (gr_backend f) (gr_consulAddr f);
  Ok (mkGridProcess (gr_listen f) store
        (if String.eqb (gr_metrics f) "" then None else Some (newLoadPolicyRuntime Getenv url_parse connect))
        (has_nats Getenv url_parse connect)).

(** Without an address for the metrics no split or merge starts by itself, whatever the environment says. *)
Example no_policy_by_default :
  gp_policy <$> (match grid_main (fun k => if String.eqb k "MMO_GRID_AUTO_SPLIT_WORKFLOW" then "true" else "") (fun _ => None) (fun _ => true) (fun _ _ => Ok tt) [] with
                 | Ok p => Some p | Err _ => None end) = Some None.
Proof. reflexivity. Qed.

(** * The cell controller *)

(** Which messages a subscription gets: tokens between dots, [*] for one token and [>] for the rest. *)
Fixpoint tokens_match (pattern subject : list string) : bool :=
  match pattern, subject with
  | [], [] => true
  | p :: pattern, t :: subject =>
      if String.eqb p ">" then true
      else (String.eqb p "*" || String.eqb p t) && tokens_match pattern subject
  | _, _ => false
  end.
Definition subject_matches (pattern subject : string) : bool := tokens_match (split_on "." pattern) (split_on "." subject).

(** A subject without wildcards gets its own messages only. *)
Lemma plain_matches p t : "*" ∉ split_on "." p -> ">" ∉ split_on "." p -> subject_matches p t = true -> split_on "." p = split_on "." t.
Proof.
  unfold subject_matches. generalize (split_on "." p) (split_on "." t). induction l as [|x l IH]; intros [|y l'] Hs Hg; [done..|].
  cbn [tokens_match]. destruct (String.eqb_spec x ">") as [->|_]; [set_solver|]. destruct (String.eqb_spec x "*") as [->|_]; [set_solver|].
  cbn [orb]. destruct (String.eqb_spec x y) as [->|_]; [|done]. cbn [andb]. intros H. f_equal. apply IH; [set_solver..|done].
Qed.

Inductive Handler := OnWorkflow | OnControl.

Section ControllerMain.
Context (Getenv : string -> string) (url_parse : string -> option (string * string * string)).

Definition subject_from (key fallback : string) : string :=
  let s := trim_space (Getenv key) in if String.eqb s "" then fallback else s.

(** [in_cluster] is what [rest.InClusterConfig] and [kubernetes.NewForConfig] give. *)
Definition newK8sClient (in_cluster : result unit) : result string :=
  let ns := subject_from "POD_NAMESPACE" "mmo" in
  _ ← in_cluster; Ok ns.

Definition subscriptions : list (string * Handler) :=
  let subj := subject_from "MMO_CELL_CONTROLLER_SUBJECT" SubjectGridSplitWorkflow in
  (subj, OnWorkflow) ::
  (if negb (String.eqb subj SubjectGridMergeWorkflow) then [(SubjectGridMergeWorkflow, OnWorkflow)] else []) ++
  [(subject_from "MMO_CELL_CONTROLLER_CONTROL_SUBJECT" SubjectCellControl, OnControl)].

(** The namespace and whether there is a Redis. [subscribe] is [Conn.Subscribe]. *)
Definition controller_main {N Conn} `{!NatsLibrary N Conn} (in_cluster : result unit) (subscribe : Conn -> string -> St N unit)
    : St N (string * bool) :=
  let cfg := FromEnv Getenv url_parse in
  _ ← guard_fail (String.eqb (NATSURL cfg) "") (errorf "NATS_URL is required for cell-controller" []);
  ns ← lift (newK8sClient in_cluster);
  client ← ConnectResilient (NATSURL cfg) DefaultReconnectConfig [];
  _ ← for_each (fun '(subj, _) => subscribe (conn client) subj) subscriptions;
  _ ← FlushTimeout client (2 * Second);
  mret (ns, negb (String.eqb (RedisAddr cfg) "")).

Definition handlers_of (subject : string) : list Handler :=
  omap (fun '(pattern, h) => if subject_matches pattern subject then Some h else None) subscriptions.

(** A message goes to every subscription that matches. *)
Definition deliver {P} (on : Handler -> string -> St P unit) (subject raw : string) : St P unit :=
  for_each (fun h => on h raw) (handlers_of subject).

(** With the default subjects every event of a workflow and every control message is handled once, by the
    handler meant for it. *)
Lemma default_subjects :
  trim_space (Getenv "MMO_CELL_CONTROLLER_SUBJECT") = "" -> trim_space (Getenv "MMO_CELL_CONTROLLER_CONTROL_SUBJECT") = "" ->
  handlers_of SubjectGridSplitWorkflow = [OnWorkflow] /\ handlers_of SubjectGridMergeWorkflow = [OnWorkflow] /\
  handlers_of SubjectCellControl = [OnControl].
Proof. intros H1 H2. unfold handlers_of, subscriptions, subject_from. rewrite H1, H2. by vm_compute. Qed.
End ControllerMain.

(** A wildcard for the events of the workflows: those of merges are then handled twice. *)
Example merges_twice :
  handlers_of (fun k => if String.eqb k "MMO_CELL_CONTROLLER_SUBJECT" then "grid.*.workflow" else "") SubjectGridMergeWorkflow = [OnWorkflow; OnWorkflow].
Proof. reflexivity. Qed.

(** * The indexer *)

Definition parseInt64 (raw : string) (fallback : Z) : Z :=
  let raw := trim_space raw in
  if String.eqb raw "" then fallback else default fallback (atoi raw).

Section Indexer.
Context (Getenv : string -> string).

Definition indexer_config : IndexerConfig :=
  mkIndexerConfig (parseInt64 (Getenv "WEB3_INDEXER_CHAIN_ID") 0) (trim_space (Getenv "WEB3_INDEXER_INGEST_API_KEY"))
    (trim_space (Getenv "WEB3_INDEXER_INGEST_HMAC_SECRET")) (negb (String.eqb (trim_space (Getenv "REDIS_ADDR")) "")).

(** The address it listens on and its settings. *)
Definition indexer_main {S} (lib : DbLibrary S) : St S (string * IndexerConfig) :=
  let addr := GridConfig.firstNonEmpty [Getenv "WEB3_INDEXER_LISTEN"; ":8091"] in
  let dbURL := GridConfig.firstNonEmpty [Getenv "DATABASE_URL_RW"; Getenv "DATABASE_URL"] in
  _ ← guard_fail (String.eqb dbURL "") (errorf "DATABASE_URL_RW or DATABASE_URL required" []);
  _ ← OpenPool lib dbURL;
  mret (addr, indexer_config).
End Indexer.

(** [/healthz] with what the pings of the database and of Redis give. *)
Definition indexer_healthz (cfg : IndexerConfig) (pingDB redis_Ping : result unit) : Response :=
  match pingDB with
  | Err e => http_error 503 (error_string e)
  | Ok _ =>
      if Web3.has_redis cfg then
        match redis_Ping with
        | Err e => http_error 503 (Fmt "redis ping failed: %s" [ATxt (error_string e)])
        | Ok _ => ok_text
        end
      else ok_text
  end.

Definition indexer_serve (hmac : string -> string -> string) (cfg : IndexerConfig) (decode : string -> result ingestRequest) (env : DbEnv)
    (redis_net : nat -> Outcome) (pingDB redis_Ping : result unit) (path : string) (r : Request) : St Indexer Response :=
  if String.eqb path "/healthz" then mret (indexer_healthz cfg pingDB redis_Ping)
  else if String.eqb path "/v1/indexer/ingest" then ingest hmac decode cfg env redis_net r
  else mret (http_error 404 (lit "404 page not found")).

(** The health check follows the services the indexer was started with. *)
Lemma healthz_spec cfg pingDB redis_Ping :
  resp_status (indexer_healthz cfg pingDB redis_Ping) = (if is_ok pingDB && (negb (Web3.has_redis cfg) || is_ok redis_Ping) then 200 else 503)%Z.
Proof. unfold indexer_healthz. destruct pingDB, (Web3.has_redis cfg), redis_Ping; done. Qed.
