(* ===== verification/Observe.v ===== *)
(** What the services tell about themselves: [internal/logging/setup.go], [internal/tracing/tracing.go], the
    counters and log lines of the registry ([internal/grpc/registrysvc/logging.go] and [metrics.go]), and the
    counters of a cell ([cmd/cell-node/metrics.go]) and of a gateway's sessions. *)
From Stdlib Require Import Ascii ZArith Lia.
From S2P Require Import GatewayMain.
From S2P Require Import Prelude Effects GoFloat GoString Partition Registry Ecs Aoi Replic CellSim CellSvc Gateway.
Local Open Scope string_scope.
Local Open Scope list_scope.

(** * Log records

    [log/slog] and the trace library. *)
Record LogRecord := mkRecord { lr_level : Z; lr_message : string; lr_attrs : list (string * string) }.
Record SpanContext := mkSpan { sc_TraceID : string; sc_SpanID : string; sc_IsValid : bool }.

(** [slog.Handler]: handlers [H] that write to an output [W]. *)
Class LogHandler (H W : Type) := {
  Enabled : H -> Z -> bool;
  Handle : H -> SpanContext -> LogRecord -> St W unit;
  WithAttrs : H -> list (string * string) -> H;
  WithGroup : H -> string -> H }.

Definition AddAttrs (attrs : list (string * string)) (r : LogRecord) : LogRecord :=
  mkRecord (lr_level r) (lr_message r) (lr_attrs r ++ attrs).

Record traceAttrsHandler (H : Type) := mkTraceAttrs { inner : H }.
Arguments mkTraceAttrs {H} _.
Arguments inner {H} _.

Definition trace_attrs (sc : SpanContext) : list (string * string) :=
  if sc_IsValid sc then [("trace_id", sc_TraceID sc); ("span_id", sc_SpanID sc)] else [].

#[export] Instance traceAttrs_handler {H W} `{!LogHandler H W} : LogHandler (traceAttrsHandler H) W := {
  Enabled h level := Enabled (inner h) level;
  Handle h sc r := Handle (inner h) sc (if sc_IsValid sc then AddAttrs (trace_attrs sc) r else r);
  WithAttrs h attrs := mkTraceAttrs (WithAttrs (inner h) attrs);
  WithGroup h name := mkTraceAttrs (WithGroup (inner h) name) }.

(** What a derived handler writes is what the derived handler inside writes, with the ids of a valid span
    after the attributes of the call. *)
Lemma trace_handler_spec {H W} `{!LogHandler H W} (h : traceAttrsHandler H) (derive : list (list (string * string) + string)) sc r :
  let step {K} `{!LogHandler K W} (k : K) (d : list (string * string) + string) := match d with inl attrs => WithAttrs k attrs | inr name => WithGroup k name end in
  Handle (foldl step h derive) sc r = Handle (foldl step (inner h) derive) sc (AddAttrs (trace_attrs sc) r).
Proof.
  cbv zeta. revert h. induction derive as [|d derive IH]; intros h; cbn [foldl].
  - cbn [Handle traceAttrs_handler]. unfold trace_attrs. destruct (sc_IsValid sc); [done|]. unfold AddAttrs. rewrite app_nil_r. by destruct r.
  - rewrite IH. by destruct d.
Qed.

Definition LevelInfo : Z := 0.

(** The default logger and whether the standard logger writes to standard output. [NewJSONHandler] makes a
    handler that drops the records below a level. *)
Record Loggers (H : Type) := mkLoggers { slog_default : option (traceAttrsHandler H); log_to_stdout : bool }.
Arguments mkLoggers {H} _ _.
Arguments slog_default {H} _.
Arguments log_to_stdout {H} _.

Definition SetupFromEnv {H} (Getenv : string -> string) (NewJSONHandler : Z -> H) (l : Loggers H) : Loggers H :=
  if EqualFold (trim_space (Getenv "MMO_LOG_FORMAT")) "json" then mkLoggers (Some (mkTraceAttrs (NewJSONHandler LevelInfo))) true else l.

(** * The export of traces

    [otlptracegrpc], [resource] and the SDK on a state [W]: an exporter [X], a resource [Res] and a provider [P]. *)
Record TraceLibrary (W X Res P : Type) := mkTraceLibrary {
  otlp_New : string -> St W X;
  exporter_Shutdown : X -> St W unit;
  resource_New : string -> St W Res;
  NewTracerProvider : X -> Res -> P;
  SetTracerProvider : P -> St W unit;
  SetTextMapPropagator : list string -> St W unit;
  provider_Shutdown : P -> St W unit }.
Arguments otlp_New {W X Res P} _.
Arguments exporter_Shutdown {W X Res P} _.
Arguments resource_New {W X Res P} _.
Arguments NewTracerProvider {W X Res P} _.
Arguments SetTracerProvider {W X Res P} _.
Arguments SetTextMapPropagator {W X Res P} _.
Arguments provider_Shutdown {W X Res P} _.

(** The function that ends the export. *)
Definition Init {W X Res P} (lib : TraceLibrary W X Res P) (Getenv : string -> string) (serviceName : string) : St W (St W unit) :=
  let endpoint := trim_space (Getenv "TEMPO_OTLP_GRPC") in
  if String.eqb endpoint "" then mret (mret tt)
  else
    exp ← otlp_New lib endpoint;
    res ← on_error (fun e => _ ← ignore (exporter_Shutdown lib exp); throw e) (resource_New lib serviceName);
    let tp := NewTracerProvider lib exp res in
    _ ← SetTracerProvider lib tp;
    _ ← SetTextMapPropagator lib ["tracecontext"; "baggage"];
    mret (provider_Shutdown lib tp).

(** Without an endpoint nothing happens, neither at the start nor at the end; an exporter without a resource
    is shut down and its error is the caller's. *)
Lemma Init_spec {W X Res P} (lib : TraceLibrary W X Res P) Getenv name w :
  (trim_space (Getenv "TEMPO_OTLP_GRPC") = "" -> exists stop, Init lib Getenv name w = (Ok stop, w) /\ forall w', stop w' = (Ok tt, w')) /\
  forall exp w1 e w2, trim_space (Getenv "TEMPO_OTLP_GRPC") <> "" ->
    otlp_New lib (trim_space (Getenv "TEMPO_OTLP_GRPC")) w = (Ok exp, w1) -> resource_New lib name w1 = (Err e, w2) ->
    Init lib Getenv name w = (Err e, snd (exporter_Shutdown lib exp w2)).
Proof.
  unfold Init. split.
  - intros ->. cbn [String.eqb]. by eexists.
  - intros exp w1 e w2 Hne E1 E2. rewrite (proj2 (String.eqb_neq _ _) Hne), (run_bind _ _ _ _ _ E1). apply run_bind_err. unfold on_error. by rewrite E2.
Qed.

(** * The registry *)

Definition updateKind (upd : option UpdatePayload) : string :=
  match upd with
  | None | Some UNil => "nil"
  | Some UNoop => "noop"
  | Some (USetTargetTps _) => "set_target_tps"
  | Some (USplitPrepare _) => "split_prepare"
  | Some (USetSplitDrain _) => "set_split_drain"
  | Some (UExportNpcPersist _) => "export_npc_persist"
  | Some (UImportNpcPersist _) => "import_npc_persist"
  | Some (UMergePrepare _) => "merge_prepare"
  | Some UOther => "unknown"
  end.

Definition LevelError : Z := 8.
Definition logOpStart (method : string) (attrs : list (string * string)) : LogRecord :=
  mkRecord LevelInfo "registry_op_start" (("method", method) :: attrs).
Definition logOpDone (method : string) (attrs : list (string * string)) : LogRecord :=
  mkRecord LevelInfo "registry_op_done" (("method", method) :: attrs).
Definition logOpError (method : string) (err : error) (attrs : list (string * string)) : LogRecord :=
  mkRecord LevelError "registry_op_error" (("method", method) :: ("error", sprint (error_string err)) :: attrs).

(** Counters with labels. *)
Abbreviation Counters L := (gmap L Z).
Definition counter {L} `{Countable L} (l : L) (c : Counters L) : Z := default 0%Z (c !! l).
Definition inc {L} `{Countable L} (l : L) (c : Counters L) : Counters L := <[l := (counter l c + 1)%Z]> c.

Lemma counter_inc {L} `{Countable L} (l k : L) (c : Counters L) : counter k (inc l c) = (counter k c + if decide (k = l) then 1 else 0)%Z.
Proof. unfold counter at 1, inc. destruct (decide (k = l)) as [->|Hne]; [by rewrite lookup_insert_eq|]. rewrite lookup_insert_ne by done. unfold counter. lia. Qed.

Definition incRPC (method : string) (err : option error) (rpcTotal : Counters (string * string)) : Counters (string * string) :=
  inc (method, match err with Some _ => "error" | None => "ok" end) rpcTotal.

(** [status.Code] of an error that is no status is [Unknown]. *)
Definition status_code (err : error) : string := match err_code err with Some c => code_name c | None => "Unknown" end.
Definition observeForwardPlayerHandoffStage (stage : string) (err : option error) (total : Counters (string * string * string)) : Counters (string * string * string) :=
  match err with
  | None => inc (stage, "ok", "OK") total
  | Some e => inc (stage, "error", status_code e) total
  end.

(** The observations of a histogram, in nanoseconds. *)
Definition observeRPCDuration (method : string) (start now : Z) (durations : gmap string (list Z)) : gmap string (list Z) :=
  <[method := default [] (durations !! method) ++ [(now - start)%Z]]> durations.
Definition observeMergeWorkflowDuration (start now : Z) (durations : list Z) : list Z := durations ++ [(now - start)%Z].

(** * The cell *)

Record CellMetrics := mkCellMetrics { ticks_total : Z; apply_input_total : Counters string; tick_step_duration : list Z; tick_spans : nat }.
Definition no_metrics : CellMetrics := mkCellMetrics 0 ∅ [] 0.

(** Without an address nothing is counted. *)
Definition wirePrometheus (addr : string) (s : Server) : Server := if String.eqb addr "" then s else SetApplyInputHook true s.

(** The hook, for the calls made to it. *)
Definition on_apply_input (ok : bool) (m : CellMetrics) : CellMetrics :=
  mkCellMetrics (ticks_total m) (inc (if ok then "ok" else "err") (apply_input_total m)) (tick_step_duration m) (tick_spans m).
Definition input_metrics (s : Server) : CellMetrics := foldl (fun m ok => on_apply_input ok m) no_metrics (hookCalls s).

(** After each tick, under the lock of the world; [lastTickDur] when there is a loop. *)
Definition tick_otel (Getenv : string -> string) : bool :=
  let v := trim_space (Getenv "MMO_CELL_OTEL_TICK_SPAN") in EqualFold v "1" || EqualFold v "true".
Definition OnTick (Getenv : string -> string) (lastTickDur : option Z) (m : CellMetrics) : CellMetrics :=
  mkCellMetrics (ticks_total m + 1) (apply_input_total m)
    (match lastTickDur with Some d => tick_step_duration m ++ [d] | None => tick_step_duration m end)
    (if tick_otel Getenv then S (tick_spans m) else tick_spans m).

Definition players_gauge (s : Server) : f64 := f64_of_Z (PlayerCount s).

(** The answers to a sequence of inputs. *)
Fixpoint apply_inputs (cos sin : f64 -> f64) (reqs : list (string * option ClientInput)) (s : Server) : list bool * Server :=
  match reqs with
  | [] => ([], s)
  | (p, inp) :: reqs =>
      let '(s, r) := ApplyInput cos sin p inp s in
      let '(oks, s) := apply_inputs cos sin reqs s in (ir_Ok r :: oks, s)
  end.

Lemma hook_called cos sin p inp s s' r :
  onApplyInput s = true -> ApplyInput cos sin p inp s = (s', r) -> onApplyInput s' = true /\ hookCalls s' = hookCalls s ++ [ir_Ok r].
Proof.
  intros Hs. assert (forall ok s1, onApplyInput s1 = true -> hookCalls s1 = hookCalls s ->
    onApplyInput (reportApplyInput ok s1) = true /\ hookCalls (reportApplyInput ok s1) = hookCalls s ++ [ok]) as Hr.
  { intros ok s1 H1 H2. unfold reportApplyInput. rewrite H1. cbn. by rewrite H2. }
  unfold ApplyInput. repeat case_match; intros [= <- <-]; by apply Hr.
Qed.

(** Every input sent to a cell that is watched is counted once, under the outcome it was answered with. *)
Theorem inputs_counted cos sin addr reqs s oks s' :
  addr <> "" -> hookCalls s = [] -> apply_inputs cos sin reqs (wirePrometheus addr s) = (oks, s') ->
  let total := apply_input_total (input_metrics s') in
  counter "ok" total = Z.of_nat (length (base.filter (fun ok => ok = true) oks)) /\
  (counter "ok" total + counter "err" total)%Z = Z.of_nat (length reqs).
Proof.
  intros Ha Hh. unfold wirePrometheus. rewrite (proj2 (String.eqb_neq _ _) Ha). intros E.
  assert (forall reqs s oks s', onApplyInput s = true -> apply_inputs cos sin reqs s = (oks, s') -> hookCalls s' = hookCalls s ++ oks /\ length oks = length reqs) as Hrun.
  { clear. induction reqs as [|[p inp] reqs IH]; intros s oks s' Hs; cbn [apply_inputs]; [intros [= <- <-]; by rewrite app_nil_r|].
    destruct (ApplyInput cos sin p inp s) as [s1 r] eqn:E1. destruct (hook_called _ _ _ _ _ _ _ Hs E1) as [H1 H2].
    destruct (apply_inputs cos sin reqs s1) as [oks1 s2] eqn:E2. intros [= <- <-]. destruct (IH _ _ _ H1 E2) as [H3 H4].
    split; [|cbn; by rewrite H4]. by rewrite H3, H2, <- app_assoc. }
  destruct (Hrun reqs (SetApplyInputHook true s) oks s' eq_refl E) as [Hcalls <-]. cbn zeta. unfold input_metrics. rewrite Hcalls. unfold SetApplyInputHook. cbn [hookCalls set_hook]. rewrite Hh. cbn [app].
  assert (forall m oks, let m' := foldl (fun m ok => on_apply_input ok m) m oks in
    counter "ok" (apply_input_total m') = (counter "ok" (apply_input_total m) + Z.of_nat (length (base.filter (fun ok => ok = true) oks)))%Z /\
    (counter "ok" (apply_input_total m') + counter "err" (apply_input_total m'))%Z = (counter "ok" (apply_input_total m) + counter "err" (apply_input_total m) + Z.of_nat (length oks))%Z) as Hf.
  { clear. intros m oks. revert m. induction oks as [|ok oks IH]; intros m; cbn [foldl]; [cbn; lia|].
    destruct (IH (on_apply_input ok m)) as [-> ->]. cbn [apply_input_total on_apply_input length]. rewrite !counter_inc, filter_cons. destruct ok.
    - rewrite !decide_True, !decide_False by done. cbn [length]. lia.
    - rewrite !decide_False, (decide_True (P:="err" = "err")) by done. lia. }
  destruct (Hf no_metrics oks) as [-> ->]. done.
Qed.

(** * The gateway *)

(** The labels of a transition: from, to, phase and result. *)
Abbreviation Transition := (string * string * string * string)%type.
Definition transition (fromCellID toCellID phase result : string) : Transition :=
  (metricCellLabel fromCellID, metricCellLabel toCellID, trim_space phase, trim_space result).
Definition recordCellTransition (fromCellID toCellID phase result : string) (total : Counters Transition) : Counters Transition :=
  inc (transition fromCellID toCellID phase result) total.

(** A connection that is there is closed, and counted by how that went. *)
Definition closeDownstreamConn (close : gatewayDownstream -> option error) (ds : option gatewayDownstream) (phase : string)
    (total : Counters (string * string)) : Counters (string * string) :=
  match ds with
  | None => total
  | Some ds => inc (phase, match close ds with Some _ => "error" | None => "ok" end) total
  end.

(** The transitions of a session that starts at a cell, switches to others, each in a phase, and ends. *)
Fixpoint moves_from (cell : string) (switches : list (string * string)) : list Transition :=
  match switches with
  | [] => [transition cell "" "disconnect" "ok"]
  | (phase, next) :: switches => transition cell next phase "ok" :: moves_from next switches
  end.
Definition session_transitions (cell : string) (switches : list (string * string)) : list Transition :=
  transition "" cell "ws_connect" "ok" :: moves_from cell switches.
Definition record_all (l : list Transition) (total : Counters Transition) : Counters Transition := foldl (fun c k => inc k c) total l.

Lemma record_all_counts l total k :
  counter k (record_all l total) = (counter k total + Z.of_nat (length (base.filter (fun k' => k = k') l)))%Z.
Proof.
  unfold record_all. revert total. induction l as [|k' l IH]; intros total; cbn [foldl]; [cbn; lia|].
  rewrite IH, counter_inc, filter_cons. destruct (decide (k = k')); cbn [length]; lia.
Qed.

(** A session that has ended went into a cell as often as out of it. *)
Lemma session_transitions_balanced cell switches label :
  let l := session_transitions cell switches in
  length (base.filter (fun '(from, _, _, _) => from = label) l) = length (base.filter (fun '(_, to, _, _) => to = label) l).
Proof.
  assert (forall switches cell, let l := moves_from cell switches in
    (length (base.filter (fun '(from, _, _, _) => from = label) l) + (if decide (metricCellLabel "" = label) then 1 else 0) =
     length (base.filter (fun '(_, to, _, _) => to = label) l) + (if decide (metricCellLabel cell = label) then 1 else 0))%nat) as H.
  { clear. induction switches as [|[phase next] switches IH]; intros cell; cbn [moves_from]; cbn zeta.
    - unfold transition. rewrite !filter_cons. cbn [base.filter list_filter]. repeat destruct (decide _); cbn [length]; lia.
    - specialize (IH next). cbn zeta in IH. unfold transition at 1 2. rewrite !filter_cons. repeat destruct (decide _); cbn [length] in *; lia. }
  cbn zeta. specialize (H switches cell). cbn zeta in H. unfold session_transitions, transition at 1 2. rewrite !filter_cons. repeat destruct (decide _); cbn [length] in *; lia.
Qed.
