(* ===== verification/Smoke.v ===== *)
(** The client scripts [src/scripts] that try a running system: [gateway-api-smoke], [gateway-session-burst],
    [ws-smoke] and [web3-indexer-ingest-smoke], each against the server it calls; and [cmd/_pingtmp]. *)
From Stdlib Require Import Ascii ZArith Lia.
From S2P Require Import Prelude Effects GoFloat GoString GoNumber GoFormat GoFlag Partition Registry Ecs Aoi Replic CellSim CellSvc RegistrySvc Db DbProps Http Web3.
From S2P Require Import Gateway GatewayHttp GatewayMain GatewayAccess Startup.
Local Open Scope string_scope.
Local Open Scope list_scope.

(** * Requests *)

(** [http.NewRequest] with the headers that are set; the peer's address is that of the connection. *)
Definition header_of (headers : list (string * string)) (name : string) : string :=
  match find (fun '(k, _) => String.eqb k name) headers with Some (_, v) => v | None => "" end.
Definition NewRequest (method : string) (headers : list (string * string)) (body : string) : Request :=
  mkRequest method (header_of headers) (fun _ => "") "" (Ok body).

(** [encoding/json] reads what it has written; a text that is no JSON is an error. *)
Definition decode_object (b : Body) : result (list (string * Json)) :=
  match b with BJson (JObj l) => Ok l | _ => Err (errorf "json: cannot unmarshal" []) end.
Definition json_field (name : string) (l : list (string * Json)) : option Json :=
  match find (fun '(k, _) => String.eqb k name) l with Some (_, JNull) => None | Some (_, j) => Some j | None => None end.
Definition string_field (name : string) (l : list (string * Json)) : string :=
  match json_field name l with Some (JStr s) => s | _ => "" end.
Definition int_field (name : string) (l : list (string * Json)) : Z :=
  match json_field name l with Some (JInt z) => z | _ => 0%Z end.

(** The answer's text is not repeated. *)
Definition status_error (what : string) (res : Response) : error := errorf "%s: %d" [AStr what; AInt (resp_status res)].

Definition base_url (raw : string) : string :=
  match String.rev raw with String "/"%char r => String.rev r | _ => raw end.

(** A server, the requests made to it, and what was printed. *)
Section Client.
Context {Srv : Type} (http : nat -> Outcome).

Record Client := mkClient { sm_server : Srv; sm_requests : nat; sm_out : list text }.
Abbreviation S := (St Client).

Definition say (t : text) : S unit := fun c => (Ok tt, mkClient (sm_server c) (sm_requests c) (sm_out c ++ [t])).

(** [cli.Do]: an answer, or the error of a request or a reply that is lost. *)
Definition Do {A} (serve : nat -> St Srv A) : S A := fun c =>
  let n := sm_requests c in
  let '(res, server) := serve n (sm_server c) in
  match http n with
  | LostRequest e => (Err e, mkClient (sm_server c) (n + 1) (sm_out c))
  | LostReply e => (Err e, mkClient server (n + 1) (sm_out c))
  | Delivered => (res, mkClient server (n + 1) (sm_out c))
  end.

(** [os.Exit] after the error is printed. *)
Definition exit_on {A} (code : Z) (prefix : string) (m : S A) (k : A -> S Z) : S Z := fun c =>
  match m c with
  | (Ok a, c) => k a c
  | (Err e, c) => (_ ← say (Fmt "%s%v" [AStr prefix; ATxt (error_string e)]); mret code) c
  end.
End Client.
Arguments Client : clear implicits.
Arguments mkClient {Srv} _ _ _.

(** * Against a cell: [cmd/_pingtmp] *)

Definition pingtmp {C} `{!Catalog C} (env : Env) (args : list string) : M C text :=
  match args with
  | [hostport] =>
      _ ← lift (NewClient env hostport);
      r ← call_cell env hostport (fun n s => (s, Ping (clock env n) s));
      mret (Fmt "cell_id=%s players=%d entities=%d" [AStr (pi_CellId r); AInt (pi_PlayerCount r); AInt (pi_EntityCount r)])
  | _ => throw (errorf "usage: go run ./cmd/_pingtmp <host:port>" [])
  end.

(** * Against the gateway *)

Section Gateway.
Context {C L : Type} `{!Catalog C, !RateLimiter L} (env : Env) (db_env : DbEnv) (g : gateway) (codecs : Codecs).
(** What the network does to each request, what comes with it, and [json.Marshal]. *)
Context (http : nat -> Outcome) (arrival : nat -> Arrival) (marshal : Json -> string).
Abbreviation S := (St (Client (Front C L))).

Definition call (path : string) (r : Request) : S Response :=
  res ← Do http (fun n => serve env db_env g codecs path (arrival n) r);
  match res with inl resp => mret resp | inr _ => throw (errorf "malformed HTTP response" []) end.

(** ** [gateway-api-smoke] *)
Definition authHeader (token : string) : string := "Bearer " +:+ token.

Definition postSession (player : string) : S string :=
  res ← call "/v1/session" (NewRequest "POST" [("Content-Type", "application/json")] (marshal (JObj [("player_id", JStr player)])));
  _ ← guard_fail (negb (resp_status res =? 200)%Z) (status_error "session" res);
  out ← lift (decode_object (resp_body res));
  let token := string_field "token" out in
  _ ← guard_fail (String.eqb token "") (errorf "session: empty token" []);
  mret token.

Definition getResolvePreview (token : string) : S unit :=
  res ← call "/v1/me/resolve-preview" (NewRequest "GET" [("Authorization", authHeader token)] "");
  _ ← guard_fail (negb (resp_status res =? 200)%Z) (status_error "resolve-preview" res);
  _ ← lift (decode_object (resp_body res));
  say (lit "resolve-preview: ...").

Definition transfer_body (toPlayer : string) : Json :=
  JObj [("to_player_id", JStr toPlayer); ("item_id", JStr "coin_copper"); ("quantity", JInt 1)].

Definition tryTransfer (fromToken toPlayer : string) : S unit :=
  res ← call "/v1/me/items/transfer"
    (NewRequest "POST" [("Authorization", authHeader fromToken); ("Content-Type", "application/json")] (marshal (transfer_body toPlayer)));
  guard_fail (negb (resp_status res =? 200)%Z) (status_error "transfer" res).

Record ApiFlags := mkApiFlags { af_gateway : string; af_player : string; af_peer : string }.
Definition set_api_flag (name value : string) (f : ApiFlags) : result ApiFlags :=
  let '(mkApiFlags g p t) := f in
  if String.eqb name "gateway" then Ok (mkApiFlags value p t)
  else if String.eqb name "player" then Ok (mkApiFlags g value t)
  else if String.eqb name "transfer-to" then Ok (mkApiFlags g p value)
  else flag_error.

Definition api_smoke (args : list string) : S Z :=
  exit_on 2 "" (lift (parse_flags set_api_flag (fun _ => false) args (mkApiFlags "" "gw-api-smoke" ""))) (fun '(f, _) =>
  if String.eqb (base_url (trim_space (af_gateway f))) "" then _ ← say (lit "need -gateway"); mret 2%Z
  else
    exit_on 1 "" (postSession (af_player f)) (fun token =>
    _ ← say (Fmt "session OK, token len=%d" [AInt (Z.of_nat (String.length token))]);
    exit_on 1 "" (getResolvePreview token) (fun _ =>
    _ ← say (lit "resolve-preview OK");
    let p := trim_space (af_peer f) in
    if String.eqb p "" then mret 0%Z
    else
      exit_on 1 "peer session: " (postSession p) (fun _ =>
      exit_on 1 "" (postSession (af_player f)) (fun tok2 =>
      r ← catch (tryTransfer tok2 p);
      _ ← say match r with Ok _ => lit "items/transfer OK (1 coin_copper)" | Err e => Fmt "transfer: %v" [ATxt (error_string e)] end;
      mret 0%Z))))).

(** ** [gateway-session-burst] *)

(** Its own [postSession], which needs no more than to be given a token. *)
Definition burst_session (player : string) : S unit :=
  res ← call "/v1/session" (NewRequest "POST" [("Content-Type", "application/json")] (marshal (JObj [("player_id", JStr player)])));
  _ ← guard_fail (negb (resp_status res =? 200)%Z) (errorf "%d" [AInt (resp_status res)]);
  out ← lift (decode_object (resp_body res));
  guard_fail (String.eqb (string_field "token" out) "") (errorf "empty token" []).

(** The workers' requests in the order in which they reach the gateway: the number of each task and the time
    in its player's name. The counters are atomic. *)
Fixpoint burst (prefix : string) (tasks : list (Z * Z)) (ok fail : Z) : S (Z * Z) :=
  match tasks with
  | [] => mret (ok, fail)
  | (i, nanos) :: tasks =>
      r ← catch (burst_session (prefix +:+ "-" +:+ itoa nanos +:+ "-" +:+ itoa i));
      match r with
      | Ok _ => burst prefix tasks (int32 (ok + 1)) fail
      | Err e => _ ← say (Fmt "session %d: %v" [AInt i; ATxt (error_string e)]); burst prefix tasks ok (int32 (fail + 1))
      end
  end.

Record BurstFlags := mkBurstFlags { bf_gateway : string; bf_n : Z; bf_j : Z; bf_prefix : string }.
Definition set_burst_flag (name value : string) (f : BurstFlags) : result BurstFlags :=
  let '(mkBurstFlags g n j p) := f in
  if String.eqb name "gateway" then Ok (mkBurstFlags value n j p)
  else if String.eqb name "n" then n ← ParseInt0 value; Ok (mkBurstFlags g n j p)
  else if String.eqb name "j" then j ← ParseInt0 value; Ok (mkBurstFlags g n j p)
  else if String.eqb name "player-prefix" then Ok (mkBurstFlags g n j value)
  else flag_error.

(** [order] puts the tasks in the order of their requests, each with its time. Without workers the first
    task is never taken: the runtime finds the deadlock, and it refuses a negative buffer. *)
Definition session_burst (Getenv : string -> string) (order : list Z -> list (Z * Z)) (args : list string) : S Z :=
  exit_on 2 "" (lift (parse_flags set_burst_flag (fun _ => false) args (mkBurstFlags "" 50 10 "burst"))) (fun '(f, _) =>
  let base := base_url (trim_space (bf_gateway f)) in
  let base := if String.eqb base "" then base_url (trim_space (Getenv "GATEWAY_PUBLIC_URL")) else base in
  if String.eqb base "" then _ ← say (lit "need -gateway or GATEWAY_PUBLIC_URL"); mret 2%Z
  else if (bf_j f <? 0)%Z || ((bf_j f =? 0) && (0 <? bf_n f))%Z then mret 2%Z
  else
    '(ok, fail) ← burst (bf_prefix f) (order (Z.of_nat <$> seq 0 (Z.to_nat (bf_n f)))) 0 0;
    _ ← say (Fmt "gateway-session-burst: ok=%d fail=%d" [AInt ok; AInt fail]);
    mret (if (0 <? fail)%Z then 1 else 0)%Z).

(** ** [ws-smoke] *)

Definition displayText (s : string) : option string :=
  let s := trim_space s in if String.eqb s "" then None else Some s.

Definition parseCoordPair (xStr zStr label : string) : result (option (f64 * f64)) :=
  let xStr := trim_space xStr in
  let zStr := trim_space zStr in
  let haveX := negb (String.eqb xStr "") in
  let haveZ := negb (String.eqb zStr "") in
  if negb (Bool.eqb haveX haveZ) then Err (errorf "%s: both fields or none" [AStr label])
  else if negb haveX then Ok None
  else match ParseFloat64 xStr, ParseFloat64 zStr with
       | Ok x, Ok z => Ok (Some (x, z))
       | _, _ => Err (errorf "%s: bad number" [AStr label])
       end.

(** The fields of the session that are printed, the lists and the inventory as they came. *)
Record sessionInfo := mkSessionInfo {
  si_Token : string; si_Stats : option (Z * Z); si_Wallet : option Z; si_Inventory : option Json; si_Quests : list Json; si_Items : list Json }.
Definition array_field (name : string) (l : list (string * Json)) : list Json :=
  match json_field name l with Some (JArr js) => js | _ => [] end.
Definition decode_session (l : list (string * Json)) : sessionInfo :=
  mkSessionInfo (string_field "token" l)
    (match json_field "stats" l with Some (JObj o) => Some (int_field "level" o, int_field "xp" o) | _ => None end)
    (match json_field "wallet" l with Some (JObj o) => Some (int_field "gold" o) | _ => None end)
    (json_field "inventory" l) (array_field "quests" l) (array_field "items" l).

Definition sessionToken (player : string) (displayName : option string) (resolve : option (f64 * f64)) : S sessionInfo :=
  let m := [("player_id", JStr player)]
    ++ (match displayName with Some d => if String.eqb d "" then [] else [("display_name", JStr d)] | None => [] end)
    ++ (match resolve with Some (x, z) => [("resolve_x", JFloat x); ("resolve_z", JFloat z)] | None => [] end) in
  res ← call "/v1/session" (NewRequest "POST" [("Content-Type", "application/json")] (marshal (JObj m)));
  _ ← guard_fail (negb (resp_status res =? 200)%Z) (status_error "session" res);
  out ← lift (decode_object (resp_body res));
  let out := decode_session out in
  _ ← guard_fail (String.eqb (si_Token out) "") (errorf "session: empty token" []);
  mret out.

Definition postQuestProgress (bearerToken questID : string) (progress : Z) : S unit :=
  res ← call "/v1/me/quest-progress"
    (NewRequest "POST" [("Authorization", authHeader bearerToken); ("Content-Type", "application/json")]
      (marshal (JObj [("quest_id", JStr questID); ("progress", JInt progress)])));
  _ ← guard_fail (negb (resp_status res =? 200)%Z) (status_error "quest-progress" res);
  out ← lift (decode_object (resp_body res));
  say (Fmt "[%s] quest-progress response: %s" [AStr questID; AStr (marshal (JObj out))]).

(** [net/url]: a URL in its parts, the rest of it in one. *)
Record URL := mkURL { u_Scheme : string; u_Path : string; u_Query : list (string * string); u_Rest : string }.
Context (url_Parse : string -> result URL).

Definition wsDialURL (httpBase token : string) : result URL :=
  u ← url_Parse httpBase;
  scheme ← (if String.eqb (u_Scheme u) "http" then Ok "ws"
            else if String.eqb (u_Scheme u) "https" then Ok "wss"
            else Err (errorf "unsupported scheme %q" [AStr (u_Scheme u)]));
  Ok (mkURL scheme "/v1/ws" (("token", token) :: base.filter (fun '(k, _) => k <> "token") (u_Query u)) (u_Rest u)).

(** [Dialer.Dial]: the session that answers, if the gateway keeps the connection open. *)
Definition Dial (u : URL) : S (option Started) :=
  c ← get;
  let upgraded := ar_upgraded (arrival (sm_requests c)) in
  res ← Do http (fun n => serve env db_env g codecs (u_Path u) (arrival n) (mkRequest "GET" (fun _ => "") (header_of (u_Query u)) "" (Ok "")));
  match res with
  | inl resp => throw (errorf "ws dial: bad handshake: %d" [AInt (resp_status resp)])
  | inr st => if upgraded then mret st else throw (errorf "ws dial: bad handshake" [])
  end.

(** The bytes of a message, and what [proto.Unmarshal] makes of them: a chunk may be empty. [write] tells
    whether each message sent gets through. *)
Context (unmarshal : string -> result (option WorldChunk)) (write : nat -> result unit).

Definition frame_data (f : Frame) : string := match f with TextFrame j => marshal j | BinaryFrame data => data end.

(** The inputs sent by now come out with the result. *)
Fixpoint send_inputs (seqs : list nat) (sent : list (Z * Z)) : result unit * list (Z * Z) :=
  match seqs with
  | [] => (Ok tt, sent)
  | j :: seqs =>
      match write (length sent) with
      | Ok _ => send_inputs seqs (sent ++ [(((Z.of_nat j + 1) mod 2 ^ 32)%Z, 1%Z)])
      | Err e => (Err (errorf "write input: %w" [ATxt (error_string e)]), sent)
      end
  end.

Definition position_text (e : EntityStateMsg) : text :=
  let p := es_Position e in
  Fmt "    entity=%d pos=(%s,%s,%s)"
    [AInt (Z.of_N (es_EntityId e)); AStr (Sprintf_f 2 (of_f32 (v3X p))); AStr (Sprintf_f 2 (of_f32 (v3Y p))); AStr (Sprintf_f 2 (of_f32 (v3Z p)))].

(** The messages of a connection that then ends; [i] counts them. *)
Fixpoint read_chunks (player : string) (inputs : nat) (verbose : bool) (n : nat) (i : Z) (frames : list Frame) (sent : option (list (Z * Z))) : S (list (Z * Z)) :=
  let inputs_sent := default [] sent in
  match n with
  | O => mret inputs_sent
  | Datatypes.S n =>
      match frames with
      | [] => throw (errorf "read %d: EOF" [AInt i])
      | f :: frames =>
          chunk ← on_error (fun e => throw (errorf "unmarshal %d: %w" [AInt i; ATxt (error_string e)])) (lift (unmarshal (frame_data f)));
          match chunk with
          | Some (ChunkSnapshot s) =>
              _ ← say (Fmt "[%s %d] snapshot tick=%d entities=%d" [AStr player; AInt i; AInt (Z.of_N (sn_Tick s)); AInt (Z.of_nat (length (sn_Entities s)))]);
              match sent with
              | None =>
                  if Nat.ltb 0 inputs then
                    let '(r, l) := send_inputs (seq 0 inputs) [] in
                    _ ← lift r;
                    _ ← say (Fmt "[%s] sent %d ClientInput (forward)" [AStr player; AInt (Z.of_nat inputs)]);
                    read_chunks player inputs verbose n (i + 1) frames (Some l)
                  else read_chunks player inputs verbose n (i + 1) frames None
              | Some _ => read_chunks player inputs verbose n (i + 1) frames sent
              end
          | Some (ChunkDelta d) =>
              _ ← say (Fmt "[%s %d] delta tick=%d changed=%d" [AStr player; AInt i; AInt (Z.of_N (d_Tick d)); AInt (Z.of_nat (length (d_Changed d)))]);
              _ ← (if verbose then for_each (fun e => say (position_text e)) (d_Changed d) else mret tt);
              read_chunks player inputs verbose n (i + 1) frames sent
          | None =>
              _ ← say (Fmt "[%s %d] empty chunk" [AStr player; AInt i]);
              read_chunks player inputs verbose n (i + 1) frames sent
          end
      end
  end.

Record WsFlags := mkWsFlags {
  wf_gateway : string; wf_player : string; wf_second : string; wf_sx : string; wf_sz : string; wf_second_sx : string; wf_second_sz : string;
  wf_n : Z; wf_inputs : Z; wf_display : string; wf_quest : bool; wf_verbose : bool }.
Definition default_ws_flags : WsFlags := mkWsFlags "http://127.0.0.1:8080" "ws-smoke" "" "" "" "" "" 5 0 "" false false.
Definition set_ws_flag (name value : string) (f : WsFlags) : result WsFlags :=
  let '(mkWsFlags gw p s sx sz tx tz n i d q v) := f in
  if String.eqb name "gateway" then Ok (mkWsFlags value p s sx sz tx tz n i d q v)
  else if String.eqb name "player" then Ok (mkWsFlags gw value s sx sz tx tz n i d q v)
  else if String.eqb name "second-player" then Ok (mkWsFlags gw p value sx sz tx tz n i d q v)
  else if String.eqb name "session-x" then Ok (mkWsFlags gw p s value sz tx tz n i d q v)
  else if String.eqb name "session-z" then Ok (mkWsFlags gw p s sx value tx tz n i d q v)
  else if String.eqb name "second-session-x" then Ok (mkWsFlags gw p s sx sz value tz n i d q v)
  else if String.eqb name "second-session-z" then Ok (mkWsFlags gw p s sx sz tx value n i d q v)
  else if String.eqb name "n" then n ← ParseInt0 value; Ok (mkWsFlags gw p s sx sz tx tz n i d q v)
  else if String.eqb name "inputs" then i ← ParseInt0 value; Ok (mkWsFlags gw p s sx sz tx tz n i d q v)
  else if String.eqb name "display-name" then Ok (mkWsFlags gw p s sx sz tx tz n i value q v)
  else if String.eqb name "quest-complete-tutorial" then q ← bool_flag value; Ok (mkWsFlags gw p s sx sz tx tz n i d q v)
  else if String.eqb name "verbose" then v ← bool_flag value; Ok (mkWsFlags gw p s sx sz tx tz n i d q v)
  else flag_error.
Definition ws_bool_flag (name : string) : bool := String.eqb name "quest-complete-tutorial" || String.eqb name "verbose".

(** [stream] is what the gateway writes to a session. *)
Context (stream : Started -> list Frame).

Definition session_line (player what : string) (t : text) : S unit := say (Fmt "[%s] session %s: %s" [AStr player; AStr what; ATxt t]).

Definition runOnce (base player : string) (displayName : option string) (n inputs : Z) (verbose : bool) (resolve : option (f64 * f64)) (quest : bool) : S (list (Z * Z)) :=
  sess ← sessionToken player displayName resolve;
  _ ← match si_Stats sess with Some (lvl, xp) => session_line player "stats" (Fmt "level=%d xp=%d" [AInt lvl; AInt xp]) | None => mret tt end;
  _ ← match si_Wallet sess with Some gold => session_line player "wallet" (Fmt "gold=%d" [AInt gold]) | None => mret tt end;
  _ ← match si_Inventory sess with Some j => session_line player "inventory" (Fmt "%s" [AStr (marshal j)]) | None => mret tt end;
  _ ← match si_Quests sess with [] => mret tt | l => session_line player "quests" (Fmt "%s" [AStr (marshal (JArr l))]) end;
  _ ← match si_Items sess with [] => mret tt | l => session_line player "items" (Fmt "%s" [AStr (marshal (JArr l))]) end;
  _ ← (if quest then postQuestProgress (si_Token sess) "tutorial_intro" 3 else mret tt);
  u ← lift (wsDialURL base (si_Token sess));
  st ← Dial u;
  read_chunks player (Z.to_nat inputs) verbose (Z.to_nat n) 0 (match st with Some st => stream st | None => [] end) None.

Definition ws_smoke (args : list string) : S Z :=
  exit_on 2 "" (lift (parse_flags set_ws_flag ws_bool_flag args default_ws_flags)) (fun '(f, _) =>
  let base := base_url (wf_gateway f) in
  exit_on 1 "" (lift (parseCoordPair (wf_sx f) (wf_sz f) "-session-x/-session-z")) (fun first =>
  exit_on 1 "" (runOnce base (wf_player f) (displayText (wf_display f)) (wf_n f) (wf_inputs f) (wf_verbose f) first (wf_quest f)) (fun _ =>
  let sp := trim_space (wf_second f) in
  if String.eqb sp "" then mret 0%Z
  else
    exit_on 1 "" (lift (parseCoordPair (wf_second_sx f) (wf_second_sz f) "-second-session-x/-second-session-z")) (fun second =>
    _ ← say (Fmt "--- second player %q ---" [AStr sp]);
    exit_on 1 "" (runOnce base sp None (wf_n f) (wf_inputs f) (wf_verbose f) second (wf_quest f)) (fun _ => mret 0%Z))))).
End Gateway.

(** Computations that give no error. *)
Definition total {S A} (m : St S A) : Prop := forall s, exists a s', m s = (Ok a, s').
Lemma total_ret {S A} (a : A) : total (mret a : St S A).
Proof. by eexists _, _. Qed.
Lemma total_bind {S A B} (m : St S A) (f : A -> St S B) : total m -> (forall a, total (f a)) -> total (m ≫= f).
Proof. intros Hm Hf s. destruct (Hm s) as (a & s1 & E). rewrite (run_bind _ _ _ _ _ E). apply Hf. Qed.
Lemma total_catch {S A} (m : St S A) : total (catch m).
Proof. intros s. unfold catch. destruct (m s). by eexists _, _. Qed.
Lemma total_ignore {S A} (m : St S A) : total (ignore m).
Proof. by eexists _, _. Qed.
(** Those of the gateway's database leave the cells alone. *)
Definition quiet {C A} (m : St (Gate C) A) : Prop := forall s, exists a s', m s = (Ok a, s') /\ gt_cluster s' = gt_cluster s.
Lemma quiet_on_store {C A} (m : St Db A) : total m -> quiet (on_store (C:=C) m).
Proof. intros Hm s. destruct (Hm (gt_db s)) as (a & d & E). unfold on_store. rewrite E. by eexists _, _. Qed.
Ltac total_step := first [apply total_ret | apply total_catch | apply total_ignore | apply total_bind; [|intros ?]].

(** [gateway-api-smoke] on a gateway whose registry answers. *)
Section ApiSmoke.
Context {C L : Type} `{!Catalog C, !RateLimiter L} (env : Env) (db_env : DbEnv) (g : gateway) (codecs : Codecs)
  (http : nat -> Outcome) (arrival : nat -> Arrival) (marshal : Json -> string).
Context (token : string) (player : string).
Hypothesis delivered : forall n, http n = Delivered.
(** The limiter of the client's address has room for one more request. *)
Definition within_limits (c : Client (Front C L)) : Prop :=
  fst (session_allowed (ar_now (arrival (sm_requests c))) (ar_remote (arrival (sm_requests c))) (fr_limiters (sm_server c))) = true.
Hypothesis body_read : parse_session codecs (marshal (JObj [("player_id", JStr player)])) = Some (mkSessionBody player "" None None).
Hypothesis named : trim_space player <> "".
Hypothesis signed : forall rx rz, jwt_sign codecs (mkClaims player true rx rz) = Ok token.
Hypothesis token_text : string_forall graphic token = true /\ token <> "".
Hypothesis parsed : exists claims, jwt_parse codecs token = Some claims /\ Subject claims = player.
Hypothesis dialed : is_ok (NewClient env (registryAddr g)) = true.
Context (cluster : Cluster C).
Hypothesis registry_answers : forall rx rz d, exists cell s', on_cells (remote env (ResolvePosition env (Some (rx, rz)))) (mkGate cluster d) = (Ok cell, s').

Lemma session_answered body rx rz (s : Gate C) :
  sb_PlayerID body = player -> exists state s', issue_token db_env g codecs body rx rz s = (Ok (json_answer 200 (JObj (("token", JStr token) :: state))), s') /\ gt_cluster s' = gt_cluster s.
Proof using signed.
  intros Hp. unfold issue_token, attempt, lift. rewrite Hp, signed. destruct (has_db g); [|by eexists _, _].
  assert (quiet (on_store (C:=C) (prepare_player db_env body))) as H1 by (apply quiet_on_store; unfold prepare_player; cbv zeta; repeat total_step).
  assert (quiet (on_store (C:=C) (player_state db_env player))) as H2 by (apply quiet_on_store; unfold player_state; repeat total_step).
  destruct (H1 s) as (u & s1 & E1 & C1). rewrite (run_bind _ _ _ _ _ E1). destruct (H2 s1) as (state & s2 & E2 & C2). rewrite (run_bind _ _ _ _ _ E2).
  eexists _, _. split; [done|]. congruence.
Qed.

Lemma stored_quiet : quiet (stored_resolve (C:=C) db_env g player).
Proof using Type.
  intros s. unfold stored_resolve. destruct (has_db g); [|by eexists _, _]. unfold on_store.
  destruct (GetPlayerLastCellCoords _ _ _) as [[[[lx lz]|]|e] s1]; by eexists _, _.
Qed.

Lemma post_passes (c : Client (Front C L)) :
  within_limits c ->
  exists c', postSession env db_env g codecs http arrival marshal player c = (Ok token, c') /\ gt_cluster (fr_gate (sm_server c')) = gt_cluster (fr_gate (sm_server c)).
Proof using delivered body_read named signed token_text.
  intros Hlim. set (r := NewRequest "POST" [("Content-Type", "application/json")] (marshal (JObj [("player_id", JStr player)]))).
  assert (forall s : Gate C, exists state s', GatewayHttp.session db_env g codecs true r s = (Ok (json_answer 200 (JObj (("token", JStr token) :: state))), s') /\ gt_cluster s' = gt_cluster s) as Hsess.
  { intros s. unfold GatewayHttp.session, refuse, body_of. cbn [r NewRequest Method RequestBody negb String.eqb Ascii.eqb Bool.eqb]. rewrite body_read. cbn [sb_PlayerID sb_ResolveX sb_ResolveZ].
    rewrite (proj2 (String.eqb_neq _ _) named). destruct (stored_quiet s) as ([rx rz] & s1 & E & C1). rewrite (run_bind _ _ _ _ _ E). rewrite <- C1. by apply session_answered. }
  assert (exists state s', serve env db_env g codecs "/v1/session" (arrival (sm_requests c)) r (sm_server c) = (Ok (inl (json_answer 200 (JObj (("token", JStr token) :: state)))), s') /\
    gt_cluster (fr_gate s') = gt_cluster (fr_gate (sm_server c))) as (state & s' & E & Hc).
  { unfold serve. cbn [mux String.eqb Ascii.eqb Bool.eqb]. unfold serve_session. cbn [r NewRequest Method negb String.eqb Ascii.eqb Bool.eqb].
    unfold within_limits in Hlim. rewrite session_allowed_cases in Hlim |- *. cbn [fst] in Hlim. rewrite Hlim. unfold answer, on_front. cbn [fr_gate]. destruct (Hsess (fr_gate (sm_server c))) as (state & s1 & Es & C1).
    rewrite (run_bind _ _ _ _ _ Es). by eexists _, _. }
  unfold postSession, call, Do, mbind, St_bind, lift, guard_fail, fail_if. fold r. rewrite E, delivered. cbn.
  rewrite (proj2 (String.eqb_neq _ _) (proj2 token_text)). by eexists.
Qed.

Lemma bearer_token : bearerOrQueryToken (NewRequest "GET" [("Authorization", authHeader token)] "") = token.
Proof using token_text.
  unfold bearerOrQueryToken, authHeader. change (Header _ _) with ("Bearer " +:+ token). unfold has_prefix. rewrite strip_prefix_app, trim_prefix_app.
  by apply trim_space_graphic, token_text.
Qed.

Lemma preview_passes (c : Client (Front C L)) :
  gt_cluster (fr_gate (sm_server c)) = cluster ->
  exists c', getResolvePreview env db_env g codecs http arrival token c = (Ok tt, c').
Proof using delivered token_text parsed named dialed registry_answers.
  set (r := NewRequest "GET" [("Authorization", authHeader token)] "").
  intros Hcl. assert (player <> "") as Hp by (intros E; apply named; by rewrite E).
  assert (forall s : Gate C, gt_cluster s = cluster -> exists l s', resolvePreview env db_env g codecs r s = (Ok (json_answer 200 (JObj l)), s')) as Hprev.
  { intros s Hs. unfold resolvePreview, refuse, with_claims. change (Method r) with "GET". cbn [negb String.eqb Ascii.eqb Bool.eqb]. unfold r at 1 2. rewrite bearer_token.
    rewrite (proj2 (String.eqb_neq _ _) (proj2 token_text)). destruct parsed as (claims & Ec & Es). unfold claims_of. rewrite Ec, Es, (proj2 (String.eqb_neq _ _) Hp).
    unfold preview_position. cbn [r NewRequest Query String.eqb Bool.eqb negb]. destruct (stored_quiet s) as ([rx rz] & s1 & E1 & C1).
    rewrite Es, (run_bind _ _ _ _ _ (run_bind _ _ _ _ _ E1)). unfold attempt at 1, lift. destruct (NewClient env (registryAddr g)); [|done].
    destruct (registry_answers rx rz (gt_db s1)) as (cell & s2 & E2). unfold attempt. rewrite <- Hs, <- C1 in E2. destruct s1 as [cl1 d1]. cbn [gt_cluster gt_db] in E2. rewrite E2.
    assert (total (match cell with Some cell => c ← on_cells (enrichCellSpecBoundsFromRegistryList env cell); mret (Some c) | None => mret None end : St (Gate C) _)) as H3.
    { destruct cell as [cell|]; [|apply total_ret]. apply total_bind; [|intros; apply total_ret]. intros s3. unfold on_cells, enrichCellSpecBoundsFromRegistryList.
      destruct (CBounds cell); [by eexists _, _|]. destruct (String.eqb _ _); [by eexists _, _|]. unfold mbind, St_bind, catch. destruct (remote _ _ _). by eexists _, _. }
    destruct (H3 s2) as (resolved & s3 & E3). rewrite (run_bind _ _ _ _ _ E3).
    assert (total (preview_last_cell (C:=C) db_env g player resolved)) as H4.
    { intros s4. unfold preview_last_cell. destruct (has_db g); [|by eexists _, _]. destruct (on_store _ s4) as [[[?|]|?] ?]; by eexists _, _. }
    destruct (H4 s3) as (last & s4 & E4). rewrite (run_bind _ _ _ _ _ E4). by eexists _, _. }
  assert (exists l s', serve env db_env g codecs "/v1/me/resolve-preview" (arrival (sm_requests c)) r (sm_server c) = (Ok (inl (json_answer 200 (JObj l))), s')) as (l & s' & E).
  { unfold serve. cbn [mux String.eqb Ascii.eqb Bool.eqb]. unfold answer, on_front. destruct (Hprev (fr_gate (sm_server c)) Hcl) as (l & s1 & Es).
    rewrite (run_bind _ _ _ _ _ Es). by eexists _, _. }
  unfold getResolvePreview, call, Do, mbind, St_bind, lift, guard_fail, fail_if. fold r. rewrite E, delivered. cbn. by eexists.
Qed.

(** C30: the smoke test of the HTTP API passes without a transfer (no -transfer-to). Whatever the database loses
    or refuses, also with none, as long as the gateway is reached, the limiter of the client's address lets
    its one request for a session through, the gateway signs tokens it can read, and its registry answers,
    the client exits with 0: a session is issued and the preview of its cell is answered. *)
Theorem api_smoke_passes args f rest (c : Client (Front C L)) :
  parse_flags set_api_flag (fun _ => false) args (mkApiFlags "" "gw-api-smoke" "") = Ok (f, rest) ->
  af_player f = player -> base_url (trim_space (af_gateway f)) <> "" -> trim_space (af_peer f) = "" -> within_limits c -> gt_cluster (fr_gate (sm_server c)) = cluster ->
  exists c', api_smoke env db_env g codecs http arrival marshal args c = (Ok 0%Z, c').
Proof using All.
  intros Hf Hp Hg Ht Hlim Hcl. unfold api_smoke, exit_on, lift. rewrite Hf, (proj2 (String.eqb_neq _ _) Hg), Hp, Ht.
  destruct (post_passes c Hlim) as (c1 & E1 & C1). rewrite E1. unfold mbind at 1, St_bind at 1, say at 1.
  set (c2 := mkClient _ _ _). destruct (preview_passes c2) as (c3 & E3); [unfold c2; cbn [sm_server]; congruence|]. rewrite E3. by eexists.
Qed.
End ApiSmoke.

(** A token bucket: full with the burst at first, it gets so many tokens a second, and a request takes one. The
    tokens are counted in thousand millionths, the time in nanoseconds. *)
Record Bucket := mkBucket { bk_rate : Z; bk_burst : Z; bk_tokens : Z; bk_last : option Z }.
Definition OneToken : Z := 1000000000.
#[local] Instance bucket_limiter : RateLimiter Bucket := {
  NewLimiter rate burst := mkBucket rate burst (burst * OneToken) None;
  Allow now b :=
    let elapsed := match bk_last b with Some t => Z.max 0 (now - t) | None => 0%Z end in
    let tokens := Z.min (bk_burst b * OneToken) (bk_tokens b + elapsed * bk_rate b) in
    if (OneToken <=? tokens)%Z then (true, mkBucket (bk_rate b) (bk_burst b) (tokens - OneToken) (Some now)) else (false, b) }.

(** The limiter of a host lets a burst of thirty sessions through, and one more every ten milliseconds. *)
Example bucket_of_sessions :
  snd <$> fst (allowed_run (replicate 31 (0%Z, "10.0.0.1:5000") ++ [(9999999%Z, "10.0.0.1:5000"); (10000000%Z, "10.0.0.1:5000"); (10000000%Z, "10.0.0.1:5001")]) (∅ : gmap string Bucket)) =
  replicate 30 true ++ [false; false; true; false].
Proof. by vm_compute. Qed.

Definition smoke_codecs : Codecs :=
  mkCodecs (fun c => Ok (Subject c)) (fun t => Some (mkClaims t true f0 f0)) (fun b => Some (mkSessionBody b "" None None)) (fun _ => None) (fun _ => None) (fun _ => None).
Definition smoke_front : Front Memory Bucket := mkFront (mkGate (mkCluster (Some NewMemory) false ∅ ∅ ∅ [] 0) (mkDb shop_tables 0)) ∅.

(** With a database that loses every request. *)
Lemma api_smoke_passes_witness :
  let lost := mkDbEnv (fun _ => LostRequest (errorf "connection refused" [])) (fun _ => order_id) in
  let arrival := fun _ => mkArrival 0 "10.0.0.1:5000" false (Err (errorf "connection refused" [])) (Ok []) (lit "") in
  exists c', api_smoke shop_env lost shop_gateway smoke_codecs (fun _ => Delivered) arrival (fun _ => "gw-api-smoke") ["-gateway"; "https://mmo/"]
    (mkClient smoke_front 0 []) = (Ok 0%Z, c').
Proof.
  intros lost arrival.
  apply (api_smoke_passes shop_env lost shop_gateway smoke_codecs (fun _ => Delivered) arrival (fun _ => "gw-api-smoke") "gw-api-smoke" "gw-api-smoke")
    with (cluster := gt_cluster (fr_gate smoke_front)) (f := mkApiFlags "https://mmo/" "gw-api-smoke" "") (rest := []); try reflexivity; try discriminate.
  - split; [reflexivity|discriminate].
  - eexists. split; reflexivity.
  - intros rx rz d. unfold on_cells, remote. cbn. eexists _, _. reflexivity.
Defined.

(** A message that opens a group (field 15) and does not end it is malformed: so is the entity and the cell
    of the player in JSON, which the gateway sends first. The client stops there. *)
Theorem ws_smoke_stops_at_first_frame {C L} marshal unmarshal write marshal_chunk gate_write ds sub s player inputs verbose n rest (c : Client (Front C L)) :
  (forall s, string_forall (fun a => negb (byte_eqb a "|") && Nat.ltb (nat_of_ascii a) 128) s = true -> is_ok (unmarshal (String "{" s)) = false) ->
  ds_entityID ds <> 0%N -> gate_write 0%nat = true -> (0 < n)%nat ->
  marshal (JObj [("mmo_ws_meta", JObj [("entity_id", JInt (Z.of_N (ds_entityID ds))); ("cell_id", JStr (trim_space (ds_cellID ds)))])]) = String "{" rest ->
  string_forall (fun a => negb (byte_eqb a "|") && Nat.ltb (nat_of_ascii a) 128) rest = true ->
  exists e, read_chunks marshal unmarshal write player inputs verbose n 0 (pu_frames (streamDeltasToWS marshal_chunk gate_write ds sub s)) None c =
            (Err (errorf "unmarshal %d: %w" [AInt 0; ATxt (error_string e)]), c).
Proof.
  intros Hgroup Hid Hw Hn Hm Hr. unfold streamDeltasToWS, writeWsEntityMeta. rewrite (proj2 (N.eqb_neq _ _) Hid). unfold write_frame. cbn [pu_writes pu_session pu_frames].
  rewrite Hw. cbn [snd app]. set (p := mkPump _ _ _).
  assert (exists rest, pu_frames (match sub with Ok chunks => pump marshal_chunk gate_write (ds_entityID ds) chunks p | Err _ => p end) = pu_frames p ++ rest) as [fs ->].
  { destruct sub as [chunks|]; [|exists []; by rewrite app_nil_r]. clearbody p. clear -p. revert p. induction chunks as [|ch chunks IH]; intros p; [exists []; by rewrite app_nil_r|].
    cbn [pump]. destruct (marshal_chunk _ ch) as [b|]; [|apply (IH (mkPump _ (pu_frames p) (pu_writes p)))]. unfold write_frame. cbn [pu_writes pu_session pu_frames].
    destruct (gate_write _); [|exists []; by rewrite app_nil_r]. destruct (IH (mkPump (observeSelfPosition (ds_entityID ds) ch (pu_session p)) (pu_frames p ++ [BinaryFrame b]) (S (pu_writes p)))) as [l ->].
    exists (BinaryFrame b :: l). cbn [pu_frames]. by rewrite <- app_assoc. }
  destruct n as [|n]; [lia|]. unfold p. cbn [pu_frames app read_chunks frame_data]. rewrite Hm. specialize (Hgroup rest Hr).
  destruct (unmarshal (String "{" rest)) as [|e] eqn:E; [done|]. exists e. apply run_bind_err. done.
Qed.

(** * Against the indexer: [web3-indexer-ingest-smoke] *)

Record IngestFlags := mkIngestFlags {
  nf_url : string; nf_chain : Z; nf_key : string; nf_secret : string; nf_db : string; nf_timeout : Z }.
Definition set_ingest_flag (name value : string) (f : IngestFlags) : result IngestFlags :=
  let '(mkIngestFlags u c k s d t) := f in
  if String.eqb name "indexer-url" then Ok (mkIngestFlags value c k s d t)
  else if String.eqb name "chain-id" then c ← ParseInt0 value; Ok (mkIngestFlags u c k s d t)
  else if String.eqb name "api-key" then Ok (mkIngestFlags u c value s d t)
  else if String.eqb name "hmac-secret" then Ok (mkIngestFlags u c k value d t)
  else if String.eqb name "database-url" then Ok (mkIngestFlags u c k s value t)
  else if String.eqb name "timeout" then match ParseDuration value with Some t => Ok (mkIngestFlags u c k s d t) | None => flag_error end
  else flag_error.

Definition firstNonEmpty (a b : string) : string :=
  let a := trim_space a in if String.eqb a "" then trim_space b else a.

Definition default_ingest_flags (Getenv : string -> string) : IngestFlags :=
  mkIngestFlags "" 11155111 (Getenv "WEB3_INDEXER_INGEST_API_KEY") (Getenv "WEB3_INDEXER_INGEST_HMAC_SECRET")
    (firstNonEmpty (Getenv "DATABASE_URL_RW") (Getenv "DATABASE_URL")) 30000000000.

Definition smoke_payload : Json := JObj [("from", JStr "0x0"); ("to", JStr "0xWalletSmoke"); ("value", JStr "1")].
Definition smoke_batch (chain : Z) (txHash : string) : Json :=
  JObj [("chain_id", JInt chain);
        ("events", JArr [JObj [("block_number", JInt 999001); ("block_hash", JStr "0xsmokeblock"); ("tx_hash", JStr txHash); ("log_index", JInt 0);
          ("contract_address", JStr "0xBetTokenSmoke"); ("event_name", JStr "Transfer"); ("player_id", JStr "smoke-player");
          ("wallet_address", JStr "0xWalletSmoke"); ("payload", smoke_payload)]])].

(** [SELECT COUNT] by the whole key. *)
Definition count_events (chain : Z) (txHash : string) (logIndex : Z) : Statement Z :=
  sql_get (fun t => if chain_event t !! (chain, txHash, logIndex) then 1%Z else 0%Z).

Section Ingest.
Context (hmac : string -> string -> string) (marshal : Json -> string) (http redis_net : nat -> Outcome) (env : DbEnv)
  (cfg : IndexerConfig) (decode : string -> result ingestRequest) (open_pool : string -> result unit).

Definition smoke_headers (f : IngestFlags) (raw : string) : list (string * string) :=
  [("Content-Type", "application/json")]
  ++ (if String.eqb (trim_space (nf_key f)) "" then [] else [("X-MMO-Ingest-Key", trim_space (nf_key f))])
  ++ (if String.eqb (trim_space (nf_secret f)) "" then []
      else [("X-MMO-Ingest-Signature", ComputeHMACSignatureHex hmac (trim_space (nf_secret f)) raw)]).

(** The request at the time [nanos], and the look into the database. *)
Definition run_ingest (f : IngestFlags) (nanos : Z) : St (Client Indexer) unit :=
  _ ← guard_fail (String.eqb (trim_space (nf_url f)) "") (errorf "need -indexer-url" []);
  _ ← guard_fail (String.eqb (trim_space (nf_db f)) "") (errorf "need -database-url" []);
  let txHash := "0xsmoke" +:+ itoa nanos in
  let raw := marshal (smoke_batch (nf_chain f) txHash) in
  res ← Do http (fun _ => indexer_serve hmac cfg decode env redis_net (Ok tt) (Ok tt) "/v1/indexer/ingest" (NewRequest "POST" (smoke_headers f raw) raw));
  _ ← guard_fail (negb (resp_status res =? 200)%Z) (errorf "ingest HTTP %d" [AInt (resp_status res)]);
  _ ← lift (open_pool (nf_db f));
  n ← Do (fun _ => Delivered) (fun _ => on_db (exec env (count_events (nf_chain f) txHash 0)));
  _ ← guard_fail (negb (n =? 1)%Z) (errorf "expected 1 row in mmo_chain_tx_event, got %d (tx_hash=%s)" [AInt n; AStr txHash]);
  say (Fmt "OK: ingest + DB row for tx_hash=%s chain_id=%d" [AStr txHash; AInt (nf_chain f)]).

Definition ingest_smoke (Getenv : string -> string) (nanos : Z) (args : list string) : St (Client Indexer) Z :=
  exit_on 2 "" (lift (parse_flags set_ingest_flag (fun _ => false) args (default_ingest_flags Getenv))) (fun '(f, _) =>
  exit_on 1 "" (run_ingest f nanos) (fun _ => mret 0%Z)).
End Ingest.

Lemma delivered_upsert p a chain env d :
  (forall n, db_net env n = Delivered) ->
  map_Forall (fun p' v => v = (a, chain) -> p' = p) (wallet_address (tables d)) ->
  exec env (upsert_address p a chain) d = (Ok tt, mkDb (set_wallet_address (<[p := (a, chain)]> (wallet_address (tables d))) (tables d)) (trips d + 1)).
Proof. intros Hn Hf. unfold exec, upsert_address. rewrite Hn, bool_decide_true; done. Qed.

(** A batch whose addresses are free is taken when everything is delivered. *)
Lemma ingest_delivered cfg env redis_net chain ev ix :
  (forall n, db_net env n = Delivered) -> (forall n, redis_net n = Delivered) ->
  map_Forall (fun p' v => v = (trim_space (ie_WalletAddress ev), chain) -> p' = trim_space (ie_PlayerID ev)) (wallet_address (tables (ix_db ix))) ->
  exists r ix', ingest_events cfg env redis_net chain [ev] ix = (Ok r, ix') /\ resp_status r = 200%Z.
Proof.
  intros Hd Hr Hfree. unfold ingest_events. cbn [length Nat.eqb for_each]. destruct (max_block [ev]) as [b h].
  set (done_ := json_answer _ _).
  assert (forall ix, exists ix', (if (0 <? b)%Z then write_cursor cfg env redis_net chain b h done_ else mret done_) ix = (Ok done_, ix')) as Hcur.
  { intros ix1. destruct (0 <? b)%Z; [|by eexists]. unfold write_cursor, attempt, on_db, UpsertChainCursor, exec. rewrite Hd. cbn.
    destruct (has_redis cfg); [|by eexists]. unfold redis_set. rewrite Hr. by eexists. }
  assert (forall ix, exists ix', on_db (InsertChainEvents env (event_row chain <$> [ev])) ix = (Ok tt, ix')) as Hins.
  { intros ix1. eexists. unfold on_db, InsertChainEvents. cbn [length Nat.eqb fmap list_fmap]. unfold transaction. rewrite Hd.
    unfold for_each, mbind, St_bind, tx_exec, exec. cbn [aborted work trip trips tables]. rewrite Hd. unfold upsert_event. cbn. rewrite Hd. cbn. done. }
  assert (exists ix', (_ ← on_db (UpsertPlayerWalletAddress env (ie_PlayerID ev) (ie_WalletAddress ev) chain); mret tt) ix = (Ok tt, ix')) as (ix1 & E1).
  { unfold UpsertPlayerWalletAddress, on_db, mbind, St_bind. destruct (_ || _ || _); [by eexists|]. rewrite delivered_upsert by done. by eexists. }
  unfold attempt. rewrite E1. destruct (Hins ix1) as (ix2 & E2). cbv zeta. rewrite E2. destruct (Hcur ix2) as (ix3 & E3). exists done_, ix3. by split.
Qed.

Definition smoke_event (marshal : Json -> string) (txHash : string) : ingestEvent :=
  mkIngestEvent 999001 "0xsmokeblock" txHash 0 "0xBetTokenSmoke" "Transfer" "smoke-player" "0xWalletSmoke" (marshal smoke_payload).

Lemma smoke_headers_pass hmac f raw cfg :
  (forall secret body, hmac secret body <> "") ->
  trim_space (ingestAPIKey cfg) = "" \/ trim_space (ingestAPIKey cfg) = trim_space (nf_key f) ->
  trim_space (ingestHMACSecret cfg) = "" \/ trim_space (ingestHMACSecret cfg) = trim_space (nf_secret f) ->
  CheckIngestAuth hmac (header_of (smoke_headers hmac f raw)) raw (ingestAPIKey cfg) (ingestHMACSecret cfg) = Ok tt.
Proof.
  intros Hh Hk Hs. unfold CheckIngestAuth. assert (check_key (header_of (smoke_headers hmac f raw)) (trim_space (ingestAPIKey cfg)) = Ok tt) as ->.
  { unfold check_key. destruct (String.eqb_spec (trim_space (ingestAPIKey cfg)) "") as [|Hne]; [done|]. destruct Hk as [|Hk]; [done|].
    assert (header_of (smoke_headers hmac f raw) "X-MMO-Ingest-Key" = trim_space (nf_key f)) as ->.
    { unfold header_of, smoke_headers. rewrite <- Hk, (proj2 (String.eqb_neq _ _) Hne). done. }
    rewrite trim_space_idem, <- Hk, (proj2 (String.eqb_neq _ _) Hne). by rewrite String.eqb_refl. }
  cbn [mbind result_bind]. destruct (String.eqb_spec (trim_space (ingestHMACSecret cfg)) "") as [E|Hne]; [unfold check_signature; by rewrite E|].
  destruct Hs as [|Hs]; [done|]. rewrite Hs. rewrite Hs in Hne.
  assert (ComputeHMACSignatureHex hmac (trim_space (nf_secret f)) raw <> "") as Hsig.
  { unfold ComputeHMACSignatureHex. specialize (Hh (trim_space (nf_secret f)) raw). by destruct (hmac _ _). }
  apply signature_passes; [done|]. left. unfold header_of, smoke_headers. rewrite (proj2 (String.eqb_neq _ _) Hne). by destruct (String.eqb (trim_space (nf_key f)) "").
Qed.

(** C31: the indexer takes the batch of the smoke test. While every request is delivered and the client can open the
    database, with a positive chain, with the key and the secret the indexer asks for, and with an address that
    no other player holds on this chain, the batch that the client signs is let in and stored, whatever
    else is stored already, and the client finds its row. *)
Theorem ingest_smoke_passes hmac marshal http redis_net env cfg decode open_pool f nanos (c : Client Indexer) :
  let txHash := "0xsmoke" +:+ itoa nanos in
  let raw := marshal (smoke_batch (nf_chain f) txHash) in
  (forall n, http n = Delivered) -> (forall n, redis_net n = Delivered) -> (forall n, db_net env n = Delivered) -> open_pool (nf_db f) = Ok tt ->
  trim_space (nf_url f) <> "" -> trim_space (nf_db f) <> "" -> (0 < nf_chain f)%Z ->
  trim_space (ingestAPIKey cfg) = "" \/ trim_space (ingestAPIKey cfg) = trim_space (nf_key f) ->
  trim_space (ingestHMACSecret cfg) = "" \/ trim_space (ingestHMACSecret cfg) = trim_space (nf_secret f) ->
  (forall secret body, hmac secret body <> "") ->
  decode raw = Ok (mkIngestRequest (nf_chain f) [smoke_event marshal txHash]) -> String.length raw <= MaxIngestBodyBytes ->
  map_Forall (fun p v => v = ("0xWalletSmoke", nf_chain f) -> p = "smoke-player") (wallet_address (tables (ix_db (sm_server c)))) ->
  exists c', run_ingest hmac marshal http redis_net env cfg decode open_pool f nanos c = (Ok tt, c').
Proof.
  intros txHash raw Hh Hr Hd Ho Hu Hdb Hc Hk Hs Hhm Hdec Hlen Hfree. unfold run_ingest.
  rewrite (proj2 (String.eqb_neq _ _) Hu), (proj2 (String.eqb_neq _ _) Hdb). fold txHash raw.
  destruct (ingest_delivered cfg env redis_net (nf_chain f) (smoke_event marshal txHash) (sm_server c) Hd Hr Hfree) as (r & ix & E & Hst).
  assert (ingest hmac decode cfg env redis_net (NewRequest "POST" (smoke_headers hmac f raw) raw) (sm_server c) = (Ok r, ix)) as Ei.
  { unfold ingest, refuse, attempt, lift. cbn [Method NewRequest RequestBody Header String.eqb Ascii.eqb Bool.eqb negb].
    rewrite (proj2 (Nat.ltb_ge _ _) Hlen), (smoke_headers_pass _ _ _ _ Hhm Hk Hs), Hdec. unfold chain_of. cbn [iq_ChainID iq_Events].
    rewrite (proj2 (Z.leb_gt _ _) Hc). by rewrite (proj2 (Z.leb_gt _ _) Hc). }
  destruct (ingest_events_ok cfg env redis_net _ _ _ _ _ E Hst) as [Hrows _].
  assert (is_Some (chain_event (tables (ix_db ix)) !! (nf_chain f, txHash, 0%Z))) as [row Hrow].
  { rewrite Hrows, store_events_lookup. cbn [fmap list_fmap]. rewrite filter_cons_True; [by eexists|].
    change (event_key _) with (nf_chain f, trim_space txHash, 0%Z). rewrite trim_space_graphic; [done|]. unfold txHash. rewrite string_forall_app. apply andb_true_intro. split; [done|]. apply itoa_graphic. }
  unfold mbind, St_bind, guard_fail, fail_if, Do, indexer_serve, lift, say. cbn [String.eqb Ascii.eqb Bool.eqb]. rewrite Ei, Hh, Hst, Ho.
  unfold on_db, exec, count_events, sql_get. rewrite Hd. cbn [sm_server]. rewrite Hrow. by eexists.
Qed.

(** A batch whose text is its transaction. *)
Lemma ingest_smoke_passes_witness :
  let marshal := fun j => match j with JObj [("chain_id", _); (_, JArr [JObj [_; _; (_, JStr tx); _; _; _; _; _; _]])] => tx | _ => "{}" end in
  let decode := fun raw => Ok (mkIngestRequest 11155111 [smoke_event marshal raw]) in
  let cfg := mkIndexerConfig 1 "key" " secret" false in
  let f := mkIngestFlags "http://127.0.0.1:8091" 11155111 "key " "secret" "postgres://db" 30000000000 in
  let env := mkDbEnv (fun _ => Delivered) (fun _ => order_id) in
  exists c', run_ingest (fun s b => String "0" (s +:+ b)) marshal (fun _ => Delivered) (fun _ => Delivered) env cfg decode (fun _ => Ok tt) f 7
    (mkClient (mkIndexer (mkDb shop_tables 0) ∅ 0) 0 []) = (Ok tt, c').
Proof.
  intros marshal decode cfg f env.
  apply (ingest_smoke_passes (fun s b => String "0" (s +:+ b)) marshal).
  1-4: done.
  1-2: by apply (String.eqb_neq _ _).
  - done.
  - right. reflexivity.
  - right. reflexivity.
  - discriminate.
  - reflexivity.
  - apply Nat.leb_le. vm_compute. reflexivity.
  - intros p v Hv. destruct (lookup_empty_Some _ _ Hv).
Defined.
